(** * Receipt statistics aggregation (src/lib/stats/compute.ts)

    A shallow embedding of the statistics module and of the endpoint that
    serves it, and the proofs of their specification.

    Modelling conventions.
    - JavaScript numbers that hold counts, day numbers, loop indices and
      millisecond time values are integers and are modelled by their exact
      value ([nat], [Z]).  A day number is what [parseInt] returns: the
      integer of the digits when that is below 2^53, above it the nearest
      binary64 number, and [Infinity] (represented by 2^1024) when the digits
      overflow.  The source subtracts 1 from a day and multiplies by the
      milliseconds of a day; on days below 2^53 that arithmetic is exact, and
      from 2^53 on every result is past the end of any array and past the
      last date a Date can hold, whether it is rounded or not.
    - Reward amounts (rates, STAR, NIGHT), the [hours] argument of
      [getSolutionsPerHour] and what is computed from it are binary64 values
      and are modelled by Rocq's primitive floats, which are IEEE 754 binary64
      with round-to-nearest-even, as JavaScript's are.  Equality of such
      values is identity of the binary64 value.
    - A [Date] is its time value, [None] for an invalid date (NaN).  The
      clock, the local time zone and the built-in timestamp parser are the
      environment [Env]; the zone is ECMAScript's LocalTZA(t, isUTC), the
      offset of local time from UTC at an instant or at a local time, which
      may change with daylight saving.
    - A thrown exception is the [Throw] case of [result]; exceptions carry
      their class, not their message.
    - A [Map] or [Set] is a list in insertion order, which is the iteration
      order JavaScript guarantees.
    - [fetchRates] is an HTTP call: what the request comes to, the body of
      the response or a failure, is an argument of its model; the statistics
      functions take the rate table as an argument, as they do in the source.
    - The endpoint [GET] is modelled on what the receipt log returned; every
      call that reads the clock has a reading of its own. *)

From Stdlib Require Import ZArith List String Ascii Bool Lia.
From Stdlib Require Import Floats Uint63 Sorted Permutation.
Import ListNotations.
Local Open Scope string_scope.
Local Open Scope Z_scope.

(** ** Exceptions *)

Inductive exn : Type :=
| InvalidChallengeId   (* Error("Invalid challenge_id format: ...") *)
| InvalidTimeValue.    (* RangeError: Invalid time value (toISOString) *)

Inductive result (A : Type) : Type :=
| Ok (a : A)
| Throw (e : exn).
Arguments Ok {A} a.
Arguments Throw {A} e.

Definition bind {A B : Type} (c : result A) (k : A -> result B) : result B :=
  match c with
  | Ok a => k a
  | Throw e => Throw e
  end.

Notation "x <- c ;; k" := (bind c (fun x => k))
  (at level 61, c at next level, right associativity).

(** A [for ... of] loop whose body may throw. *)
Fixpoint foldM {A S : Type} (f : S -> A -> result S) (s : S) (l : list A)
  : result S :=
  match l with
  | [] => Ok s
  | x :: l' => s' <- f s x ;; foldM f s' l'
  end.

(** [Array.prototype.map] with a callback that may throw. *)
Fixpoint mapM {A B : Type} (f : A -> result B) (l : list A) : result (list B) :=
  match l with
  | [] => Ok []
  | x :: l' => y <- f x ;; ys <- mapM f l' ;; Ok (y :: ys)
  end.

(** [Array.prototype.filter] with a callback that may throw. *)
Fixpoint filterM {A : Type} (f : A -> result bool) (l : list A)
  : result (list A) :=
  match l with
  | [] => Ok []
  | x :: l' =>
      b <- f x ;; ys <- filterM f l' ;; Ok (if b then x :: ys else ys)
  end.

(** ** Strings and decimal numerals *)

Definition is_digit (c : ascii) : bool :=
  let n := nat_of_ascii c in (48 <=? n)%nat && (n <=? 57)%nat.

Definition digit_value (c : ascii) : Z := Z.of_nat (nat_of_ascii c) - 48.

Definition digit_char (d : Z) : ascii := ascii_of_nat (Z.to_nat (48 + d)).

Fixpoint all_digits (s : string) : bool :=
  match s with
  | EmptyString => true
  | String c s' => is_digit c && all_digits s'
  end.

(** The longest run of decimal digits at the start of [s], and the rest. *)
Fixpoint span_digits (s : string) : string * string :=
  match s with
  | String c s' =>
      if is_digit c
      then let (d, r) := span_digits s' in (String c d, r)
      else (EmptyString, s)
  | EmptyString => (EmptyString, EmptyString)
  end.

(** The integer that a string of decimal digits denotes. *)
Definition parseInt_from (acc : Z) (s : string) : Z :=
  fold_left (fun a c => 10 * a + digit_value c) (list_ascii_of_string s) acc.

Definition mathInt (s : string) : Z := parseInt_from 0 s.

(** [Infinity], represented by the least power of two above every finite
    binary64 number. *)
Definition Infinity : Z := 2 ^ 1024.

(** The Number value of a non-negative integer: the integer itself below
    2^53; from there on the nearest integer q * 2^e with a significand q of
    53 bits, the even significand when two are equally near; [Infinity] when
    that is 2^1024 or more. *)
Definition to_Number (n : Z) : Z :=
  if n <? 2 ^ 53 then n
  else
    let e := Z.log2 n - 52 in
    let q := n / 2 ^ e in
    let r := n mod 2 ^ e in
    let q' :=
      if 2 * r <? 2 ^ e then q
      else if (2 * r =? 2 ^ e) && Z.even q then q
      else q + 1 in
    Z.min (q' * 2 ^ e) Infinity.

(** [parseInt(digits, 10)] on a string of decimal digits: the Number value
    of the integer the digits denote. *)
Definition parseInt (s : string) : Z := to_Number (mathInt s).

(** The pattern [\*\*D(\d+)C] tried at the start of [s]; the result is the
    capture group.  The greedy [\d+] takes the whole run of digits, and giving
    digits back never helps because the next pattern character, [C], is not a
    digit. *)
Definition match_here (s : string) : option string :=
  match s with
  | String c1 (String c2 (String c3 t)) =>
      if Ascii.eqb c1 "*" && Ascii.eqb c2 "*" && Ascii.eqb c3 "D"
      then match span_digits t with
           | (String c d, String c4 _) =>
               if Ascii.eqb c4 "C" then Some (String c d) else None
           | _ => None
           end
      else None
  | _ => None
  end.

(** [challengeId.match(/\*\*D(\d+)C/)]: the leftmost match. *)
Fixpoint regex_match (s : string) : option string :=
  match match_here s with
  | Some d => Some d
  | None =>
      match s with
      | EmptyString => None
      | String _ s' => regex_match s'
      end
  end.

Definition dayFromChallengeId (challengeId : string) : result Z :=
  match regex_match challengeId with
  | None => Throw InvalidChallengeId
  | Some d => Ok (parseInt d)
  end.

(** Decimal digits of a non-negative integer, most significant first. *)
Fixpoint decimal_fuel (fuel : nat) (n : Z) : string :=
  match fuel with
  | O => EmptyString
  | S f =>
      if n <? 10 then String (digit_char n) EmptyString
      else decimal_fuel f (n / 10) ++ String (digit_char (n mod 10)) EmptyString
  end.

Definition decimal (n : Z) : string := decimal_fuel (S (Z.to_nat (Z.log2 n))) n.

Fixpoint strip_trailing_zeros_rev (l : list ascii) : list ascii :=
  match l with
  | "0"%char :: l' => strip_trailing_zeros_rev l'
  | _ => l
  end.

(** [Number.prototype.toString] on a non-negative integer: plain decimal
    digits below 10^21, exponential notation ("1e+21", "1.5e+21") from there
    on, "Infinity" for [Infinity].  From 2^53 on JavaScript prints the
    shortest digits that read back as the same number (9007199254740992 for
    2^53, 18014398509481984 for 2^54, but 1152921504606847000 for 2^60);
    the digits printed here are the exact ones, which read back as the same
    number too, and nothing but reading them back is done with them. *)
Definition numberToString (n : Z) : string :=
  if Infinity <=? n then "Infinity"
  else if n <? 10 ^ 21 then decimal n
  else
    let ds := list_ascii_of_string (decimal n) in
    let e := decimal (Z.of_nat (List.length ds) - 1) in
    match rev (strip_trailing_zeros_rev (rev ds)) with
    | [] => EmptyString
    | [c] => String c ("e+" ++ e)
    | c :: frac => String c ("." ++ string_of_list_ascii frac ++ "e+" ++ e)
    end.

(** [s.padStart(2, '0')] *)
Definition padStart2 (s : string) : string :=
  match String.length s with
  | 0%nat => "00"
  | 1%nat => "0" ++ s
  | _ => s
  end.

(** [s.split('T')[0]] *)
Fixpoint before_T (s : string) : string :=
  match s with
  | EmptyString => EmptyString
  | String c s' => if Ascii.eqb c "T" then EmptyString else String c (before_T s')
  end.

(** ** Dates *)

Definition msPerDay : Z := 86400000.
Definition msPerHour : Z := 3600000.

(** A Date object: its time value in milliseconds since the epoch, or [None]
    for an invalid date (time value NaN). *)
Definition Date : Type := option Z.

Definition TimeClip (t : Z) : Date :=
  if Z.abs t <=? 8640000000000000 then Some t else None.

(** Year, month and day of month of a day number counted from 1970-01-01, in
    the proleptic Gregorian calendar (ECMAScript's YearFromTime, MonthFromTime
    and DateFromTime), computed era by era. *)
Definition civil_from_days (z : Z) : Z * Z * Z :=
  let z := z + 719468 in
  let era := z / 146097 in
  let doe := z mod 146097 in
  let yoe := (doe - doe / 1460 + doe / 36524 - doe / 146096) / 365 in
  let y := yoe + era * 400 in
  let doy := doe - (365 * yoe + yoe / 4 - yoe / 100) in
  let mp := (5 * doy + 2) / 153 in
  let d := doy - (153 * mp + 2) / 5 + 1 in
  let m := if mp <? 10 then mp + 3 else mp - 9 in
  (if m <=? 2 then y + 1 else y, m, d).

(** The inverse: the day number of a calendar date. *)
Definition days_from_civil (y m d : Z) : Z :=
  let y := if m <=? 2 then y - 1 else y in
  let era := y / 400 in
  let yoe := y mod 400 in
  let doy := (153 * (if 2 <? m then m - 3 else m + 9) + 2) / 5 + d - 1 in
  let doe := yoe * 365 + yoe / 4 - yoe / 100 + doy in
  era * 146097 + doe - 719468.

Definition pad2 (n : Z) : string :=
  String (digit_char (n / 10 mod 10)) (String (digit_char (n mod 10)) "").

Definition pad3 (n : Z) : string :=
  String (digit_char (n / 100 mod 10)) (pad2 n).

Definition pad4 (n : Z) : string :=
  String (digit_char (n / 1000 mod 10)) (pad3 n).

Definition pad6 (n : Z) : string :=
  String (digit_char (n / 100000 mod 10))
    (String (digit_char (n / 10000 mod 10)) (pad4 n)).

(** Years 0 to 9999 print as four digits, the others as a sign and six. *)
Definition yearString (y : Z) : string :=
  if (0 <=? y) && (y <=? 9999) then pad4 y
  else (if y <? 0 then "-" else "+") ++ pad6 (Z.abs y).

Definition format_date (y m d : Z) : string :=
  yearString y ++ "-" ++ pad2 m ++ "-" ++ pad2 d.

Definition dateString (t : Z) : string :=
  let '(y, m, d) := civil_from_days (t / msPerDay) in format_date y m d.

Definition timeString (t : Z) : string :=
  let ms := t mod msPerDay in
  pad2 (ms / 3600000) ++ ":" ++ pad2 (ms / 60000 mod 60) ++ ":"
    ++ pad2 (ms / 1000 mod 60) ++ "." ++ pad3 (ms mod 1000).

Definition isoString (t : Z) : string :=
  dateString t ++ String "T" (timeString t ++ "Z").

(** [Date.prototype.toISOString]: throws a RangeError on an invalid date. *)
Definition toISOString (d : Date) : result string :=
  match d with
  | None => Throw InvalidTimeValue
  | Some t => Ok (isoString t)
  end.

(** [new Date('2025-10-30T00:00:00Z').getTime()] *)
Definition tgeStart : Z := days_from_civil 2025 10 30 * msPerDay.

Definition dateFromChallengeId (challengeId : string) : result string :=
  day <- dayFromChallengeId challengeId ;;
  let date := TimeClip (tgeStart + (day - 1) * 24 * 60 * 60 * 1000) in
  iso <- toISOString date ;;
  Ok (before_T iso).

(** ** Numbers *)

(** The Number value of an integer of magnitude below 2^53, where it is
    exact: a time value, or a count (an array holds fewer than 2^32
    elements). *)
Definition number_of_Z (z : Z) : float :=
  if z <? 0 then PrimFloat.opp (PrimFloat.of_uint63 (Uint63.of_Z (- z)))
  else PrimFloat.of_uint63 (Uint63.of_Z z).

Definition number_of_nat (n : nat) : float := number_of_Z (Z.of_nat n).

(** ToBoolean on a number: false for +0, -0 and NaN. *)
Definition truthy (x : float) : bool :=
  negb (PrimFloat.is_zero x || PrimFloat.is_nan x).

(** [rates[rateIndex]]: [None] is [undefined]. *)
Definition array_get {A : Type} (a : list A) (i : Z) : option A :=
  if i <? 0 then None else nth_error a (Z.to_nat i).

(** [rates[rateIndex] || 0] *)
Definition rate_or_0 (rates : list float) (rateIndex : Z) : float :=
  match array_get rates rateIndex with
  | Some r => if truthy r then r else PrimFloat.zero
  | None => PrimFloat.zero
  end.

(** ** Maps and sets in insertion order *)

Section OrderedMap.
Context {K V : Type} (eqb : K -> K -> bool).

Fixpoint map_get (k : K) (m : list (K * V)) : option V :=
  match m with
  | [] => None
  | (k', v) :: m' => if eqb k k' then Some v else map_get k m'
  end.

Definition map_has (k : K) (m : list (K * V)) : bool :=
  match map_get k m with Some _ => true | None => false end.

(** [m.set(k, v)]: an existing key keeps its place, a new one goes last. *)
Fixpoint map_set (k : K) (v : V) (m : list (K * V)) : list (K * V) :=
  match m with
  | [] => [(k, v)]
  | (k', v') :: m' =>
      if eqb k k' then (k, v) :: m' else (k', v') :: map_set k v m'
  end.

(** [if (!m.has(k)) m.set(k, v0)] *)
Definition ensure (k : K) (v0 : V) (m : list (K * V)) : list (K * V) :=
  if map_has k m then m else map_set k v0 m.

(** [m.get(k)], with [v0] for [undefined] *)
Definition get_or (k : K) (v0 : V) (m : list (K * V)) : V :=
  match map_get k m with
  | Some v => v
  | None => v0
  end.
End OrderedMap.

Fixpoint set_has (x : string) (s : list string) : bool :=
  match s with
  | [] => false
  | y :: s' => String.eqb x y || set_has x s'
  end.

(** [s.add(x)] *)
Definition set_add (s : list string) (x : string) : list string :=
  if set_has x s then s else (s ++ [x])%list.

(** [new Set(xs)] *)
Definition set_of_list (xs : list string) : list string :=
  fold_left set_add xs [].

(** ** Sorting *)

(** [Array.prototype.sort(cmp)] is stable, and for a comparator that is a
    consistent ordering its result is the one stable insertion gives: each
    element goes in front of the sorted rest, past the elements that the
    comparator puts strictly before it. *)
Section Sort.
Context {A : Type} (cmp : A -> A -> Z).

Fixpoint insert_by (x : A) (l : list A) : list A :=
  match l with
  | [] => [x]
  | y :: l' => if cmp x y <=? 0 then x :: l else y :: insert_by x l'
  end.

Definition sort_by (l : list A) : list A := fold_right insert_by [] l.
End Sort.

(** The default comparator of [sort()] on strings. *)
Definition string_cmp (a b : string) : Z :=
  match String.compare a b with
  | Lt => -1
  | Eq => 0
  | Gt => 1
  end.

(** ** Data model *)

(** Modelled from the spec: [ReceiptEntry] is declared in
    ../storage/receipts-logger, which is not part of the sources; these are
    the fields the statistics module reads. *)
Record ReceiptEntry : Type := mkReceipt {
  ts : string;
  address : string;
  challenge_id : string
}.

Module DayStats.
Record t : Type := mk {
  day : Z;
  date : string;
  receipts : nat;
  addresses : option nat;
  star : float;
  night : float
}.
End DayStats.

Module HourStats.
Record t : Type := mk {
  hour : string;
  receipts : nat;
  addresses : nat;
  star : float;
  night : float
}.
End HourStats.

Module AddressStats.
Record t : Type := mk {
  address : string;
  days : list DayStats.t;
  totalReceipts : nat;
  totalStar : float;
  totalNight : float;
  firstSolution : option string;
  lastSolution : option string
}.
End AddressStats.

Module GrandTotal.
Record t : Type := mk {
  receipts : nat;
  star : float;
  night : float
}.
End GrandTotal.

Module GlobalStats.
Record t : Type := mk {
  totalReceipts : nat;
  totalAddresses : nat;
  days : list DayStats.t;
  byAddress : list AddressStats.t;
  startDate : option string;
  endDate : option string;
  grandTotal : GrandTotal.t
}.
End GlobalStats.

(** The clock, the local time zone and [Date.parse] as the runtime provides
    them.  [LocalTZA t isUTC] is ECMAScript's LocalTZA: the offset of local
    time from UTC in milliseconds, at the instant [t] when [isUTC] is true
    and at the local time [t] when it is false (where a local time occurs
    twice or not at all the runtime settles which offset it reads it with).
    [Date.now()] is a time value after the epoch and two days or more before
    the end of the Date range; an offset is at most a day; a parsed
    timestamp is a time value. *)
Record Env : Type := mkEnv {
  Date_now : Z;
  LocalTZA : Z -> bool -> Z;
  Date_parse : string -> Date;
  clock_valid :
    (0 <=? Date_now) && (Date_now <=? 8639999827200000) = true;
  offset_valid : forall t isUTC, Z.abs (LocalTZA t isUTC) <= 86400000;
  parse_valid : forall s t, Date_parse s = Some t -> Z.abs t <= 8640000000000000
}.

Definition new_Date (env : Env) : Date := TimeClip (Date_now env).

(** LocalTime(t) and UTC(t) *)
Definition LocalTime (env : Env) (t : Z) : Z := t + LocalTZA env t true.

Definition UTC (env : Env) (t : Z) : Z := t - LocalTZA env t false.

(** [d.getHours()]: the hour of the local time, [None] for NaN. *)
Definition getHours (env : Env) (d : Date) : option Z :=
  option_map (fun t => (LocalTime env t / msPerHour) mod 24) d.

(** [d.setHours(hour, 0, 0, 0)]: the local day of [d] at the given hour,
    which may be negative or above 23, read back as an instant. *)
Definition setHours (env : Env) (d : Date) (hour : option Z) : Date :=
  match d, hour with
  | Some t, Some h =>
      let local := LocalTime env t in
      let date := local / msPerDay * msPerDay + h * msPerHour in
      TimeClip (UTC env date)
  | _, _ => None
  end.

(** [a >= b] and [a < b] on Date objects: false when either is invalid. *)
Definition date_ge (a b : Date) : bool :=
  match a, b with
  | Some x, Some y => y <=? x
  | _, _ => false
  end.

Definition date_lt (a b : Date) : bool :=
  match a, b with
  | Some x, Some y => x <? y
  | _, _ => false
  end.

(** ** computeStats *)

Definition emptyStats : GlobalStats.t :=
  GlobalStats.mk 0 0 [] [] None None (GrandTotal.mk 0 PrimFloat.zero PrimFloat.zero).

Definition AddressDayMap : Type := list (string * list (Z * nat)).
Definition AddressTimestamps : Type := list (string * list string).

(** Body of the first loop, after the day is decoded: count the receipt under
    its address and day and record its timestamp.  The inner map is updated
    in place, so the outer entry keeps its position. *)
Definition group_step (st : AddressDayMap * AddressTimestamps)
    (receipt : ReceiptEntry) (day : Z) : AddressDayMap * AddressTimestamps :=
  let '(addressDayMap, addressTimestamps) := st in
  let address := address receipt in
  let addressDayMap := ensure String.eqb address [] addressDayMap in
  let dayMap := get_or String.eqb address [] addressDayMap in
  let dayMap := map_set Z.eqb day (get_or Z.eqb day 0%nat dayMap + 1)%nat dayMap in
  let addressDayMap := map_set String.eqb address dayMap addressDayMap in
  let addressTimestamps := ensure String.eqb address [] addressTimestamps in
  let stamps := get_or String.eqb address [] addressTimestamps in
  (addressDayMap,
   map_set String.eqb address (stamps ++ [ts receipt])%list addressTimestamps).

Definition group_receipt (st : AddressDayMap * AddressTimestamps)
    (receipt : ReceiptEntry) : result (AddressDayMap * AddressTimestamps) :=
  day <- dayFromChallengeId (challenge_id receipt) ;;
  Ok (group_step st receipt day).

(** The identifier rebuilt from a day number:
    [`**D${day.toString().padStart(2, '0')}C00`] *)
Definition challengeId_of_day (day : Z) : string :=
  "**D" ++ padStart2 (numberToString day) ++ "C00".

Definition by_day_desc (a b : DayStats.t) : Z := DayStats.day b - DayStats.day a.

Definition by_totalReceipts_desc (a b : AddressStats.t) : Z :=
  Z.of_nat (AddressStats.totalReceipts b) - Z.of_nat (AddressStats.totalReceipts a).

(** The DayStats entry of [count] receipts on [day]; [addresses] is present
    in the global list only. *)
Definition day_entry (rates : list float) (addresses : option nat)
    (day : Z) (date : string) (count : nat) : DayStats.t :=
  let rateIndex := day - 1 in
  let starPerReceipt := rate_or_0 rates rateIndex in
  let star := PrimFloat.mul (number_of_nat count) starPerReceipt in
  let night := PrimFloat.div star 1000000 in
  DayStats.mk day date count addresses star night.

(** Body of the loop over one address's days: push the entry and add to the
    running totals. *)
Definition address_day_entry (rates : list float)
    (acc : list DayStats.t * nat * float) (e : Z * nat)
  : result (list DayStats.t * nat * float) :=
  let '(days, totalReceipts, totalStar) := acc in
  let '(day, count) := e in
  date <- dateFromChallengeId (challengeId_of_day day) ;;
  let entry := day_entry rates None day date count in
  Ok ((days ++ [entry])%list,
      (totalReceipts + count)%nat,
      PrimFloat.add totalStar (DayStats.star entry)).

(** The AddressStats entry of one address. *)
Definition address_stats (rates : list float)
    (addressTimestamps : AddressTimestamps) (e : string * list (Z * nat))
  : result AddressStats.t :=
  let '(address, dayMap) := e in
  acc <- foldM (address_day_entry rates) ([], 0%nat, PrimFloat.zero) dayMap ;;
  let '(days, totalReceipts, totalStar) := acc in
  let days := sort_by by_day_desc days in
  let timestamps :=
    sort_by string_cmp (get_or String.eqb address [] addressTimestamps) in
  Ok (AddressStats.mk address days totalReceipts totalStar
        (PrimFloat.div totalStar 1000000)
        (array_get timestamps 0)
        (array_get timestamps (Z.of_nat (List.length timestamps) - 1))).

(** Body of the loop over the addresses. *)
Definition address_entry (rates : list float)
    (addressTimestamps : AddressTimestamps)
    (byAddress : list AddressStats.t) (e : string * list (Z * nat))
  : result (list AddressStats.t) :=
  a <- address_stats rates addressTimestamps e ;;
  Ok (byAddress ++ [a])%list.

(** Body of the loop that collects the addresses seen on each day. *)
Definition global_day_step (globalDayMap : list (Z * list string))
    (receipt : ReceiptEntry) (day : Z) : list (Z * list string) :=
  let globalDayMap := ensure Z.eqb day [] globalDayMap in
  let addresses := get_or Z.eqb day [] globalDayMap in
  map_set Z.eqb day (set_add addresses (address receipt)) globalDayMap.

Definition global_day_add (globalDayMap : list (Z * list string))
    (receipt : ReceiptEntry) : result (list (Z * list string)) :=
  day <- dayFromChallengeId (challenge_id receipt) ;;
  Ok (global_day_step globalDayMap receipt day).

(** [receipts.filter(r => dayFromChallengeId(r.challenge_id) === day)] *)
Definition receipts_of_day (receipts : list ReceiptEntry) (day : Z)
  : result (list ReceiptEntry) :=
  filterM (fun r => d <- dayFromChallengeId (challenge_id r) ;; Ok (d =? day))
    receipts.

(** The DayStats entry of one day of the global map. *)
Definition global_day_stats (rates : list float) (receipts : list ReceiptEntry)
    (e : Z * list string) : result DayStats.t :=
  let '(day, addresses) := e in
  date <- dateFromChallengeId (challengeId_of_day day) ;;
  thisDay <- receipts_of_day receipts day ;;
  let receiptsThisDay := List.length thisDay in
  Ok (day_entry rates (Some (List.length addresses)) day date receiptsThisDay).

(** Body of the loop over the days of the global map. *)
Definition global_day_entry (rates : list float) (receipts : list ReceiptEntry)
    (days : list DayStats.t) (e : Z * list string) : result (list DayStats.t) :=
  d <- global_day_stats rates receipts e ;;
  Ok (days ++ [d])%list.

Definition computeStats (receipts : list ReceiptEntry) (rates : list float)
  : result GlobalStats.t :=
  match receipts with
  | [] => Ok emptyStats
  | _ :: _ =>
      st <- foldM group_receipt ([], []) receipts ;;
      let '(addressDayMap, addressTimestamps) := st in
      byAddress <- foldM (address_entry rates addressTimestamps) [] addressDayMap ;;
      let byAddress := sort_by by_totalReceipts_desc byAddress in
      globalDayMap <- foldM global_day_add [] receipts ;;
      days <- foldM (global_day_entry rates receipts) [] globalDayMap ;;
      let days := sort_by by_day_desc days in
      let grandTotal :=
        GrandTotal.mk (List.length receipts)
          (fold_left (fun sum a => PrimFloat.add sum (AddressStats.totalStar a))
             byAddress PrimFloat.zero)
          (fold_left (fun sum a => PrimFloat.add sum (AddressStats.totalNight a))
             byAddress PrimFloat.zero) in
      Ok (GlobalStats.mk (List.length receipts) (List.length addressDayMap)
            days byAddress
            (option_map DayStats.date
               (array_get days (Z.of_nat (List.length days) - 1)))
            (option_map DayStats.date (array_get days 0))
            grandTotal)
  end.

(** ** getTodayStats *)

Definition getTodayStats (env : Env) (receipts : list ReceiptEntry)
    (rates : list float) : result (option DayStats.t) :=
  iso <- toISOString (new_Date env) ;;
  let today := before_T iso in
  todayReceipts <-
    filterM (fun r => date <- dateFromChallengeId (challenge_id r) ;;
                      Ok (String.eqb date today)) receipts ;;
  match todayReceipts with
  | [] => Ok None
  | first :: _ =>
      let addresses := set_of_list (map address todayReceipts) in
      day <- dayFromChallengeId (challenge_id first) ;;
      let rateIndex := day - 1 in
      let starPerReceipt := rate_or_0 rates rateIndex in
      let star :=
        PrimFloat.mul (number_of_nat (List.length todayReceipts)) starPerReceipt in
      let night := PrimFloat.div star 1000000 in
      Ok (Some (DayStats.mk day today (List.length todayReceipts)
                  (Some (List.length addresses)) star night))
  end.

(** ** getSolutionsPerHour

    [hours] is any number, 24 when the caller omits it; both callers pass it.
    The cutoff and the rate are computed in binary64.  A time value has a
    magnitude of at most 8.64e15, so its Number value is exact. *)

Definition getSolutionsPerHour (env : Env) (receipts : list ReceiptEntry)
    (hours : float) : float :=
  match receipts with
  | [] => PrimFloat.zero
  | _ :: _ =>
      let now := number_of_Z (Date_now env) in
      let cutoff := (now - hours * 60 * 60 * 1000)%float in
      let recentReceipts :=
        filter (fun r =>
                  match Date_parse env (ts r) with
                  | Some timestamp => PrimFloat.leb cutoff (number_of_Z timestamp)
                  | None => false
                  end) receipts in
      PrimFloat.div (number_of_nat (List.length recentReceipts)) hours
  end.

(** ** computeHourlyStats and computeLastNHours *)

Definition in_window (env : Env) (hourStart hourEnd : Date) (r : ReceiptEntry)
  : bool :=
  let receiptTime := Date_parse env (ts r) in
  date_ge receiptTime hourStart && date_lt receiptTime hourEnd.

(** Body of the loop that adds up the STAR of the receipts of an hour. *)
Definition hour_star (rates : list float) (totalStar : float)
    (receipt : ReceiptEntry) : result float :=
  day <- dayFromChallengeId (challenge_id receipt) ;;
  let rateIndex := day - 1 in
  let starPerReceipt := rate_or_0 rates rateIndex in
  Ok (PrimFloat.add totalStar starPerReceipt).

Definition computeHourlyStats (env : Env) (receipts : list ReceiptEntry)
    (rates : list float) : result (option HourStats.t) :=
  match receipts with
  | [] => Ok None
  | _ :: _ =>
      let now := new_Date env in
      let previousHourStart :=
        setHours env now (option_map (fun h => h - 1) (getHours env now)) in
      let previousHourEnd := setHours env now (getHours env now) in
      let hourReceipts :=
        filter (in_window env previousHourStart previousHourEnd) receipts in
      match hourReceipts with
      | [] =>
          hour <- toISOString previousHourStart ;;
          Ok (Some (HourStats.mk hour 0 0 PrimFloat.zero PrimFloat.zero))
      | _ :: _ =>
          let uniqueAddresses := set_of_list (map address hourReceipts) in
          totalStar <- foldM (hour_star rates) PrimFloat.zero hourReceipts ;;
          let totalNight := PrimFloat.div totalStar 1000000 in
          hour <- toISOString previousHourStart ;;
          Ok (Some (HourStats.mk hour (List.length hourReceipts)
                      (List.length uniqueAddresses) totalStar totalNight))
      end
  end.

(** The values of [i] in [for (let i = hours - 1; i >= 0; i--)]. *)
Definition countdown (hours : Z) : list Z :=
  map (fun k => hours - 1 - Z.of_nat k) (seq 0 (Z.to_nat hours)).

(** Body of the loop over the hours; each round pushes one entry. *)
Definition hour_entry (env : Env) (receipts : list ReceiptEntry)
    (rates : list float) (i : Z) : result HourStats.t :=
  let now := new_Date env in
  let hourStart :=
    setHours env now (option_map (fun h => h - i - 1) (getHours env now)) in
  let hourEnd :=
    setHours env now (option_map (fun h => h - i) (getHours env now)) in
  let hourReceipts := filter (in_window env hourStart hourEnd) receipts in
  let uniqueAddresses := set_of_list (map address hourReceipts) in
  totalStar <- foldM (hour_star rates) PrimFloat.zero hourReceipts ;;
  let totalNight := PrimFloat.div totalStar 1000000 in
  hour <- toISOString hourStart ;;
  Ok (HourStats.mk hour (List.length hourReceipts)
        (List.length uniqueAddresses) totalStar totalNight).

Definition computeLastNHours (env : Env) (receipts : list ReceiptEntry)
    (rates : list float) (hours : Z) : result (list HourStats.t) :=
  match receipts with
  | [] => Ok []
  | _ :: _ =>
      if hours <=? 0 then Ok []
      else mapM (hour_entry env receipts rates) (countdown hours)
  end.

(** ** A reference environment

    [Date.parse] for the timestamps the receipt log holds,
    YYYY-MM-DDTHH:mm:ss[.sss]Z, used by the worked examples. *)

Definition two_digits (s : string) : option (Z * string) :=
  match s with
  | String a (String b r) =>
      if is_digit a && is_digit b
      then Some (10 * digit_value a + digit_value b, r)
      else None
  | _ => None
  end.

Definition expect (c : ascii) (s : string) : option string :=
  match s with
  | String c' r => if Ascii.eqb c c' then Some r else None
  | EmptyString => None
  end.

Definition obind {A B : Type} (o : option A) (k : A -> option B) : option B :=
  match o with
  | Some a => k a
  | None => None
  end.

Definition parse_iso_utc (s : string) : Date :=
  obind (two_digits s) (fun '(c, s) =>
  obind (two_digits s) (fun '(y, s) =>
  obind (expect "-" s) (fun s =>
  obind (two_digits s) (fun '(mo, s) =>
  obind (expect "-" s) (fun s =>
  obind (two_digits s) (fun '(d, s) =>
  obind (expect "T" s) (fun s =>
  obind (two_digits s) (fun '(h, s) =>
  obind (expect ":" s) (fun s =>
  obind (two_digits s) (fun '(mi, s) =>
  obind (expect ":" s) (fun s =>
  obind (two_digits s) (fun '(se, s) =>
  let base :=
    days_from_civil (100 * c + y) mo d * msPerDay
    + h * msPerHour + mi * 60000 + se * 1000 in
  match s with
  | "Z" => TimeClip base
  | String "." rest =>
      obind (two_digits rest) (fun '(ms1, s) =>
      match s with
      | String u "Z" =>
          if is_digit u then TimeClip (base + 10 * ms1 + digit_value u) else None
      | _ => None
      end)
  | _ => None
  end)))))))))))).

Lemma TimeClip_Some t t' : TimeClip t = Some t' -> Z.abs t' <= 8640000000000000.
Proof.
  unfold TimeClip. destruct (Z.leb_spec (Z.abs t) 8640000000000000) as [Hle|];
    [|discriminate].
  intros E. injection E as <-. exact Hle.
Qed.

Lemma parse_iso_utc_valid s t :
  parse_iso_utc s = Some t -> Z.abs t <= 8640000000000000.
Proof.
  unfold parse_iso_utc, obind.
  repeat match goal with
         | |- context [match ?x with _ => _ end] =>
             match x with
             | TimeClip _ => fail 1
             | _ => destruct x; try discriminate
             end
         | p : (_ * _)%type |- _ => destruct p
         end;
    apply TimeClip_Some.
Qed.

(** A zone whose offset never changes. *)
Lemma fixed_offset_valid (z : Z) :
  (Z.abs z <=? 86400000) = true ->
  forall (t : Z) (isUTC : bool), Z.abs z <= 86400000.
Proof. intros H _ _. now apply Z.leb_le. Qed.

(** 2025-11-05T11:22:00Z on a machine running in UTC. *)
Definition env0 : Env :=
  mkEnv 1762341720000 (fun _ _ => 0) parse_iso_utc eq_refl
    (fixed_offset_valid 0 eq_refl) parse_iso_utc_valid.

(** New York around the end of daylight saving time in 2025: the offset is
    -4 h up to 2025-11-02T06:00:00Z and -5 h from there on; the local times
    before 02:00 of that day, the hour from 01:00 that occurs twice among
    them, are read with -4 h. *)
Definition LocalTZA_New_York (t : Z) (isUTC : bool) : Z :=
  if isUTC
  then (if t <? 1762063200000 then -14400000 else -18000000)
  else (if t <? 1762048800000 then -14400000 else -18000000).

Lemma LocalTZA_New_York_valid t isUTC :
  Z.abs (LocalTZA_New_York t isUTC) <= 86400000.
Proof.
  unfold LocalTZA_New_York.
  destruct isUTC, (t <? 1762063200000), (t <? 1762048800000); simpl; lia.
Qed.

(** 2025-11-02T06:30:00Z in New York: 01:30 local time, half an hour after
    the clocks went back from 02:00 to 01:00. *)
Definition env_New_York : Env :=
  mkEnv 1762065000000 LocalTZA_New_York parse_iso_utc eq_refl
    LocalTZA_New_York_valid parse_iso_utc_valid.

(** ** Checking a predicate on a range of integers *)

Fixpoint all_from (f : Z -> bool) (z : Z) (n : nat) : bool :=
  match n with
  | O => true
  | S k => f z && all_from f (z + 1) k
  end.

(** Month and day of month from the day of a year that starts in March, as
    [civil_from_days] computes them, and the check that [days_from_civil]
    undoes it. *)
Definition month_day (doy : Z) : Z * Z :=
  let mp := (5 * doy + 2) / 153 in
  (if mp <? 10 then mp + 3 else mp - 9, doy - (153 * mp + 2) / 5 + 1).

Definition doy_check (doy : Z) : bool :=
  let '(m, d) := month_day doy in
  ((153 * (if 2 <? m then m - 3 else m + 9) + 2) / 5 + d - 1 =? doy)
  && (1 <=? m) && (m <=? 12) && (1 <=? d) && (d <=? 31).

(** A binary64 value that is +0 or a positive finite number. *)
Definition nonneg_finite (x : spec_float) : Prop :=
  match x with
  | S754_zero false | S754_finite false _ _ => True
  | _ => False
  end.

(** ** Definitions used to state the properties *)

Definition ok_or_false (c : result bool) : bool :=
  match c with
  | Ok b => b
  | Throw _ => false
  end.

(** [id] holds the pattern **D<digits>C right after the prefix [pre], with
    [ds] the digits. *)
Definition pattern_at (id pre ds : string) : Prop :=
  ds <> "" /\ all_digits ds = true /\
  exists post, id = pre ++ "**D" ++ ds ++ "C" ++ post.

Definition matches_pattern (id : string) : Prop :=
  exists pre ds, pattern_at id pre ds.

(** The last day whose date a Date object can hold. *)
Definition maxDay : Z := 99979610.


(** The combined effect of [ensure], [get] and [set] with the updated value,
    as the grouping loops perform it. *)
Definition upsert {K V : Type} (eqb : K -> K -> bool) (k : K) (v0 : V)
    (f : V -> V) (m : list (K * V)) : list (K * V) :=
  map_set eqb k (f (get_or eqb k v0 (ensure eqb k v0 m))) (ensure eqb k v0 m).

(** The order a stable descending sort by [key] produces: strictly larger key
    first, equal keys in the order [R] they had in the input. *)
Definition sorted_stably {A : Type} (key : A -> Z) (R : A -> A -> Prop)
    (a b : A) : Prop :=
  key b < key a \/ (key a = key b /\ R a b).

(** The identifier of [r] decodes to a day number. *)
Definition parses (r : ReceiptEntry) : Prop :=
  exists n, dayFromChallengeId (challenge_id r) = Ok n.

(** The day number of a receipt whose identifier decodes. *)
Definition day_of (r : ReceiptEntry) : Z :=
  match dayFromChallengeId (challenge_id r) with
  | Ok d => d
  | Throw _ => 0
  end.

(** Number of receipts of day [d], and of address [a] on day [d]. *)
Definition count_day (d : Z) (l : list ReceiptEntry) : nat :=
  List.length (filter (fun r => day_of r =? d) l).

Definition count_address_day (a : string) (d : Z) (l : list ReceiptEntry) : nat :=
  List.length (filter (fun r => String.eqb (address r) a && (day_of r =? d)) l).

(** The grouping loops run on decoded days. *)
Definition group_all (l : list ReceiptEntry) : AddressDayMap * AddressTimestamps :=
  fold_left (fun st r => group_step st r (day_of r)) l ([], []).

Definition global_all (l : list ReceiptEntry) : list (Z * list string) :=
  fold_left (fun m r => global_day_step m r (day_of r)) l [].

(** Position of the first occurrence of [a]. *)
Fixpoint index_of (a : string) (l : list string) : option nat :=
  match l with
  | [] => None
  | x :: l' => if String.eqb a x then Some 0%nat else option_map S (index_of a l')
  end.

(** Address [a] is first seen in the receipt list before address [b] is. *)
Definition encounter_before (receipts : list ReceiptEntry) (a b : string) : Prop :=
  exists i j, index_of a (map address receipts) = Some i /\
              index_of b (map address receipts) = Some j /\ (i < j)%nat.

(** The receipt count an AddressStats entry reports for day [d]. *)
Definition address_day_count (a : AddressStats.t) (d : Z) : nat :=
  list_sum (map DayStats.receipts
              (filter (fun x => DayStats.day x =? d) (AddressStats.days a))).

(** [dayMap.set(day, (dayMap.get(day) || 0) + 1)] *)
Definition bump_day (d : Z) (dm : list (Z * nat)) : list (Z * nat) :=
  map_set Z.eqb d (get_or Z.eqb d 0%nat dm + 1)%nat dm.

(** The count stored for address [a] and day [d], 0 when there is none. *)
Definition lookup2 (m : AddressDayMap) (a : string) (d : Z) : nat :=
  get_or Z.eqb d 0%nat (get_or String.eqb a [] m).

(** [x] is the DayStats entry of [count] receipts on day [d]. *)
Definition day_rel (rates : list float) (addresses : option nat) (d : Z)
    (count : nat) (x : DayStats.t) : Prop :=
  exists date, dateFromChallengeId (challengeId_of_day d) = Ok date /\
               x = day_entry rates addresses d date count.

(** Left-to-right sum of binary64 values, as [reduce] and [+=] compute it. *)
Definition float_sum (l : list float) (s0 : float) : float :=
  fold_left PrimFloat.add l s0.

(** NIGHT is STAR divided by 1,000,000. *)
Definition night_ok_day (x : DayStats.t) : Prop :=
  DayStats.night x = PrimFloat.div (DayStats.star x) 1000000.

Definition night_ok_hour (h : HourStats.t) : Prop :=
  HourStats.night h = PrimFloat.div (HourStats.star h) 1000000.

Definition night_ok_address (a : AddressStats.t) : Prop :=
  AddressStats.totalNight a = PrimFloat.div (AddressStats.totalStar a) 1000000 /\
  Forall night_ok_day (AddressStats.days a).

(** Address entry [a] ranks before [b]: more receipts, or as many and first
    seen earlier in the receipt list. *)
Definition ranked_before (receipts : list ReceiptEntry) (a b : AddressStats.t)
  : Prop :=
  (AddressStats.totalReceipts b < AddressStats.totalReceipts a)%nat \/
  (AddressStats.totalReceipts a = AddressStats.totalReceipts b /\
   encounter_before receipts (AddressStats.address a) (AddressStats.address b)).

(** Number of receipts of address [a]. *)
Definition count_address (a : string) (l : list ReceiptEntry) : nat :=
  List.length (filter (fun r => String.eqb (address r) a) l).

(** Address [a] ranks before address [b]: it has more receipts, or as many
    and is first seen earlier in the receipt list. *)
Definition address_ranked_before (receipts : list ReceiptEntry) (a b : string)
  : Prop :=
  (count_address b receipts < count_address a receipts)%nat \/
  (count_address a receipts = count_address b receipts /\
   encounter_before receipts a b).

Definition later_day_first (x y : DayStats.t) : Prop :=
  DayStats.day y < DayStats.day x.

(** The identifier of [r] decodes to a day whose date a Date can hold. *)
Definition dated (r : ReceiptEntry) : Prop :=
  exists n, dayFromChallengeId (challenge_id r) = Ok n /\ n <= maxDay.

(** The non-negative integer, or [Infinity], that a binary64 value of the
    Standard Library's specification of IEEE 754 holds. *)
Definition Number_of_SF (x : spec_float) : option Z :=
  match x with
  | S754_zero false => Some 0
  | S754_finite false m e =>
      if 0 <=? e then Some (Z.pos m * 2 ^ e)
      else if Z.pos m mod 2 ^ (- e) =? 0 then Some (Z.pos m / 2 ^ (- e))
      else None
  | S754_infinity false => Some Infinity
  | _ => None
  end.

(** ** Worked examples *)

Definition ex_receipts : list ReceiptEntry :=
  [mkReceipt "2025-11-05T10:15:00Z" "A" "**D07C01";
   mkReceipt "2025-11-05T10:45:00Z" "B" "**D07C01";
   mkReceipt "2025-11-05T09:05:00Z" "B" "**D06C03";
   mkReceipt "2025-11-04T23:59:59Z" "C" "**D06C02"].

Definition ex_rates : list float := [0; 0; 0; 0; 0; 0; 2]%float.

(** The exception a computation throws, if any. *)
Definition thrown {A : Type} (c : result A) : option exn :=
  match c with
  | Ok _ => None
  | Throw e => Some e
  end.

(** Day [d] has no entry in the rate table. *)
Definition out_of_table (rates : list float) (d : Z) : Prop :=
  d - 1 < 0 \/ Z.of_nat (List.length rates) <= d - 1.

Definition zero_star_day (x : DayStats.t) : Prop :=
  DayStats.star x = PrimFloat.zero /\ DayStats.night x = PrimFloat.zero.

Definition zero_star_hour (h : HourStats.t) : Prop :=
  HourStats.star h = PrimFloat.zero /\ HourStats.night h = PrimFloat.zero.

(** ** Clock hours *)

(** The offset of local time in force at the clock reading. *)
Definition zone_offset (env : Env) : Z := LocalTZA env (Date_now env) true.

(** Start of the current clock hour of local time, as a time value. *)
Definition hour_floor (env : Env) : Z :=
  (Date_now env + zone_offset env) / msPerHour * msPerHour - zone_offset env.

(** The instant [now.setHours(now.getHours() - k, 0, 0, 0)] gives. *)
Definition window_start (env : Env) (k : Z) : Date :=
  setHours env (new_Date env)
    (option_map (fun h => h - k) (getHours env (new_Date env))).

(** No change of offset in the [hours] clock hours before the current one:
    the local times of their boundaries are read with the offset in force
    at the clock reading. *)
Definition steady_offset (env : Env) (hours : Z) : Prop :=
  forall k, 0 <= k <= hours ->
    LocalTZA env (hour_floor env - k * msPerHour + zone_offset env) false
    = zone_offset env.

(** The offset of the zone is [z] at all times. *)
Definition fixed_zone (env : Env) (z : Z) : Prop :=
  forall t isUTC, LocalTZA env t isUTC = z.

(** The timestamp of [r] lies in the hour that starts at [start]. *)
Definition in_hour (env : Env) (start : Z) (r : ReceiptEntry) : bool :=
  match Date_parse env (ts r) with
  | Some t => (start <=? t) && (t <? start + msPerHour)
  | None => false
  end.

(** The HourStats entry of the hour that starts at [start]. *)
Definition hour_stats (env : Env) (receipts : list ReceiptEntry)
    (rates : list float) (start : Z) : HourStats.t :=
  let rs := filter (in_hour env start) receipts in
  let star := float_sum (map (fun r => rate_or_0 rates (day_of r - 1)) rs)
                PrimFloat.zero in
  HourStats.mk (isoString start) (List.length rs)
    (List.length (set_of_list (map address rs))) star
    (PrimFloat.div star 1000000).

(** The HourStats entry of the receipts from [start] up to [stop]. *)
Definition window_stats (env : Env) (receipts : list ReceiptEntry)
    (rates : list float) (start : Z) (stop : Date) : HourStats.t :=
  let rs := filter (in_window env (Some start) stop) receipts in
  let star := float_sum (map (fun r => rate_or_0 rates (day_of r - 1)) rs)
                PrimFloat.zero in
  HourStats.mk (isoString start) (List.length rs)
    (List.length (set_of_list (map address rs))) star
    (PrimFloat.div star 1000000).

Definition zero_hour (start : Z) : HourStats.t :=
  HourStats.mk (isoString start) 0 0 PrimFloat.zero PrimFloat.zero.

(** Number of receipts whose timestamp is at least [cutoff]. *)
Definition count_since (env : Env) (cutoff : Z) (receipts : list ReceiptEntry)
  : nat :=
  List.length (filter (fun r => match Date_parse env (ts r) with
                                | Some t => cutoff <=? t
                                | None => false
                                end) receipts).

(** The current UTC date. *)
Definition today (env : Env) : string := dateString (Date_now env).

(** The identifier of [r] has a date, and it is not today. *)
Definition not_today (env : Env) (r : ReceiptEntry) : Prop :=
  exists d, dateFromChallengeId (challenge_id r) = Ok d /\ d <> today env.

(** The test of the filter of getTodayStats, for a receipt with a date. *)
Definition dated_today (env : Env) (r : ReceiptEntry) : bool :=
  match dateFromChallengeId (challenge_id r) with
  | Ok date => String.eqb date (today env)
  | Throw _ => false
  end.

(** The cutoff of getSolutionsPerHour, [now - hours * 60 * 60 * 1000] in
    binary64. *)
Definition cutoff (env : Env) (hours : float) : float :=
  (number_of_Z (Date_now env) - hours * 60 * 60 * 1000)%float.

(** Number of receipts whose timestamp is valid and, as a number, at least
    [c]. *)
Definition count_from (env : Env) (c : float) (receipts : list ReceiptEntry)
  : nat :=
  List.length (filter (fun r => match Date_parse env (ts r) with
                                | Some t => PrimFloat.leb c (number_of_Z t)
                                | None => false
                                end) receipts).

(** The exact rational value m * 2^e of a finite binary64 number, as the
    pair (m, e); [None] for infinities and NaN. *)
Definition exact_value (x : float) : option (Z * Z) :=
  match Prim2SF x with
  | S754_zero _ => Some (0, 0)
  | S754_finite s m e => Some (if s then Z.neg m else Z.pos m, e)
  | _ => None
  end.

(** The timestamp [t] is at least [now - hours * 3,600,000] in exact
    arithmetic, for a finite [hours] = m * 2^e. *)
Definition after_exact_cutoff (env : Env) (hours : float) (t : Z) : bool :=
  match exact_value hours with
  | Some (m, e) =>
      if 0 <=? e then Date_now env - m * 2 ^ e * 3600000 <=? t
      else Date_now env * 2 ^ (- e) - m * 3600000 <=? t * 2 ^ (- e)
  | None => false
  end.

(** Number of receipts whose timestamp is valid and at least
    [now - hours * 3,600,000] in exact arithmetic. *)
Definition count_after_exact (env : Env) (hours : float)
    (receipts : list ReceiptEntry) : nat :=
  List.length (filter (fun r => match Date_parse env (ts r) with
                                | Some t => after_exact_cutoff env hours t
                                | None => false
                                end) receipts).

(** ** Integers as binary64 values

    The number of binary digits of a positive number, and the binary64
    value of an integer of magnitude below 2^53 in the Standard Library's
    specification of IEEE 754: the significand scaled to 53 bits. *)
Definition ZD (v : positive) : Z := Z.pos (digits2_pos v).

Definition SF_of_Z (z : Z) : spec_float :=
  match z with
  | Z0 => S754_zero false
  | Zpos v => S754_finite false (Z.to_pos (Z.pos v * 2 ^ (53 - ZD v))) (ZD v - 53)
  | Zneg v => S754_finite true (Z.to_pos (Z.pos v * 2 ^ (53 - ZD v))) (ZD v - 53)
  end.
(** ** Definitions used to state further properties *)

(** No [*] occurs in [s]. *)
Fixpoint no_star (s : string) : bool :=
  match s with
  | EmptyString => true
  | String c s' => negb (Ascii.eqb c "*") && no_star s'
  end.

(** The calendar date of mining day [d]. *)
Definition date_of_day (d : Z) : string :=
  dateString (tgeStart + (d - 1) * 86400000).

(** The receipts of address [a], in the order of the list. *)
Definition receipts_of_address (a : string) (l : list ReceiptEntry)
  : list ReceiptEntry :=
  filter (fun r => String.eqb (address r) a) l.

(** The distinct addresses with a receipt on day [d], in order of first
    occurrence. *)
Definition addresses_of_day (d : Z) (l : list ReceiptEntry) : list string :=
  set_of_list (map address (filter (fun r => day_of r =? d) l)).

(** The entry of day [d] in the global list of days. *)
Definition day_summary (rates : list float) (receipts : list ReceiptEntry)
    (d : Z) : DayStats.t :=
  day_entry rates (Some (List.length (addresses_of_day d receipts))) d
    (date_of_day d) (count_day d receipts).

(** The entry of day [d] in the list of days of address [a]. *)
Definition address_day_summary (rates : list float)
    (receipts : list ReceiptEntry) (a : string) (d : Z) : DayStats.t :=
  day_entry rates None d (date_of_day d) (count_address_day a d receipts).

(** Address entry [a] reports day [d]. *)
Definition reports_day (d : Z) (a : AddressStats.t) : bool :=
  existsb (fun x => DayStats.day x =? d) (AddressStats.days a).

(** The timestamp of [r] is valid and lies in [lo, hi). *)
Definition in_span (env : Env) (lo hi : Z) (r : ReceiptEntry) : bool :=
  match Date_parse env (ts r) with
  | Some t => (lo <=? t) && (t <? hi)
  | None => false
  end.

(** The reference clock and parser on a machine two hours east of UTC. *)
Definition env_plus2 : Env :=
  mkEnv 1762341720000 (fun _ _ => 7200000) parse_iso_utc eq_refl
    (fixed_offset_valid 7200000 eq_refl) parse_iso_utc_valid.

(** An entry without its reward fields. *)
Definition day_counts (x : DayStats.t) : Z * string * nat * option nat :=
  (DayStats.day x, DayStats.date x, DayStats.receipts x, DayStats.addresses x).

Definition address_counts (a : AddressStats.t)
  : string * list (Z * string * nat * option nat) * nat
    * option string * option string :=
  (AddressStats.address a, map day_counts (AddressStats.days a),
   AddressStats.totalReceipts a, AddressStats.firstSolution a,
   AddressStats.lastSolution a).

Definition hour_counts (h : HourStats.t) : string * nat * nat :=
  (HourStats.hour h, HourStats.receipts h, HourStats.addresses h).

(** ** The statistics endpoint (GET /api/stats) *)

(** Modelled from the spec: a receipt as [readReceipts()] of the receipt log
    returns it.  The log is not part of the sources; the endpoint reads the
    flag [isDevFee], which may be absent, and passes the receipt on. *)
Record LoggedReceipt : Type := mkLogged {
  logged : ReceiptEntry;
  isDevFee : option bool
}.

(** [!r.isDevFee] *)
Definition is_user_receipt (r : LoggedReceipt) : bool :=
  match isDevFee r with
  | Some true => false
  | _ => true
  end.

(** What the request of [fetchRates] comes to: the body of the response, the
    array of numbers its type declares, or an error (no connection, the
    timeout of 5 s, a status that is not a success). *)
Inductive HttpOutcome : Type :=
| Responded (data : list float)
| RequestFailed.

Definition fetchRates (outcome : HttpOutcome) : list float :=
  match outcome with
  | Responded data => data
  | RequestFailed => []
  end.

(** Every call that looks at the clock reads it anew. *)
Record Clocks : Type := mkClocks {
  at_hourly : Env;
  at_last8Hours : Env;
  at_today : Env;
  at_perHour24h : Env;
  at_perHour1h : Env
}.

Module StatsBody.
Record t : Type := mk {
  global : GlobalStats.t;
  hourly : option HourStats.t;
  last8Hours : list HourStats.t;
  today : option DayStats.t;
  perHour24h : float;
  perHour1h : float;
  errorsTotal : nat
}.
End StatsBody.

(** The JSON answer: [{success: true, stats}] or, with status 500,
    [{success: false, error}]. *)
Inductive JsonResponse : Type :=
| Success (stats : StatsBody.t)
| Status500 (error : exn).

(** The handler, given what the receipt log returned. *)
Definition GET {E : Type} (clocks : Clocks) (allReceipts : list LoggedReceipt)
    (errors : list E) (outcome : HttpOutcome) : JsonResponse :=
  let receipts := map logged (filter is_user_receipt allReceipts) in
  let rates := fetchRates outcome in
  match
    (globalStats <- computeStats receipts rates ;;
     hourlyStats <- computeHourlyStats (at_hourly clocks) receipts rates ;;
     last8Hours <- computeLastNHours (at_last8Hours clocks) receipts rates 8 ;;
     todayStats <- getTodayStats (at_today clocks) receipts rates ;;
     let solutionsPerHour24h :=
       getSolutionsPerHour (at_perHour24h clocks) receipts 24%float in
     let solutionsPerHour1h :=
       getSolutionsPerHour (at_perHour1h clocks) receipts 1%float in
     Ok (StatsBody.mk globalStats hourlyStats last8Hours todayStats
           solutionsPerHour24h solutionsPerHour1h (List.length errors)))
  with
  | Ok stats => Success stats
  | Throw error => Status500 error
  end.

(** The same clock reading for every call. *)
Definition clocks0 : Clocks := mkClocks env0 env0 env0 env0 env0.

(** Every reward amount of a result is zero. *)
Definition zero_star_address (a : AddressStats.t) : Prop :=
  AddressStats.totalStar a = PrimFloat.zero /\
  AddressStats.totalNight a = PrimFloat.zero /\
  Forall zero_star_day (AddressStats.days a).

Definition zero_star_stats (g : GlobalStats.t) : Prop :=
  Forall zero_star_day (GlobalStats.days g) /\
  Forall zero_star_address (GlobalStats.byAddress g) /\
  GrandTotal.star (GlobalStats.grandTotal g) = PrimFloat.zero /\
  GrandTotal.night (GlobalStats.grandTotal g) = PrimFloat.zero.

(** Calendar date [a] is before calendar date [b]. *)
Definition date_before (a b : Z * Z * Z) : Prop :=
  let '(y1, m1, d1) := a in
  let '(y2, m2, d2) := b in
  y1 < y2 \/ (y1 = y2 /\ (m1 < m2 \/ (m1 = m2 /\ d1 < d2))).

(** Receipts with timestamps in the form of [toISOString], and the time of a
    receipt as the reference parser reads it. *)
Definition ex_iso_receipts : list ReceiptEntry :=
  [mkReceipt "2025-11-05T10:15:00.000Z" "A" "**D07C01";
   mkReceipt "2025-11-05T10:45:00.250Z" "B" "**D07C01";
   mkReceipt "2025-11-05T09:05:00.000Z" "B" "**D06C03";
   mkReceipt "2025-11-04T23:59:59.999Z" "C" "**D06C02"].

Definition time_of (r : ReceiptEntry) : Z :=
  match parse_iso_utc (ts r) with
  | Some t => t
  | None => 0
  end.
(** * Proofs *)

(** ** Calendar arithmetic *)

Lemma all_from_spec f n : forall z, all_from f z n = true ->
  forall i, z <= i < z + Z.of_nat n -> f i = true.
Proof.
  induction n as [|n IH]; intros z H i Hi.
  - simpl in Hi. lia.
  - simpl in H. apply andb_true_iff in H as [H1 H2].
    destruct (Z.eq_dec i z) as [->|Hne]; [exact H1|].
    apply (IH (z + 1) H2). lia.
Qed.

Lemma doy_checked : all_from doy_check 0 366 = true.
Proof. vm_compute. reflexivity. Qed.

Lemma year_of_era_bounds doe :
  0 <= doe < 146097 ->
  let yoe := (doe - doe / 1460 + doe / 36524 - doe / 146096) / 365 in
  let doy := doe - (365 * yoe + yoe / 4 - yoe / 100) in
  0 <= yoe <= 399 /\ 0 <= doy <= 365.
Proof.
  intros H yoe doy. subst yoe doy. Z.div_mod_to_equations. lia.
Qed.

Lemma civil_roundtrip z :
  let '(y, m, d) := civil_from_days z in
  days_from_civil y m d = z /\ 1 <= m <= 12 /\ 1 <= d <= 31 /\
  400 * ((z + 719468) / 146097) <= y <= 400 * ((z + 719468) / 146097) + 400.
Proof.
  unfold civil_from_days.
  pose proof (Z.mod_pos_bound (z + 719468) 146097 ltac:(lia)) as Hb.
  pose proof (Z.div_mod (z + 719468) 146097 ltac:(lia)) as Hdm.
  set (era := (z + 719468) / 146097) in *.
  set (doe := (z + 719468) mod 146097) in *.
  destruct (year_of_era_bounds doe Hb) as [Hy Hd]. cbv zeta in Hy, Hd.
  set (yoe := (doe - doe / 1460 + doe / 36524 - doe / 146096) / 365) in *.
  set (doy := doe - (365 * yoe + yoe / 4 - yoe / 100)) in *.
  pose proof (all_from_spec _ _ _ doy_checked doy ltac:(simpl; lia)) as Hc.
  unfold doy_check, month_day in Hc. cbv zeta.
  set (mp := (5 * doy + 2) / 153) in *.
  set (m := if mp <? 10 then mp + 3 else mp - 9) in *.
  set (d := doy - (153 * mp + 2) / 5 + 1) in *.
  repeat (apply andb_true_iff in Hc; destruct Hc as [Hc ?]).
  apply Z.eqb_eq in Hc.
  unfold days_from_civil.
  assert (Hyr : (if m <=? 2 then (if m <=? 2 then yoe + era * 400 + 1 else yoe + era * 400) - 1
                 else (if m <=? 2 then yoe + era * 400 + 1 else yoe + era * 400))
                = yoe + era * 400) by (destruct (m <=? 2); lia).
  rewrite Hyr. rewrite Z.div_add, Z.mod_add by lia.
  rewrite (Z.div_small yoe 400), (Z.mod_small yoe 400) by lia.
  cbv zeta. rewrite Hc.
  repeat split; try lia; destruct (m <=? 2); lia.
Qed.

(** ** Fixed-width decimal fields *)

Lemma digit_cases a : 0 <= a <= 9 ->
  a = 0 \/ a = 1 \/ a = 2 \/ a = 3 \/ a = 4 \/ a = 5 \/ a = 6 \/ a = 7 \/ a = 8 \/ a = 9.
Proof. lia. Qed.

Ltac digit_case a H :=
  let H' := fresh in
  pose proof (digit_cases a H) as H';
  repeat (destruct H' as [H'|H']); subst a.

Lemma digit_value_char a : 0 <= a <= 9 -> digit_value (digit_char a) = a.
Proof. intros H. digit_case a H; reflexivity. Qed.

Lemma is_digit_char a : 0 <= a <= 9 -> is_digit (digit_char a) = true.
Proof. intros H. digit_case a H; reflexivity. Qed.

Lemma digit_char_inj a b :
  0 <= a <= 9 -> 0 <= b <= 9 -> digit_char a = digit_char b -> a = b.
Proof.
  intros Ha Hb H. rewrite <- (digit_value_char a Ha), <- (digit_value_char b Hb).
  now rewrite H.
Qed.

Lemma mod10_range x : 0 <= x mod 10 <= 9.
Proof. pose proof (Z.mod_pos_bound x 10 ltac:(lia)). lia. Qed.

Lemma digit_mod_inj x y :
  digit_char (x mod 10) = digit_char (y mod 10) -> x mod 10 = y mod 10.
Proof. apply digit_char_inj; apply mod10_range. Qed.

Lemma digit_mod_is_digit x : is_digit (digit_char (x mod 10)) = true.
Proof. apply is_digit_char, mod10_range. Qed.

Lemma digit_mod_neq x c :
  is_digit c = false -> digit_char (x mod 10) <> c.
Proof. intros Hc E. pose proof (digit_mod_is_digit x) as H. rewrite E in H. congruence. Qed.

Lemma digit_mod_not_T x : Ascii.eqb (digit_char (x mod 10)) "T" = false.
Proof. apply Ascii.eqb_neq, digit_mod_neq. reflexivity. Qed.

Lemma digits2_eq y : 0 <= y <= 99 -> y = 10 * (y / 10 mod 10) + y mod 10.
Proof. intros. Z.div_mod_to_equations. lia. Qed.

Lemma digits4_eq y : 0 <= y <= 9999 ->
  y = 1000 * (y / 1000 mod 10) + 100 * (y / 100 mod 10) + 10 * (y / 10 mod 10) + y mod 10.
Proof. intros. Z.div_mod_to_equations. lia. Qed.

Lemma digits6_eq y : 0 <= y <= 999999 ->
  y = 100000 * (y / 100000 mod 10) + 10000 * (y / 10000 mod 10)
      + 1000 * (y / 1000 mod 10) + 100 * (y / 100 mod 10) + 10 * (y / 10 mod 10) + y mod 10.
Proof. intros. Z.div_mod_to_equations. lia. Qed.

Lemma before_T_format_date y m d rest :
  before_T (format_date y m d ++ String "T" rest) = format_date y m d.
Proof.
  unfold format_date, yearString, pad6, pad4, pad3, pad2.
  destruct ((0 <=? y) && (y <=? 9999)); [|destruct (y <? 0)];
    cbn [append before_T]; rewrite ?digit_mod_not_T;
    cbn; rewrite ?digit_mod_not_T; reflexivity.
Qed.

Lemma format_date_inj y1 m1 d1 y2 m2 d2 :
  -999999 <= y1 <= 999999 -> -999999 <= y2 <= 999999 ->
  0 <= m1 <= 99 -> 0 <= m2 <= 99 -> 0 <= d1 <= 99 -> 0 <= d2 <= 99 ->
  format_date y1 m1 d1 = format_date y2 m2 d2 ->
  y1 = y2 /\ m1 = m2 /\ d1 = d2.
Proof.
  intros Hy1 Hy2 Hm1 Hm2 Hd1 Hd2.
  unfold format_date, yearString, pad6, pad4, pad3, pad2.
  destruct ((0 <=? y1) && (y1 <=? 9999)) eqn:E1;
  destruct ((0 <=? y2) && (y2 <=? 9999)) eqn:E2;
  [ | destruct (y2 <? 0) eqn:S2 | destruct (y1 <? 0) eqn:S1
    | destruct (y1 <? 0) eqn:S1; destruct (y2 <? 0) eqn:S2 ];
  cbn [append]; intros H; injection H; intros;
  repeat match goal with
  | H : digit_char (_ mod 10) = digit_char (_ mod 10) |- _ => apply digit_mod_inj in H
  | H : digit_char (_ mod 10) = _ |- _ => exfalso; revert H; apply digit_mod_neq; reflexivity
  | H : _ = digit_char (_ mod 10) |- _ => exfalso; symmetry in H; revert H; apply digit_mod_neq; reflexivity
  | H : "-"%char = "+"%char |- _ => discriminate H
  | H : "+"%char = "-"%char |- _ => discriminate H
  end; try discriminate;
  try (apply andb_true_iff in E1 as [? ?]); try (apply andb_true_iff in E2 as [? ?]);
  rewrite (digits2_eq m1 Hm1), (digits2_eq m2 Hm2), (digits2_eq d1 Hd1), (digits2_eq d2 Hd2).
  - rewrite (digits4_eq y1), (digits4_eq y2) by lia. lia.
  - assert (A1 : Z.abs y1 = Z.abs y2)
      by (rewrite (digits6_eq (Z.abs y1)), (digits6_eq (Z.abs y2)) by lia; lia).
    lia.
  - assert (A1 : Z.abs y1 = Z.abs y2)
      by (rewrite (digits6_eq (Z.abs y1)), (digits6_eq (Z.abs y2)) by lia; lia).
    lia.
Qed.

(** ** Integers as binary64 values *)

Lemma digits2_size p : digits2_pos p = Pos.size p.
Proof. induction p; simpl; congruence. Qed.

Lemma Zdigits2_bound m k : 0 <= m < 2 ^ k -> 0 <= k -> 0 <= Zdigits2 m <= k.
Proof.
  intros [H0 H1] Hk. destruct m as [|p|p]; simpl; try lia.
  rewrite digits2_size.
  pose proof (Pos.size_le p) as Hs.
  assert (Hlt : 2 ^ Z.pos (Pos.size p) < 2 ^ (k + 1)).
  { rewrite Z.add_1_r, Z.pow_succ_r by lia.
    assert (Z.pos (2 ^ Pos.size p) <= Z.pos p~0) by (apply Pos2Z.pos_le_pos; exact Hs).
    rewrite Pos2Z.inj_pow in H. change (Z.pos p~0) with (2 * Z.pos p) in H. lia. }
  apply Z.pow_lt_mono_r_iff in Hlt; lia.
Qed.

Lemma iter_pos_inv {A} (P : A -> Prop) (f : A -> A) :
  (forall x, P x -> P (f x)) -> forall n x, P x -> P (iter_pos f n x).
Proof.
  intros Hf. induction n; intros x Hx; simpl; auto.
Qed.

Lemma shr_1_bound B mrs : 0 <= shr_m mrs <= B -> 0 <= shr_m (shr_1 mrs) <= B.
Proof.
  destruct mrs as [m r s]; simpl. destruct m as [|[p|p|]|[p|p|]]; simpl; lia.
Qed.

Lemma shr_bound B mrs e n :
  0 <= shr_m mrs <= B ->
  0 <= shr_m (fst (shr mrs e n)) <= B /\ snd (shr mrs e n) <= Z.max e (e + n).
Proof.
  intros H. unfold shr. destruct n; simpl; try lia.
  split; [|lia]. apply iter_pos_inv with (P := fun x => 0 <= shr_m x <= B); auto.
  intros; now apply shr_1_bound.
Qed.

Lemma shr_fexp_bound B k m e l :
  0 <= m <= B -> B < 2 ^ k -> 0 <= k ->
  0 <= shr_m (fst (shr_fexp prec emax m e l)) <= B /\
  snd (shr_fexp prec emax m e l) <= Z.max e (Z.max (k + e - 53) (-1074)).
Proof.
  intros Hm HB Hk. unfold shr_fexp.
  assert (Hrec : 0 <= shr_m (shr_record_of_loc m l) <= B).
  { destruct l as [|[]]; simpl; lia. }
  pose proof (Zdigits2_bound m k ltac:(lia) Hk) as Hd.
  match goal with
  | |- context [shr ?r ?e0 ?n] =>
      assert (Hn : n = Z.max (Zdigits2 m + e - 53) (-1074) - e) by reflexivity;
      destruct (shr_bound B r e0 n Hrec) as [H1 H2];
      generalize dependent n
  end.
  intros n Hn H1 H2. split; [exact H1|]. lia.
Qed.

Lemma round_nearest_even_bound m l : 0 <= m -> 0 <= round_nearest_even m l <= m + 1.
Proof.
  intros. unfold round_nearest_even. destruct l as [|[]]; try lia.
  destruct (Z.even m); lia.
Qed.

Lemma binary_round_aux_nonneg m e l k :
  0 <= m < 2 ^ k -> 0 <= k <= 200 -> -200 <= e <= 200 ->
  nonneg_finite (binary_round_aux prec emax false m e l).
Proof.
  intros Hm Hk He. unfold binary_round_aux.
  destruct (shr_fexp_bound (2 ^ k - 1) k m e l ltac:(lia) ltac:(lia) ltac:(lia)) as [H1 H2].
  destruct (shr_fexp prec emax m e l) as [mrs' e']. simpl in H1, H2.
  pose proof (round_nearest_even_bound (shr_m mrs') (loc_of_shr_record mrs') ltac:(lia)) as Hr.
  set (m1 := round_nearest_even (shr_m mrs') (loc_of_shr_record mrs')) in *.
  assert (Hp : 2 ^ (k + 1) = 2 * 2 ^ k) by (rewrite Z.add_1_r, Z.pow_succ_r; lia).
  destruct (shr_fexp_bound (2 ^ k) (k + 1) m1 e' loc_Exact ltac:(lia) ltac:(lia) ltac:(lia)) as [H3 H4].
  destruct (shr_fexp prec emax m1 e' loc_Exact) as [mrs'' e'']. simpl in H3, H4.
  destruct (shr_m mrs'') eqn:E; simpl; auto; try lia.
  match goal with
  | |- context [if ?c then _ else _] => destruct c eqn:Hc
  end; simpl; auto.
  apply Z.leb_gt in Hc. assert (Hc' : 971 < e'') by exact Hc. lia.
Qed.

Lemma iter_xO m p : Z.pos (Pos.iter xO m p) = Z.pos m * 2 ^ Z.pos p.
Proof.
  revert m. induction p using Pos.peano_ind; intros m.
  - simpl. lia.
  - rewrite Pos.iter_succ. rewrite Pos2Z.inj_succ, Z.pow_succ_r by lia.
    change (Z.pos (Pos.iter xO m p)~0) with (2 * Z.pos (Pos.iter xO m p)).
    rewrite IHp. lia.
Qed.

Lemma binary_round_nonneg m :
  Z.pos m < 2 ^ 63 -> nonneg_finite (binary_round prec emax false m 0).
Proof.
  intros Hm. unfold binary_round, shl_align.
  pose proof (Zdigits2_bound (Z.pos m) 63 ltac:(lia) ltac:(lia)) as Hd. simpl in Hd.
  pose proof (Pos.size_gt m) as Hgt. rewrite <- digits2_size in Hgt.
  assert (Hgt' : Z.pos m < 2 ^ Z.pos (digits2_pos m)).
  { rewrite <- Pos2Z.inj_pow. apply Pos2Z.pos_lt_pos. exact Hgt. }
  set (d := Z.pos (digits2_pos m)) in *.
  destruct (fexp prec emax (d + 0) - 0) eqn:E.
  - apply binary_round_aux_nonneg with (k := 63); lia.
  - apply binary_round_aux_nonneg with (k := 63); lia.
  - assert (Hp : Z.neg p = d - 53)
      by (unfold fexp, emin, prec, emax in E; change IntDef.Z.max with Z.max in E; lia).
    apply binary_round_aux_nonneg with (k := 53); try lia.
    rewrite iter_xO. split; [lia|].
    assert (Hq : Z.pos p = 53 - d) by lia. rewrite Hq.
    replace (2 ^ 53) with (2 ^ d * 2 ^ (53 - d)).
    + apply Z.mul_lt_mono_pos_r; lia.
    + rewrite <- Z.pow_add_r by lia. f_equal; lia.
Qed.

Lemma of_uint63_nonneg n : nonneg_finite (Prim2SF (of_uint63 n)).
Proof.
  rewrite of_uint63_spec. unfold binary_normalize.
  pose proof (Uint63.to_Z_bounded n) as Hb.
  destruct (Uint63.to_Z n) eqn:E; simpl; auto.
  - apply binary_round_nonneg. change (2 ^ 63) with wB. lia.
  - lia.
Qed.

Lemma mul_of_uint63_zero n : PrimFloat.mul (of_uint63 n) PrimFloat.zero = PrimFloat.zero.
Proof.
  apply Prim2SF_inj. rewrite FloatAxioms.mul_spec.
  pose proof (of_uint63_nonneg n) as H.
  destruct (Prim2SF (of_uint63 n)) as [[]|[]| |[] ? ?]; simpl in H; try contradiction; reflexivity.
Qed.
(** ** Integers of less than 54 bits as binary64 values *)

Lemma ZD_spec v : 2 ^ (ZD v - 1) <= Z.pos v < 2 ^ ZD v.
Proof.
  unfold ZD. rewrite digits2_size. split.
  - pose proof (Pos.size_le v) as H.
    assert (H' : Z.pos (2 ^ Pos.size v) <= Z.pos v~0) by (apply Pos2Z.pos_le_pos; exact H).
    rewrite Pos2Z.inj_pow in H'. change (Z.pos v~0) with (2 * Z.pos v) in H'.
    replace (Z.pos (Pos.size v)) with (Z.succ (Z.pos (Pos.size v) - 1)) in H' by lia.
    rewrite Z.pow_succ_r in H' by lia. lia.
  - pose proof (Pos.size_gt v) as H.
    rewrite <- Pos2Z.inj_pow. apply Pos2Z.pos_lt_pos. exact H.
Qed.

Lemma ZD_pos v : 1 <= ZD v.
Proof. unfold ZD. lia. Qed.

Lemma ZD_unique v d : 2 ^ (d - 1) <= Z.pos v < 2 ^ d -> ZD v = d.
Proof.
  intros [H1 H2]. pose proof (ZD_spec v) as [H3 H4]. pose proof (ZD_pos v) as Hp.
  assert (Hd : 1 <= d).
  { destruct (Z.lt_ge_cases d 1) as [Hlt|]; [|assumption].
    assert (2 ^ d <= 2 ^ 0) by (apply Z.pow_le_mono_r; lia). simpl in H. lia. }
  assert (A : ZD v - 1 < d).
  { apply (Z.pow_lt_mono_r_iff 2); lia. }
  assert (B : d - 1 < ZD v).
  { apply (Z.pow_lt_mono_r_iff 2); lia. }
  lia.
Qed.

Lemma ZD_shift v k : 0 <= k -> ZD (Z.to_pos (Z.pos v * 2 ^ k)) = ZD v + k.
Proof.
  intros Hk. pose proof (ZD_spec v) as [H1 H2]. pose proof (ZD_pos v) as Hp.
  assert (P : 0 < 2 ^ k) by (apply Z.pow_pos_nonneg; lia).
  apply ZD_unique. rewrite Z2Pos.id by nia.
  replace (ZD v + k - 1) with (ZD v - 1 + k) by lia.
  rewrite !Z.pow_add_r by lia. nia.
Qed.

Lemma ZD_le u v : Z.pos u <= Z.pos v -> ZD u <= ZD v.
Proof.
  intros H. pose proof (ZD_spec u) as [H1 _]. pose proof (ZD_spec v) as [_ H2].
  pose proof (ZD_pos u). pose proof (ZD_pos v).
  assert (A : ZD u - 1 < ZD v) by (apply (Z.pow_lt_mono_r_iff 2); lia). lia.
Qed.

Lemma ZD_bound v k : 0 <= k -> Z.pos v < 2 ^ k -> ZD v <= k.
Proof.
  intros Hk H. pose proof (ZD_spec v) as [H1 _]. pose proof (ZD_pos v).
  assert (A : ZD v - 1 < k) by (apply (Z.pow_lt_mono_r_iff 2); lia). lia.
Qed.

(** Shifting out [p] zero bits is exact. *)
Lemma shr_exact p : forall w,
  iter_pos shr_1 p (Build_shr_record (Z.pos w * 2 ^ Z.pos p) false false)
  = Build_shr_record (Z.pos w) false false.
Proof.
  induction p as [p IH|p IH|]; intros w; cbn [iter_pos].
  - replace (Z.pos w * 2 ^ Z.pos p~1)
      with (Z.pos (Pos.iter xO (Pos.iter xO w p) p)~0).
    + cbn [shr_1 orb]. rewrite (iter_xO (Pos.iter xO w p) p), IH, iter_xO. apply IH.
    + change (Z.pos (Pos.iter xO (Pos.iter xO w p) p)~0)
        with (2 * Z.pos (Pos.iter xO (Pos.iter xO w p) p)).
      rewrite !iter_xO. change (Z.pos p~1) with (2 * Z.pos p + 1).
      rewrite Z.pow_add_r, Z.pow_mul_r by lia.
      change (2 ^ 2) with 4. change (2 ^ 1) with 2.
      replace (4 ^ Z.pos p) with (2 ^ Z.pos p * 2 ^ Z.pos p); [lia|].
      rewrite <- Z.pow_mul_l. reflexivity.
  - replace (Z.pos w * 2 ^ Z.pos p~0)
      with (Z.pos (Pos.iter xO w p) * 2 ^ Z.pos p).
    + rewrite IH, iter_xO. apply IH.
    + rewrite iter_xO. change (Z.pos p~0) with (2 * Z.pos p).
      rewrite Z.pow_mul_r by lia. change (2 ^ 2) with 4.
      replace (4 ^ Z.pos p) with (2 ^ Z.pos p * 2 ^ Z.pos p); [lia|].
      rewrite <- Z.pow_mul_l. reflexivity.
  - change (Z.pos w * 2 ^ 1) with (Z.pos w * 2).
    replace (Z.pos w * 2) with (Z.pos w~0) by lia. reflexivity.
Qed.

Lemma fexp_eq x : fexp prec emax x = Z.max (x - 53) (-1074).
Proof. reflexivity. Qed.

(** A significand of 53 bits followed by [p] zero bits rounds to itself. *)
Lemma round_exact s W p E M :
  ZD W = 53 -> 0 <= p -> -1074 <= E <= 971 ->
  Z.pos M = Z.pos W * 2 ^ p ->
  binary_round_aux prec emax s (Z.pos M) (E - p) loc_Exact = S754_finite s W E.
Proof.
  intros HW Hp HE HM.
  assert (HD : ZD M = 53 + p).
  { rewrite <- HW, <- (ZD_shift W p Hp), <- HM. reflexivity. }
  unfold binary_round_aux, shr_fexp. cbn [Zdigits2 shr_record_of_loc].
  fold (ZD M). rewrite HD, fexp_eq.
  replace (Z.max (53 + p + (E - p) - 53) (-1074) - (E - p)) with p by lia.
  assert (E1 : shr (Build_shr_record (Z.pos M) false false) (E - p) p
               = (Build_shr_record (Z.pos W) false false, E)).
  { unfold shr. destruct p as [|q|q]; [| |lia].
    - f_equal; [|lia]. f_equal. rewrite HM. change (2 ^ 0) with 1. lia.
    - f_equal; [|lia]. rewrite HM. apply shr_exact. }
  rewrite E1. cbn [shr_m loc_of_shr_record round_nearest_even Zdigits2 shr_record_of_loc].
  fold (ZD W). rewrite HW, fexp_eq.
  replace (Z.max (53 + E - 53) (-1074) - E) with 0 by lia.
  cbn [shr shr_m].
  destruct (Z.leb_spec E (emax - prec)) as [_|H]; [reflexivity|].
  exfalso. change (emax - prec) with 971 in H. lia.
Qed.

Lemma significand_53 v :
  Z.pos v < 2 ^ 53 ->
  let W := Z.to_pos (Z.pos v * 2 ^ (53 - ZD v)) in
  ZD W = 53 /\ Z.pos W = Z.pos v * 2 ^ (53 - ZD v) /\ 1 <= ZD v <= 53.
Proof.
  intros Hv W. pose proof (ZD_bound v 53 ltac:(lia) Hv) as Hd.
  pose proof (ZD_pos v) as Hp.
  assert (P : 0 < 2 ^ (53 - ZD v)) by (apply Z.pow_pos_nonneg; lia).
  split; [|split; [|lia]].
  - unfold W. rewrite ZD_shift by lia. lia.
  - unfold W. rewrite Z2Pos.id by nia. reflexivity.
Qed.

(** A number below 2^53 times a power of two normalizes to the number. *)
Lemma normalize_exact s V k M :
  Z.pos V < 2 ^ 53 -> 0 <= k -> Z.pos M = Z.pos V * 2 ^ k ->
  binary_round prec emax s M (- k)
  = S754_finite s (Z.to_pos (Z.pos V * 2 ^ (53 - ZD V))) (ZD V - 53).
Proof.
  intros HV Hk HM. destruct (significand_53 V HV) as (HW & EW & Hd).
  set (W := Z.to_pos (Z.pos V * 2 ^ (53 - ZD V))) in *.
  assert (HD : ZD M = ZD V + k).
  { rewrite <- (ZD_shift V k Hk), <- HM. reflexivity. }
  unfold binary_round, shl_align. fold (ZD M). rewrite HD, fexp_eq.
  replace (Z.max (ZD V + k + - k - 53) (-1074) - - k) with (ZD V - 53 + k) by lia.
  replace (Z.max (ZD V + k + - k - 53) (-1074)) with (ZD V - 53) by lia.
  destruct (ZD V - 53 + k) as [|q|q] eqn:Eq.
  - replace (- k) with (ZD V - 53 - (ZD V - 53 + k)) by lia.
    apply round_exact; try lia. rewrite HM, EW, <- Z.mul_assoc, <- Z.pow_add_r by lia.
    do 2 f_equal. lia.
  - replace (- k) with (ZD V - 53 - (ZD V - 53 + k)) by lia.
    apply round_exact; try lia. rewrite HM, EW, <- Z.mul_assoc, <- Z.pow_add_r by lia.
    do 2 f_equal. lia.
  - replace (ZD V - 53) with (ZD V - 53 - 0) at 1 by lia.
    apply round_exact; try lia.
    rewrite iter_xO, HM, EW, <- Z.mul_assoc, <- Z.pow_add_r by lia.
    change (2 ^ 0) with 1. rewrite Z.mul_1_r. do 2 f_equal. lia.
Qed.

Lemma binary_normalize_exact v k :
  Z.abs v < 2 ^ 53 -> 0 <= k ->
  binary_normalize prec emax (v * 2 ^ k) (- k) false = SF_of_Z v.
Proof.
  intros Hv Hk. assert (P : 0 < 2 ^ k) by (apply Z.pow_pos_nonneg; lia).
  destruct v as [|V|V]; [reflexivity| |].
  - destruct (Z.pos V * 2 ^ k) as [|M|M] eqn:EM; try lia.
    cbn [binary_normalize SF_of_Z]. apply normalize_exact; [lia|lia|now symmetry].
  - destruct (Z.neg V * 2 ^ k) as [|M|M] eqn:EM; try lia.
    cbn [binary_normalize SF_of_Z]. apply normalize_exact; [lia|lia|lia].
Qed.

Lemma Prim2SF_number_of_Z a : Z.abs a < 2 ^ 53 -> Prim2SF (number_of_Z a) = SF_of_Z a.
Proof.
  intros Ha. assert (H63 : 2 ^ 53 < wB) by reflexivity.
  assert (Hu : forall n, 0 <= n < 2 ^ 53 ->
            Prim2SF (of_uint63 (Uint63.of_Z n)) = SF_of_Z n).
  { intros n Hn. rewrite FloatAxioms.of_uint63_spec, Uint63.of_Z_spec, Z.mod_small by lia.
    rewrite <- (binary_normalize_exact n 0) by lia.
    change (2 ^ 0) with 1. rewrite Z.mul_1_r. reflexivity. }
  unfold number_of_Z. destruct (Z.ltb_spec a 0) as [Hneg|Hpos].
  - rewrite FloatAxioms.opp_spec, Hu by lia. destruct a as [|v|v]; try lia. reflexivity.
  - apply Hu. lia.
Qed.

(** ** Order *)

Lemma compare_significands u v :
  Z.pos u < 2 ^ 53 -> Z.pos v < 2 ^ 53 ->
  match ZD u - 53 ?= ZD v - 53 with
  | Lt => Lt
  | Gt => Gt
  | Eq => Pos.compare_cont Eq (Z.to_pos (Z.pos u * 2 ^ (53 - ZD u)))
            (Z.to_pos (Z.pos v * 2 ^ (53 - ZD v)))
  end = (Z.pos u ?= Z.pos v).
Proof.
  intros Hu Hv. destruct (significand_53 u Hu) as (_ & Eu & Du).
  destruct (significand_53 v Hv) as (_ & Ev & Dv).
  pose proof (ZD_spec u) as [U1 U2]. pose proof (ZD_spec v) as [V1 V2].
  destruct (Z.compare_spec (ZD u - 53) (ZD v - 53)) as [E|L|G].
  - change (Pos.compare_cont Eq ?a ?b) with (Z.pos a ?= Z.pos b).
    rewrite Eu, Ev. replace (ZD u) with (ZD v) by lia.
    symmetry. apply Zmult_compare_compat_r.
    assert (0 < 2 ^ (53 - ZD v)) by (apply Z.pow_pos_nonneg; lia). lia.
  - symmetry. apply Z.compare_lt_iff.
    assert (2 ^ ZD u <= 2 ^ (ZD v - 1)) by (apply Z.pow_le_mono_r; lia). lia.
  - symmetry. apply Z.compare_gt_iff.
    assert (2 ^ ZD v <= 2 ^ (ZD u - 1)) by (apply Z.pow_le_mono_r; lia). lia.
Qed.

Lemma SFcompare_of_Z a b :
  Z.abs a < 2 ^ 53 -> Z.abs b < 2 ^ 53 ->
  SFcompare (SF_of_Z a) (SF_of_Z b) = Some (a ?= b).
Proof.
  intros Ha Hb. destruct a as [|u|u], b as [|v|v]; try reflexivity;
    cbn [SF_of_Z SFcompare]; f_equal.
  - apply compare_significands; lia.
  - change (Z.neg u ?= Z.neg v) with (CompOpp (Z.pos u ?= Z.pos v)).
    rewrite <- (compare_significands u v) by lia.
    destruct (ZD u - 53 ?= ZD v - 53); reflexivity.
Qed.

Lemma leb_number_of_Z a b :
  Z.abs a < 2 ^ 53 -> Z.abs b < 2 ^ 53 ->
  PrimFloat.leb (number_of_Z a) (number_of_Z b) = (a <=? b).
Proof.
  intros Ha Hb. rewrite FloatAxioms.leb_spec, !Prim2SF_number_of_Z by assumption.
  unfold SFleb. rewrite SFcompare_of_Z by assumption.
  unfold Z.leb. destruct (a ?= b); reflexivity.
Qed.

(** ** Products and differences *)

Lemma ZD_mul u v : ZD u + ZD v - 1 <= ZD (u * v).
Proof.
  pose proof (ZD_spec u) as [U1 _]. pose proof (ZD_spec v) as [V1 _].
  pose proof (ZD_spec (u * v)) as [_ P2]. pose proof (ZD_pos u). pose proof (ZD_pos v).
  pose proof (ZD_pos (u * v)).
  assert (L : 2 ^ (ZD u - 1 + (ZD v - 1)) <= Z.pos (u * v)).
  { rewrite Z.pow_add_r, Pos2Z.inj_mul by lia.
    assert (0 < 2 ^ (ZD u - 1)) by (apply Z.pow_pos_nonneg; lia).
    assert (0 < 2 ^ (ZD v - 1)) by (apply Z.pow_pos_nonneg; lia). nia. }
  assert (A : ZD u - 1 + (ZD v - 1) < ZD (u * v)) by (apply (Z.pow_lt_mono_r_iff 2); lia).
  lia.
Qed.

Lemma SFmul_of_Z a b :
  0 <= a < 2 ^ 53 -> 0 <= b < 2 ^ 53 -> a * b < 2 ^ 53 ->
  SFmul prec emax (SF_of_Z a) (SF_of_Z b) = SF_of_Z (a * b).
Proof.
  intros Ha Hb Hab. destruct a as [|u|u], b as [|v|v]; try reflexivity; try lia.
  change (Z.pos u * Z.pos v) with (Z.pos (u * v)) in *.
  cbn [SF_of_Z SFmul xorb].
  destruct (significand_53 u ltac:(lia)) as (_ & Eu & Du).
  destruct (significand_53 v ltac:(lia)) as (_ & Ev & Dv).
  destruct (significand_53 (u * v) ltac:(lia)) as (Wp & Ep & Dp).
  pose proof (ZD_mul u v) as Hm.
  replace (ZD u - 53 + (ZD v - 53))
    with (ZD (u * v) - 53 - (ZD (u * v) - ZD u - ZD v + 53)) by lia.
  apply round_exact; [exact Wp|lia|lia|].
  change PosDef.Pos.mul with Pos.mul.
  rewrite Pos2Z.inj_mul, Eu, Ev, Ep, Pos2Z.inj_mul.
  replace (Z.pos u * 2 ^ (53 - ZD u) * (Z.pos v * 2 ^ (53 - ZD v)))
    with (Z.pos u * Z.pos v * (2 ^ (53 - ZD u) * 2 ^ (53 - ZD v))) by lia.
  rewrite <- !Z.mul_assoc, <- !Z.pow_add_r by lia. do 3 f_equal. lia.
Qed.

Lemma mul_number_of_Z a b :
  0 <= a < 2 ^ 53 -> 0 <= b < 2 ^ 53 -> a * b < 2 ^ 53 ->
  PrimFloat.mul (number_of_Z a) (number_of_Z b) = number_of_Z (a * b).
Proof.
  intros Ha Hb Hab. apply Prim2SF_inj.
  rewrite FloatAxioms.mul_spec, !Prim2SF_number_of_Z by nia.
  now apply SFmul_of_Z.
Qed.

Lemma shl_align_value m e e' :
  e' <= e -> Z.pos (fst (shl_align m e e')) = Z.pos m * 2 ^ (e - e').
Proof.
  intros H. unfold shl_align. destruct (e' - e) as [|d|d] eqn:E; cbn [fst].
  - replace (e - e') with 0 by lia. change (2 ^ 0) with 1. lia.
  - lia.
  - rewrite iter_xO. do 2 f_equal. lia.
Qed.

Lemma SFsub_of_Z a b :
  0 <= a < 2 ^ 53 -> 0 <= b < 2 ^ 53 ->
  SFsub prec emax (SF_of_Z a) (SF_of_Z b) = SF_of_Z (a - b).
Proof.
  intros Ha Hb. destruct a as [|u|u], b as [|v|v]; try reflexivity; try lia.
  cbn [SF_of_Z SFsub cond_Zopp].
  destruct (significand_53 u ltac:(lia)) as (_ & Eu & Du).
  destruct (significand_53 v ltac:(lia)) as (_ & Ev & Dv).
  set (ez := Z.min (ZD u - 53) (ZD v - 53)).
  rewrite !shl_align_value by (unfold ez; lia). rewrite Eu, Ev.
  rewrite <- !Z.mul_assoc, <- !Z.pow_add_r by (unfold ez; lia).
  replace (53 - ZD u + (ZD u - 53 - ez)) with (- ez) by lia.
  replace (53 - ZD v + (ZD v - 53 - ez)) with (- ez) by lia.
  rewrite <- Z.mul_sub_distr_r.
  replace ez with (- - ez) at 2 by lia.
  apply binary_normalize_exact; unfold ez; lia.
Qed.

Lemma sub_number_of_Z a b :
  0 <= a < 2 ^ 53 -> 0 <= b < 2 ^ 53 ->
  PrimFloat.sub (number_of_Z a) (number_of_Z b) = number_of_Z (a - b).
Proof.
  intros Ha Hb. apply Prim2SF_inj.
  rewrite FloatAxioms.sub_spec, !Prim2SF_number_of_Z by lia.
  now apply SFsub_of_Z.
Qed.

(** ** Worked examples of the resolver *)

Example ex_day : dayFromChallengeId "**D01C10" = Ok 1.
Proof. reflexivity. Qed.
Example ex_bad : dayFromChallengeId "bad-id" = Throw InvalidChallengeId.
Proof. reflexivity. Qed.
Example ex_date : dateFromChallengeId "**D08C00" = Ok "2025-11-06".
Proof. vm_compute. reflexivity. Qed.
Example ex_tge : tgeStart = 1761782400000.
Proof. reflexivity. Qed.
Example ex_iso : toISOString (TimeClip 1762338120123) = Ok "2025-11-05T10:22:00.123Z".
Proof. vm_compute. reflexivity. Qed.
Example ex_num : numberToString (15 * 10 ^ 20) = "1.5e+21".
Proof. vm_compute. reflexivity. Qed.
Example ex_num2 : numberToString 10000000000000000000000 = "1e+22".
Proof. vm_compute. reflexivity. Qed.
Example ex_num3 : padStart2 (numberToString 7) = "07".
Proof. vm_compute. reflexivity. Qed.
Example ex_range : dateFromChallengeId "**D99979610C" = Ok "+275760-09-13".
Proof. vm_compute. reflexivity. Qed.
Example ex_range2 : dateFromChallengeId "**D99979611C" = Throw InvalidTimeValue.
Proof. vm_compute. reflexivity. Qed.

(** [to_Number] is the rounding of the Standard Library's binary64: checked
    on small numbers, around 2^53, where [Number.prototype.toString] changes
    notation, and around the overflow threshold. *)
Example ex_to_Number :
  forallb (fun n => match Number_of_SF (binary_normalize prec emax n 0 false) with
                    | Some v => v =? to_Number n
                    | None => false
                    end)
    [0; 7; 99979611; 2 ^ 53 - 1; 2 ^ 53; 2 ^ 53 + 1; 2 ^ 53 + 2; 2 ^ 53 + 3;
     2 ^ 60 + 129; 10 ^ 21 - 1; 10 ^ 21; 10 ^ 21 + 65537;
     2 ^ 1024 - 2 ^ 970 - 1; 2 ^ 1024 - 2 ^ 970; 10 ^ 400] = true.
Proof. vm_compute. reflexivity. Qed.
Example ex_round : dayFromChallengeId "**D9007199254740993C00" = Ok 9007199254740992.
Proof. vm_compute. reflexivity. Qed.
Example ex_round2 :
  dayFromChallengeId "**D999999999999999999999C00" = Ok (10 ^ 21) /\
  challengeId_of_day (10 ^ 21) = "**D1e+21C00".
Proof. vm_compute. split; reflexivity. Qed.

(** ** The exception monad *)

Lemma bind_Ok {A B} (c : result A) (k : A -> result B) b :
  bind c k = Ok b -> exists a, c = Ok a /\ k a = Ok b.
Proof. destruct c; simpl; intros H; [eauto | discriminate]. Qed.

Lemma bind_Throw {A B} (c : result A) (k : A -> result B) e :
  bind c k = Throw e -> c = Throw e \/ exists a, c = Ok a /\ k a = Throw e.
Proof. destruct c; simpl; intros H; [right; eauto | left; congruence]. Qed.

Ltac inv_bind H :=
  let a := fresh "a" in
  let Ha := fresh "Ha" in
  apply bind_Ok in H; destruct H as (a & Ha & H).

Lemma foldM_app {A S} (f : S -> A -> result S) l1 l2 s :
  foldM f s (l1 ++ l2)%list = (s' <- foldM f s l1 ;; foldM f s' l2).
Proof.
  revert s; induction l1 as [|x l1 IH]; intros s; simpl; [reflexivity|].
  destruct (f s x); simpl; auto.
Qed.

(** A loop whose body decodes something and then updates the state. *)
Lemma foldM_decode {A B S} (g : A -> result B) (h : S -> A -> B -> S) l :
  forall s ys, mapM g l = Ok ys ->
  foldM (fun s x => y <- g x ;; Ok (h s x y)) s l
  = Ok (fold_left (fun s xy => h s (fst xy) (snd xy)) (combine l ys) s).
Proof.
  induction l as [|x l IH]; intros s ys H; simpl in *.
  - injection H as <-. reflexivity.
  - destruct (g x) as [y|e]; simpl in *; [|discriminate].
    destruct (mapM g l) as [ys'|e]; simpl in *; [|discriminate].
    injection H as <-. simpl. apply IH. reflexivity.
Qed.

Lemma foldM_decode_inv {A B S} (g : A -> result B) (h : S -> A -> B -> S) l :
  forall s s', foldM (fun s x => y <- g x ;; Ok (h s x y)) s l = Ok s' ->
  exists ys, mapM g l = Ok ys.
Proof.
  induction l as [|x l IH]; intros s s' H; simpl in *; [eauto|].
  destruct (g x) as [y|e]; simpl in *; [|discriminate].
  destruct (IH _ _ H) as [ys Hys]. rewrite Hys. simpl. eauto.
Qed.

(** The loop throws what the decoder throws on the first element it
    rejects. *)
Lemma foldM_decode_throw {A B S} (g : A -> result B) (h : S -> A -> B -> S) e l :
  (forall x e', g x = Throw e' -> e' = e) ->
  Exists (fun x => exists e', g x = Throw e') l ->
  forall s, foldM (fun s x => y <- g x ;; Ok (h s x y)) s l = Throw e.
Proof.
  intros Hg. induction l as [|x l IH]; intros Hex s; [inversion Hex|].
  simpl. destruct (g x) as [y|e'] eqn:E; simpl.
  - apply IH. inversion Hex as [? ? [e' He']|]; subst; [congruence|assumption].
  - f_equal. eapply Hg; eauto.
Qed.

(** A loop that pushes one computed entry per round. *)
Lemma foldM_push {A B} (f : A -> result B) l :
  forall acc, foldM (fun acc x => y <- f x ;; Ok (acc ++ [y])%list) acc l
              = (ys <- mapM f l ;; Ok (acc ++ ys)%list).
Proof.
  induction l as [|x l IH]; intros acc; simpl.
  - now rewrite app_nil_r.
  - destruct (f x) as [y|e]; simpl; [|reflexivity].
    rewrite IH. destruct (mapM f l); simpl; [|reflexivity].
    now rewrite <- app_assoc.
Qed.

Lemma mapM_Forall2 {A B} (f : A -> result B) l ys :
  mapM f l = Ok ys <-> Forall2 (fun x y => f x = Ok y) l ys.
Proof.
  revert ys; induction l as [|x l IH]; intros ys; simpl; split; intros H.
  - injection H as <-. constructor.
  - inversion H. reflexivity.
  - inv_bind H. inv_bind H. injection H as <-. constructor; [assumption|]. now apply IH.
  - inversion H as [|? y ? ys' Hy Hys]; subst. rewrite Hy. simpl.
    apply IH in Hys. rewrite Hys. reflexivity.
Qed.

Lemma mapM_pure {A B} (f : A -> result B) (g : A -> B) l :
  Forall (fun x => f x = Ok (g x)) l -> mapM f l = Ok (map g l).
Proof.
  induction 1 as [|x l Hx _ IH]; simpl; [reflexivity|].
  rewrite Hx, IH. reflexivity.
Qed.

Lemma mapM_length {A B} (f : A -> result B) l ys :
  mapM f l = Ok ys -> List.length ys = List.length l.
Proof. intros H. apply mapM_Forall2 in H. symmetry. eapply Forall2_length; eauto. Qed.

Lemma filterM_pure {A} (f : A -> result bool) (g : A -> bool) l :
  Forall (fun x => f x = Ok (g x)) l -> filterM f l = Ok (filter g l).
Proof.
  induction 1 as [|x l Hx _ IH]; simpl; [reflexivity|].
  rewrite Hx, IH. simpl. reflexivity.
Qed.

Lemma filterM_Ok {A} (f : A -> result bool) l ys :
  filterM f l = Ok ys ->
  Forall (fun x => exists b, f x = Ok b) l /\ ys = filter (fun x => ok_or_false (f x)) l.
Proof.
  revert ys; induction l as [|x l IH]; intros ys H; simpl in *.
  - injection H as <-. split; constructor.
  - inv_bind H. inv_bind H. injection H as <-.
    destruct (IH _ Ha0) as (Hg & ->). rewrite Ha. simpl. split; [|reflexivity].
    constructor; eauto.
Qed.

Lemma Ok_inj {A} (a b : A) : Ok a = Ok b -> a = b.
Proof. intros H. now injection H. Qed.

Lemma filterM_app {A} (f : A -> result bool) l1 l2 :
  filterM f (l1 ++ l2)%list
  = (ys1 <- filterM f l1 ;; ys2 <- filterM f l2 ;; Ok (ys1 ++ ys2)%list).
Proof.
  induction l1 as [|x l1 IH]; simpl.
  - destruct (filterM f l2); reflexivity.
  - destruct (f x) as [b|e]; simpl; [|reflexivity]. rewrite IH.
    destruct (filterM f l1) as [ys1|e]; simpl; [|reflexivity].
    destruct (filterM f l2) as [ys2|e]; simpl; [|reflexivity].
    destruct b; reflexivity.
Qed.


(** ** The identifier pattern *)

Lemma span_digits_spec t : forall d r,
  span_digits t = (d, r) ->
  t = d ++ r /\ all_digits d = true /\
  match r with
  | EmptyString => True
  | String c _ => is_digit c = false
  end.
Proof.
  induction t as [|c t IH]; intros d r H; simpl in H.
  - injection H as <- <-. auto.
  - destruct (is_digit c) eqn:E.
    + destruct (span_digits t) as [d' r']. injection H as <- <-.
      destruct (IH _ _ eq_refl) as (-> & Hd & Hr). simpl. rewrite E, Hd. auto.
    + injection H as <- <-. simpl. auto.
Qed.

Lemma span_digits_app ds c post :
  all_digits ds = true -> is_digit c = false ->
  span_digits (ds ++ String c post) = (ds, String c post).
Proof.
  intros Hd Hc. induction ds as [|a ds IH]; simpl in *.
  - now rewrite Hc.
  - apply andb_true_iff in Hd as [Ha Hd]. rewrite Ha, (IH Hd). reflexivity.
Qed.

Lemma match_here_complete s ds :
  pattern_at s "" ds -> match_here s = Some ds.
Proof.
  intros (Hne & Hd & post & ->). simpl.
  rewrite span_digits_app by (assumption || reflexivity).
  destruct ds; [contradiction|reflexivity].
Qed.

Lemma match_here_sound s ds :
  match_here s = Some ds -> pattern_at s "" ds.
Proof.
  unfold match_here. intros H.
  destruct s as [|c1 [|c2 [|c3 t]]]; try discriminate.
  destruct (Ascii.eqb_spec c1 "*") as [->|N]; [|discriminate].
  destruct (Ascii.eqb_spec c2 "*") as [->|N]; [|discriminate].
  destruct (Ascii.eqb_spec c3 "D") as [->|N]; [|discriminate].
  simpl in H. destruct (span_digits t) as [d r] eqn:E.
  destruct (span_digits_spec _ _ _ E) as (-> & Hd & _).
  destruct d as [|a d]; [discriminate|].
  destruct r as [|c r]; [discriminate|].
  destruct (Ascii.eqb_spec c "C") as [->|N]; [|discriminate].
  injection H as <-. repeat split; [discriminate|assumption|].
  exists r. reflexivity.
Qed.

Lemma pattern_at_cons c s pre ds :
  pattern_at (String c s) (String c pre) ds <-> pattern_at s pre ds.
Proof.
  unfold pattern_at. split; intros (Hne & Hd & post & E); repeat split; auto; exists post.
  - simpl in E. now injection E.
  - simpl. now rewrite E.
Qed.

Lemma pattern_at_head c c' s pre ds :
  pattern_at (String c s) (String c' pre) ds -> c' = c.
Proof. intros (_ & _ & post & E). simpl in E. now injection E. Qed.

Lemma regex_match_eq s :
  regex_match s =
  match match_here s with
  | Some d => Some d
  | None =>
      match s with
      | EmptyString => None
      | String _ s' => regex_match s'
      end
  end.
Proof. destruct s; reflexivity. Qed.

Lemma regex_match_sound s : forall ds,
  regex_match s = Some ds ->
  exists pre, pattern_at s pre ds /\
    forall pre' ds', pattern_at s pre' ds' -> (String.length pre <= String.length pre')%nat.
Proof.
  induction s as [|c s IH]; intros ds H.
  - simpl in H. discriminate.
  - rewrite regex_match_eq in H. destruct (match_here (String c s)) as [d|] eqn:E.
    + injection H as ->. exists "". split; [now apply match_here_sound|].
      intros; simpl; lia.
    + destruct (IH _ H) as (pre & Hp & Hmin). exists (String c pre). split.
      * now apply (proj2 (pattern_at_cons _ _ _ _)).
      * intros pre' ds' Hp'. destruct pre' as [|c' pre'].
        -- apply match_here_complete in Hp'. congruence.
        -- pose proof (pattern_at_head _ _ _ _ _ Hp') as ->.
           apply (proj1 (pattern_at_cons _ _ _ _)) in Hp'. simpl. specialize (Hmin _ _ Hp'). lia.
Qed.

Lemma regex_match_complete pre : forall s ds,
  pattern_at s pre ds -> exists ds', regex_match s = Some ds'.
Proof.
  induction pre as [|c pre IH]; intros s ds Hp.
  - apply match_here_complete in Hp. rewrite regex_match_eq, Hp. eauto.
  - destruct s as [|c' s]; [destruct Hp as (_ & _ & post & E); discriminate|].
    pose proof (pattern_at_head _ _ _ _ _ Hp) as ->.
    apply (proj1 (pattern_at_cons _ _ _ _)) in Hp. rewrite regex_match_eq.
    destruct (match_here (String c' s)); eauto.
Qed.

Lemma dayFromChallengeId_throws id e :
  dayFromChallengeId id = Throw e -> e = InvalidChallengeId.
Proof. unfold dayFromChallengeId. destruct (regex_match id); congruence. Qed.

Lemma dayFromChallengeId_Ok_iff id :
  (exists n, dayFromChallengeId id = Ok n) <-> matches_pattern id.
Proof.
  unfold dayFromChallengeId. split.
  - intros [n H]. destruct (regex_match id) as [ds|] eqn:E; [|discriminate].
    destruct (regex_match_sound _ _ E) as (pre & Hp & _). now exists pre, ds.
  - intros (pre & ds & Hp). destruct (regex_match_complete _ _ _ Hp) as [ds' ->]. eauto.
Qed.

Lemma dayFromChallengeId_Throw_iff id :
  dayFromChallengeId id = Throw InvalidChallengeId <-> ~ matches_pattern id.
Proof.
  rewrite <- dayFromChallengeId_Ok_iff. split.
  - intros H [n Hn]. congruence.
  - intros H. destruct (dayFromChallengeId id) as [n|e] eqn:E.
    + exfalso. eauto.
    + now rewrite (dayFromChallengeId_throws _ _ E).
Qed.

(** ** Decimal numerals *)

Lemma is_digit_value c : is_digit c = true -> 0 <= digit_value c <= 9.
Proof.
  unfold is_digit, digit_value. intros H. cbv zeta in H.
  apply andb_true_iff in H as [H1 H2].
  apply Nat.leb_le in H1, H2. revert H1 H2.
  generalize (nat_of_ascii c). intros n H1 H2. lia.
Qed.

Lemma parseInt_from_nonneg s : forall a,
  all_digits s = true -> 0 <= a -> 0 <= parseInt_from a s.
Proof.
  unfold parseInt_from. induction s as [|c s IH]; intros a Hd Ha;
    cbn [fold_left list_ascii_of_string all_digits] in *; [assumption|].
  apply andb_true_iff in Hd as [Hc Hd]. apply IH; [assumption|].
  pose proof (is_digit_value c Hc). lia.
Qed.

Lemma list_ascii_app s1 s2 :
  list_ascii_of_string (s1 ++ s2) = (list_ascii_of_string s1 ++ list_ascii_of_string s2)%list.
Proof. induction s1 as [|c s1 IH]; simpl; [reflexivity|now rewrite IH]. Qed.

Lemma parseInt_from_snoc a s c :
  parseInt_from a (s ++ String c "") = 10 * parseInt_from a s + digit_value c.
Proof.
  unfold parseInt_from. rewrite list_ascii_app, fold_left_app. reflexivity.
Qed.

Lemma all_digits_app s1 s2 :
  all_digits (s1 ++ s2) = all_digits s1 && all_digits s2.
Proof. induction s1 as [|c s1 IH]; simpl; [reflexivity|]. now rewrite IH, andb_assoc. Qed.

Lemma decimal_fuel_spec fuel : forall n,
  (0 < fuel)%nat -> 0 <= n < 2 ^ Z.of_nat fuel ->
  mathInt (decimal_fuel fuel n) = n /\ all_digits (decimal_fuel fuel n) = true /\
  decimal_fuel fuel n <> "".
Proof.
  induction fuel as [|f IH]; intros n Hf Hn; [lia|].
  cbn [decimal_fuel]. destruct (Z.ltb_spec n 10) as [Hlt|Hge].
  - repeat split; [|simpl; rewrite is_digit_char by lia; reflexivity|discriminate].
    unfold mathInt, parseInt_from. cbn [list_ascii_of_string fold_left].
    rewrite digit_value_char by lia. lia.
  - rewrite Nat2Z.inj_succ, Z.pow_succ_r in Hn by lia.
    assert (Hq : 0 <= n / 10 < 2 ^ Z.of_nat f).
    { split; [apply Z.div_pos; lia|]. apply Z.div_lt_upper_bound; lia. }
    assert (Hf' : (0 < f)%nat).
    { destruct f; [|lia]. simpl in Hq. assert (1 <= n / 10) by (apply Z.div_le_lower_bound; lia). lia. }
    destruct (IH _ Hf' Hq) as (Hp & Hd & Hne).
    pose proof (mod10_range n) as Hr.
    repeat split.
    + unfold mathInt in *. rewrite parseInt_from_snoc, Hp, digit_value_char by lia.
      pose proof (Z.div_mod n 10 ltac:(lia)). lia.
    + rewrite all_digits_app, Hd. simpl. rewrite is_digit_char by lia. reflexivity.
    + destruct (decimal_fuel f (n / 10)); [contradiction|discriminate].
Qed.

Lemma decimal_spec n :
  0 <= n ->
  mathInt (decimal n) = n /\ all_digits (decimal n) = true /\ decimal n <> "".
Proof.
  intros Hn. apply decimal_fuel_spec; [lia|]. split; [assumption|].
  rewrite Nat2Z.inj_succ, Z2Nat.id by apply Z.log2_nonneg.
  destruct (Z.eq_dec n 0) as [->|Hne]; [reflexivity|].
  apply Z.log2_spec. lia.
Qed.

Lemma padStart2_spec s :
  all_digits s = true -> s <> "" ->
  mathInt (padStart2 s) = mathInt s /\ all_digits (padStart2 s) = true /\
  padStart2 s <> "".
Proof.
  intros Hd Hne. unfold padStart2.
  destruct s as [|c [|c' s]]; [contradiction| |]; simpl String.length; cbv iota.
  - split; [reflexivity|split; [cbn [append all_digits] in *; exact Hd|discriminate]].
  - split; [reflexivity|split; assumption].
Qed.

Lemma dayFromChallengeId_at_start ds post :
  ds <> "" -> all_digits ds = true ->
  dayFromChallengeId ("**D" ++ ds ++ "C" ++ post) = Ok (parseInt ds).
Proof.
  intros Hne Hd. unfold dayFromChallengeId. rewrite regex_match_eq.
  rewrite (match_here_complete _ ds); [reflexivity|].
  repeat split; auto. exists post. reflexivity.
Qed.

(** ** The Number value of an integer *)

Lemma to_Number_small n : n < 2 ^ 53 -> to_Number n = n.
Proof.
  intros H. unfold to_Number. destruct (Z.ltb_spec n (2 ^ 53)); [reflexivity|lia].
Qed.

(** The significand and the exponent of a number from 2^53 on. *)
Lemma significand_range n :
  2 ^ 53 <= n ->
  let e := Z.log2 n - 52 in
  1 <= e /\ 0 < 2 ^ e /\ 2 ^ 52 <= n / 2 ^ e < 2 ^ 53 /\ 0 <= n mod 2 ^ e < 2 ^ e.
Proof.
  intros Hn e.
  assert (Hpos : 0 < n) by (assert (0 < 2 ^ 53) by reflexivity; lia).
  assert (He : 1 <= e).
  { unfold e. assert (53 <= Z.log2 n) by (apply Z.log2_le_pow2; assumption). lia. }
  assert (Hp : 0 < 2 ^ e) by (apply Z.pow_pos_nonneg; lia).
  pose proof (Z.log2_spec n Hpos) as [Hlo Hhi].
  replace (Z.log2 n) with (52 + e) in Hlo by (unfold e; lia).
  replace (Z.succ (Z.log2 n)) with (53 + e) in Hhi by (unfold e; lia).
  rewrite Z.pow_add_r in Hlo, Hhi by lia.
  split; [assumption|]. split; [assumption|]. split.
  - split.
    + apply Z.div_le_lower_bound; lia.
    + apply Z.div_lt_upper_bound; lia.
  - apply Z.mod_pos_bound. assumption.
Qed.

Lemma to_Number_large n : 2 ^ 53 <= n -> 2 ^ 53 <= to_Number n.
Proof.
  intros Hn. unfold to_Number. destruct (Z.ltb_spec n (2 ^ 53)); [lia|].
  destruct (significand_range n Hn) as (He & Hp & Hq & Hr). cbv zeta.
  set (e := Z.log2 n - 52) in *. set (q := n / 2 ^ e) in *.
  assert (H53 : 2 ^ 53 <= 2 ^ 52 * 2 ^ e).
  { change (2 ^ 53) with (2 ^ 52 * 2 ^ 1).
    apply Z.mul_le_mono_nonneg_l; [lia|]. apply Z.pow_le_mono_r; lia. }
  apply Z.min_glb; [|unfold Infinity; apply Z.pow_le_mono_r; lia].
  destruct (2 * (n mod 2 ^ e) <? 2 ^ e);
    [|destruct ((2 * (n mod 2 ^ e) =? 2 ^ e) && Z.even q)]; nia.
Qed.

Lemma to_Number_nonneg n : 0 <= n -> 0 <= to_Number n.
Proof.
  intros Hn. destruct (Z.lt_ge_cases n (2 ^ 53)) as [H|H].
  - rewrite to_Number_small by assumption. exact Hn.
  - pose proof (to_Number_large n H). assert (0 < 2 ^ 53) by reflexivity. lia.
Qed.

Lemma to_Number_exact q e :
  2 ^ 52 <= q <= 2 ^ 53 -> 1 <= e -> q * 2 ^ e < Infinity ->
  to_Number (q * 2 ^ e) = q * 2 ^ e.
Proof.
  intros Hq He Hinf.
  assert (Hp : 2 <= 2 ^ e).
  { change 2 with (2 ^ 1) at 1. apply Z.pow_le_mono_r; lia. }
  assert (H52 : 0 < 2 ^ 52) by reflexivity.
  assert (H53 : 2 ^ 53 = 2 * 2 ^ 52) by reflexivity.
  assert (Hbig : 2 ^ 53 <= q * 2 ^ e) by nia.
  unfold to_Number. destruct (Z.ltb_spec (q * 2 ^ e) (2 ^ 53)); [lia|].
  destruct (Z.eq_dec q (2 ^ 53)) as [->|Hne].
  - assert (L : Z.log2 (2 ^ 53 * 2 ^ e) = 53 + e).
    { rewrite <- Z.pow_add_r by lia. apply Z.log2_pow2. lia. }
    rewrite L. replace (53 + e - 52) with (e + 1) by lia.
    rewrite (Z.pow_add_r 2 e 1) by lia. change (2 ^ 1) with 2.
    replace (2 ^ 53 * 2 ^ e) with (2 ^ 52 * (2 ^ e * 2)) by lia.
    rewrite Z.div_mul, Z.mod_mul by lia.
    destruct (Z.ltb_spec (2 * 0) (2 ^ e * 2)); [|lia].
    apply Z.min_l. lia.
  - assert (L : Z.log2 (q * 2 ^ e) = 52 + e).
    { apply Z.log2_unique; [lia|]. rewrite Z.pow_succ_r, Z.pow_add_r by lia. nia. }
    rewrite L. replace (52 + e - 52) with e by lia.
    rewrite Z.div_mul, Z.mod_mul by lia.
    destruct (Z.ltb_spec (2 * 0) (2 ^ e)); [|lia].
    apply Z.min_l. lia.
Qed.

(** A Number value is its own Number value. *)
Lemma to_Number_fixed n : to_Number (to_Number n) = to_Number n.
Proof.
  destruct (Z.lt_ge_cases n (2 ^ 53)) as [H|H].
  - rewrite (to_Number_small n H). exact (to_Number_small n H).
  - destruct (significand_range n H) as (He & Hp & Hq & Hr).
    set (e := Z.log2 n - 52) in *. set (q := n / 2 ^ e) in *.
    set (q' := if 2 * (n mod 2 ^ e) <? 2 ^ e then q
               else if (2 * (n mod 2 ^ e) =? 2 ^ e) && Z.even q then q else q + 1).
    assert (E : to_Number n = Z.min (q' * 2 ^ e) Infinity).
    { unfold to_Number. destruct (Z.ltb_spec n (2 ^ 53)); [lia|]. reflexivity. }
    assert (Hq' : 2 ^ 52 <= q' <= 2 ^ 53).
    { unfold q'. destruct (2 * (n mod 2 ^ e) <? 2 ^ e);
        [|destruct ((2 * (n mod 2 ^ e) =? 2 ^ e) && Z.even q)]; lia. }
    rewrite E. destruct (Z.min_spec (q' * 2 ^ e) Infinity) as [[Hlt ->]|[Hge ->]].
    + now apply to_Number_exact.
    + vm_compute. reflexivity.
Qed.

(** Rounding moves a number by at most half a unit of its last place. *)
Lemma to_Number_near n :
  2 ^ 53 <= n -> to_Number n < Infinity ->
  Z.abs (to_Number n - n) <= 2 ^ (Z.log2 n - 53).
Proof.
  intros Hn Hfin. destruct (significand_range n Hn) as (He & Hp & Hq & Hr).
  unfold to_Number in *. destruct (Z.ltb_spec n (2 ^ 53)); [lia|]. cbv zeta in *.
  set (e := Z.log2 n - 52) in *. set (q := n / 2 ^ e) in *.
  set (r := n mod 2 ^ e) in *.
  assert (En : n = q * 2 ^ e + r).
  { unfold q, r. pose proof (Z.div_mod n (2 ^ e)). lia. }
  replace (Z.log2 n - 53) with (e - 1) by (unfold e; lia).
  assert (E2 : 2 ^ e = 2 * 2 ^ (e - 1)).
  { rewrite <- Z.pow_succ_r by lia. f_equal. lia. }
  revert Hfin.
  destruct (Z.ltb_spec (2 * r) (2 ^ e));
    [|destruct (Z.eqb_spec (2 * r) (2 ^ e)); [destruct (Z.even q)|]];
    cbn [andb]; intros Hfin; rewrite Z.min_l by lia; lia.
Qed.

Lemma parseInt_nonneg ds : all_digits ds = true -> 0 <= parseInt ds.
Proof.
  intros H. apply to_Number_nonneg. now apply parseInt_from_nonneg.
Qed.

(** ** Re-encoded identifiers *)

Lemma dayFromChallengeId_of_day n :
  0 <= n < 10 ^ 21 -> dayFromChallengeId (challengeId_of_day n) = Ok (to_Number n).
Proof.
  intros Hn. unfold challengeId_of_day, numberToString.
  destruct (Z.leb_spec Infinity n) as [Hi|_].
  { exfalso. assert (10 ^ 21 < Infinity) by reflexivity. lia. }
  destruct (Z.ltb_spec n (10 ^ 21)) as [_|?]; [|lia].
  destruct (decimal_spec n ltac:(lia)) as (Hp & Hd & Hne).
  destruct (padStart2_spec _ Hd Hne) as (Hp' & Hd' & Hne').
  change "C00" with ("C" ++ "00").
  rewrite dayFromChallengeId_at_start by assumption. unfold parseInt. congruence.
Qed.

Lemma dayFromChallengeId_of_small_day n :
  0 <= n < 2 ^ 53 -> dayFromChallengeId (challengeId_of_day n) = Ok n.
Proof.
  intros Hn. assert (H : 2 ^ 53 < 10 ^ 21) by reflexivity.
  assert (H1 : 0 <= n < 10 ^ 21) by lia.
  rewrite (dayFromChallengeId_of_day n H1).
  rewrite to_Number_small by lia. reflexivity.
Qed.

Lemma dayFromChallengeId_nonneg id n : dayFromChallengeId id = Ok n -> 0 <= n.
Proof.
  unfold dayFromChallengeId. destruct (regex_match id) as [ds|] eqn:E; [|discriminate].
  intros H. injection H as <-.
  destruct (regex_match_sound _ _ E) as (pre & (_ & Hd & _) & _).
  now apply parseInt_nonneg.
Qed.

(** A decoded day is a Number value. *)
Lemma dayFromChallengeId_Number id n :
  dayFromChallengeId id = Ok n -> to_Number n = n.
Proof.
  unfold dayFromChallengeId. destruct (regex_match id) as [ds|]; [|discriminate].
  intros H. injection H as <-. apply to_Number_fixed.
Qed.
(** ** Dates of mining days *)

Lemma before_T_isoString t : before_T (isoString t) = dateString t.
Proof.
  unfold isoString, dateString.
  destruct (civil_from_days (t / msPerDay)) as [[y m] d].
  apply before_T_format_date.
Qed.

Lemma dateFromChallengeId_eq id n :
  dayFromChallengeId id = Ok n ->
  dateFromChallengeId id =
  if n <=? maxDay then Ok (dateString (tgeStart + (n - 1) * 86400000))
  else Throw InvalidTimeValue.
Proof.
  intros H. pose proof (dayFromChallengeId_nonneg _ _ H) as Hn.
  unfold dateFromChallengeId. rewrite H. cbn [bind].
  replace (tgeStart + (n - 1) * 24 * 60 * 60 * 1000)
    with (tgeStart + (n - 1) * 86400000) by lia.
  unfold TimeClip, maxDay.
  change tgeStart with 1761782400000.
  destruct (Z.leb_spec n 99979610) as [Hle|Hgt].
  - destruct (Z.leb_spec (Z.abs (1761782400000 + (n - 1) * 86400000)) 8640000000000000); [|lia].
    cbn [toISOString bind]. now rewrite before_T_isoString.
  - destruct (Z.leb_spec (Z.abs (1761782400000 + (n - 1) * 86400000)) 8640000000000000); [lia|].
    reflexivity.
Qed.

Lemma day_of_time_range t :
  Z.abs t <= 8640000000000000 -> -100000000 <= t / msPerDay <= 100000000.
Proof. intros Ht. unfold msPerDay. Z.div_mod_to_equations. lia. Qed.

Lemma year_range z y :
  -100000000 <= z <= 100000000 ->
  400 * ((z + 719468) / 146097) <= y <= 400 * ((z + 719468) / 146097) + 400 ->
  -999999 <= y <= 999999.
Proof. intros Hz Hy. Z.div_mod_to_equations. lia. Qed.

Lemma dateString_inj t1 t2 :
  Z.abs t1 <= 8640000000000000 -> Z.abs t2 <= 8640000000000000 ->
  dateString t1 = dateString t2 -> t1 / msPerDay = t2 / msPerDay.
Proof.
  intros H1 H2. unfold dateString.
  pose proof (civil_roundtrip (t1 / msPerDay)) as R1.
  pose proof (civil_roundtrip (t2 / msPerDay)) as R2.
  pose proof (day_of_time_range _ H1) as B1.
  pose proof (day_of_time_range _ H2) as B2.
  destruct (civil_from_days (t1 / msPerDay)) as [[y1 m1] d1].
  destruct (civil_from_days (t2 / msPerDay)) as [[y2 m2] d2].
  destruct R1 as (E1 & Hm1 & Hd1 & Hy1), R2 as (E2 & Hm2 & Hd2 & Hy2).
  pose proof (year_range _ _ B1 Hy1) as Y1.
  pose proof (year_range _ _ B2 Hy2) as Y2.
  clear Hy1 Hy2 B1 B2 H1 H2.
  intros Hf.
  destruct (format_date_inj y1 m1 d1 y2 m2 d2) as (Ey & Em & Ed);
    [exact Y1|exact Y2|lia|lia|lia|lia|exact Hf|].
  rewrite <- E1, <- E2, Ey, Em, Ed. reflexivity.
Qed.

Lemma day_of_mining_day n : (tgeStart + (n - 1) * 86400000) / msPerDay = 20390 + n.
Proof.
  change tgeStart with 1761782400000. unfold msPerDay.
  Z.div_mod_to_equations. lia.
Qed.

Lemma dateFromChallengeId_inj id1 id2 n1 n2 d :
  dayFromChallengeId id1 = Ok n1 -> dayFromChallengeId id2 = Ok n2 ->
  dateFromChallengeId id1 = Ok d -> dateFromChallengeId id2 = Ok d ->
  n1 = n2.
Proof.
  intros D1 D2 H1 H2.
  pose proof (dayFromChallengeId_nonneg _ _ D1) as P1.
  pose proof (dayFromChallengeId_nonneg _ _ D2) as P2.
  rewrite (dateFromChallengeId_eq _ _ D1) in H1.
  rewrite (dateFromChallengeId_eq _ _ D2) in H2. unfold maxDay in *.
  destruct (Z.leb_spec n1 99979610); [|discriminate].
  destruct (Z.leb_spec n2 99979610); [|discriminate].
  apply Ok_inj in H1, H2. rewrite <- H2 in H1.
  apply dateString_inj in H1.
  - rewrite 2 day_of_mining_day in H1. lia.
  - change tgeStart with 1761782400000. lia.
  - change tgeStart with 1761782400000. lia.
Qed.

(** ** Maps in insertion order *)

Section OrderedMapFacts.
Context {K V : Type} (eqb : K -> K -> bool).
Hypothesis eqb_spec : forall a b, reflect (a = b) (eqb a b).

Lemma map_get_In k v (m : list (K * V)) : map_get eqb k m = Some v -> In (k, v) m.
Proof.
  induction m as [|[k' v'] m IH]; simpl; [discriminate|].
  destruct (eqb_spec k k') as [->|N]; intros H.
  - injection H as ->. now left.
  - right. auto.
Qed.

Lemma map_get_None k (m : list (K * V)) :
  map_get eqb k m = None <-> ~ In k (map fst m).
Proof.
  induction m as [|[k' v'] m IH]; simpl; [tauto|].
  destruct (eqb_spec k k') as [->|N]; split; intros H.
  - discriminate.
  - exfalso. apply H. now left.
  - intros [E|HI]; [congruence|]. now apply IH.
  - apply IH. tauto.
Qed.

Lemma In_map_get k v (m : list (K * V)) :
  NoDup (map fst m) -> In (k, v) m -> map_get eqb k m = Some v.
Proof.
  induction m as [|[k' v'] m IH]; simpl; intros ND HI; [contradiction|].
  inversion ND as [|? ? Hn ND']; subst.
  destruct HI as [E|HI].
  - injection E as -> ->. destruct (eqb_spec k k); [reflexivity|congruence].
  - destruct (eqb_spec k k') as [->|N]; [|auto].
    exfalso. apply Hn. change k' with (fst (k', v)). now apply in_map.
Qed.

Lemma map_has_In k (m : list (K * V)) :
  map_has eqb k m = true <-> In k (map fst m).
Proof.
  unfold map_has. destruct (map_get eqb k m) eqn:E.
  - split; [|reflexivity]. intros _. apply map_get_In in E.
    change k with (fst (k, v)). now apply in_map.
  - apply map_get_None in E. split; [discriminate|contradiction].
Qed.

Lemma map_get_set_eq k v (m : list (K * V)) :
  map_get eqb k (map_set eqb k v m) = Some v.
Proof.
  induction m as [|[k' v'] m IH]; simpl.
  - destruct (eqb_spec k k); [reflexivity|congruence].
  - destruct (eqb_spec k k') as [->|N]; simpl.
    + destruct (eqb_spec k' k'); [reflexivity|congruence].
    + destruct (eqb_spec k k'); [congruence|assumption].
Qed.

Lemma map_get_set_neq k k' v (m : list (K * V)) :
  k' <> k -> map_get eqb k' (map_set eqb k v m) = map_get eqb k' m.
Proof.
  intros N. induction m as [|[k0 v0] m IH]; simpl.
  - destruct (eqb_spec k' k); [congruence|reflexivity].
  - destruct (eqb_spec k k0) as [->|N0]; simpl.
    + destruct (eqb_spec k' k0); [congruence|reflexivity].
    + destruct (eqb_spec k' k0); [reflexivity|assumption].
Qed.

Lemma keys_map_set k v (m : list (K * V)) :
  map fst (map_set eqb k v m)
  = if map_has eqb k m then map fst m else (map fst m ++ [k])%list.
Proof.
  unfold map_has. induction m as [|[k' v'] m IH]; simpl; [reflexivity|].
  destruct (eqb_spec k k') as [->|N]; simpl; [reflexivity|].
  rewrite IH. destruct (map_get eqb k m); reflexivity.
Qed.

Lemma NoDup_map_set k v (m : list (K * V)) :
  NoDup (map fst m) -> NoDup (map fst (map_set eqb k v m)).
Proof.
  intros ND. rewrite keys_map_set. destruct (map_has eqb k m) eqn:E; [assumption|].
  assert (Hn : ~ In k (map fst m)).
  { intros HI. apply map_has_In in HI. congruence. }
  apply NoDup_rev in ND. rewrite <- (rev_involutive (map fst m ++ [k])).
  apply NoDup_rev. rewrite rev_app_distr. simpl. constructor; [|assumption].
  now rewrite <- in_rev.
Qed.

Lemma get_ensure k (v0 : V) (m : list (K * V)) :
  map_get eqb k (ensure eqb k v0 m) = Some (get_or eqb k v0 m).
Proof.
  unfold ensure, get_or, map_has. destruct (map_get eqb k m) eqn:E; [assumption|].
  apply map_get_set_eq.
Qed.

Lemma get_or_ensure k (v0 : V) (m : list (K * V)) : get_or eqb k v0 (ensure eqb k v0 m) = get_or eqb k v0 m.
Proof.
  unfold get_or at 1. rewrite get_ensure. reflexivity.
Qed.

Lemma get_upsert_eq k (v0 : V) f (m : list (K * V)) :
  map_get eqb k (upsert eqb k v0 f m) = Some (f (get_or eqb k v0 m)).
Proof. unfold upsert. now rewrite map_get_set_eq, get_or_ensure. Qed.

Lemma get_upsert_neq k k' (v0 : V) f (m : list (K * V)) :
  k' <> k -> map_get eqb k' (upsert eqb k v0 f m) = map_get eqb k' m.
Proof.
  intros N. unfold upsert. rewrite map_get_set_neq by assumption.
  unfold ensure. destruct (map_has eqb k m); [reflexivity|].
  now apply map_get_set_neq.
Qed.

Lemma keys_upsert k (v0 : V) f (m : list (K * V)) :
  map fst (upsert eqb k v0 f m)
  = if map_has eqb k m then map fst m else (map fst m ++ [k])%list.
Proof.
  unfold upsert. rewrite keys_map_set.
  assert (Hh : map_has eqb k (ensure eqb k v0 m) = true).
  { unfold map_has. now rewrite get_ensure. }
  rewrite Hh. unfold ensure. destruct (map_has eqb k m) eqn:E; [reflexivity|].
  rewrite keys_map_set, E. reflexivity.
Qed.

Lemma NoDup_upsert k (v0 : V) f (m : list (K * V)) :
  NoDup (map fst m) -> NoDup (map fst (upsert eqb k v0 f m)).
Proof.
  intros ND. unfold upsert. apply NoDup_map_set. unfold ensure.
  destruct (map_has eqb k m); [assumption|]. now apply NoDup_map_set.
Qed.
End OrderedMapFacts.

(** ** Stable sorting by a descending key *)

Lemma StronglySorted_impl {A} (P Q : A -> A -> Prop) l :
  (forall a b, P a b -> Q a b) -> StronglySorted P l -> StronglySorted Q l.
Proof.
  intros HPQ. induction 1 as [|a l Hs IH Hf]; constructor; [assumption|].
  eapply Forall_impl; [|exact Hf]. auto.
Qed.

Lemma StronglySorted_impl_in {A} (P : A -> Prop) (R Q : A -> A -> Prop) l :
  (forall a b, P a -> P b -> R a b -> Q a b) ->
  Forall P l -> StronglySorted R l -> StronglySorted Q l.
Proof.
  intros Himp HP HS. induction HS as [|a l HS IH Ha]; [constructor|].
  inversion HP as [|? ? Pa Pl]; subst. constructor; [now apply IH|].
  rewrite Forall_forall in *. intros b Hb. apply Himp; auto.
Qed.

Lemma StronglySorted_map {A B} (f : A -> B) (P : B -> B -> Prop) l :
  StronglySorted (fun a b => P (f a) (f b)) l <-> StronglySorted P (map f l).
Proof.
  induction l as [|a l IH]; simpl; split; intros H; try constructor;
    inversion H as [|? ? Hs Hf]; subst.
  - now apply IH.
  - rewrite Forall_map. assumption.
  - now apply IH.
  - rewrite Forall_map in Hf. assumption.
Qed.

Lemma NoDup_StronglySorted_neq {X} (l : list X) :
  NoDup l <-> StronglySorted (fun a b => a <> b) l.
Proof.
  induction l as [|a l IH]; split; intros H; try constructor;
    inversion H as [|? ? H1 H2]; subst.
  - now apply IH.
  - rewrite Forall_forall. intros b Hb E. subst. contradiction.
  - rewrite Forall_forall in H2. intros Hin. now apply (H2 a Hin).
  - now apply IH.
Qed.

Section SortFacts.
Context {A : Type} (cmp : A -> A -> Z) (key : A -> Z).
Hypothesis cmp_key : forall a b, cmp a b = key b - key a.

Lemma insert_by_perm x l : Permutation (insert_by cmp x l) (x :: l).
Proof.
  induction l as [|y l IH]; simpl; [reflexivity|].
  destruct (cmp x y <=? 0); [reflexivity|].
  rewrite IH. apply perm_swap.
Qed.

Lemma sort_by_perm l : Permutation (sort_by cmp l) l.
Proof.
  induction l as [|x l IH]; simpl; [reflexivity|].
  rewrite insert_by_perm. now constructor.
Qed.

Lemma Forall_insert_by (P : A -> Prop) x l :
  P x -> Forall P l -> Forall P (insert_by cmp x l).
Proof.
  intros Hx Hl. eapply Permutation_Forall.
  - symmetry. apply insert_by_perm.
  - now constructor.
Qed.

Section Stable.
Variable R : A -> A -> Prop.

Lemma insert_by_stable x l :
  StronglySorted (sorted_stably key R) l -> Forall (R x) l ->
  StronglySorted (sorted_stably key R) (insert_by cmp x l).
Proof.
  induction l as [|y l IH]; intros Hs Hr; simpl.
  - repeat constructor.
  - inversion Hs as [|? ? Hs' Hy]; subst.
    inversion Hr as [|? ? Hxy Hr']; subst.
    rewrite cmp_key. destruct (Z.leb_spec (key y - key x) 0) as [Hle|Hgt].
    + constructor; [assumption|]. constructor.
      * unfold sorted_stably. destruct (Z.eq_dec (key x) (key y)); [right; auto|left; lia].
      * rewrite Forall_forall in *. intros z Hz.
        specialize (Hy z Hz). specialize (Hr' z Hz). unfold sorted_stably in *.
        destruct (Z.eq_dec (key x) (key z)); [right; auto|left; lia].
    + constructor; [auto|]. apply Forall_insert_by; [|assumption].
      left. lia.
Qed.

Lemma sort_by_stable l :
  StronglySorted R l -> StronglySorted (sorted_stably key R) (sort_by cmp l).
Proof.
  induction 1 as [|x l Hs IH Hx]; simpl; [constructor|].
  apply insert_by_stable; [assumption|].
  eapply Permutation_Forall; [symmetry; apply sort_by_perm|assumption].
Qed.
End Stable.

Lemma sort_by_sorted l :
  StronglySorted (fun a b => key b <= key a) (sort_by cmp l).
Proof.
  assert (H : StronglySorted (fun _ _ => True) l).
  { induction l; constructor; [assumption|]. now apply Forall_forall. }
  apply (sort_by_stable _ l) in H.
  eapply StronglySorted_impl; [|exact H]. unfold sorted_stably. intros a b [?|[? _]]; lia.
Qed.

Lemma sort_by_strict l :
  NoDup (map key l) ->
  StronglySorted (fun a b => key b < key a) (sort_by cmp l).
Proof.
  intros ND. apply NoDup_StronglySorted_neq in ND.
  apply StronglySorted_map in ND. apply (sort_by_stable _ l) in ND.
  eapply StronglySorted_impl; [|exact ND]. unfold sorted_stably.
  intros a b [?|[? ?]]; [assumption|contradiction].
Qed.
End SortFacts.

(** ** Counting by key *)

Lemma list_sum_const0 {X} (l : list X) : list_sum (map (fun _ => 0%nat) l) = 0%nat.
Proof. induction l; simpl; auto. Qed.

Lemma list_sum_map_add {X} (f g : X -> nat) l :
  list_sum (map (fun x => (f x + g x)%nat) l)
  = (list_sum (map f l) + list_sum (map g l))%nat.
Proof. induction l as [|x l IH]; simpl; [reflexivity|]. rewrite IH. lia. Qed.

Lemma list_sum_perm l1 l2 : Permutation l1 l2 -> list_sum l1 = list_sum l2.
Proof. induction 1; simpl; lia. Qed.

Lemma list_sum_map_ext_in {X} (f g : X -> nat) l :
  (forall x, In x l -> f x = g x) -> list_sum (map f l) = list_sum (map g l).
Proof. intros H. f_equal. now apply map_ext_in. Qed.

Section Counting.
Context {R X : Type} (k : R -> X) (eqb : X -> X -> bool).
Hypothesis eqb_spec : forall a b, reflect (a = b) (eqb a b).

Lemma sum_indicator y K :
  NoDup K ->
  list_sum (map (fun x => if eqb y x then 1%nat else 0%nat) K)
  = if in_dec (fun a b => reflect_dec _ _ (eqb_spec a b)) y K then 1%nat else 0%nat.
Proof.
  induction K as [|x K IH]; intros ND; simpl; [reflexivity|].
  inversion ND as [|? ? Hn ND']; subst. rewrite (IH ND').
  destruct (eqb_spec y x) as [->|N].
  - destruct (reflect_dec _ _ (eqb_spec x x)); [|congruence].
    destruct (in_dec _ x K); [contradiction|reflexivity].
  - destruct (reflect_dec _ _ (eqb_spec x y)); [congruence|].
    destruct (in_dec _ y K); reflexivity.
Qed.

(** Buckets over distinct keys that cover the list partition it. *)
Lemma sum_count_by_key (p : R -> bool) K l :
  NoDup K -> (forall r, In r l -> p r = true -> In (k r) K) ->
  list_sum (map (fun x => List.length (filter (fun r => eqb (k r) x && p r) l)) K)
  = List.length (filter p l).
Proof.
  intros ND. induction l as [|r l IH]; intros Hc.
  - simpl. apply list_sum_const0.
  - cbn [filter].
    rewrite (list_sum_map_ext_in _
               (fun x => ((if eqb (k r) x && p r then 1 else 0)
                          + List.length (filter (fun r => eqb (k r) x && p r) l))%nat)).
    2:{ intros x _. destruct (eqb (k r) x && p r); reflexivity. }
    rewrite list_sum_map_add, IH by (intros; apply Hc; [now right|assumption]).
    destruct (p r) eqn:Hp.
    + rewrite (list_sum_map_ext_in _ (fun x => if eqb (k r) x then 1%nat else 0%nat)).
      2:{ intros x _. now rewrite andb_true_r. }
      rewrite sum_indicator by assumption.
      destruct (in_dec _ (k r) K) as [_|Hn]; [reflexivity|].
      exfalso. apply Hn, Hc; [now left|assumption].
    + rewrite (list_sum_map_ext_in _ (fun _ => 0%nat)).
      2:{ intros x _. now rewrite andb_false_r. }
      now rewrite list_sum_const0.
Qed.
End Counting.

(** ** The grouping loops *)

Lemma parses_day_of r : parses r -> dayFromChallengeId (challenge_id r) = Ok (day_of r).
Proof. intros [n H]. unfold day_of. now rewrite H. Qed.

Lemma foldM_decode_pure {A B S} (g : A -> result B) (g' : A -> B)
    (h : S -> A -> B -> S) l :
  Forall (fun x => g x = Ok (g' x)) l ->
  forall s, foldM (fun s x => y <- g x ;; Ok (h s x y)) s l
            = Ok (fold_left (fun s x => h s x (g' x)) l s).
Proof.
  induction 1 as [|x l Hx _ IH]; intros s; simpl; [reflexivity|].
  rewrite Hx. simpl. apply IH.
Qed.

Lemma foldM_decode_all {A B S} (g : A -> result B) (h : S -> A -> B -> S) l :
  forall s s', foldM (fun s x => y <- g x ;; Ok (h s x y)) s l = Ok s' ->
  Forall (fun x => exists y, g x = Ok y) l.
Proof.
  induction l as [|x l IH]; intros s s' H; simpl in *; [constructor|].
  destruct (g x) as [y|e] eqn:E; simpl in *; [|discriminate].
  constructor; eauto.
Qed.

Lemma group_loop_pure l st :
  Forall parses l -> foldM group_receipt st l
                     = Ok (fold_left (fun st r => group_step st r (day_of r)) l st).
Proof.
  intros H. unfold group_receipt.
  apply (foldM_decode_pure (fun r => dayFromChallengeId (challenge_id r)) day_of
           group_step).
  eapply Forall_impl; [|exact H]. apply parses_day_of.
Qed.

Lemma group_loop_parses l st st' :
  foldM group_receipt st l = Ok st' -> Forall parses l.
Proof.
  intros H. unfold group_receipt in H.
  exact (foldM_decode_all (fun r => dayFromChallengeId (challenge_id r)) group_step l _ _ H).
Qed.

Lemma global_loop_pure l m :
  Forall parses l -> foldM global_day_add m l
                     = Ok (fold_left (fun m r => global_day_step m r (day_of r)) l m).
Proof.
  intros H. unfold global_day_add.
  apply (foldM_decode_pure (fun r => dayFromChallengeId (challenge_id r)) day_of
           global_day_step).
  eapply Forall_impl; [|exact H]. apply parses_day_of.
Qed.

Lemma receipts_of_day_pure l d :
  Forall parses l -> receipts_of_day l d = Ok (filter (fun r => day_of r =? d) l).
Proof.
  intros H. unfold receipts_of_day. apply filterM_pure.
  eapply Forall_impl; [|exact H]. intros r Hr. simpl.
  now rewrite (parses_day_of r Hr).
Qed.

Lemma fst_group_step st r d :
  fst (group_step st r d) = upsert String.eqb (address r) [] (bump_day d) (fst st).
Proof. destruct st. reflexivity. Qed.

Lemma global_day_step_upsert m r d :
  global_day_step m r d = upsert Z.eqb d [] (fun s => set_add s (address r)) m.
Proof. reflexivity. Qed.

Lemma group_all_snoc l r :
  fst (group_all (l ++ [r]))
  = upsert String.eqb (address r) [] (bump_day (day_of r)) (fst (group_all l)).
Proof. unfold group_all. rewrite fold_left_app. simpl. apply fst_group_step. Qed.

Lemma global_all_snoc l r :
  global_all (l ++ [r])
  = upsert Z.eqb (day_of r) [] (fun s => set_add s (address r)) (global_all l).
Proof. unfold global_all. rewrite fold_left_app. reflexivity. Qed.

Lemma upsert_keys_iff {K V} (eqb : K -> K -> bool)
    (eqb_spec : forall a b, reflect (a = b) (eqb a b)) k (v0 : V) f m x :
  In x (map fst (upsert eqb k v0 f m)) <-> In x (map fst m) \/ x = k.
Proof.
  rewrite (keys_upsert eqb eqb_spec). destruct (map_has eqb k m) eqn:E.
  - apply (map_has_In eqb eqb_spec) in E. split; [tauto|]. intros [ H | -> ]; assumption.
  - rewrite in_app_iff. simpl. intuition.
Qed.

Lemma group_keys_NoDup l : NoDup (map fst (fst (group_all l))).
Proof.
  induction l as [|r l IH] using rev_ind; [constructor|].
  rewrite group_all_snoc. apply (NoDup_upsert _ String.eqb_spec). exact IH.
Qed.

Lemma group_keys_iff l a :
  In a (map fst (fst (group_all l))) <-> In a (map address l).
Proof.
  induction l as [|r l IH] using rev_ind; [reflexivity|].
  rewrite group_all_snoc, (upsert_keys_iff _ String.eqb_spec), IH.
  rewrite map_app, in_app_iff. simpl. intuition.
Qed.

Lemma global_keys_NoDup l : NoDup (map fst (global_all l)).
Proof.
  induction l as [|r l IH] using rev_ind; [constructor|].
  rewrite global_all_snoc. apply (NoDup_upsert _ Z.eqb_spec). exact IH.
Qed.

Lemma global_keys_iff l d :
  In d (map fst (global_all l)) <-> In d (map day_of l).
Proof.
  induction l as [|r l IH] using rev_ind; [reflexivity|].
  rewrite global_all_snoc, (upsert_keys_iff _ Z.eqb_spec), IH.
  rewrite map_app, in_app_iff. simpl. intuition.
Qed.

Lemma group_inner_NoDup l a dm :
  map_get String.eqb a (fst (group_all l)) = Some dm -> NoDup (map fst dm).
Proof.
  revert a dm. induction l as [|r l IH] using rev_ind; intros a dm; [discriminate|].
  rewrite group_all_snoc. destruct (String.eqb_spec a (address r)) as [->|N].
  - rewrite (get_upsert_eq _ String.eqb_spec). intros H. injection H as <-.
    apply (NoDup_map_set _ Z.eqb_spec). unfold get_or.
    destruct (map_get String.eqb (address r) (fst (group_all l))) eqn:E; [eauto|constructor].
  - rewrite (get_upsert_neq _ String.eqb_spec) by assumption. apply IH.
Qed.

Lemma group_counts l a d :
  lookup2 (fst (group_all l)) a d = count_address_day a d l.
Proof.
  induction l as [|r l IH] using rev_ind; [reflexivity|].
  rewrite group_all_snoc. unfold count_address_day in *.
  rewrite filter_app, length_app. cbn [filter]. rewrite <- IH. clear IH.
  unfold lookup2. unfold get_or at 2.
  destruct (String.eqb_spec (address r) a) as [<-|N].
  - rewrite (get_upsert_eq _ String.eqb_spec). simpl andb. unfold bump_day.
    destruct (Z.eqb_spec (day_of r) d) as [<-|Nd].
    + unfold get_or at 1. rewrite (map_get_set_eq _ Z.eqb_spec). simpl.
      unfold get_or. lia.
    + unfold get_or at 1. rewrite (map_get_set_neq _ Z.eqb_spec) by congruence.
      simpl. unfold get_or. lia.
  - rewrite (get_upsert_neq _ String.eqb_spec) by congruence. simpl.
    unfold get_or. lia.
Qed.

(** ** Encounter order of the addresses *)

Lemma index_of_app_Some a xs ys i :
  index_of a xs = Some i -> index_of a (xs ++ ys) = Some i.
Proof.
  revert i. induction xs as [|x xs IH]; intros i; simpl; [discriminate|].
  destruct (String.eqb a x); [auto|].
  destruct (index_of a xs) as [j|]; simpl; [|discriminate].
  intros H. now rewrite (IH j eq_refl).
Qed.

Lemma index_of_In a xs :
  In a xs -> exists i, index_of a xs = Some i /\ (i < List.length xs)%nat.
Proof.
  induction xs as [|x xs IH]; simpl; [contradiction|]. intros H.
  destruct (String.eqb_spec a x) as [->|N].
  - exists 0%nat. split; [reflexivity|lia].
  - destruct H as [E|H]; [congruence|]. destruct (IH H) as (i & Hi & Hl).
    exists (S i). rewrite Hi. split; [reflexivity|lia].
Qed.

Lemma index_of_snoc_new a xs :
  ~ In a xs -> index_of a (xs ++ [a]) = Some (List.length xs).
Proof.
  induction xs as [|x xs IH]; simpl; intros H.
  - now rewrite String.eqb_refl.
  - destruct (String.eqb_spec a x) as [->|N]; [tauto|].
    rewrite IH by tauto. reflexivity.
Qed.

Lemma StronglySorted_snoc {A} (R : A -> A -> Prop) l a :
  StronglySorted R l -> Forall (fun x => R x a) l -> StronglySorted R (l ++ [a]).
Proof.
  induction 1 as [|x l Hs IH Hx]; intros Hf; simpl.
  - repeat constructor.
  - inversion Hf; subst. constructor; [auto|].
    apply Forall_app. split; [assumption|]. now constructor.
Qed.

Lemma encounter_before_snoc l r a b :
  encounter_before l a b -> encounter_before (l ++ [r]) a b.
Proof.
  intros (i & j & Hi & Hj & Hlt). exists i, j. rewrite map_app.
  repeat split; [now apply index_of_app_Some|now apply index_of_app_Some|assumption].
Qed.

Lemma group_keys_encounter l :
  StronglySorted (encounter_before l) (map fst (fst (group_all l))).
Proof.
  induction l as [|r l IH] using rev_ind; [constructor|].
  rewrite group_all_snoc, (keys_upsert _ String.eqb_spec).
  assert (IH' : StronglySorted (encounter_before (l ++ [r])) (map fst (fst (group_all l)))).
  { eapply StronglySorted_impl; [|exact IH]. intros a b. apply encounter_before_snoc. }
  destruct (map_has String.eqb (address r) (fst (group_all l))) eqn:E; [assumption|].
  apply StronglySorted_snoc; [assumption|].
  assert (Hn : ~ In (address r) (map address l)).
  { rewrite <- group_keys_iff. intros HI.
    apply (map_has_In _ String.eqb_spec) in HI. congruence. }
  apply Forall_forall. intros a Ha. apply group_keys_iff in Ha.
  destruct (index_of_In _ _ Ha) as (i & Hi & Hl).
  exists i, (List.length (map address l)). rewrite map_app. simpl.
  repeat split; [now apply index_of_app_Some|now apply index_of_snoc_new|assumption].
Qed.

(** ** The entries computeStats builds *)

Lemma address_day_entry_eq rates days0 n0 s0 d c :
  address_day_entry rates (days0, n0, s0) (d, c)
  = (date <- dateFromChallengeId (challengeId_of_day d) ;;
     Ok ((days0 ++ [day_entry rates None d date c])%list, (n0 + c)%nat,
         PrimFloat.add s0 (DayStats.star (day_entry rates None d date c)))).
Proof. reflexivity. Qed.

Lemma address_days_fold rates dm : forall days0 n0 s0 days n s,
  foldM (address_day_entry rates) (days0, n0, s0) dm = Ok (days, n, s) ->
  exists new,
    days = (days0 ++ new)%list /\
    Forall2 (fun e x => day_rel rates None (fst e) (snd e) x) dm new /\
    n = (n0 + list_sum (map snd dm))%nat /\
    s = float_sum (map DayStats.star new) s0.
Proof.
  induction dm as [|[d c] dm IH]; intros days0 n0 s0 days n s H; cbn [foldM] in H.
  - apply Ok_inj in H. injection H as <- <- <-. exists []. rewrite app_nil_r.
    repeat split; [constructor|simpl; lia].
  - rewrite address_day_entry_eq in H. inv_bind H. inv_bind Ha.
    apply Ok_inj in Ha. subst a.
    destruct (IH _ _ _ _ _ _ H) as (new & -> & HF & -> & ->).
    exists (day_entry rates None d a0 c :: new). rewrite <- app_assoc.
    repeat split; [|simpl; lia].
    constructor; [|assumption]. exists a0. auto.
Qed.

Lemma address_days_total rates dm : forall acc,
  Forall (fun e => exists date, dateFromChallengeId (challengeId_of_day (fst e)) = Ok date) dm ->
  exists res, foldM (address_day_entry rates) acc dm = Ok res.
Proof.
  induction dm as [|[d c] dm IH]; intros [[days0 n0] s0] H; cbn [foldM]; [eauto|].
  inversion H as [|? ? [date Hd] H']; subst. cbn [fst] in Hd.
  rewrite address_day_entry_eq, Hd. cbn [bind]. apply IH. assumption.
Qed.

Lemma address_stats_Ok rates ats a dm s :
  address_stats rates ats (a, dm) = Ok s ->
  exists days0,
    Forall2 (fun e x => day_rel rates None (fst e) (snd e) x) dm days0 /\
    AddressStats.address s = a /\
    AddressStats.days s = sort_by by_day_desc days0 /\
    AddressStats.totalReceipts s = list_sum (map snd dm) /\
    AddressStats.totalStar s = float_sum (map DayStats.star days0) PrimFloat.zero /\
    AddressStats.totalNight s = PrimFloat.div (AddressStats.totalStar s) 1000000.
Proof.
  unfold address_stats. intros H. inv_bind H. destruct a0 as [[days n] st].
  destruct (address_days_fold _ _ _ _ _ _ _ _ Ha) as (new & -> & HF & -> & ->).
  apply Ok_inj in H. subst s. exists new.
  cbn [AddressStats.address AddressStats.days AddressStats.totalReceipts
       AddressStats.totalStar AddressStats.totalNight app].
  repeat split; auto.
Qed.

Lemma mapM_total {A B} (f : A -> result B) l :
  Forall (fun x => exists y, f x = Ok y) l -> exists ys, mapM f l = Ok ys.
Proof.
  induction 1 as [|x l [y Hy] _ [ys IH]]; simpl; [eauto|].
  rewrite Hy, IH. simpl. eauto.
Qed.

Lemma by_day_desc_key a b : by_day_desc a b = DayStats.day b - DayStats.day a.
Proof. reflexivity. Qed.

Lemma by_totalReceipts_desc_key a b :
  by_totalReceipts_desc a b
  = Z.of_nat (AddressStats.totalReceipts b) - Z.of_nat (AddressStats.totalReceipts a).
Proof. reflexivity. Qed.

Lemma Forall2_map_l {A B C} (f : A -> C) (g : B -> C) l1 l2 (R : A -> B -> Prop) :
  (forall a b, R a b -> f a = g b) -> Forall2 R l1 l2 -> map f l1 = map g l2.
Proof. intros HR. induction 1; simpl; [reflexivity|]. f_equal; auto. Qed.

Lemma day_rel_day rates o d c x : day_rel rates o d c x -> DayStats.day x = d.
Proof. intros (date & _ & ->). reflexivity. Qed.

Lemma day_rel_receipts rates o d c x : day_rel rates o d c x -> DayStats.receipts x = c.
Proof. intros (date & _ & ->). reflexivity. Qed.

Lemma day_rel_night rates o d c x :
  day_rel rates o d c x -> DayStats.night x = PrimFloat.div (DayStats.star x) 1000000.
Proof. intros (date & _ & ->). reflexivity. Qed.

Lemma day_rel_star rates o d c x :
  day_rel rates o d c x ->
  DayStats.star x = PrimFloat.mul (number_of_nat c) (rate_or_0 rates (d - 1)).
Proof. intros (date & _ & ->). reflexivity. Qed.

Lemma float_sum_map {A} (f : A -> float) l s0 :
  float_sum (map f l) s0 = fold_left (fun sum a => PrimFloat.add sum (f a)) l s0.
Proof.
  unfold float_sum. revert s0. induction l as [|x l IH]; intros s0; simpl; auto.
Qed.

(** What a successful run of computeStats on a non-empty list returns. *)
Lemma computeStats_Ok receipts rates g :
  receipts <> [] -> computeStats receipts rates = Ok g ->
  Forall parses receipts /\
  exists byAddress0 days0,
    Forall2 (fun e s => address_stats rates (snd (group_all receipts)) e = Ok s)
      (fst (group_all receipts)) byAddress0 /\
    GlobalStats.byAddress g = sort_by by_totalReceipts_desc byAddress0 /\
    Forall2 (fun e x => day_rel rates (Some (List.length (snd e))) (fst e)
                          (count_day (fst e) receipts) x)
      (global_all receipts) days0 /\
    GlobalStats.days g = sort_by by_day_desc days0 /\
    GlobalStats.grandTotal g =
      GrandTotal.mk (List.length receipts)
        (float_sum (map AddressStats.totalStar (GlobalStats.byAddress g)) PrimFloat.zero)
        (float_sum (map AddressStats.totalNight (GlobalStats.byAddress g)) PrimFloat.zero).
Proof.
  intros Hne H. unfold computeStats in H.
  destruct receipts as [|r0 rs]; [contradiction|]. set (receipts := r0 :: rs) in *.
  inv_bind H. pose proof (group_loop_parses _ _ _ Ha) as Hp.
  rewrite (group_loop_pure _ _ Hp) in Ha. apply Ok_inj in Ha.
  fold (group_all receipts) in Ha. destruct a as [adm ats].
  inv_bind H. unfold address_entry in Ha0. rewrite foldM_push in Ha0.
  inv_bind Ha0. simpl in Ha0. apply Ok_inj in Ha0. subst a.
  apply mapM_Forall2 in Ha1.
  inv_bind H. rewrite (global_loop_pure _ _ Hp) in Ha0. apply Ok_inj in Ha0.
  fold (global_all receipts) in Ha0. subst a.
  inv_bind H. unfold global_day_entry in Ha0. rewrite foldM_push in Ha0.
  inv_bind Ha0. simpl in Ha0. apply Ok_inj in Ha0. subst a.
  apply mapM_Forall2 in Ha2.
  apply Ok_inj in H. subst g. cbn [GlobalStats.byAddress GlobalStats.days GlobalStats.grandTotal].
  split; [assumption|]. exists a0, a1. rewrite Ha. cbn [fst snd].
  split; [assumption|]. split; [reflexivity|]. split.
  - eapply Forall2_impl; [|exact Ha2]. intros [d addrs] x Hx. cbn [fst snd].
    unfold global_day_stats in Hx. inv_bind Hx.
    rewrite (receipts_of_day_pure _ _ Hp) in Hx. cbn [bind] in Hx.
    apply Ok_inj in Hx. subst x. exists a. split; [assumption|reflexivity].
  - split; [reflexivity|]. rewrite !float_sum_map. reflexivity.
Qed.

(** * The claims *)



(** C3 as stated fails for a day number of more than 53 bits: the
    identifier **D9007199254740993C00 matches the pattern with the digits of
    2^53 + 1, and what is returned is 2^53. *)
Lemma C3_counterexample :
  pattern_at "**D9007199254740993C00" "" "9007199254740993" /\
  mathInt "9007199254740993" = 9007199254740993 /\
  dayFromChallengeId "**D9007199254740993C00" <> Ok 9007199254740993.
Proof.
  split; [|split].
  - split; [discriminate|]. split; [reflexivity|]. exists "00". reflexivity.
  - reflexivity.
  - assert (E : dayFromChallengeId "**D9007199254740993C00" = Ok 9007199254740992)
      by (vm_compute; reflexivity).
    rewrite E. discriminate.
Qed.

(** C7 (amended). For a day number N up to 99,979,610, dateFromChallengeId
    maps the identifier of day N to the calendar date of the instant
    (N - 1) * 86,400,000 ms after the anchor 2025-10-30T00:00:00Z; for a
    larger N that instant is past the last date a Date can hold and the call
    throws a RangeError.  Identifiers that yield the same date carry the same
    day number; day 8 is 2025-11-06. *)
Theorem C7_date_of_day_is_injective :
  (forall id n, dayFromChallengeId id = Ok n ->
     dateFromChallengeId id =
     if n <=? maxDay then Ok (dateString (tgeStart + (n - 1) * 86400000))
     else Throw InvalidTimeValue) /\
  (forall id1 id2 n1 n2 d,
     dayFromChallengeId id1 = Ok n1 -> dayFromChallengeId id2 = Ok n2 ->
     dateFromChallengeId id1 = Ok d -> dateFromChallengeId id2 = Ok d ->
     n1 = n2) /\
  (forall t,
     let '(y, m, d) := civil_from_days (t / msPerDay) in
     dateString t = format_date y m d /\ days_from_civil y m d = t / msPerDay) /\
  toISOString (TimeClip tgeStart) = Ok "2025-10-30T00:00:00.000Z" /\
  dateFromChallengeId "**D08C00" = Ok "2025-11-06".
Proof.
  split; [|split; [|split; [|split]]].
  - exact dateFromChallengeId_eq.
  - exact dateFromChallengeId_inj.
  - intros t. unfold dateString. pose proof (civil_roundtrip (t / msPerDay)) as H.
    destruct (civil_from_days (t / msPerDay)) as [[y m] d]. split; [reflexivity|apply H].
  - vm_compute. reflexivity.
  - vm_compute. reflexivity.
Qed.

Lemma C7_witness :
  dateFromChallengeId "**D08C00" = Ok (dateString (tgeStart + 7 * 86400000)) /\
  8 = 8.
Proof.
  destruct C7_date_of_day_is_injective as (H1 & H2 & _). split.
  - apply (H1 "**D08C00" 8). reflexivity.
  - apply (H2 "**D08C00" "xx**D8C**D9C" 8 8 "2025-11-06"); vm_compute; reflexivity.
Defined.

(** C7 as stated fails for large day numbers: the identifier of day
    99,979,611 decodes, but no date is returned for it. *)
Lemma C7_counterexample :
  dayFromChallengeId "**D99979611C00" = Ok 99979611 /\
  ~ exists d, dateFromChallengeId "**D99979611C00" = Ok d.
Proof.
  split; [reflexivity|]. intros [d H].
  assert (E : dateFromChallengeId "**D99979611C00" = Throw InvalidTimeValue)
    by (vm_compute; reflexivity).
  rewrite E in H. discriminate H.
Qed.

Lemma Forall2_Forall_r {A B} (R : A -> B -> Prop) (P : B -> Prop) l1 l2 :
  (forall a b, R a b -> P b) -> Forall2 R l1 l2 -> Forall P l2.
Proof. intros H. induction 1; constructor; eauto. Qed.

Lemma Forall_sort_by {A} (cmp : A -> A -> Z) (P : A -> Prop) l :
  Forall P l -> Forall P (sort_by cmp l).
Proof. intros H. eapply Permutation_Forall; [symmetry; apply sort_by_perm|exact H]. Qed.

Lemma hour_entry_night env receipts rates i h :
  hour_entry env receipts rates i = Ok h -> night_ok_hour h.
Proof.
  unfold hour_entry. intros H. inv_bind H. inv_bind H.
  apply Ok_inj in H. subst h. reflexivity.
Qed.




Lemma Forall2_In_l {A B} (R : A -> B -> Prop) l1 l2 :
  Forall2 R l1 l2 -> Forall2 (fun a b => In a l1 /\ R a b) l1 l2.
Proof.
  induction 1 as [|a b l1 l2 Hab _ IH]; constructor.
  - split; [now left|assumption].
  - eapply Forall2_impl; [|exact IH]. intros x y [Hx Hy]. split; [now right|assumption].
Qed.

Lemma days_strictly_descending {V} rates (o : Z * V -> option nat)
    (counts : list (Z * V)) days0 (c : Z * V -> nat) :
  NoDup (map fst counts) ->
  Forall2 (fun e x => day_rel rates (o e) (fst e) (c e) x) counts days0 ->
  StronglySorted later_day_first (sort_by by_day_desc days0).
Proof.
  intros ND HF. apply (sort_by_strict by_day_desc DayStats.day by_day_desc_key).
  assert (E : map fst counts = map DayStats.day days0).
  { eapply Forall2_map_l; [|exact HF]. intros a b Hab. cbv beta in Hab.
    symmetry. exact (day_rel_day _ _ _ _ _ Hab). }
  rewrite <- E. exact ND.
Qed.

(** ** Receipt counts *)

Lemma Permutation_filter' {A} (p : A -> bool) l1 l2 :
  Permutation l1 l2 -> Permutation (filter p l1) (filter p l2).
Proof.
  induction 1 as [|x l1 l2 _ IH|x y l|l1 l2 l3 _ IH1 _ IH2]; simpl.
  - constructor.
  - destruct (p x); [now constructor|assumption].
  - destruct (p x), (p y); try reflexivity. apply perm_swap.
  - now transitivity (filter p l2).
Qed.

Lemma Forall2_filter {A B} (R : A -> B -> Prop) (p : A -> bool) (q : B -> bool) l1 l2 :
  (forall a b, R a b -> p a = q b) -> Forall2 R l1 l2 ->
  Forall2 R (filter p l1) (filter q l2).
Proof.
  intros Hpq. induction 1 as [|a b l1 l2 Hab _ IH]; simpl; [constructor|].
  rewrite <- (Hpq a b Hab). destruct (p a); [now constructor|assumption].
Qed.

Lemma sum_of_key (d : Z) (dm : list (Z * nat)) :
  NoDup (map fst dm) ->
  list_sum (map snd (filter (fun e => fst e =? d) dm)) = get_or Z.eqb d 0%nat dm.
Proof.
  unfold get_or. induction dm as [|[d' c] dm IH]; intros ND; simpl; [reflexivity|].
  inversion ND as [|? ? Hn ND']; subst. rewrite Z.eqb_sym.
  destruct (Z.eqb_spec d d') as [->|N]; simpl.
  - rewrite (IH ND').
    destruct (map_get Z.eqb d' dm) eqn:E; [|lia].
    apply (map_get_In _ Z.eqb_spec) in E. exfalso. apply Hn.
    change d' with (fst (d', n)). now apply in_map.
  - apply IH, ND'.
Qed.

Lemma group_inner_keys l : forall a dm d,
  map_get String.eqb a (fst (group_all l)) = Some dm ->
  In d (map fst dm) -> In d (map day_of l).
Proof.
  induction l as [|r l IH] using rev_ind; intros a dm d; [discriminate|].
  rewrite group_all_snoc, map_app, in_app_iff.
  destruct (String.eqb_spec a (address r)) as [->|N].
  - rewrite (get_upsert_eq _ String.eqb_spec). intros H. injection H as <-.
    unfold bump_day. rewrite (keys_map_set _ Z.eqb_spec).
    set (dm0 := get_or String.eqb (address r) [] (fst (group_all l))).
    assert (Hdm0 : In d (map fst dm0) -> In d (map day_of l)).
    { unfold dm0, get_or.
      destruct (map_get String.eqb (address r) (fst (group_all l))) eqn:E;
        [apply (IH _ _ _ E)|contradiction]. }
    destruct (map_has Z.eqb (day_of r) dm0); [auto|].
    rewrite in_app_iff. simpl. intuition.
  - rewrite (get_upsert_neq _ String.eqb_spec) by assumption. intros H Hd.
    left. eapply IH; eauto.
Qed.

Lemma in_range_has_date d :
  0 <= d <= maxDay ->
  exists date, dateFromChallengeId (challengeId_of_day d) = Ok date.
Proof.
  intros Hd. unfold maxDay in Hd.
  assert (Hday : dayFromChallengeId (challengeId_of_day d) = Ok d)
    by (apply dayFromChallengeId_of_small_day; assert (99979610 < 2 ^ 53) by reflexivity; lia).
  rewrite (dateFromChallengeId_eq _ _ Hday). unfold maxDay.
  destruct (Z.leb_spec d 99979610); [eauto|lia].
Qed.

Lemma dated_parses r : dated r -> parses r.
Proof. intros (n & H & _). now exists n. Qed.

Lemma dated_day_of l d :
  Forall dated l -> In d (map day_of l) -> 0 <= d <= maxDay.
Proof.
  intros HF Hd. apply in_map_iff in Hd as (r & <- & Hr).
  rewrite Forall_forall in HF. destruct (HF r Hr) as (n & Hn & Hle).
  unfold day_of. rewrite Hn. split; [|assumption].
  now apply (dayFromChallengeId_nonneg _ _ Hn).
Qed.

(** computeStats returns when every identifier decodes to a day that has a
    date. *)
Lemma computeStats_total receipts rates :
  Forall dated receipts -> exists g, computeStats receipts rates = Ok g.
Proof.
  intros Hd. destruct receipts as [|r0 rs]; [simpl; eauto|].
  set (receipts := r0 :: rs) in *.
  assert (Hp : Forall parses receipts)
    by (eapply Forall_impl; [|exact Hd]; apply dated_parses).
  unfold computeStats. fold receipts. change (r0 :: rs) with receipts.
  rewrite (group_loop_pure _ _ Hp). fold (group_all receipts). cbn [bind].
  pose proof (group_keys_NoDup receipts) as ND.
  pose proof (group_inner_keys receipts) as HK.
  destruct (group_all receipts) as [adm ats]. cbn [fst] in *.
  unfold address_entry. rewrite foldM_push.
  destruct (mapM_total (address_stats rates ats) adm) as [bs Hbs].
  { apply Forall_forall. intros [a dm] Hin. unfold address_stats.
    destruct (address_days_total rates dm ([], 0%nat, PrimFloat.zero)) as [[[ds n] s] Hr].
    - apply Forall_forall. intros [d c] Hdc. cbn [fst].
      apply in_range_has_date. apply (dated_day_of receipts d Hd).
      apply (HK a dm d).
      + apply (In_map_get _ String.eqb_spec); assumption.
      + change d with (fst (d, c)). now apply in_map.
    - rewrite Hr. cbn [bind]. eauto. }
  rewrite Hbs. cbn [bind].
  rewrite (global_loop_pure _ _ Hp). fold (global_all receipts). cbn [bind].
  unfold global_day_entry. rewrite foldM_push.
  destruct (mapM_total (global_day_stats rates receipts) (global_all receipts)) as [ds Hds].
  { apply Forall_forall. intros [d addrs] Hin. unfold global_day_stats.
    destruct (in_range_has_date d) as [date Hdate].
    - apply (dated_day_of receipts d Hd). apply global_keys_iff.
      change d with (fst (d, addrs)). now apply in_map.
    - rewrite Hdate, (receipts_of_day_pure _ _ Hp). cbn [bind]. eauto. }
  rewrite Hds. cbn [bind]. eexists. reflexivity.
Qed.

Lemma filter_true {A} (l : list A) : filter (fun _ => true) l = l.
Proof. induction l as [|x l IH]; simpl; [reflexivity|now rewrite IH]. Qed.

Lemma sum_count_day K l :
  NoDup K -> (forall r, In r l -> In (day_of r) K) ->
  list_sum (map (fun d => count_day d l) K) = List.length l.
Proof.
  intros ND Hc. unfold count_day.
  transitivity (List.length (filter (fun _ => true) l)); [|now rewrite filter_true].
  rewrite <- (sum_count_by_key day_of Z.eqb Z.eqb_spec (fun _ => true) K l ND)
    by (intros; now apply Hc).
  apply list_sum_map_ext_in. intros d _. f_equal. apply filter_ext.
  intros r. now rewrite andb_true_r.
Qed.

Lemma sum_count_address_day K d l :
  NoDup K -> (forall r, In r l -> In (address r) K) ->
  list_sum (map (fun a => count_address_day a d l) K) = count_day d l.
Proof.
  intros ND Hc. unfold count_address_day, count_day.
  apply (sum_count_by_key address String.eqb String.eqb_spec
           (fun r => day_of r =? d) K l ND).
  intros; now apply Hc.
Qed.

Lemma list_sum_Forall2 {A B} (R : A -> B -> Prop) (f : A -> nat) (g : B -> nat) l1 l2 :
  (forall a b, R a b -> f a = g b) -> Forall2 R l1 l2 ->
  list_sum (map f l1) = list_sum (map g l2).
Proof. intros H HF. f_equal. eapply Forall2_map_l; eauto. Qed.

(** The count an address entry reports for a day is the number of receipts
    of that address on that day. *)
Lemma address_day_count_eq receipts rates a dm s d :
  In (a, dm) (fst (group_all receipts)) ->
  address_stats rates (snd (group_all receipts)) (a, dm) = Ok s ->
  address_day_count s d = count_address_day a d receipts.
Proof.
  intros Hin Hs. apply address_stats_Ok in Hs.
  destruct Hs as (d0 & HF & _ & Hd & _).
  assert (Hget : map_get String.eqb a (fst (group_all receipts)) = Some dm)
    by (apply (In_map_get _ String.eqb_spec); [apply group_keys_NoDup|exact Hin]).
  unfold address_day_count. rewrite Hd.
  rewrite (list_sum_perm _ (map DayStats.receipts (filter (fun x => DayStats.day x =? d) d0)))
    by (apply Permutation_map, Permutation_filter', sort_by_perm).
  rewrite <- (list_sum_Forall2
                (fun e x => day_rel rates None (fst e) (snd e) x) snd DayStats.receipts
                (filter (fun e => fst e =? d) dm)).
  - rewrite sum_of_key by (apply (group_inner_NoDup receipts a), Hget).
    rewrite <- group_counts. unfold lookup2.
    replace (get_or String.eqb a [] (fst (group_all receipts))) with dm; [reflexivity|].
    unfold get_or. now rewrite Hget.
  - intros e x Hx. symmetry. exact (day_rel_receipts _ _ _ _ _ Hx).
  - apply Forall2_filter; [|exact HF]. intros e x Hx.
    now rewrite (day_rel_day _ _ _ _ _ Hx).
Qed.

Lemma computeStats_counts receipts rates g :
  receipts <> [] -> computeStats receipts rates = Ok g ->
  list_sum (map DayStats.receipts (GlobalStats.days g)) = List.length receipts /\
  Forall (fun e =>
            DayStats.receipts e = count_day (DayStats.day e) receipts /\
            count_day (DayStats.day e) receipts
            = list_sum (map (fun a => address_day_count a (DayStats.day e))
                          (GlobalStats.byAddress g)))
    (GlobalStats.days g) /\
  Forall (fun a =>
            Forall (fun x => DayStats.receipts x
                             = count_address_day (AddressStats.address a)
                                 (DayStats.day x) receipts)
              (AddressStats.days a))
    (GlobalStats.byAddress g).
Proof.
  intros Hne H. apply computeStats_Ok in H; [|assumption].
  destruct H as (Hp & byAddress0 & days0 & HA & -> & HD & -> & _).
  apply Forall2_In_l in HA.
  assert (Hsum : forall d,
             list_sum (map (fun a => address_day_count a d)
                         (sort_by by_totalReceipts_desc byAddress0))
             = count_day d receipts).
  { intros d.
    rewrite (list_sum_perm _ (map (fun a => address_day_count a d) byAddress0))
      by (apply Permutation_map, sort_by_perm).
    assert (E : list_sum (map (fun e => count_address_day (fst e) d receipts)
                            (fst (group_all receipts)))
                = list_sum (map (fun a => address_day_count a d) byAddress0)).
    { eapply list_sum_Forall2; [|exact HA]. intros [a dm] s [Hin Hs]. symmetry.
      exact (address_day_count_eq _ _ _ _ _ d Hin Hs). }
    rewrite <- E.
    rewrite <- (map_map fst (fun a => count_address_day a d receipts)).
    apply sum_count_address_day; [apply group_keys_NoDup|].
    intros r Hr. apply group_keys_iff. now apply in_map. }
  split; [|split].
  - rewrite (list_sum_perm _ (map DayStats.receipts days0))
      by (apply Permutation_map, sort_by_perm).
    assert (E : list_sum (map (fun e => count_day (fst e) receipts) (global_all receipts))
                = list_sum (map DayStats.receipts days0)).
    { eapply list_sum_Forall2; [|exact HD]. intros e x Hx. cbv beta in Hx. symmetry.
      exact (day_rel_receipts _ _ _ _ _ Hx). }
    rewrite <- E.
    rewrite <- (map_map fst (fun d => count_day d receipts)).
    apply sum_count_day; [apply global_keys_NoDup|].
    intros r Hr. apply global_keys_iff. now apply in_map.
  - apply Forall_sort_by. eapply Forall2_Forall_r; [|exact HD].
    intros e x Hx. cbv beta in Hx.
    rewrite (day_rel_receipts _ _ _ _ _ Hx), (day_rel_day _ _ _ _ _ Hx), Hsum. auto.
  - apply Forall_sort_by. eapply Forall2_Forall_r; [|exact HA].
    intros [a dm] s [Hin Hs]. pose proof Hs as Hs'. apply address_stats_Ok in Hs'.
    destruct Hs' as (d0 & HF & Ha & Hd & _). rewrite Hd, Ha.
    assert (Hget : map_get String.eqb a (fst (group_all receipts)) = Some dm)
      by (apply (In_map_get _ String.eqb_spec); [apply group_keys_NoDup|exact Hin]).
    apply Forall_sort_by. apply Forall2_In_l in HF.
    eapply Forall2_Forall_r; [|exact HF].
    intros [d c] x [Hdc Hx]. cbn [fst snd] in Hx.
    rewrite (day_rel_receipts _ _ _ _ _ Hx), (day_rel_day _ _ _ _ _ Hx).
    rewrite <- group_counts. unfold lookup2.
    replace (get_or String.eqb a [] (fst (group_all receipts))) with dm
      by (unfold get_or; now rewrite Hget).
    unfold get_or.
    rewrite (In_map_get _ Z.eqb_spec _ _ _ (group_inner_NoDup _ _ _ Hget) Hdc).
    reflexivity.
Qed.

(** C2 (amended). For every non-empty receipt list whose identifiers all
    decode to days that have a date (day number at most 99,979,610),
    computeStats returns; the receipts fields of the global days list add up
    to the number of receipts, and each day's count is the sum over the
    addresses of the count the address reports for that day. *)
Theorem C2_day_counts_partition_the_receipts receipts rates :
  receipts <> [] -> Forall dated receipts ->
  exists g,
    computeStats receipts rates = Ok g /\
    list_sum (map DayStats.receipts (GlobalStats.days g)) = List.length receipts /\
    Forall (fun e =>
              DayStats.receipts e
              = list_sum (map (fun a => address_day_count a (DayStats.day e))
                            (GlobalStats.byAddress g)))
      (GlobalStats.days g).
Proof.
  intros Hne Hd. destruct (computeStats_total receipts rates Hd) as [g Hg].
  exists g. split; [exact Hg|].
  destruct (computeStats_counts _ _ _ Hne Hg) as (Hs & Hday & _).
  split; [exact Hs|]. eapply Forall_impl; [|exact Hday].
  intros e [H1 H2]. congruence.
Qed.

Lemma C2_witness :
  ex_receipts <> [] /\ Forall dated ex_receipts /\
  exists g,
    computeStats ex_receipts ex_rates = Ok g /\
    list_sum (map DayStats.receipts (GlobalStats.days g)) = 4%nat /\
    Forall (fun e =>
              DayStats.receipts e
              = list_sum (map (fun a => address_day_count a (DayStats.day e))
                            (GlobalStats.byAddress g)))
      (GlobalStats.days g).
Proof.
  assert (Hne : ex_receipts <> []) by discriminate.
  assert (Hd : Forall dated ex_receipts).
  { unfold ex_receipts, dated, maxDay.
    repeat constructor; (exists 7 + exists 6); (split; [reflexivity|lia]). }
  split; [exact Hne|]. split; [exact Hd|].
  exact (C2_day_counts_partition_the_receipts ex_receipts ex_rates Hne Hd).
Defined.

(** C2 as stated fails: the identifier **D99979611C00 decodes (to day
    99,979,611), but that day lies past the last date a Date can hold, so
    computeStats throws and returns no days list. *)
Lemma C2_counterexample :
  let receipts := [mkReceipt "2025-11-05T10:15:00Z" "A" "**D99979611C00"] in
  receipts <> [] /\ Forall parses receipts /\
  ~ exists g,
      computeStats receipts [] = Ok g /\
      list_sum (map DayStats.receipts (GlobalStats.days g)) = List.length receipts.
Proof.
  cbv zeta. split; [discriminate|]. split.
  - repeat constructor. exists 99979611. reflexivity.
  - intros (g & H & _).
    assert (E : computeStats [mkReceipt "2025-11-05T10:15:00Z" "A" "**D99979611C00"] []
                = Throw InvalidTimeValue) by (vm_compute; reflexivity).
    rewrite E in H. discriminate H.
Qed.

Example ex_ranking :
  match computeStats ex_receipts ex_rates with
  | Ok g =>
      map AddressStats.address (GlobalStats.byAddress g) = ["B"; "A"; "C"] /\
      map DayStats.day (GlobalStats.days g) = [7; 6] /\
      map DayStats.receipts (GlobalStats.days g) = [2; 2]%nat
  | Throw _ => False
  end.
Proof. vm_compute. repeat split. Qed.

(** The example of the specification: two receipts of day 7 at rate 2. *)
Example ex_spec_day7 :
  match computeStats [mkReceipt "2025-11-05T10:15:00Z" "A" "**D07C01";
                      mkReceipt "2025-11-05T10:45:00Z" "B" "**D07C01"] ex_rates with
  | Ok g =>
      GlobalStats.days g
      = [DayStats.mk 7 "2025-11-05" 2 (Some 2%nat) 4 (PrimFloat.div 4 1000000)]
  | Throw _ => False
  end.
Proof. vm_compute. reflexivity. Qed.

(** ** Rates never decide whether a computation throws *)

Lemma thrown_bind {A A' B B'} (c : result A) (c' : result A')
    (k : A -> result B) (k' : A' -> result B') :
  thrown c = thrown c' -> (forall a a', thrown (k a) = thrown (k' a')) ->
  thrown (bind c k) = thrown (bind c' k').
Proof. destruct c, c'; simpl; intros H Hk; try discriminate; auto. Qed.

Lemma thrown_bind_same {A B B'} (c : result A)
    (k : A -> result B) (k' : A -> result B') :
  (forall a, thrown (k a) = thrown (k' a)) ->
  thrown (bind c k) = thrown (bind c k').
Proof. destruct c; simpl; auto. Qed.

Lemma thrown_mapM {A B B'} (f : A -> result B) (g : A -> result B') l :
  (forall x, thrown (f x) = thrown (g x)) -> thrown (mapM f l) = thrown (mapM g l).
Proof.
  intros H. induction l as [|x l IH]; simpl; [reflexivity|].
  apply thrown_bind; [apply H|]. intros y y'.
  apply thrown_bind; [exact IH|]. reflexivity.
Qed.

Lemma thrown_address_days rates rates' dm : forall acc acc',
  thrown (foldM (address_day_entry rates) acc dm)
  = thrown (foldM (address_day_entry rates') acc' dm).
Proof.
  induction dm as [|[d c] dm IH]; intros [[ds n] s] [[ds' n'] s']; cbn [foldM];
    [reflexivity|].
  rewrite !address_day_entry_eq.
  destruct (dateFromChallengeId (challengeId_of_day d)); cbn [bind]; [apply IH|reflexivity].
Qed.

Lemma thrown_address_stats rates rates' ats e :
  thrown (address_stats rates ats e) = thrown (address_stats rates' ats e).
Proof.
  destruct e as [a dm]. unfold address_stats.
  apply thrown_bind; [apply thrown_address_days|].
  intros [[? ?] ?] [[? ?] ?]. reflexivity.
Qed.

Lemma thrown_global_day_stats rates rates' receipts e :
  thrown (global_day_stats rates receipts e) = thrown (global_day_stats rates' receipts e).
Proof.
  destruct e as [d addrs]. unfold global_day_stats.
  apply thrown_bind_same. intros date. apply thrown_bind_same. reflexivity.
Qed.

Lemma thrown_computeStats receipts rates rates' :
  thrown (computeStats receipts rates) = thrown (computeStats receipts rates').
Proof.
  unfold computeStats. destruct receipts as [|r0 rs]; [reflexivity|].
  apply thrown_bind_same. intros [adm ats].
  unfold address_entry, global_day_entry. rewrite !foldM_push.
  apply thrown_bind.
  - apply thrown_bind; [|reflexivity]. apply thrown_mapM. intros e.
    apply thrown_address_stats.
  - intros b b'. apply thrown_bind_same. intros gdm. rewrite !foldM_push.
    apply thrown_bind; [|reflexivity].
    apply thrown_bind; [|reflexivity]. apply thrown_mapM. intros e.
    apply thrown_global_day_stats.
Qed.

Lemma thrown_hour_star rates rates' l : forall s s',
  thrown (foldM (hour_star rates) s l) = thrown (foldM (hour_star rates') s' l).
Proof.
  induction l as [|r l IH]; intros s s'; cbn [foldM]; [reflexivity|].
  unfold hour_star at 1 3.
  destruct (dayFromChallengeId (challenge_id r)); cbn [bind]; [apply IH|reflexivity].
Qed.

Lemma thrown_hour_entry env receipts rates rates' i :
  thrown (hour_entry env receipts rates i) = thrown (hour_entry env receipts rates' i).
Proof.
  unfold hour_entry. apply thrown_bind; [apply thrown_hour_star|].
  intros s s'. apply thrown_bind_same. reflexivity.
Qed.

Lemma thrown_computeHourlyStats env receipts rates rates' :
  thrown (computeHourlyStats env receipts rates)
  = thrown (computeHourlyStats env receipts rates').
Proof.
  unfold computeHourlyStats. destruct receipts as [|r0 rs]; [reflexivity|].
  destruct (filter _ (r0 :: rs)); [reflexivity|].
  apply thrown_bind; [apply thrown_hour_star|].
  intros s s'. apply thrown_bind_same. reflexivity.
Qed.

Lemma thrown_computeLastNHours env receipts rates rates' hours :
  thrown (computeLastNHours env receipts rates hours)
  = thrown (computeLastNHours env receipts rates' hours).
Proof.
  unfold computeLastNHours. destruct receipts as [|r0 rs]; [reflexivity|].
  destruct (hours <=? 0); [reflexivity|].
  apply thrown_mapM. intros i. apply thrown_hour_entry.
Qed.

Lemma thrown_getTodayStats env receipts rates rates' :
  thrown (getTodayStats env receipts rates) = thrown (getTodayStats env receipts rates').
Proof.
  unfold getTodayStats. apply thrown_bind_same. intros iso.
  apply thrown_bind_same. intros [|first rest]; [reflexivity|].
  apply thrown_bind_same. reflexivity.
Qed.

(** ** A missing rate is the rate 0 *)

Lemma rate_or_0_out_of_table rates d :
  out_of_table rates d -> rate_or_0 rates (d - 1) = PrimFloat.zero.
Proof.
  intros [Hneg|Hbig]; unfold rate_or_0, array_get.
  - destruct (Z.ltb_spec (d - 1) 0); [reflexivity|lia].
  - destruct (Z.ltb_spec (d - 1) 0); [reflexivity|].
    assert (E : nth_error rates (Z.to_nat (d - 1)) = None)
      by (apply nth_error_None; lia).
    now rewrite E.
Qed.

Lemma number_of_nat_mul_zero n :
  PrimFloat.mul (number_of_nat n) PrimFloat.zero = PrimFloat.zero.
Proof.
  unfold number_of_nat, number_of_Z.
  destruct (Z.ltb_spec (Z.of_nat n) 0); [lia|]. apply mul_of_uint63_zero.
Qed.

Lemma day_entry_out_of_table rates o d date c :
  out_of_table rates d ->
  DayStats.star (day_entry rates o d date c) = PrimFloat.zero /\
  DayStats.night (day_entry rates o d date c) = PrimFloat.zero.
Proof.
  intros H. unfold day_entry. cbn [DayStats.star DayStats.night].
  rewrite (rate_or_0_out_of_table _ _ H), number_of_nat_mul_zero.
  split; reflexivity.
Qed.

Lemma hour_star_out_of_table rates l : forall s,
  Forall (fun r => out_of_table rates (day_of r)) l ->
  foldM (hour_star rates) PrimFloat.zero l = Ok s -> s = PrimFloat.zero.
Proof.
  induction l as [|r l IH]; intros s HF H; cbn [foldM] in H.
  - now apply Ok_inj in H.
  - inversion HF as [|? ? Hr HF']; subst. unfold hour_star at 1 in H.
    unfold day_of in Hr.
    destruct (dayFromChallengeId (challenge_id r)) as [d|e]; [|discriminate].
    cbn [bind] in H. rewrite (rate_or_0_out_of_table _ _ Hr) in H.
    change (PrimFloat.add PrimFloat.zero PrimFloat.zero) with PrimFloat.zero in H.
    now apply IH.
Qed.

Lemma hour_star_pure rates l : forall s,
  Forall parses l ->
  foldM (hour_star rates) s l
  = Ok (float_sum (map (fun r => rate_or_0 rates (day_of r - 1)) l) s).
Proof.
  induction l as [|r l IH]; intros s H; cbn [foldM]; [reflexivity|].
  inversion H as [|? ? Hr H']; subst. unfold hour_star at 1.
  rewrite (parses_day_of r Hr). cbn [bind]. now rewrite IH.
Qed.


Lemma day_rel_out_of_table rates o d c x :
  day_rel rates o d c x -> out_of_table rates (DayStats.day x) -> zero_star_day x.
Proof.
  intros (date & _ & ->) H. cbn [day_entry DayStats.day] in H.
  now apply day_entry_out_of_table.
Qed.

Lemma Forall_and {A} (P Q : A -> Prop) l :
  Forall P l -> Forall Q l -> Forall (fun x => P x /\ Q x) l.
Proof. intros HP HQ. rewrite Forall_forall in *. auto. Qed.

Lemma Forall_filter {A} (P : A -> Prop) (p : A -> bool) l :
  Forall P l -> Forall P (filter p l).
Proof.
  intros H. rewrite Forall_forall in *. intros x Hx.
  apply filter_In in Hx. apply H, Hx.
Qed.

Lemma hour_entry_out_of_table env receipts rates i h :
  Forall (fun r => out_of_table rates (day_of r)) receipts ->
  hour_entry env receipts rates i = Ok h -> zero_star_hour h.
Proof.
  intros HF H. unfold hour_entry in H. inv_bind H. inv_bind H.
  apply Ok_inj in H. subst h. unfold zero_star_hour. cbn [HourStats.star HourStats.night].
  apply hour_star_out_of_table in Ha; [|now apply Forall_filter].
  subst a. split; reflexivity.
Qed.

Lemma hour_star_sum rates l : forall s x,
  foldM (hour_star rates) s l = Ok x ->
  x = float_sum (map (fun r => rate_or_0 rates (day_of r - 1)) l) s.
Proof.
  intros s x H. unfold hour_star in H.
  pose proof (foldM_decode_all (fun r => dayFromChallengeId (challenge_id r))
                (fun totalStar _ day => PrimFloat.add totalStar (rate_or_0 rates (day - 1)))
                l _ _ H) as Hp.
  fold (hour_star rates) in H. rewrite (hour_star_pure rates l s) in H by exact Hp.
  apply Ok_inj in H. now symmetry.
Qed.


(** ** Clock hours *)

Lemma clock_range env : 0 <= Date_now env <= 8639999827200000.
Proof.
  pose proof (clock_valid env) as H.
  apply andb_true_iff in H as [H1 H2]. apply Z.leb_le in H1, H2. lia.
Qed.

Lemma zone_range env t isUTC : -86400000 <= LocalTZA env t isUTC <= 86400000.
Proof. pose proof (offset_valid env t isUTC). lia. Qed.

Lemma TimeClip_valid t :
  -8640000000000000 <= t <= 8640000000000000 -> TimeClip t = Some t.
Proof. intros H. unfold TimeClip. destruct (Z.leb_spec (Z.abs t) 8640000000000000); [reflexivity|lia]. Qed.

Lemma new_Date_valid env : new_Date env = Some (Date_now env).
Proof. unfold new_Date. apply TimeClip_valid. pose proof (clock_range env). lia. Qed.

Lemma hour_floor_range env :
  Date_now env - msPerHour < hour_floor env <= Date_now env /\
  (hour_floor env + zone_offset env) mod msPerHour = 0.
Proof.
  unfold hour_floor, msPerHour. split.
  - Z.div_mod_to_equations. lia.
  - replace ((Date_now env + zone_offset env) / 3600000 * 3600000 - zone_offset env
             + zone_offset env)
      with ((Date_now env + zone_offset env) / 3600000 * 3600000) by lia.
    apply Z.mod_mul. lia.
Qed.

Lemma local_hour_arith l k :
  l / msPerDay * msPerDay + (l / msPerHour mod 24 - k) * msPerHour
  = l / msPerHour * msPerHour - k * msPerHour.
Proof. unfold msPerDay, msPerHour. Z.div_mod_to_equations. lia. Qed.

(** ** The hour boundaries in any zone *)

(** A boundary is the local time [k] hours before the start of the current
    local clock hour, read back as an instant. *)
Lemma window_start_eq env k :
  window_start env k
  = TimeClip (UTC env (hour_floor env - k * msPerHour + zone_offset env)).
Proof.
  unfold window_start. rewrite new_Date_valid. cbn [getHours option_map setHours].
  unfold LocalTime. fold (zone_offset env). rewrite local_hour_arith.
  do 2 f_equal. unfold hour_floor. lia.
Qed.

Lemma setHours_window env (f : Z -> Z) k :
  (forall h, f h = h - k) ->
  setHours env (new_Date env) (option_map f (getHours env (new_Date env)))
  = window_start env k.
Proof.
  intros Hf. unfold window_start. rewrite new_Date_valid.
  cbn [getHours option_map]. now rewrite Hf.
Qed.

Lemma setHours_current env :
  setHours env (new_Date env) (getHours env (new_Date env)) = window_start env 0.
Proof.
  unfold window_start. rewrite new_Date_valid. cbn [getHours option_map].
  now rewrite Z.sub_0_r.
Qed.

(** Up to 2,399,999,950 hours back a boundary is a valid date. *)
Lemma window_start_valid env k :
  0 <= k <= 2399999950 ->
  exists s, window_start env k = Some s /\
            hour_floor env - k * msPerHour - 2 * msPerDay <= s
            <= hour_floor env - k * msPerHour + 2 * msPerDay.
Proof.
  intros Hk. rewrite window_start_eq. unfold UTC.
  set (date := hour_floor env - k * msPerHour + zone_offset env).
  pose proof (hour_floor_range env) as [Hf _]. pose proof (clock_range env) as Hn.
  pose proof (zone_range env (Date_now env) true) as Hz. fold (zone_offset env) in Hz.
  pose proof (zone_range env date false) as Hz'.
  exists (date - LocalTZA env date false). unfold date in *.
  unfold msPerHour, msPerDay in *. split; [apply TimeClip_valid|]; lia.
Qed.

(** ** The hour boundaries while the offset does not change *)

Lemma window_start_steady env k :
  LocalTZA env (hour_floor env - k * msPerHour + zone_offset env) false
  = zone_offset env ->
  window_start env k = TimeClip (hour_floor env - k * msPerHour).
Proof. intros H. rewrite window_start_eq. unfold UTC. rewrite H. f_equal. lia. Qed.

Lemma steady_offset_le env m n : n <= m -> steady_offset env m -> steady_offset env n.
Proof. intros Hn H k Hk. apply H. lia. Qed.

Lemma fixed_zone_steady env z hours : fixed_zone env z -> steady_offset env hours.
Proof. intros H k _. unfold zone_offset. now rewrite !H. Qed.

Lemma setHours_relative env (f : Z -> Z) k hours :
  (forall h, f h = h - k) -> steady_offset env hours -> 0 <= k <= hours ->
  setHours env (new_Date env) (option_map f (getHours env (new_Date env)))
  = TimeClip (hour_floor env - k * msPerHour).
Proof.
  intros Hf Hs Hk. rewrite (setHours_window env f k Hf).
  apply window_start_steady. now apply Hs.
Qed.

Lemma hour_start_valid env k :
  0 <= k -> -8640000000000000 <= hour_floor env - k * msPerHour ->
  TimeClip (hour_floor env - k * msPerHour) = Some (hour_floor env - k * msPerHour).
Proof.
  intros Hk Hlo. apply TimeClip_valid.
  pose proof (hour_floor_range env) as [H _]. pose proof (clock_range env) as Hn.
  unfold msPerHour in *. lia.
Qed.

Lemma hour_start_in_range env k :
  0 <= k <= 2399999999 -> -8640000000000000 <= hour_floor env - k * msPerHour.
Proof.
  intros Hk. pose proof (hour_floor_range env) as [H _].
  pose proof (clock_range env) as Hn. unfold msPerHour in *. lia.
Qed.

Lemma in_window_in_hour env start r :
  in_window env (Some start) (Some (start + msPerHour)) r = in_hour env start r.
Proof.
  unfold in_window, in_hour. destruct (Date_parse env (ts r)); reflexivity.
Qed.

(** One round of computeLastNHours, for the hour that starts [i + 1] hours
    before the current one. *)
Lemma hour_entry_eq env receipts rates i hours :
  steady_offset env hours -> 0 <= i < hours ->
  -8640000000000000 <= hour_floor env - (i + 1) * msPerHour ->
  Forall parses (filter (in_hour env (hour_floor env - (i + 1) * msPerHour)) receipts) ->
  hour_entry env receipts rates i
  = Ok (hour_stats env receipts rates (hour_floor env - (i + 1) * msPerHour)).
Proof.
  intros Hs Hi Hlo Hp. unfold hour_entry.
  rewrite (setHours_relative env (fun h => h - i - 1) (i + 1) hours)
    by (intros; lia || assumption).
  rewrite (setHours_relative env (fun h => h - i) i hours)
    by (intros; lia || assumption).
  rewrite !hour_start_valid by (unfold msPerHour in *; lia).
  replace (hour_floor env - i * msPerHour)
    with (hour_floor env - (i + 1) * msPerHour + msPerHour) by lia.
  rewrite (filter_ext _ _ (in_window_in_hour env _)).
  rewrite (hour_star_pure _ _ _ Hp). reflexivity.
Qed.

(** One round in any zone: the entry of the receipts between two
    boundaries. *)
Lemma hour_entry_window env receipts rates i s :
  window_start env (i + 1) = Some s ->
  Forall parses (filter (in_window env (Some s) (window_start env i)) receipts) ->
  hour_entry env receipts rates i
  = Ok (window_stats env receipts rates s (window_start env i)).
Proof.
  intros Hs Hp. unfold hour_entry.
  rewrite (setHours_window env (fun h => h - i - 1) (i + 1)) by (intros; lia).
  rewrite (setHours_window env (fun h => h - i) i) by (intros; lia).
  rewrite Hs. rewrite (hour_star_pure _ _ _ Hp). reflexivity.
Qed.

Lemma in_window_invalid env stop r : in_window env None stop r = false.
Proof. unfold in_window. destruct (Date_parse env (ts r)); reflexivity. Qed.

(** What a round that returns has computed. *)
Lemma hour_entry_Ok_window env receipts rates i h :
  hour_entry env receipts rates i = Ok h ->
  exists s,
    window_start env (i + 1) = Some s /\
    Forall parses (filter (in_window env (Some s) (window_start env i)) receipts) /\
    h = window_stats env receipts rates s (window_start env i).
Proof.
  intros H. unfold hour_entry in H.
  rewrite (setHours_window env (fun h => h - i - 1) (i + 1)) in H by (intros; lia).
  rewrite (setHours_window env (fun h => h - i) i) in H by (intros; lia).
  destruct (window_start env (i + 1)) as [s|].
  - exists s. split; [reflexivity|]. inv_bind H.
    pose proof (foldM_decode_all (fun r => dayFromChallengeId (challenge_id r))
                  (fun totalStar _ day => PrimFloat.add totalStar (rate_or_0 rates (day - 1)))
                  _ _ _ Ha) as Hp.
    split; [exact Hp|]. rewrite (hour_star_pure _ _ _ Hp) in Ha.
    apply Ok_inj in Ha. subst a. cbn [toISOString bind] in H.
    apply Ok_inj in H. subst h. reflexivity.
  - exfalso. inv_bind H. cbn [toISOString bind] in H. discriminate H.
Qed.


(** C4 as stated fails around a change of the zone offset.  In New York at
    2025-11-02T06:30:00Z, half an hour after the clocks went back, the
    current clock hour started at 06:00Z and the hour before it at 05:00Z.
    A receipt of 04:30Z lies outside that hour, yet computeHourlyStats
    counts it, in an entry labelled 04:00Z: the window it looks at is
    [04:00Z, 05:00Z). *)
Lemma C4_counterexample :
  let receipts := [mkReceipt "2025-11-02T04:30:00Z" "A" "**D04C01"] in
  receipts <> [] /\
  hour_floor env_New_York - msPerHour = 1762059600000 /\
  isoString 1762059600000 = "2025-11-02T05:00:00.000Z" /\
  (forall r, In r receipts ->
             in_hour env_New_York (hour_floor env_New_York - msPerHour) r = false) /\
  computeHourlyStats env_New_York receipts []
  = Ok (Some (HourStats.mk "2025-11-02T04:00:00.000Z" 1 1 0 0)) /\
  computeHourlyStats env_New_York receipts []
  <> Ok (Some (zero_hour (hour_floor env_New_York - msPerHour))).
Proof.
  cbv zeta.
  assert (E : computeHourlyStats env_New_York
                [mkReceipt "2025-11-02T04:30:00Z" "A" "**D04C01"] []
              = Ok (Some (HourStats.mk "2025-11-02T04:00:00.000Z" 1 1 0 0)))
    by (vm_compute; reflexivity).
  split; [discriminate|]. split; [vm_compute; reflexivity|].
  split; [vm_compute; reflexivity|]. split; [|split; [exact E|]].
  - intros r [<-|[]]. vm_compute. reflexivity.
  - rewrite E. intros H. injection H as H _. revert H. vm_compute. discriminate.
Qed.


Lemma nth_error_seq' a n j : (j < n)%nat -> nth_error (seq a n) j = Some (a + j)%nat.
Proof.
  revert a j. induction n as [|n IH]; intros a j Hj; [lia|].
  destruct j as [|j]; simpl.
  - f_equal. lia.
  - rewrite IH by lia. f_equal. lia.
Qed.

Lemma countdown_range hours i : In i (countdown hours) -> 0 <= i < hours.
Proof.
  unfold countdown. intros H. apply in_map_iff in H as (k & <- & Hk).
  apply in_seq in Hk. lia.
Qed.

Lemma countdown_nth hours i :
  0 <= i < hours -> nth_error (countdown hours) (Z.to_nat i) = Some (hours - 1 - i).
Proof.
  intros Hi. unfold countdown. rewrite nth_error_map, nth_error_seq' by lia.
  simpl. f_equal. lia.
Qed.

Lemma countdown_head hours :
  0 < hours -> exists rest, countdown hours = (hours - 1) :: rest.
Proof.
  intros H. unfold countdown. destruct (Z.to_nat hours) as [|n] eqn:E; [lia|].
  cbn [seq map]. rewrite Z.sub_0_r. eauto.
Qed.

Lemma in_hour_true env start r :
  in_hour env start r = true ->
  exists t, Date_parse env (ts r) = Some t /\ start <= t < start + msPerHour.
Proof.
  unfold in_hour. destruct (Date_parse env (ts r)) as [t|]; [|discriminate].
  intros H. apply andb_true_iff in H as [H1 H2].
  apply Z.leb_le in H1. apply Z.ltb_lt in H2. eauto.
Qed.

Lemma hour_stats_empty env receipts rates start :
  (forall r, In r receipts -> in_hour env start r = false) ->
  hour_stats env receipts rates start = zero_hour start.
Proof.
  intros H. unfold hour_stats.
  assert (E : filter (in_hour env start) receipts = []).
  { induction receipts as [|r l IH]; [reflexivity|].
    cbn [filter]. rewrite H by now left. apply IH. intros; apply H; now right. }
  rewrite E. reflexivity.
Qed.

Lemma Forall2_nth_l {A B} (R : A -> B -> Prop) l1 l2 : forall n a,
  Forall2 R l1 l2 -> nth_error l1 n = Some a ->
  exists b, nth_error l2 n = Some b /\ R a b.
Proof.
  intros n a H. revert n. induction H as [|x y l1 l2 Hxy _ IH]; intros n Hn.
  - destruct n; discriminate.
  - destruct n as [|n]; cbn [nth_error] in *.
    + injection Hn as <-. eauto.
    + now apply IH.
Qed.

Lemma window_stats_empty env receipts rates start stop :
  (forall r, In r receipts -> in_window env (Some start) stop r = false) ->
  window_stats env receipts rates start stop = zero_hour start.
Proof.
  intros H. unfold window_stats.
  assert (E : filter (in_window env (Some start) stop) receipts = []).
  { induction receipts as [|r l IH]; [reflexivity|].
    cbn [filter]. rewrite H by now left. apply IH. intros; apply H; now right. }
  rewrite E. reflexivity.
Qed.



(** ** The cutoff of the trailing rate *)

Lemma time_value_range env s t :
  Date_parse env s = Some t -> Z.abs t < 2 ^ 53.
Proof.
  intros H. pose proof (parse_valid env s t H).
  assert (8640000000000000 < 2 ^ 53) by reflexivity. lia.
Qed.

(** For a whole number of hours the cutoff is computed exactly. *)
Lemma cutoff_whole_hours env n :
  0 <= n <= 2501999792 ->
  cutoff env (number_of_Z n) = number_of_Z (Date_now env - n * 3600000).
Proof.
  intros Hn. pose proof (clock_range env) as Hc.
  assert (E53 : 2 ^ 53 = 9007199254740992) by reflexivity.
  unfold cutoff.
  change 60%float with (number_of_Z 60). change 1000%float with (number_of_Z 1000).
  rewrite !mul_number_of_Z by (rewrite E53; lia).
  rewrite sub_number_of_Z by (rewrite E53; lia).
  f_equal. lia.
Qed.

Lemma count_from_exact env c receipts :
  Z.abs c < 2 ^ 53 ->
  count_from env (number_of_Z c) receipts = count_since env c receipts.
Proof.
  intros Hc. unfold count_from, count_since. f_equal. apply filter_ext. intros r.
  destruct (Date_parse env (ts r)) as [t|] eqn:E; [|reflexivity].
  apply leb_number_of_Z; [assumption|]. exact (time_value_range env _ _ E).
Qed.



(** C9 as stated fails for a number of hours that is not whole.  The
    binary64 number 0.3 is 5404319552844595 / 2^54, a little less than
    3/10, so now - hours * 3,600,000 ms is a little later than 1,080,000 ms
    before now, and a receipt stamped 1,080,000 ms before now is older than
    it.  The code computes the cutoff as exactly 1,080,000 ms before now
    and counts the receipt. *)
Lemma C9_counterexample :
  let receipts := [mkReceipt "2025-11-05T11:04:00Z" "A" "**D07C01"] in
  let hours := 0x1.3333333333333p-2%float in
  receipts <> [] /\
  exact_value hours = Some (5404319552844595, -54) /\
  Date_parse env0 "2025-11-05T11:04:00Z" = Some (Date_now env0 - 1080000) /\
  count_after_exact env0 hours receipts = 0%nat /\
  getSolutionsPerHour env0 receipts hours = PrimFloat.div 1 hours /\
  getSolutionsPerHour env0 receipts hours
  <> PrimFloat.div (number_of_nat (count_after_exact env0 hours receipts)) hours.
Proof.
  cbv zeta. split; [discriminate|]. split; [vm_compute; reflexivity|].
  split; [vm_compute; reflexivity|]. split; [vm_compute; reflexivity|].
  split; [vm_compute; reflexivity|].
  intros H. apply Leibniz.eqb_spec in H. vm_compute in H. discriminate H.
Qed.


(** ** Today's receipts *)

Lemma today_eq env :
  toISOString (new_Date env) = Ok (isoString (Date_now env)) /\
  before_T (isoString (Date_now env)) = today env.
Proof.
  rewrite new_Date_valid. split; [reflexivity|apply before_T_isoString].
Qed.

Lemma filter_first {A} (p : A -> bool) l x rest :
  filter p l = x :: rest ->
  exists before after,
    l = (before ++ x :: after)%list /\
    Forall (fun y => p y = false) before /\ p x = true.
Proof.
  induction l as [|y l IH]; simpl; [discriminate|].
  destruct (p y) eqn:E; intros H.
  - injection H as -> _. exists [], l. repeat split; [constructor|assumption].
  - destruct (IH H) as (b & a & -> & Hb & Hx).
    exists (y :: b), a. repeat split; [constructor; assumption|assumption].
Qed.

Lemma dated_today_cases env r b :
  (date <- dateFromChallengeId (challenge_id r) ;;
   Ok (String.eqb date (today env))) = Ok b ->
  if b then dateFromChallengeId (challenge_id r) = Ok (today env)
  else not_today env r.
Proof.
  intros H. inv_bind H. apply Ok_inj in H. subst b.
  destruct (String.eqb_spec a (today env)) as [->|N]; [assumption|].
  exists a. auto.
Qed.

Lemma dateFromChallengeId_day id d :
  dateFromChallengeId id = Ok d -> exists n, dayFromChallengeId id = Ok n.
Proof. unfold dateFromChallengeId. intros H. inv_bind H. eauto. Qed.

Lemma today_filter_pure env l :
  Forall (fun r => exists d, dateFromChallengeId (challenge_id r) = Ok d) l ->
  filterM (fun r => date <- dateFromChallengeId (challenge_id r) ;;
                    Ok (String.eqb date (today env))) l
  = Ok (filter (dated_today env) l).
Proof.
  intros H. apply filterM_pure. eapply Forall_impl; [|exact H].
  intros r [d Hd]. unfold dated_today. rewrite Hd. reflexivity.
Qed.

Lemma getTodayStats_returns env receipts rates :
  Forall (fun r => exists d, dateFromChallengeId (challenge_id r) = Ok d) receipts ->
  exists o, getTodayStats env receipts rates = Ok o.
Proof.
  intros H. unfold getTodayStats.
  destruct (today_eq env) as [-> Ht]. cbn [bind]. rewrite Ht.
  rewrite (today_filter_pure env receipts H). cbn [bind].
  destruct (filter (dated_today env) receipts) as [|first rest] eqn:Ef; [eauto|].
  assert (Hin : In first receipts).
  { assert (Hf : In first (filter (dated_today env) receipts)) by (rewrite Ef; now left).
    apply filter_In in Hf as [Hf _]. exact Hf. }
  rewrite Forall_forall in H. destruct (H first Hin) as [d Hd].
  destruct (dateFromChallengeId_day _ _ Hd) as [n Hn]. rewrite Hn. cbn [bind]. eauto.
Qed.

(** C10 (amended). getTodayStats returns null exactly when every receipt's
    identifier has a date and none of these dates is the current UTC date,
    also for a non-empty list.  It returns, null or an entry, exactly when
    every identifier has a date; an identifier without a date makes it
    throw, with the exception that the first such identifier in the list
    gives.  When it returns an entry, its day is the day number of the first
    receipt dated today, and every receipt dated today has that same day
    number, because identifiers with equal dates have equal day numbers. *)
Theorem C10_today_is_null_without_todays_receipts :
  (forall env receipts rates,
     getTodayStats env receipts rates = Ok None <->
     Forall (not_today env) receipts) /\
  (forall env receipts rates,
     (exists o, getTodayStats env receipts rates = Ok o) <->
     Forall (fun r => exists d, dateFromChallengeId (challenge_id r) = Ok d) receipts) /\
  (forall env before r after rates e,
     Forall (fun r => exists d, dateFromChallengeId (challenge_id r) = Ok d) before ->
     dateFromChallengeId (challenge_id r) = Throw e ->
     getTodayStats env (before ++ r :: after) rates = Throw e) /\
  (forall env receipts rates s,
     getTodayStats env receipts rates = Ok (Some s) ->
     DayStats.date s = today env /\
     (exists before first after,
        receipts = (before ++ first :: after)%list /\
        Forall (not_today env) before /\
        dateFromChallengeId (challenge_id first) = Ok (today env) /\
        dayFromChallengeId (challenge_id first) = Ok (DayStats.day s)) /\
     (forall r, In r receipts ->
        dateFromChallengeId (challenge_id r) = Ok (today env) ->
        dayFromChallengeId (challenge_id r) = Ok (DayStats.day s))).
Proof.
  split; [|split; [|split]].
  - intros env receipts rates. unfold getTodayStats.
    destruct (today_eq env) as [-> Ht]. cbn [bind]. rewrite Ht. split.
    + intros H. inv_bind H. destruct a as [|first rest].
      * apply filterM_Ok in Ha as [Hall Hf]. apply Forall_forall. intros r Hr.
        rewrite Forall_forall in Hall. destruct (Hall r Hr) as [b Hb].
        pose proof (dated_today_cases env r b Hb) as Hc.
        destruct b; [|exact Hc]. exfalso.
        assert (Hin : In r []); [|contradiction].
        rewrite Hf. apply filter_In. split; [exact Hr|]. now rewrite Hb.
      * inv_bind H. apply Ok_inj in H. discriminate H.
    + intros H.
      rewrite (filterM_pure _ (fun _ => false)).
      * assert (E : filter (fun _ : ReceiptEntry => false) receipts = []).
        { clear. induction receipts; simpl; auto. }
        rewrite E. reflexivity.
      * eapply Forall_impl; [|exact H]. intros r (d & Hd & Hne).
        rewrite Hd. cbn [bind]. f_equal. now apply String.eqb_neq.
  - intros env receipts rates. split; [|apply getTodayStats_returns].
    intros [o H]. unfold getTodayStats in H. destruct (today_eq env) as [E Ht].
    rewrite E in H. cbn [bind] in H. inv_bind H.
    apply filterM_Ok in Ha as [Hall _].
    eapply Forall_impl; [|exact Hall]. intros r [b Hb]. inv_bind Hb. eauto.
  - intros env before r after rates e Hb Hr. unfold getTodayStats.
    destruct (today_eq env) as [-> Ht]. cbn [bind]. rewrite Ht.
    rewrite filterM_app, (today_filter_pure env before Hb).
    cbn [bind filterM]. rewrite Hr. reflexivity.
  - intros env receipts rates s H. unfold getTodayStats in H.
    destruct (today_eq env) as [E Ht]. rewrite E in H. cbn [bind] in H.
    rewrite Ht in H. inv_bind H. destruct a as [|first rest]; [discriminate|].
    inv_bind H. apply Ok_inj in H. injection H as <-. cbn [DayStats.date DayStats.day].
    apply filterM_Ok in Ha as [Hall Hf]. rewrite Forall_forall in Hall.
    symmetry in Hf. apply filter_first in Hf as (before & after & Hl & Hb & Hx).
    assert (Hfirst : dateFromChallengeId (challenge_id first) = Ok (today env)).
    { destruct (Hall first) as [b Hb'].
      - rewrite Hl. apply in_elt.
      - rewrite Hb' in Hx. simpl in Hx. subst b.
        exact (dated_today_cases env first true Hb'). }
    split; [reflexivity|]. split.
    + exists before, first, after. repeat split; try assumption.
      apply Forall_forall. intros r Hr. destruct (Hall r) as [b Hb'].
      * rewrite Hl. apply in_or_app. now left.
      * rewrite Forall_forall in Hb. specialize (Hb r Hr). rewrite Hb' in Hb.
        simpl in Hb. subst b. exact (dated_today_cases env r false Hb').
    + intros r Hr Hd. destruct (dateFromChallengeId_day _ _ Hd) as [n Hn].
      rewrite Hn. f_equal.
      exact (dateFromChallengeId_inj _ _ _ _ _ Hn Ha0 Hd Hfirst).
Qed.

Lemma C10_witness :
  getTodayStats env0 [mkReceipt "2025-11-04T23:59:59Z" "C" "**D06C02"] ex_rates
  = Ok None /\
  dayFromChallengeId "**D07C01" = Ok 7 /\
  getTodayStats env0
    (ex_receipts ++ [mkReceipt "2025-11-05T10:50:00Z" "A" "**D99979611C00";
                     mkReceipt "2025-11-05T10:55:00Z" "A" "bad-id"]) ex_rates
  = Throw InvalidTimeValue.
Proof.
  destruct C10_today_is_null_without_todays_receipts as (H1 & _ & H3 & H2).
  split; [|split].
  - apply (proj2 (H1 env0 [mkReceipt "2025-11-04T23:59:59Z" "C" "**D06C02"] ex_rates)).
    repeat constructor. exists "2025-11-04". split; [vm_compute; reflexivity|].
    vm_compute. intros E. discriminate E.
  - destruct (H2 env0 ex_receipts ex_rates
                (DayStats.mk 7 "2025-11-05" 2 (Some 2%nat) 4 (PrimFloat.div 4 1000000)))
      as (_ & _ & H).
    + vm_compute. reflexivity.
    + apply (H (mkReceipt "2025-11-05T10:45:00Z" "B" "**D07C01")).
      * right. left. reflexivity.
      * vm_compute. reflexivity.
  - apply (H3 env0 ex_receipts
             (mkReceipt "2025-11-05T10:50:00Z" "A" "**D99979611C00")
             [mkReceipt "2025-11-05T10:55:00Z" "A" "bad-id"] ex_rates InvalidTimeValue).
    + repeat constructor; eexists; vm_compute; reflexivity.
    + vm_compute. reflexivity.
Defined.

(** C10 as stated fails: for a list whose only receipt has an identifier
    that does not decode, no receipt's date is today's, yet getTodayStats
    does not return null; it throws. *)
Lemma C10_counterexample :
  let receipts := [mkReceipt "2025-11-05T10:15:00Z" "A" "bad-id"] in
  (forall r, In r receipts ->
             dateFromChallengeId (challenge_id r) <> Ok (today env0)) /\
  getTodayStats env0 receipts ex_rates <> Ok None.
Proof.
  cbv zeta. split.
  - intros r [<-|[]]. intros H.
    assert (E : dateFromChallengeId "bad-id" = Throw InvalidChallengeId) by reflexivity.
    cbn [challenge_id] in H. rewrite E in H. discriminate H.
  - assert (E : getTodayStats env0 [mkReceipt "2025-11-05T10:15:00Z" "A" "bad-id"] ex_rates
                = Throw InvalidChallengeId) by (vm_compute; reflexivity).
    rewrite E. discriminate.
Qed.

Example ex_today :
  getTodayStats env0 ex_receipts ex_rates
  = Ok (Some (DayStats.mk 7 "2025-11-05" 2 (Some 2%nat) 4 (PrimFloat.div 4 1000000))).
Proof. vm_compute. reflexivity. Qed.
(** ** Re-encoding a day number *)

Lemma regex_match_no_star s : no_star s = true -> regex_match s = None.
Proof.
  induction s as [|c s IH]; intros H; [reflexivity|].
  cbn [no_star] in H. apply andb_true_iff in H as [Hc Hs].
  rewrite regex_match_eq.
  assert (E : match_here (String c s) = None).
  { unfold match_here. destruct s as [|c2 [|c3 t]]; try reflexivity.
    destruct (Ascii.eqb c "*"); [discriminate|reflexivity]. }
  rewrite E. auto.
Qed.

Lemma no_star_app s1 s2 : no_star (s1 ++ s2) = no_star s1 && no_star s2.
Proof. induction s1 as [|c s1 IH]; simpl; [reflexivity|]. now rewrite IH, andb_assoc. Qed.

Lemma is_digit_not_star c : is_digit c = true -> Ascii.eqb c "*" = false.
Proof.
  intros H. destruct (Ascii.eqb_spec c "*") as [->|]; [discriminate H|reflexivity].
Qed.

Lemma all_digits_no_star s : all_digits s = true -> no_star s = true.
Proof.
  induction s as [|c s IH]; [reflexivity|]. cbn [all_digits no_star].
  intros H. apply andb_true_iff in H as [Hc Hs].
  rewrite (is_digit_not_star c Hc), IH by assumption. reflexivity.
Qed.

Lemma all_digits_Forall s :
  all_digits s = true <-> Forall (fun c => is_digit c = true) (list_ascii_of_string s).
Proof.
  induction s as [|c s IH]; cbn [all_digits list_ascii_of_string].
  - split; [constructor|reflexivity].
  - rewrite andb_true_iff, IH. split.
    + intros [? ?]. now constructor.
    + intros H. inversion H; subst. auto.
Qed.

Lemma Forall_digits_string l :
  Forall (fun c => is_digit c = true) l -> all_digits (string_of_list_ascii l) = true.
Proof.
  induction 1 as [|c l Hc Hl IH]; [reflexivity|].
  cbn [string_of_list_ascii all_digits]. now rewrite Hc, IH.
Qed.

Lemma strip_trailing_zeros_rev_suffix l :
  exists z, l = (z ++ strip_trailing_zeros_rev l)%list /\ Forall (fun c => c = "0"%char) z.
Proof.
  induction l as [|c l IH]; [exists []; split; [reflexivity|constructor]|].
  destruct (Ascii.eqb_spec c "0") as [->|N].
  - destruct IH as (z & E & Hz). exists ("0"%char :: z). split.
    + cbn [strip_trailing_zeros_rev app]. now rewrite <- E.
    + now constructor.
  - exists []. split; [|constructor].
    cbn [app]. unfold strip_trailing_zeros_rev.
    destruct c as [[] [] [] [] [] [] [] []]; try reflexivity. now contradiction N.
Qed.

Lemma parseInt_zeros l a :
  Forall (fun c => c = "0"%char) l ->
  fold_left (fun a c => 10 * a + digit_value c) l a = a * 10 ^ Z.of_nat (List.length l).
Proof.
  intros H. revert a. induction H as [|c l -> _ IH]; intros a.
  - simpl. lia.
  - cbn [fold_left List.length]. rewrite IH, Nat2Z.inj_succ, Z.pow_succ_r by lia.
    change (digit_value "0") with 0. lia.
Qed.

(** The significant digits of a positive number are not empty. *)
Lemma significant_digits_nonempty n :
  0 < n ->
  exists c frac,
    rev (strip_trailing_zeros_rev (rev (list_ascii_of_string (decimal n)))) = c :: frac /\
    Forall (fun c => is_digit c = true) (c :: frac).
Proof.
  intros Hn. destruct (decimal_spec n ltac:(lia)) as (Hp & Hd & _).
  set (ds := list_ascii_of_string (decimal n)) in *.
  apply all_digits_Forall in Hd. fold ds in Hd.
  destruct (strip_trailing_zeros_rev_suffix (rev ds)) as (z & E & Hz).
  assert (Es : ds = (rev (strip_trailing_zeros_rev (rev ds)) ++ rev z)%list).
  { rewrite <- rev_app_distr, <- E, rev_involutive. reflexivity. }
  destruct (rev (strip_trailing_zeros_rev (rev ds))) as [|c frac] eqn:Er.
  - exfalso. cbn [app] in Es. unfold mathInt, parseInt_from in Hp. fold ds in Hp.
    rewrite Es, parseInt_zeros in Hp; [lia|].
    apply Forall_rev. assumption.
  - exists c, frac. split; [reflexivity|].
    rewrite Es in Hd. apply Forall_app in Hd. tauto.
Qed.

Lemma regex_match_digit_then c x rest :
  is_digit c = true -> is_digit x = false -> Ascii.eqb x "C" = false ->
  no_star (String x rest) = true ->
  regex_match ("**D" ++ String c (String x rest)) = None.
Proof.
  intros Hc Hx HC Hs.
  assert (Hsp : span_digits (String c (String x rest)) = (String c "", String x rest)).
  { cbn [span_digits]. rewrite Hc, Hx. reflexivity. }
  rewrite regex_match_eq.
  assert (E1 : match_here ("**D" ++ String c (String x rest)) = None).
  { change (match_here ("**D" ++ String c (String x rest)))
      with (match span_digits (String c (String x rest)) with
            | (String c d, String c4 _) =>
                if Ascii.eqb c4 "C" then Some (String c d) else None
            | _ => None
            end).
    rewrite Hsp, HC. reflexivity. }
  rewrite E1. cbn [append].
  rewrite regex_match_eq.
  change (match_here (String "*" (String "D" (String c (String x rest))))) with (@None string).
  rewrite regex_match_eq.
  change (match_here (String "D" (String c (String x rest)))) with (@None string).
  apply regex_match_no_star. cbn [no_star]. rewrite (is_digit_not_star c Hc).
  exact Hs.
Qed.

(** From 10^21 on the re-encoded identifier holds a number in exponent
    notation and does not decode. *)
Lemma dayFromChallengeId_of_huge_day n :
  10 ^ 21 <= n -> dayFromChallengeId (challengeId_of_day n) = Throw InvalidChallengeId.
Proof.
  intros Hn. unfold challengeId_of_day, numberToString.
  destruct (Z.leb_spec Infinity n) as [_|_]; [reflexivity|].
  destruct (Z.ltb_spec n (10 ^ 21)) as [?|_]; [lia|].
  destruct (significant_digits_nonempty n ltac:(lia)) as (c & frac & E & Hf).
  cbv zeta. rewrite E. inversion Hf as [|? ? Hc Hfrac]; subst.
  set (e := decimal (Z.of_nat (List.length (list_ascii_of_string (decimal n))) - 1)).
  assert (He : no_star e = true).
  { apply all_digits_no_star. apply decimal_spec.
    destruct (decimal_spec n ltac:(lia)) as (_ & _ & Hne).
    destruct (decimal n); [contradiction|]. cbn [list_ascii_of_string List.length]. lia. }
  unfold dayFromChallengeId.
  destruct frac as [|f frac].
  - assert (R : regex_match ("**D" ++ padStart2 (String c ("e+" ++ e)) ++ "C00") = None).
    { change (padStart2 (String c ("e+" ++ e))) with (String c (String "e" (String "+" e))).
      change (String c (String "e" (String "+" e)) ++ "C00")
        with (String c (String "e" (String "+" (e ++ "C00")))).
      apply regex_match_digit_then; try assumption; try reflexivity.
      cbn [no_star]. rewrite no_star_app, He. reflexivity. }
    rewrite R. reflexivity.
  - set (fr := string_of_list_ascii (f :: frac)).
    assert (R : regex_match ("**D" ++ padStart2 (String c ("." ++ fr ++ "e+" ++ e)) ++ "C00") = None).
    { change (padStart2 (String c ("." ++ fr ++ "e+" ++ e)))
        with (String c (String "." (fr ++ "e+" ++ e))).
      change (String c (String "." (fr ++ "e+" ++ e)) ++ "C00")
        with (String c (String "." ((fr ++ "e+" ++ e) ++ "C00"))).
      apply regex_match_digit_then; try assumption; try reflexivity.
      cbn [no_star]. rewrite !no_star_app, He.
      unfold fr. rewrite (all_digits_no_star _ (Forall_digits_string _ Hfrac)). reflexivity. }
    rewrite R. reflexivity.
Qed.

(** The date of a re-encoded day, when there is one. *)
Lemma reencoded_date d date :
  0 <= d -> dateFromChallengeId (challengeId_of_day d) = Ok date ->
  d <= maxDay /\ date = date_of_day d.
Proof.
  intros Hd H. destruct (Z.lt_ge_cases d (10 ^ 21)) as [Hlt|Hge].
  - rewrite (dateFromChallengeId_eq _ (to_Number d)) in H
      by (apply dayFromChallengeId_of_day; lia).
    destruct (Z.leb_spec (to_Number d) maxDay) as [Hle|]; [|discriminate].
    assert (Hs : d < 2 ^ 53).
    { destruct (Z.lt_ge_cases d (2 ^ 53)) as [|Hb]; [assumption|].
      pose proof (to_Number_large d Hb). unfold maxDay in Hle.
      assert (99979610 < 2 ^ 53) by reflexivity. lia. }
    rewrite (to_Number_small d Hs) in *.
    split; [assumption|]. apply Ok_inj in H. symmetry. exact H.
  - unfold dateFromChallengeId in H.
    rewrite (dayFromChallengeId_of_huge_day d Hge) in H. discriminate.
Qed.
(** ** The shape of a computeStats result *)

Lemma computeStats_shape receipts rates g :
  receipts <> [] -> computeStats receipts rates = Ok g ->
  exists byAddress0 days0,
    Forall parses receipts /\
    Forall2 (fun e s => address_stats rates (snd (group_all receipts)) e = Ok s)
      (fst (group_all receipts)) byAddress0 /\
    Forall2 (fun e x => day_rel rates (Some (List.length (snd e))) (fst e)
                          (count_day (fst e) receipts) x)
      (global_all receipts) days0 /\
    g = GlobalStats.mk (List.length receipts)
          (List.length (fst (group_all receipts)))
          (sort_by by_day_desc days0)
          (sort_by by_totalReceipts_desc byAddress0)
          (option_map DayStats.date
             (array_get (sort_by by_day_desc days0)
                (Z.of_nat (List.length (sort_by by_day_desc days0)) - 1)))
          (option_map DayStats.date (array_get (sort_by by_day_desc days0) 0))
          (GrandTotal.mk (List.length receipts)
             (float_sum (map AddressStats.totalStar
                           (sort_by by_totalReceipts_desc byAddress0)) PrimFloat.zero)
             (float_sum (map AddressStats.totalNight
                           (sort_by by_totalReceipts_desc byAddress0)) PrimFloat.zero)).
Proof.
  intros Hne H. unfold computeStats in H.
  destruct receipts as [|r0 rs]; [contradiction|]. set (receipts := r0 :: rs) in *.
  inv_bind H. pose proof (group_loop_parses _ _ _ Ha) as Hp.
  rewrite (group_loop_pure _ _ Hp) in Ha. apply Ok_inj in Ha.
  fold (group_all receipts) in Ha. destruct a as [adm ats].
  inv_bind H. unfold address_entry in Ha0. rewrite foldM_push in Ha0.
  inv_bind Ha0. simpl in Ha0. apply Ok_inj in Ha0. subst a.
  apply mapM_Forall2 in Ha1.
  inv_bind H. rewrite (global_loop_pure _ _ Hp) in Ha0. apply Ok_inj in Ha0.
  fold (global_all receipts) in Ha0. subst a.
  inv_bind H. unfold global_day_entry in Ha0. rewrite foldM_push in Ha0.
  inv_bind Ha0. simpl in Ha0. apply Ok_inj in Ha0. subst a.
  apply mapM_Forall2 in Ha2.
  apply Ok_inj in H. subst g.
  exists a0, a1. rewrite Ha. cbn [fst snd].
  split; [assumption|]. split; [assumption|]. split.
  - eapply Forall2_impl; [|exact Ha2]. intros [d addrs] x Hx. cbn [fst snd].
    unfold global_day_stats in Hx. inv_bind Hx.
    rewrite (receipts_of_day_pure _ _ Hp) in Hx. cbn [bind] in Hx.
    apply Ok_inj in Hx. subst x. exists a. split; [assumption|reflexivity].
  - rewrite !float_sum_map. reflexivity.
Qed.

(** ** Sets in insertion order *)

Lemma set_has_In x s : set_has x s = true <-> In x s.
Proof.
  induction s as [|y s IH]; simpl; [split; [discriminate|tauto]|].
  rewrite orb_true_iff, IH. destruct (String.eqb_spec x y); intuition congruence.
Qed.

Lemma set_add_In s x y : In y (set_add s x) <-> In y s \/ y = x.
Proof.
  unfold set_add. destruct (set_has x s) eqn:E.
  - apply set_has_In in E. split; [tauto|]. intros [?| ->]; assumption.
  - rewrite in_app_iff. simpl. intuition.
Qed.

Lemma set_add_NoDup s x : NoDup s -> NoDup (set_add s x).
Proof.
  intros ND. unfold set_add. destruct (set_has x s) eqn:E; [assumption|].
  apply NoDup_app; [assumption|repeat constructor; simpl; tauto|].
  intros y Hy [<-|[]]. apply set_has_In in Hy. congruence.
Qed.

Lemma set_of_list_snoc xs x : set_of_list (xs ++ [x]) = set_add (set_of_list xs) x.
Proof. unfold set_of_list. now rewrite fold_left_app. Qed.

Lemma set_of_list_In xs y : In y (set_of_list xs) <-> In y xs.
Proof.
  induction xs as [|x xs IH] using rev_ind; [reflexivity|].
  rewrite set_of_list_snoc, set_add_In, IH, in_app_iff. simpl. intuition.
Qed.

Lemma set_of_list_NoDup xs : NoDup (set_of_list xs).
Proof.
  induction xs as [|x xs IH] using rev_ind; [constructor|].
  rewrite set_of_list_snoc. now apply set_add_NoDup.
Qed.

Lemma set_of_list_length xs :
  (List.length (set_of_list xs) <= List.length xs)%nat /\
  (xs <> [] -> 1 <= List.length (set_of_list xs))%nat.
Proof.
  split.
  - apply NoDup_incl_length; [apply set_of_list_NoDup|].
    intros y. apply set_of_list_In.
  - intros Hne. destruct xs as [|x xs]; [contradiction|].
    assert (H : In x (set_of_list (x :: xs))) by (apply set_of_list_In; now left).
    destruct (set_of_list (x :: xs)); [contradiction|simpl; lia].
Qed.

(** ** What the grouping loops hold *)

Lemma snd_group_step st r d :
  snd (group_step st r d)
  = upsert String.eqb (address r) [] (fun stamps => (stamps ++ [ts r])%list) (snd st).
Proof. destruct st. reflexivity. Qed.

Lemma group_all_snoc_stamps l r :
  snd (group_all (l ++ [r]))
  = upsert String.eqb (address r) [] (fun stamps => (stamps ++ [ts r])%list)
      (snd (group_all l)).
Proof. unfold group_all. rewrite fold_left_app. simpl. apply snd_group_step. Qed.

(** The timestamps recorded for an address are those of its receipts, in the
    order of the list. *)
Lemma group_stamps l a :
  get_or String.eqb a [] (snd (group_all l)) = map ts (receipts_of_address a l).
Proof.
  induction l as [|r l IH] using rev_ind; [reflexivity|].
  rewrite group_all_snoc_stamps. unfold receipts_of_address in *.
  rewrite filter_app, map_app. cbn [filter]. rewrite <- IH. clear IH.
  unfold get_or at 1. destruct (String.eqb_spec (address r) a) as [<-|N].
  - rewrite (get_upsert_eq _ String.eqb_spec). reflexivity.
  - rewrite (get_upsert_neq _ String.eqb_spec) by congruence.
    simpl. rewrite app_nil_r. reflexivity.
Qed.

(** The set collected for a day holds the addresses of its receipts. *)
Lemma global_sets l d :
  get_or Z.eqb d [] (global_all l) = addresses_of_day d l.
Proof.
  induction l as [|r l IH] using rev_ind; [reflexivity|].
  rewrite global_all_snoc. unfold addresses_of_day in *.
  rewrite filter_app, map_app. cbn [filter].
  unfold get_or at 1. destruct (Z.eqb_spec (day_of r) d) as [<-|N].
  - rewrite (get_upsert_eq _ Z.eqb_spec). cbn [map]. rewrite set_of_list_snoc, IH.
    reflexivity.
  - rewrite (get_upsert_neq _ Z.eqb_spec) by congruence.
    cbn [map]. rewrite app_nil_r. exact IH.
Qed.
(** ** Addresses and totals of computeStats *)

Lemma byAddress0_addresses rates ats adm byAddress0 :
  Forall2 (fun e s => address_stats rates ats e = Ok s) adm byAddress0 ->
  map AddressStats.address byAddress0 = map fst adm.
Proof.
  intros H. symmetry. eapply Forall2_map_l; [|exact H].
  intros [a dm] s Hs. destruct (address_stats_Ok _ _ _ _ _ Hs) as (_ & _ & E & _).
  symmetry. exact E.
Qed.

Lemma byAddress_addresses_perm receipts rates byAddress0 :
  Forall2 (fun e s => address_stats rates (snd (group_all receipts)) e = Ok s)
    (fst (group_all receipts)) byAddress0 ->
  Permutation (map AddressStats.address (sort_by by_totalReceipts_desc byAddress0))
    (map fst (fst (group_all receipts))).
Proof.
  intros H. rewrite <- (byAddress0_addresses _ _ _ _ H).
  apply Permutation_map. apply sort_by_perm.
Qed.

(** X1. The result has one entry per distinct address of the receipts, and the
    totals count the addresses and the receipts. *)
Theorem computeStats_one_entry_per_address receipts rates g :
  computeStats receipts rates = Ok g ->
  NoDup (map AddressStats.address (GlobalStats.byAddress g)) /\
  (forall a, In a (map AddressStats.address (GlobalStats.byAddress g))
             <-> In a (map address receipts)) /\
  GlobalStats.totalAddresses g = List.length (GlobalStats.byAddress g) /\
  GlobalStats.totalReceipts g = List.length receipts /\
  GrandTotal.receipts (GlobalStats.grandTotal g) = List.length receipts.
Proof.
  intros H. destruct receipts as [|r0 rs].
  - apply Ok_inj in H. subst g. cbn. repeat split; try constructor; tauto.
  - set (receipts := r0 :: rs) in *.
    destruct (computeStats_shape receipts rates g ltac:(discriminate) H)
      as (bs & ds & _ & Hb & _ & ->).
    cbn [GlobalStats.byAddress GlobalStats.totalAddresses GlobalStats.totalReceipts
         GlobalStats.grandTotal GrandTotal.receipts].
    pose proof (byAddress_addresses_perm _ _ _ Hb) as P.
    split; [|split; [|split; [|split; reflexivity]]].
    + eapply Permutation_NoDup; [symmetry; exact P|]. apply group_keys_NoDup.
    + intros a. rewrite <- group_keys_iff. split; intros Hin.
      * eapply Permutation_in; [exact P|exact Hin].
      * eapply Permutation_in; [symmetry; exact P|exact Hin].
    + rewrite <- (length_map fst), <- (Permutation_length P), length_map. reflexivity.
Qed.

Lemma computeStats_one_entry_per_address_witness :
  match computeStats ex_receipts ex_rates with
  | Ok g =>
      NoDup (map AddressStats.address (GlobalStats.byAddress g)) /\
      GlobalStats.totalAddresses g = 3%nat /\
      GlobalStats.totalReceipts g = 4%nat
  | Throw _ => False
  end.
Proof.
  destruct (computeStats ex_receipts ex_rates) as [g|e] eqn:E.
  - destruct (computeStats_one_entry_per_address ex_receipts ex_rates g E)
      as (H1 & _ & H3 & H4 & _).
    split; [exact H1|]. split; [|exact H4].
    rewrite H3. revert E. vm_compute. intros E. injection E as <-. reflexivity.
  - revert E. vm_compute. discriminate.
Defined.
(** ** Totals of an address *)

Lemma inner_map_counts receipts a dm :
  In (a, dm) (fst (group_all receipts)) ->
  NoDup (map fst dm) /\
  (forall d, get_or Z.eqb d 0%nat dm = count_address_day a d receipts) /\
  (forall d c, In (d, c) dm -> c = count_address_day a d receipts).
Proof.
  intros Hin.
  assert (Hget : map_get String.eqb a (fst (group_all receipts)) = Some dm)
    by (apply (In_map_get _ String.eqb_spec); [apply group_keys_NoDup|exact Hin]).
  assert (ND : NoDup (map fst dm)) by (apply (group_inner_NoDup receipts a), Hget).
  assert (Hc : forall d, get_or Z.eqb d 0%nat dm = count_address_day a d receipts).
  { intros d. rewrite <- group_counts. unfold lookup2.
    replace (get_or String.eqb a [] (fst (group_all receipts))) with dm; [reflexivity|].
    unfold get_or. now rewrite Hget. }
  split; [exact ND|]. split; [exact Hc|].
  intros d c Hdc. rewrite <- Hc. unfold get_or.
  now rewrite (In_map_get _ Z.eqb_spec d c dm ND Hdc).
Qed.

Lemma count_address_day_pos a r l :
  In r l -> address r = a -> (1 <= count_address_day a (day_of r) l)%nat.
Proof.
  intros Hin Ha. unfold count_address_day.
  assert (H : In r (filter (fun r0 => String.eqb (address r0) a && (day_of r0 =? day_of r)) l)).
  { apply filter_In. split; [assumption|].
    rewrite Ha, String.eqb_refl, Z.eqb_refl. reflexivity. }
  destruct (filter _ l); [contradiction|simpl; lia].
Qed.

Lemma inner_map_total receipts a dm :
  In (a, dm) (fst (group_all receipts)) ->
  list_sum (map snd dm) = List.length (receipts_of_address a receipts).
Proof.
  intros Hin. destruct (inner_map_counts receipts a dm Hin) as (ND & Hc & Hc').
  rewrite (list_sum_map_ext_in snd (fun e => count_address_day a (fst e) receipts))
    by (intros [d c] H; cbn [fst snd]; now apply Hc').
  rewrite <- (map_map fst (fun d => count_address_day a d receipts)).
  unfold receipts_of_address, count_address_day.
  rewrite <- (sum_count_by_key day_of Z.eqb Z.eqb_spec
                (fun r => String.eqb (address r) a) (map fst dm) receipts ND).
  - apply list_sum_map_ext_in. intros d _. f_equal. apply filter_ext.
    intros r. apply andb_comm.
  - intros r Hr Ha. apply String.eqb_eq in Ha.
    pose proof (count_address_day_pos a r receipts Hr Ha) as Hpos.
    rewrite <- Hc in Hpos. unfold get_or in Hpos.
    destruct (map_get Z.eqb (day_of r) dm) eqn:E; [|lia].
    apply (map_get_In Z.eqb Z.eqb_spec) in E.
    change (day_of r) with (fst (day_of r, n)). now apply in_map.
Qed.

Lemma sum_address_counts K l :
  NoDup K -> (forall r, In r l -> In (address r) K) ->
  list_sum (map (fun a => List.length (receipts_of_address a l)) K) = List.length l.
Proof.
  intros ND Hc. unfold receipts_of_address.
  transitivity (List.length (filter (fun _ => true) l)); [|now rewrite filter_true].
  rewrite <- (sum_count_by_key address String.eqb String.eqb_spec (fun _ => true) K l ND)
    by (intros; now apply Hc).
  apply list_sum_map_ext_in. intros d _. f_equal. apply filter_ext.
  intros r. now rewrite andb_true_r.
Qed.

Lemma address_entry_totals receipts rates a dm s :
  In (a, dm) (fst (group_all receipts)) ->
  address_stats rates (snd (group_all receipts)) (a, dm) = Ok s ->
  AddressStats.totalReceipts s
  = List.length (receipts_of_address (AddressStats.address s) receipts) /\
  AddressStats.totalReceipts s
  = list_sum (map DayStats.receipts (AddressStats.days s)) /\
  (1 <= AddressStats.totalReceipts s)%nat.
Proof.
  intros Hin Hs. destruct (address_stats_Ok _ _ _ _ _ Hs) as (d0 & HF & Ea & Ed & Et & _).
  rewrite Et, Ea, Ed, (inner_map_total receipts a dm Hin).
  split; [reflexivity|]. split.
  - rewrite <- (inner_map_total receipts a dm Hin).
    rewrite (list_sum_perm (map DayStats.receipts (sort_by by_day_desc d0))
               (map DayStats.receipts d0))
      by (apply Permutation_map, sort_by_perm).
    apply (list_sum_Forall2 (fun e x => day_rel rates None (fst e) (snd e) x)); [|exact HF].
    intros e x Hx. symmetry. exact (day_rel_receipts _ _ _ _ _ Hx).
  - assert (Hk : In a (map address receipts)).
    { apply group_keys_iff. change a with (fst (a, dm)). now apply in_map. }
    apply in_map_iff in Hk as (r & Hr & Hin').
    assert (H : In r (receipts_of_address a receipts)).
    { apply filter_In. split; [assumption|]. rewrite Hr. apply String.eqb_refl. }
    destruct (receipts_of_address a receipts); [contradiction|simpl; lia].
Qed.

(** X2. The receipt total of an address entry counts the receipts of that
    address, is the sum of its per-day counts and is never zero; the totals
    of all addresses add up to the number of receipts. *)
Theorem computeStats_address_totals receipts rates g :
  computeStats receipts rates = Ok g ->
  Forall (fun a =>
            AddressStats.totalReceipts a
            = List.length (receipts_of_address (AddressStats.address a) receipts) /\
            AddressStats.totalReceipts a
            = list_sum (map DayStats.receipts (AddressStats.days a)) /\
            (1 <= AddressStats.totalReceipts a)%nat)
    (GlobalStats.byAddress g) /\
  list_sum (map AddressStats.totalReceipts (GlobalStats.byAddress g))
  = List.length receipts.
Proof.
  intros H. destruct receipts as [|r0 rs].
  - apply Ok_inj in H. subst g. cbn. split; [constructor|reflexivity].
  - set (receipts := r0 :: rs) in *.
    destruct (computeStats_shape receipts rates g ltac:(discriminate) H)
      as (bs & ds & _ & Hb & _ & ->).
    cbn [GlobalStats.byAddress].
    assert (Hall : Forall (fun a =>
              AddressStats.totalReceipts a
              = List.length (receipts_of_address (AddressStats.address a) receipts) /\
              AddressStats.totalReceipts a
              = list_sum (map DayStats.receipts (AddressStats.days a)) /\
              (1 <= AddressStats.totalReceipts a)%nat) bs).
    { eapply Forall2_Forall_r; [|exact (Forall2_In_l _ _ _ Hb)].
      intros [a dm] s [Hin Hs]. exact (address_entry_totals _ _ _ _ _ Hin Hs). }
    split; [now apply Forall_sort_by|].
    rewrite (list_sum_perm
               (map AddressStats.totalReceipts (sort_by by_totalReceipts_desc bs))
               (map AddressStats.totalReceipts bs))
      by (apply Permutation_map, sort_by_perm).
    rewrite (list_sum_map_ext_in _
               (fun s => List.length (receipts_of_address (AddressStats.address s) receipts)))
      by (intros s Hs; rewrite Forall_forall in Hall; now apply Hall).
    rewrite <- (map_map AddressStats.address
                  (fun a => List.length (receipts_of_address a receipts))).
    rewrite (byAddress0_addresses _ _ _ _ Hb).
    apply sum_address_counts; [apply group_keys_NoDup|].
    intros r Hr. apply group_keys_iff. now apply in_map.
Qed.

Lemma computeStats_address_totals_witness :
  match computeStats ex_receipts ex_rates with
  | Ok g =>
      map AddressStats.totalReceipts (GlobalStats.byAddress g) = [2; 1; 1]%nat /\
      list_sum (map AddressStats.totalReceipts (GlobalStats.byAddress g)) = 4%nat
  | Throw _ => False
  end.
Proof.
  destruct (computeStats ex_receipts ex_rates) as [g|e] eqn:E.
  - destruct (computeStats_address_totals ex_receipts ex_rates g E) as (_ & H).
    split; [|exact H].
    revert E. vm_compute. intros E. injection E as <-. reflexivity.
  - revert E. vm_compute. discriminate.
Defined.
(** ** The entries of the lists of days *)

Lemma Forall2_In_r_ex {A B} (R : A -> B -> Prop) l1 l2 b :
  Forall2 R l1 l2 -> In b l2 -> exists a, In a l1 /\ R a b.
Proof.
  induction 1 as [|x y l1 l2 Hxy _ IH]; intros Hin; [contradiction|].
  destruct Hin as [<-|Hin].
  - exists x. split; [now left|assumption].
  - destruct (IH Hin) as (a & Ha & Hr). exists a. split; [now right|assumption].
Qed.

Lemma Forall2_In_l_ex {A B} (R : A -> B -> Prop) l1 l2 a :
  Forall2 R l1 l2 -> In a l1 -> exists b, In b l2 /\ R a b.
Proof.
  induction 1 as [|x y l1 l2 Hxy _ IH]; intros Hin; [contradiction|].
  destruct Hin as [<-|Hin].
  - exists y. split; [now left|assumption].
  - destruct (IH Hin) as (b & Hb & Hr). exists b. split; [now right|assumption].
Qed.

Lemma day_of_nonneg r : 0 <= day_of r.
Proof.
  unfold day_of. destruct (dayFromChallengeId (challenge_id r)) as [n|e] eqn:E; [|lia].
  exact (dayFromChallengeId_nonneg _ _ E).
Qed.

Lemma count_day_pos d l : In d (map day_of l) -> (1 <= count_day d l)%nat.
Proof.
  intros H. apply in_map_iff in H as (r & Hr & Hin). unfold count_day.
  assert (H : In r (filter (fun r0 => day_of r0 =? d) l))
    by (apply filter_In; split; [assumption|now apply Z.eqb_eq]).
  destruct (filter _ l); [contradiction|simpl; lia].
Qed.

Lemma day_rel_summary rates o d c x :
  0 <= d -> day_rel rates o d c x ->
  d <= maxDay /\ x = day_entry rates o d (date_of_day d) c.
Proof.
  intros Hd (date & Hdate & ->).
  destruct (reencoded_date d date Hd Hdate) as (Hmax & ->). split; [assumption|reflexivity].
Qed.

Lemma global_days0_days receipts rates days0 :
  Forall2 (fun e x => day_rel rates (Some (List.length (snd e))) (fst e)
                        (count_day (fst e) receipts) x)
    (global_all receipts) days0 ->
  map DayStats.day days0 = map fst (global_all receipts).
Proof.
  intros H. symmetry. eapply Forall2_map_l; [|exact H].
  intros e x Hx. symmetry. exact (day_rel_day _ _ _ _ _ Hx).
Qed.

Lemma global_day_facts receipts rates days0 x :
  Forall2 (fun e x => day_rel rates (Some (List.length (snd e))) (fst e)
                        (count_day (fst e) receipts) x)
    (global_all receipts) days0 ->
  In x days0 ->
  In (DayStats.day x) (map day_of receipts) /\
  DayStats.day x <= maxDay /\
  x = day_summary rates receipts (DayStats.day x).
Proof.
  intros HF Hin.
  destruct (Forall2_In_r_ex _ _ _ _ HF Hin) as ([d addrs] & He & Hrel).
  cbn [fst snd] in Hrel.
  assert (Hk : In d (map day_of receipts)).
  { apply global_keys_iff. change d with (fst (d, addrs)). now apply in_map. }
  assert (Hd : 0 <= d).
  { apply in_map_iff in Hk as (r & <- & _). apply day_of_nonneg. }
  assert (Ea : addrs = addresses_of_day d receipts).
  { rewrite <- global_sets. unfold get_or.
    now rewrite (In_map_get _ Z.eqb_spec d addrs _ (global_keys_NoDup receipts) He). }
  destruct (day_rel_summary _ _ _ _ _ Hd Hrel) as (Hmax & Ex).
  rewrite (day_rel_day _ _ _ _ _ Hrel).
  split; [assumption|]. split; [assumption|].
  unfold day_summary. rewrite <- Ea. exact Ex.
Qed.

Lemma addresses_of_day_bounds d l :
  In d (map day_of l) ->
  (1 <= List.length (addresses_of_day d l) <= count_day d l)%nat.
Proof.
  intros H. unfold addresses_of_day, count_day.
  destruct (set_of_list_length (map address (filter (fun r => day_of r =? d) l))) as [H1 H2].
  rewrite length_map in H1. split; [|exact H1]. apply H2.
  pose proof (count_day_pos d l H) as Hp. unfold count_day in Hp.
  destruct (filter _ l); [simpl in Hp; lia|discriminate].
Qed.

(** X3. The global list of days has an entry for exactly the days that occur in
    the receipts, each day once, and the entry of a day is determined by the
    day: its date, the number of its receipts, the number of distinct
    addresses among them, between 1 and the number of receipts, and the
    rewards. *)
Theorem computeStats_days_determined receipts rates g :
  computeStats receipts rates = Ok g ->
  (forall d, In d (map DayStats.day (GlobalStats.days g))
             <-> In d (map day_of receipts)) /\
  NoDup (map DayStats.day (GlobalStats.days g)) /\
  Forall (fun x =>
            x = day_summary rates receipts (DayStats.day x) /\
            0 <= DayStats.day x <= maxDay /\
            (1 <= List.length (addresses_of_day (DayStats.day x) receipts)
             <= DayStats.receipts x)%nat)
    (GlobalStats.days g).
Proof.
  intros H. destruct receipts as [|r0 rs].
  - apply Ok_inj in H. subst g. cbn. repeat split; try constructor; tauto.
  - set (receipts := r0 :: rs) in *.
    destruct (computeStats_shape receipts rates g ltac:(discriminate) H)
      as (bs & ds & _ & _ & Hd & ->).
    cbn [GlobalStats.days].
    assert (P : Permutation (map DayStats.day (sort_by by_day_desc ds))
                  (map fst (global_all receipts))).
    { rewrite <- (global_days0_days _ _ _ Hd). apply Permutation_map, sort_by_perm. }
    split; [|split].
    + intros d. rewrite <- global_keys_iff. split; intros Hin.
      * eapply Permutation_in; [exact P|exact Hin].
      * eapply Permutation_in; [symmetry; exact P|exact Hin].
    + eapply Permutation_NoDup; [symmetry; exact P|]. apply global_keys_NoDup.
    + apply Forall_sort_by. apply Forall_forall. intros x Hx.
      destruct (global_day_facts _ _ _ _ Hd Hx) as (Hk & Hmax & Ex).
      split; [exact Ex|]. split.
      * split; [|assumption]. apply in_map_iff in Hk as (r & <- & _). apply day_of_nonneg.
      * rewrite Ex at 3. cbn [day_summary day_entry DayStats.receipts].
        now apply addresses_of_day_bounds.
Qed.

Lemma computeStats_days_determined_witness :
  match computeStats ex_receipts ex_rates with
  | Ok g =>
      GlobalStats.days g
      = [day_summary ex_rates ex_receipts 7; day_summary ex_rates ex_receipts 6]
  | Throw _ => False
  end.
Proof.
  destruct (computeStats ex_receipts ex_rates) as [g|e] eqn:E.
  - destruct (computeStats_days_determined ex_receipts ex_rates g E) as (_ & _ & H).
    assert (Hd : map DayStats.day (GlobalStats.days g) = [7; 6]).
    { revert E. vm_compute. intros E. injection E as <-. reflexivity. }
    destruct (GlobalStats.days g) as [|x [|y [|z l]]]; try discriminate Hd.
    injection Hd as Hx Hy.
    inversion H as [|? ? (Ex & _) H']; subst. inversion H' as [|? ? (Ey & _) _]; subst.
    rewrite Ex, Ey, Hx, Hy. reflexivity.
  - revert E. vm_compute. discriminate.
Defined.
(** ** The days of an address *)

Lemma map_set_keys_iff {K V} (eqb : K -> K -> bool)
    (eqb_spec : forall a b, reflect (a = b) (eqb a b)) k (v : V) m x :
  In x (map fst (map_set eqb k v m)) <-> In x (map fst m) \/ x = k.
Proof.
  rewrite (keys_map_set eqb eqb_spec). destruct (map_has eqb k m) eqn:E.
  - apply (map_has_In eqb eqb_spec) in E. split; [tauto|]. intros [ H | -> ]; assumption.
  - rewrite in_app_iff. simpl. intuition.
Qed.

Lemma group_inner_keys_iff l : forall a dm d,
  map_get String.eqb a (fst (group_all l)) = Some dm ->
  (In d (map fst dm) <-> In d (map day_of (receipts_of_address a l))).
Proof.
  induction l as [|r l IH] using rev_ind; intros a dm d; [discriminate|].
  rewrite group_all_snoc. unfold receipts_of_address in *.
  rewrite filter_app, map_app, in_app_iff. cbn [filter].
  destruct (String.eqb_spec (address r) a) as [<-|N].
  - rewrite (get_upsert_eq _ String.eqb_spec). intros H. injection H as <-.
    unfold bump_day. rewrite (map_set_keys_iff _ Z.eqb_spec).
    set (dm0 := get_or String.eqb (address r) [] (fst (group_all l))).
    assert (Hdm0 : In d (map fst dm0)
                   <-> In d (map day_of (filter (fun r0 => String.eqb (address r0) (address r)) l))).
    { unfold dm0, get_or.
      destruct (map_get String.eqb (address r) (fst (group_all l))) eqn:E;
        [apply (IH _ _ _ E)|].
      simpl. split; [tauto|]. intros Hin. exfalso.
      apply in_map_iff in Hin as (r' & _ & Hr'). apply filter_In in Hr' as [Hr' Ha].
      apply String.eqb_eq in Ha.
      apply (map_get_None _ String.eqb_spec) in E. apply E.
      apply group_keys_iff. rewrite <- Ha. now apply in_map. }
    rewrite Hdm0. simpl. intuition.
  - rewrite (get_upsert_neq _ String.eqb_spec) by congruence. intros H.
    rewrite (IH _ _ d H). simpl. tauto.
Qed.

Lemma address_days0_days rates dm d0 :
  Forall2 (fun e x => day_rel rates None (fst e) (snd e) x) dm d0 ->
  map DayStats.day d0 = map fst dm.
Proof.
  intros H. symmetry. eapply Forall2_map_l; [|exact H].
  intros e x Hx. symmetry. exact (day_rel_day _ _ _ _ _ Hx).
Qed.

Lemma address_entry_days receipts rates a dm s :
  In (a, dm) (fst (group_all receipts)) ->
  address_stats rates (snd (group_all receipts)) (a, dm) = Ok s ->
  (forall d, In d (map DayStats.day (AddressStats.days s))
             <-> In d (map day_of (receipts_of_address (AddressStats.address s) receipts))) /\
  NoDup (map DayStats.day (AddressStats.days s)) /\
  Forall (fun x =>
            x = address_day_summary rates receipts (AddressStats.address s) (DayStats.day x) /\
            0 <= DayStats.day x <= maxDay /\
            (1 <= DayStats.receipts x)%nat)
    (AddressStats.days s).
Proof.
  intros Hin Hs. destruct (address_stats_Ok _ _ _ _ _ Hs) as (d0 & HF & Ea & Ed & _).
  rewrite Ea, Ed.
  assert (Hget : map_get String.eqb a (fst (group_all receipts)) = Some dm)
    by (apply (In_map_get _ String.eqb_spec); [apply group_keys_NoDup|exact Hin]).
  destruct (inner_map_counts receipts a dm Hin) as (ND & _ & Hc).
  assert (P : Permutation (map DayStats.day (sort_by by_day_desc d0)) (map fst dm)).
  { rewrite <- (address_days0_days _ _ _ HF). apply Permutation_map, sort_by_perm. }
  split; [|split].
  - intros d. rewrite <- (group_inner_keys_iff receipts a dm d Hget). split; intros H.
    + eapply Permutation_in; [exact P|exact H].
    + eapply Permutation_in; [symmetry; exact P|exact H].
  - eapply Permutation_NoDup; [symmetry; exact P|exact ND].
  - apply Forall_sort_by. apply Forall_forall. intros x Hx.
    destruct (Forall2_In_r_ex _ _ _ _ HF Hx) as ([d c] & He & Hrel).
    cbn [fst snd] in Hrel.
    assert (Hk : In d (map day_of (receipts_of_address a receipts))).
    { apply (group_inner_keys_iff receipts a dm d Hget).
      change d with (fst (d, c)). now apply in_map. }
    apply in_map_iff in Hk as (r & Hr & Hin').
    apply filter_In in Hin' as [Hin' Har]. apply String.eqb_eq in Har.
    assert (Hd : 0 <= d) by (rewrite <- Hr; apply day_of_nonneg).
    destruct (day_rel_summary _ _ _ _ _ Hd Hrel) as (Hmax & Ex).
    rewrite (day_rel_day _ _ _ _ _ Hrel), (day_rel_receipts _ _ _ _ _ Hrel).
    rewrite (Hc d c He) in *.
    split; [exact Ex|]. split; [lia|].
    rewrite <- Hr. now apply count_address_day_pos.
Qed.

(** X4. The list of days of an address entry has an entry for exactly the days
    on which the address has a receipt, each day once; the entry of a day
    holds its date, the number of receipts of the address on that day, never
    zero, and the rewards, and has no address count. *)
Theorem computeStats_address_days_determined receipts rates g :
  computeStats receipts rates = Ok g ->
  Forall (fun a =>
            (forall d, In d (map DayStats.day (AddressStats.days a))
                       <-> In d (map day_of (receipts_of_address
                                               (AddressStats.address a) receipts))) /\
            NoDup (map DayStats.day (AddressStats.days a)) /\
            Forall (fun x =>
                      x = address_day_summary rates receipts (AddressStats.address a)
                            (DayStats.day x) /\
                      0 <= DayStats.day x <= maxDay /\
                      (1 <= DayStats.receipts x)%nat)
              (AddressStats.days a))
    (GlobalStats.byAddress g).
Proof.
  intros H. destruct receipts as [|r0 rs].
  - apply Ok_inj in H. subst g. constructor.
  - set (receipts := r0 :: rs) in *.
    destruct (computeStats_shape receipts rates g ltac:(discriminate) H)
      as (bs & ds & _ & Hb & _ & ->).
    cbn [GlobalStats.byAddress]. apply Forall_sort_by.
    eapply Forall2_Forall_r; [|exact (Forall2_In_l _ _ _ Hb)].
    intros [a dm] s [Hin Hs]. exact (address_entry_days _ _ _ _ _ Hin Hs).
Qed.

Lemma computeStats_address_days_determined_witness :
  match computeStats ex_receipts ex_rates with
  | Ok g =>
      Forall (fun a =>
                Forall (fun x =>
                          x = address_day_summary ex_rates ex_receipts
                                (AddressStats.address a) (DayStats.day x))
                  (AddressStats.days a))
        (GlobalStats.byAddress g)
  | Throw _ => False
  end.
Proof.
  destruct (computeStats ex_receipts ex_rates) as [g|e] eqn:E.
  - pose proof (computeStats_address_days_determined ex_receipts ex_rates g E) as H.
    eapply Forall_impl; [|exact H]. intros a (_ & _ & Hf).
    eapply Forall_impl; [|exact Hf]. intros x (Ex & _). exact Ex.
  - revert E. vm_compute. discriminate.
Defined.
(** ** The address count of a day *)

Lemma byAddress_keys receipts rates bs :
  Forall2 (fun e s => address_stats rates (snd (group_all receipts)) e = Ok s)
    (fst (group_all receipts)) bs ->
  NoDup (map AddressStats.address (sort_by by_totalReceipts_desc bs)) /\
  (forall a, In a (map AddressStats.address (sort_by by_totalReceipts_desc bs))
             <-> In a (map address receipts)).
Proof.
  intros Hb. pose proof (byAddress_addresses_perm _ _ _ Hb) as P. split.
  - eapply Permutation_NoDup; [symmetry; exact P|]. apply group_keys_NoDup.
  - intros a. rewrite <- group_keys_iff. split; intros Hin.
    + eapply Permutation_in; [exact P|exact Hin].
    + eapply Permutation_in; [symmetry; exact P|exact Hin].
Qed.

Lemma NoDup_map_filter {A B} (f : A -> B) (p : A -> bool) l :
  NoDup (map f l) -> NoDup (map f (filter p l)).
Proof.
  induction l as [|x l IH]; intros ND; simpl; [constructor|].
  inversion ND as [|? ? Hn ND']; subst.
  destruct (p x); [|auto]. simpl. constructor; [|auto].
  intros Hin. apply Hn. apply in_map_iff in Hin as (y & Hy & Hin).
  apply filter_In in Hin as [Hin _]. rewrite <- Hy. now apply in_map.
Qed.

Lemma addresses_of_day_In d l a :
  In a (addresses_of_day d l) <-> In d (map day_of (receipts_of_address a l)).
Proof.
  unfold addresses_of_day, receipts_of_address.
  rewrite set_of_list_In, !in_map_iff. split.
  - intros (r & Hr & Hin). apply filter_In in Hin as [Hin Hd]. apply Z.eqb_eq in Hd.
    exists r. split; [assumption|]. apply filter_In. split; [assumption|].
    rewrite Hr. apply String.eqb_refl.
  - intros (r & Hr & Hin). apply filter_In in Hin as [Hin Ha]. apply String.eqb_eq in Ha.
    exists r. split; [assumption|]. apply filter_In. split; [assumption|].
    now apply Z.eqb_eq.
Qed.

Lemma reports_day_In d a :
  reports_day d a = true <-> In d (map DayStats.day (AddressStats.days a)).
Proof.
  unfold reports_day. rewrite existsb_exists, in_map_iff. split.
  - intros (x & Hx & E). apply Z.eqb_eq in E. eauto.
  - intros (x & E & Hx). exists x. split; [assumption|now apply Z.eqb_eq].
Qed.

Lemma reports_day_days d a :
  reports_day d a = existsb (fun n => n =? d) (map DayStats.day (AddressStats.days a)).
Proof.
  unfold reports_day. induction (AddressStats.days a) as [|x l IH]; simpl; [reflexivity|].
  now rewrite IH.
Qed.

(** The number of distinct addresses of a day is the number of address
    entries that report the day. *)
Lemma addresses_of_day_reported receipts rates bs d :
  Forall2 (fun e s => address_stats rates (snd (group_all receipts)) e = Ok s)
    (fst (group_all receipts)) bs ->
  List.length (addresses_of_day d receipts)
  = List.length (filter (reports_day d) (sort_by by_totalReceipts_desc bs)).
Proof.
  intros Hb. destruct (byAddress_keys _ _ _ Hb) as (ND & Hk).
  assert (He : Forall (fun s =>
                         forall d, In d (map DayStats.day (AddressStats.days s))
                                   <-> In d (map day_of (receipts_of_address
                                                           (AddressStats.address s) receipts)))
                 (sort_by by_totalReceipts_desc bs)).
  { apply Forall_sort_by. eapply Forall2_Forall_r; [|exact (Forall2_In_l _ _ _ Hb)].
    intros [a dm] s [Hin Hs]. exact (proj1 (address_entry_days _ _ _ _ _ Hin Hs)). }
  set (byAddress := sort_by by_totalReceipts_desc bs) in *.
  rewrite <- (length_map AddressStats.address (filter (reports_day d) byAddress)).
  apply Permutation_length. apply NoDup_Permutation.
  - unfold addresses_of_day. apply set_of_list_NoDup.
  - now apply NoDup_map_filter.
  - intros a. rewrite addresses_of_day_In. split.
    + intros Hin. apply in_map_iff.
      assert (Ha : In a (map AddressStats.address byAddress)).
      { apply Hk. apply in_map_iff in Hin as (r & _ & Hr).
        apply filter_In in Hr as [Hr Ha]. apply String.eqb_eq in Ha.
        rewrite <- Ha. now apply in_map. }
      apply in_map_iff in Ha as (s & Es & Hs). exists s. split; [assumption|].
      apply filter_In. split; [assumption|]. apply reports_day_In.
      rewrite Forall_forall in He. apply (He s Hs). now rewrite Es.
    + intros Hin. apply in_map_iff in Hin as (s & Es & Hs).
      apply filter_In in Hs as [Hs Hr].
      apply reports_day_In in Hr. rewrite Forall_forall in He.
      rewrite <- Es. now apply (He s Hs).
Qed.

(** X5. The address count of an entry of the global list of days is the number
    of address entries whose own list of days holds that day. *)
Theorem computeStats_day_addresses_reported receipts rates g :
  computeStats receipts rates = Ok g ->
  Forall (fun x =>
            DayStats.addresses x
            = Some (List.length (filter (reports_day (DayStats.day x))
                                   (GlobalStats.byAddress g))))
    (GlobalStats.days g).
Proof.
  intros H. destruct receipts as [|r0 rs].
  - apply Ok_inj in H. subst g. constructor.
  - set (receipts := r0 :: rs) in *.
    destruct (computeStats_shape receipts rates g ltac:(discriminate) H)
      as (bs & ds & _ & Hb & Hd & ->).
    cbn [GlobalStats.byAddress GlobalStats.days].
    apply Forall_sort_by. apply Forall_forall. intros x Hx.
    destruct (global_day_facts _ _ _ _ Hd Hx) as (_ & _ & Ex).
    rewrite Ex at 1. cbn [day_summary day_entry DayStats.addresses].
    f_equal. now apply (addresses_of_day_reported receipts rates).
Qed.

Lemma computeStats_day_addresses_reported_witness :
  match computeStats ex_receipts ex_rates with
  | Ok g => map DayStats.addresses (GlobalStats.days g) = [Some 2%nat; Some 2%nat]
  | Throw _ => False
  end.
Proof.
  destruct (computeStats ex_receipts ex_rates) as [g|e] eqn:E.
  - pose proof (computeStats_day_addresses_reported ex_receipts ex_rates g E) as H.
    assert (Eg : map DayStats.day (GlobalStats.days g) = [7; 6] /\
                 map (fun a => map DayStats.day (AddressStats.days a))
                   (GlobalStats.byAddress g) = [[7; 6]; [7]; [6]]).
    { revert E. vm_compute. intros E. injection E as <-. split; reflexivity. }
    destruct Eg as [Ed Eb].
    destruct (GlobalStats.days g) as [|x [|y [|z l]]]; try discriminate Ed.
    injection Ed as Hx Hy.
    inversion H as [|? ? Ax H']; subst. inversion H' as [|? ? Ay _]; subst.
    cbn [map]. rewrite Ax, Ay, Hx, Hy.
    destruct (GlobalStats.byAddress g) as [|a [|b [|c [|? ?]]]]; try discriminate Eb.
    injection Eb as Ea Eb Ec. cbn [filter].
    rewrite !reports_day_days, Ea, Eb, Ec. reflexivity.
  - revert E. vm_compute. discriminate.
Defined.
(** ** The order of strings *)

Lemma ascii_compare_N a b : Ascii.compare a b = N.compare (N_of_ascii a) (N_of_ascii b).
Proof. reflexivity. Qed.

Lemma string_compare_refl s : String.compare s s = Eq.
Proof.
  induction s as [|c s IH]; [reflexivity|]. cbn [String.compare].
  rewrite ascii_compare_N, N.compare_refl. exact IH.
Qed.

Lemma string_compare_trans a : forall b c,
  String.compare a b <> Gt -> String.compare b c <> Gt -> String.compare a c <> Gt.
Proof.
  induction a as [|x a IH]; intros [|y b] [|z c]; cbn [String.compare];
    try congruence.
  rewrite !ascii_compare_N.
  destruct (N.compare_spec (N_of_ascii x) (N_of_ascii y)) as [E1|L1|G1];
    destruct (N.compare_spec (N_of_ascii y) (N_of_ascii z)) as [E2|L2|G2];
    try congruence; intros H1 H2.
  - rewrite E1, E2, N.compare_refl. now apply (IH b c).
  - rewrite E1. rewrite (proj2 (N.compare_lt_iff _ _) L2). discriminate.
  - rewrite <- E2. rewrite (proj2 (N.compare_lt_iff _ _) L1). discriminate.
  - rewrite (proj2 (N.compare_lt_iff _ _) (N.lt_trans _ _ _ L1 L2)). discriminate.
Qed.

Lemma string_cmp_le a b : string_cmp a b <= 0 <-> String.compare a b <> Gt.
Proof. unfold string_cmp. destruct (String.compare a b); split; try lia; congruence. Qed.

Lemma string_cmp_total a b : 0 < string_cmp a b -> string_cmp b a <= 0.
Proof.
  unfold string_cmp. rewrite (String.compare_antisym b a).
  destruct (String.compare a b); simpl; lia.
Qed.

Lemma string_cmp_trans a b c :
  string_cmp a b <= 0 -> string_cmp b c <= 0 -> string_cmp a c <= 0.
Proof. rewrite !string_cmp_le. apply string_compare_trans. Qed.

Lemma string_cmp_refl a : string_cmp a a <= 0.
Proof. unfold string_cmp. rewrite string_compare_refl. lia. Qed.

(** ** Sorting by a total order *)

Section SortTotal.
Context {A : Type} (cmp : A -> A -> Z).
Hypothesis cmp_total : forall a b, 0 < cmp a b -> cmp b a <= 0.
Hypothesis cmp_trans : forall a b c, cmp a b <= 0 -> cmp b c <= 0 -> cmp a c <= 0.

Lemma insert_by_ascending x l :
  StronglySorted (fun a b => cmp a b <= 0) l ->
  StronglySorted (fun a b => cmp a b <= 0) (insert_by cmp x l).
Proof.
  induction 1 as [|y l Hs IH Hy]; simpl; [repeat constructor|].
  destruct (Z.leb_spec (cmp x y) 0) as [Hle|Hgt].
  - constructor; [now constructor|]. constructor; [assumption|].
    eapply Forall_impl; [|exact Hy]. intros z Hz. now apply (cmp_trans x y z).
  - constructor; [assumption|]. apply Forall_insert_by; [|assumption].
    now apply cmp_total.
Qed.

Lemma sort_by_ascending l :
  StronglySorted (fun a b => cmp a b <= 0) (sort_by cmp l).
Proof.
  induction l as [|x l IH]; simpl; [constructor|]. now apply insert_by_ascending.
Qed.
End SortTotal.

Lemma array_get_0 {A} (l : list A) : array_get l 0 = hd_error l.
Proof. destruct l; reflexivity. Qed.

Lemma array_get_last {A} (l : list A) (x : A) :
  array_get (l ++ [x]) (Z.of_nat (List.length (l ++ [x])) - 1) = Some x.
Proof.
  unfold array_get. rewrite length_app. cbn [List.length].
  destruct (Z.ltb_spec (Z.of_nat (List.length l + 1) - 1) 0); [lia|].
  replace (Z.to_nat (Z.of_nat (List.length l + 1) - 1)) with (List.length l) by lia.
  rewrite nth_error_app2 by lia. now rewrite Nat.sub_diag.
Qed.

(** The first and the last element of a list in ascending order bound the
    list. *)
Lemma ascending_ends {A} (le : A -> A -> Prop) (l : list A) :
  (forall a, le a a) -> StronglySorted le l -> l <> [] ->
  exists first last,
    array_get l 0 = Some first /\
    array_get l (Z.of_nat (List.length l) - 1) = Some last /\
    In first l /\ In last l /\
    Forall (fun t => le first t /\ le t last) l.
Proof.
  intros Hrefl Hs Hne.
  destruct l as [|first l]; [contradiction|].
  destruct (exists_last Hne) as (l' & last & E).
  exists first, last. split; [reflexivity|].
  split; [rewrite E; apply array_get_last|].
  split; [now left|]. split; [rewrite E; apply in_or_app; right; now left|].
  assert (Hlast : Forall (fun t => le t last) (first :: l)).
  { rewrite E in Hs |- *. clear E Hne. induction l' as [|y l' IH]; simpl in *.
    - repeat constructor. apply Hrefl.
    - inversion Hs as [|? ? Hs' Hy]; subst. constructor; [|now apply IH].
      rewrite Forall_forall in Hy. apply Hy. apply in_or_app. right. now left. }
  inversion Hs as [|? ? _ Hf]; subst.
  apply Forall_and; [|exact Hlast].
  constructor; [apply Hrefl|exact Hf].
Qed.

(** ** First and last solution *)

Lemma address_stats_solutions rates ats a dm s :
  address_stats rates ats (a, dm) = Ok s ->
  let timestamps := sort_by string_cmp (get_or String.eqb a [] ats) in
  AddressStats.firstSolution s = array_get timestamps 0 /\
  AddressStats.lastSolution s
  = array_get timestamps (Z.of_nat (List.length timestamps) - 1).
Proof.
  unfold address_stats. intros H. inv_bind H. destruct a0 as [[days n] st].
  apply Ok_inj in H. subst s. split; reflexivity.
Qed.

Lemma address_entry_solutions receipts rates a dm s :
  In (a, dm) (fst (group_all receipts)) ->
  address_stats rates (snd (group_all receipts)) (a, dm) = Ok s ->
  exists first last,
    AddressStats.firstSolution s = Some first /\
    AddressStats.lastSolution s = Some last /\
    In first (map ts (receipts_of_address (AddressStats.address s) receipts)) /\
    In last (map ts (receipts_of_address (AddressStats.address s) receipts)) /\
    Forall (fun t => string_cmp first t <= 0 /\ string_cmp t last <= 0)
      (map ts (receipts_of_address (AddressStats.address s) receipts)).
Proof.
  intros Hin Hs. destruct (address_stats_solutions _ _ _ _ _ Hs) as (Ef & El).
  destruct (address_stats_Ok _ _ _ _ _ Hs) as (_ & _ & Ea & _).
  rewrite Ea, Ef, El, group_stamps. clear Ef El.
  set (stamps := map ts (receipts_of_address a receipts)).
  assert (Hne : stamps <> []).
  { assert (Hk : In a (map address receipts)).
    { apply group_keys_iff. change a with (fst (a, dm)). now apply in_map. }
    apply in_map_iff in Hk as (r & Hr & Hin').
    assert (H : In (ts r) stamps).
    { apply in_map. apply filter_In. split; [assumption|]. rewrite Hr. apply String.eqb_refl. }
    intros E. rewrite E in H. contradiction. }
  pose proof (sort_by_perm string_cmp stamps) as P.
  destruct (ascending_ends (fun a b => string_cmp a b <= 0) (sort_by string_cmp stamps))
    as (first & last & H1 & H2 & H3 & H4 & H5).
  - apply string_cmp_refl.
  - apply sort_by_ascending; [apply string_cmp_total|apply string_cmp_trans].
  - intros E. rewrite E in P. apply Permutation_nil in P. contradiction.
  - exists first, last. split; [assumption|]. split; [assumption|].
    split; [eapply Permutation_in; eauto|]. split; [eapply Permutation_in; eauto|].
    eapply Permutation_Forall; eauto.
Qed.

(** X6. Every address entry has a first and a last solution: the smallest and
    the largest, in the order of strings, of the timestamps of the receipts
    of the address. *)
Theorem computeStats_first_last_solution receipts rates g :
  computeStats receipts rates = Ok g ->
  Forall (fun a =>
            exists first last,
              AddressStats.firstSolution a = Some first /\
              AddressStats.lastSolution a = Some last /\
              In first (map ts (receipts_of_address (AddressStats.address a) receipts)) /\
              In last (map ts (receipts_of_address (AddressStats.address a) receipts)) /\
              Forall (fun t => string_cmp first t <= 0 /\ string_cmp t last <= 0)
                (map ts (receipts_of_address (AddressStats.address a) receipts)))
    (GlobalStats.byAddress g).
Proof.
  intros H. destruct receipts as [|r0 rs].
  - apply Ok_inj in H. subst g. constructor.
  - set (receipts := r0 :: rs) in *.
    destruct (computeStats_shape receipts rates g ltac:(discriminate) H)
      as (bs & ds & _ & Hb & _ & ->).
    cbn [GlobalStats.byAddress]. apply Forall_sort_by.
    eapply Forall2_Forall_r; [|exact (Forall2_In_l _ _ _ Hb)].
    intros [a dm] s [Hin Hs]. exact (address_entry_solutions _ _ _ _ _ Hin Hs).
Qed.

Lemma computeStats_first_last_solution_witness :
  match computeStats ex_receipts ex_rates with
  | Ok g =>
      Forall (fun a => exists first last,
                AddressStats.firstSolution a = Some first /\
                AddressStats.lastSolution a = Some last /\
                string_cmp first last <= 0)
        (GlobalStats.byAddress g)
  | Throw _ => False
  end.
Proof.
  destruct (computeStats ex_receipts ex_rates) as [g|e] eqn:E.
  - pose proof (computeStats_first_last_solution ex_receipts ex_rates g E) as H.
    eapply Forall_impl; [|exact H].
    intros a (first & last & H1 & H2 & H3 & _ & H5).
    exists first, last. split; [assumption|]. split; [assumption|].
    rewrite Forall_forall in H5. apply (H5 first H3).
  - revert E. vm_compute. discriminate.
Defined.
(** ** Start and end date *)

Lemma date_range_nonempty receipts rates g :
  receipts <> [] -> computeStats receipts rates = Ok g ->
  exists dmin dmax,
    In dmin (map day_of receipts) /\ In dmax (map day_of receipts) /\
    Forall (fun r => dmin <= day_of r <= dmax) receipts /\
    GlobalStats.startDate g = Some (date_of_day dmin) /\
    GlobalStats.endDate g = Some (date_of_day dmax).
Proof.
  intros Hne H.
  destruct (computeStats_shape receipts rates g Hne H) as (bs & ds & _ & _ & Hd & ->).
  cbn [GlobalStats.startDate GlobalStats.endDate].
  set (days := sort_by by_day_desc ds).
  pose proof (sort_by_perm by_day_desc ds) as P. fold days in P.
  assert (Hfacts : forall x, In x days ->
            In (DayStats.day x) (map day_of receipts) /\
            DayStats.date x = date_of_day (DayStats.day x)).
  { intros x Hx. apply (Permutation_in _ P) in Hx.
    destruct (global_day_facts _ _ _ _ Hd Hx) as (Hk & _ & Ex).
    split; [assumption|]. rewrite Ex at 1. reflexivity. }
  assert (Hcover : forall r, In r receipts -> In (day_of r) (map DayStats.day days)).
  { intros r Hr. eapply Permutation_in; [apply Permutation_map; symmetry; exact P|].
    rewrite (global_days0_days _ _ _ Hd). apply global_keys_iff. now apply in_map. }
  destruct (ascending_ends (fun a b => DayStats.day b <= DayStats.day a) days)
    as (first & last & H1 & H2 & H3 & H4 & H5).
  - intros a. lia.
  - apply (sort_by_sorted by_day_desc DayStats.day by_day_desc_key).
  - destruct receipts as [|r0 rs]; [contradiction|].
    specialize (Hcover r0 (or_introl eq_refl)).
    intros E. rewrite E in Hcover. contradiction.
  - exists (DayStats.day last), (DayStats.day first).
    split; [apply Hfacts, H4|]. split; [apply Hfacts, H3|]. split.
    + apply Forall_forall. intros r Hr.
      specialize (Hcover r Hr). apply in_map_iff in Hcover as (x & Ex & Hx).
      rewrite Forall_forall in H5. specialize (H5 x Hx). lia.
    + rewrite H1, H2. cbn [option_map].
      rewrite (proj2 (Hfacts _ H3)), (proj2 (Hfacts _ H4)). split; reflexivity.
Qed.

(** X7. The start date is the date of the earliest day of the receipts and the
    end date that of the latest; without receipts there is neither. *)
Theorem computeStats_date_range receipts rates g :
  computeStats receipts rates = Ok g ->
  (receipts = [] ->
   GlobalStats.startDate g = None /\ GlobalStats.endDate g = None) /\
  (receipts <> [] ->
   exists dmin dmax,
     In dmin (map day_of receipts) /\ In dmax (map day_of receipts) /\
     Forall (fun r => dmin <= day_of r <= dmax) receipts /\
     GlobalStats.startDate g = Some (date_of_day dmin) /\
     GlobalStats.endDate g = Some (date_of_day dmax)).
Proof.
  intros H. split.
  - intros ->. apply Ok_inj in H. subst g. split; reflexivity.
  - intros Hne. exact (date_range_nonempty receipts rates g Hne H).
Qed.

Lemma computeStats_date_range_witness :
  match computeStats ex_receipts ex_rates with
  | Ok g =>
      exists dmin dmax,
        Forall (fun r => dmin <= day_of r <= dmax) ex_receipts /\
        GlobalStats.startDate g = Some (date_of_day dmin) /\
        GlobalStats.endDate g = Some (date_of_day dmax)
  | Throw _ => False
  end.
Proof.
  destruct (computeStats ex_receipts ex_rates) as [g|e] eqn:E.
  - destruct (proj2 (computeStats_date_range ex_receipts ex_rates g E))
      as (dmin & dmax & _ & _ & H3 & H4 & H5); [discriminate|].
    exists dmin, dmax. auto.
  - revert E. vm_compute. discriminate.
Defined.
(** ** When computeStats returns *)

Lemma foldM_Throw {A S} (f : S -> A -> result S) l : forall s e,
  foldM f s l = Throw e -> exists s' x, In x l /\ f s' x = Throw e.
Proof.
  induction l as [|x l IH]; intros s e H; simpl in H; [discriminate|].
  apply bind_Throw in H as [H|(s' & Hs & H)].
  - exists s, x. split; [now left|assumption].
  - destruct (IH _ _ H) as (s'' & y & Hy & Hf). exists s'', y. split; [now right|assumption].
Qed.

Lemma reencoded_date_throws d e :
  0 <= d < 10 ^ 21 -> dateFromChallengeId (challengeId_of_day d) = Throw e ->
  e = InvalidTimeValue /\ maxDay < d.
Proof.
  intros Hd H.
  rewrite (dateFromChallengeId_eq _ (to_Number d)) in H
    by (apply dayFromChallengeId_of_day; lia).
  destruct (Z.leb_spec (to_Number d) maxDay) as [|Hgt]; [discriminate|].
  split; [congruence|].
  destruct (Z.lt_ge_cases d (2 ^ 53)) as [Hs|Hb].
  - now rewrite (to_Number_small d Hs) in Hgt.
  - unfold maxDay. assert (99979610 < 2 ^ 53) by reflexivity. lia.
Qed.

Lemma address_days_throw rates dm e : forall acc,
  Forall (fun x => 0 <= fst x < 10 ^ 21) dm ->
  foldM (address_day_entry rates) acc dm = Throw e -> e = InvalidTimeValue.
Proof.
  intros acc Hr H. apply foldM_Throw in H as ([[days n] s] & [d c] & Hin & H).
  rewrite address_day_entry_eq in H.
  apply bind_Throw in H as [H|(date & _ & H)]; [|discriminate].
  rewrite Forall_forall in Hr. specialize (Hr _ Hin). cbn [fst] in Hr.
  exact (proj1 (reencoded_date_throws d e Hr H)).
Qed.

Lemma computeStats_throws_range receipts rates e :
  Forall parses receipts -> Forall (fun r => day_of r < 10 ^ 21) receipts ->
  computeStats receipts rates = Throw e -> e = InvalidTimeValue.
Proof.
  intros Hp Hs H. destruct receipts as [|r0 rs]; [discriminate|].
  set (receipts := r0 :: rs) in *.
  assert (Hday : forall d, In d (map day_of receipts) -> 0 <= d < 10 ^ 21).
  { intros d Hd. apply in_map_iff in Hd as (r & <- & Hr).
    rewrite Forall_forall in Hs. split; [apply day_of_nonneg|now apply Hs]. }
  unfold computeStats in H. fold receipts in H. change (r0 :: rs) with receipts in H.
  rewrite (group_loop_pure _ _ Hp) in H. fold (group_all receipts) in H.
  cbn [bind] in H.
  pose proof (group_inner_keys receipts) as HK.
  pose proof (group_keys_NoDup receipts) as ND.
  destruct (group_all receipts) as [adm ats]. cbn [fst] in *.
  apply bind_Throw in H as [H|(bs & _ & H)].
  - apply foldM_Throw in H as (acc & [a dm] & Hin & H).
    unfold address_entry in H. apply bind_Throw in H as [H|(? & _ & H)]; [|discriminate].
    unfold address_stats in H. apply bind_Throw in H as [H|([[? ?] ?] & _ & H)];
      [|discriminate].
    eapply address_days_throw; [|exact H].
    apply Forall_forall. intros [d c] Hdc. cbn [fst]. apply Hday.
    apply (HK a dm d).
    + apply (In_map_get _ String.eqb_spec); assumption.
    + change d with (fst (d, c)). now apply in_map.
  - rewrite (global_loop_pure _ _ Hp) in H. fold (global_all receipts) in H.
    cbn [bind] in H.
    apply bind_Throw in H as [H|(? & _ & H)]; [|discriminate].
    apply foldM_Throw in H as (acc & [d addrs] & Hin & H).
    unfold global_day_entry in H. apply bind_Throw in H as [H|(? & _ & H)]; [|discriminate].
    unfold global_day_stats in H. apply bind_Throw in H as [H|(date & _ & H)].
    + refine (proj1 (reencoded_date_throws d e _ H)). apply Hday.
      apply global_keys_iff. change d with (fst (d, addrs)). now apply in_map.
    + rewrite (receipts_of_day_pure _ _ Hp) in H. discriminate.
Qed.

Lemma computeStats_Ok_dated receipts rates g :
  computeStats receipts rates = Ok g -> Forall dated receipts.
Proof.
  intros H. destruct receipts as [|r0 rs]; [constructor|].
  set (receipts := r0 :: rs) in *.
  destruct (computeStats_shape receipts rates g ltac:(discriminate) H)
    as (bs & ds & Hp & _ & Hd & _).
  apply Forall_forall. intros r Hr.
  rewrite Forall_forall in Hp. exists (day_of r). split; [apply parses_day_of, Hp, Hr|].
  assert (Hk : In (day_of r) (map DayStats.day ds)).
  { rewrite (global_days0_days _ _ _ Hd). apply global_keys_iff. now apply in_map. }
  apply in_map_iff in Hk as (x & Ex & Hx).
  destruct (global_day_facts _ _ _ _ Hd Hx) as (_ & Hmax & _). now rewrite <- Ex.
Qed.

(** X8. computeStats returns a result exactly when every identifier decodes to a
    day that has a calendar date.  When every identifier decodes (to a day
    below 10^21) and some day has no date, what is thrown is the RangeError
    of the date conversion. *)
Theorem computeStats_returns_iff_dated receipts rates :
  ((exists g, computeStats receipts rates = Ok g) <-> Forall dated receipts) /\
  (Forall parses receipts -> Forall (fun r => day_of r < 10 ^ 21) receipts ->
   ~ Forall dated receipts ->
   computeStats receipts rates = Throw InvalidTimeValue).
Proof.
  split.
  - split.
    + intros [g H]. exact (computeStats_Ok_dated _ _ _ H).
    + apply computeStats_total.
  - intros Hp Hs Hn. destruct (computeStats receipts rates) as [g|e] eqn:E.
    + exfalso. apply Hn. exact (computeStats_Ok_dated _ _ _ E).
    + f_equal. exact (computeStats_throws_range _ _ _ Hp Hs E).
Qed.

Lemma computeStats_returns_iff_dated_witness :
  (exists g, computeStats ex_receipts ex_rates = Ok g) /\
  computeStats [mkReceipt "2025-11-05T10:15:00Z" "A" "**D07C01";
                mkReceipt "2025-11-05T10:45:00Z" "B" "**D99979611C00"] ex_rates
  = Throw InvalidTimeValue.
Proof.
  split.
  - apply (proj1 (computeStats_returns_iff_dated ex_receipts ex_rates)).
    repeat constructor; eexists; (split; [vm_compute; reflexivity|vm_compute; discriminate]).
  - apply (proj2 (computeStats_returns_iff_dated _ ex_rates)).
    + repeat constructor; eexists; vm_compute; reflexivity.
    + repeat constructor; vm_compute; reflexivity.
    + intros H. inversion H as [|? ? _ H']; subst.
      inversion H' as [|? ? (n & Hn & Hle) _]; subst.
      vm_compute in Hn. injection Hn as <-. vm_compute in Hle. apply Hle. reflexivity.
Defined.
(** X9. The identifier that computeStats rebuilds from a day number decodes to
    that day when the day is below 10^21, where a number prints in plain
    digits: for every day that dayFromChallengeId can return, and for every
    integer below 2^53 (for another integer below 10^21, to its Number
    value).  From 10^21 on, and for Infinity, it does not decode.  Up to the
    last day of the Date range it yields the date of the day. *)
Theorem reencoded_identifier_round_trip :
  (forall id n, dayFromChallengeId id = Ok n -> n < 10 ^ 21 ->
     dayFromChallengeId (challengeId_of_day n) = Ok n) /\
  (forall n, 0 <= n < 2 ^ 53 ->
     dayFromChallengeId (challengeId_of_day n) = Ok n) /\
  (forall n, 0 <= n < 10 ^ 21 ->
     dayFromChallengeId (challengeId_of_day n) = Ok (to_Number n)) /\
  (forall n, 10 ^ 21 <= n ->
     dayFromChallengeId (challengeId_of_day n) = Throw InvalidChallengeId) /\
  (forall n, 0 <= n <= maxDay ->
     dateFromChallengeId (challengeId_of_day n) = Ok (date_of_day n)).
Proof.
  split; [|split; [exact dayFromChallengeId_of_small_day|
            split; [exact dayFromChallengeId_of_day|
              split; [exact dayFromChallengeId_of_huge_day|]]]].
  - intros id n H Hn. pose proof (dayFromChallengeId_nonneg _ _ H) as H0.
    rewrite dayFromChallengeId_of_day by lia.
    now rewrite (dayFromChallengeId_Number _ _ H).
  - intros n Hn. unfold maxDay in Hn.
    rewrite (dateFromChallengeId_eq _ n)
      by (apply dayFromChallengeId_of_small_day;
          assert (99979610 < 2 ^ 53) by reflexivity; lia).
    unfold maxDay. destruct (Z.leb_spec n 99979610); [reflexivity|lia].
Qed.

Lemma reencoded_identifier_round_trip_witness :
  dayFromChallengeId "**D07C00" = Ok 7 /\
  dayFromChallengeId (challengeId_of_day 9007199254740992) = Ok 9007199254740992 /\
  dayFromChallengeId "**D1e+21C00" = Throw InvalidChallengeId /\
  dateFromChallengeId "**D08C00" = Ok "2025-11-06".
Proof.
  destruct reencoded_identifier_round_trip as (H0 & H1 & _ & H2 & H3).
  split; [|split; [|split]].
  - apply (H1 7). lia.
  - apply (H0 "**D9007199254740993C00" 9007199254740992); vm_compute; reflexivity.
  - apply (H2 (10 ^ 21)). lia.
  - apply (H3 8). unfold maxDay. lia.
Defined.

(** ** Independence of the order of the receipts *)

Lemma strict_desc_unique (l1 : list Z) : forall l2,
  StronglySorted (fun a b => b < a) l1 -> StronglySorted (fun a b => b < a) l2 ->
  (forall x, In x l1 <-> In x l2) -> l1 = l2.
Proof.
  induction l1 as [|a l1 IH]; intros [|b l2] H1 H2 Hm.
  - reflexivity.
  - exfalso. apply (Hm b). now left.
  - exfalso. apply (Hm a). now left.
  - inversion H1 as [|? ? S1 F1]; subst. inversion H2 as [|? ? S2 F2]; subst.
    rewrite Forall_forall in F1, F2.
    assert (E : a = b).
    { destruct (proj1 (Hm a) (or_introl eq_refl)) as [E|Ha]; [congruence|].
      destruct (proj2 (Hm b) (or_introl eq_refl)) as [E|Hb]; [congruence|].
      specialize (F1 b Hb). specialize (F2 a Ha). lia. }
    subst b. f_equal. apply IH; try assumption.
    intros x. split; intros Hx.
    + destruct (proj1 (Hm x) (or_intror Hx)) as [E|?]; [|assumption].
      specialize (F1 x Hx). lia.
    + destruct (proj2 (Hm x) (or_intror Hx)) as [E|?]; [|assumption].
      specialize (F2 x Hx). lia.
Qed.

Lemma count_day_perm d l l' : Permutation l l' -> count_day d l = count_day d l'.
Proof.
  intros P. unfold count_day. apply Permutation_length. now apply Permutation_filter'.
Qed.

Lemma addresses_of_day_perm d l l' :
  Permutation l l' ->
  List.length (addresses_of_day d l) = List.length (addresses_of_day d l').
Proof.
  intros P. apply Permutation_length. apply NoDup_Permutation.
  - apply set_of_list_NoDup.
  - apply set_of_list_NoDup.
  - intros a. unfold addresses_of_day. rewrite !set_of_list_In.
    split; apply Permutation_in; apply Permutation_map, Permutation_filter';
      [assumption|now symmetry].
Qed.

Lemma day_summary_perm rates d l l' :
  Permutation l l' -> day_summary rates l d = day_summary rates l' d.
Proof.
  intros P. unfold day_summary.
  now rewrite (count_day_perm d l l' P), (addresses_of_day_perm d l l' P).
Qed.

Lemma global_days_sorted receipts rates ds :
  Forall2 (fun e x => day_rel rates (Some (List.length (snd e))) (fst e)
                        (count_day (fst e) receipts) x)
    (global_all receipts) ds ->
  let days := sort_by by_day_desc ds in
  StronglySorted (fun a b => b < a) (map DayStats.day days) /\
  (forall d, In d (map DayStats.day days) <-> In d (map day_of receipts)) /\
  days = map (day_summary rates receipts) (map DayStats.day days).
Proof.
  intros Hd days.
  pose proof (sort_by_perm by_day_desc ds) as P. fold days in P.
  split; [|split].
  - apply StronglySorted_map. unfold days.
    apply (sort_by_strict by_day_desc DayStats.day by_day_desc_key).
    rewrite (global_days0_days _ _ _ Hd). apply global_keys_NoDup.
  - intros d. rewrite <- global_keys_iff, <- (global_days0_days _ _ _ Hd).
    split; apply Permutation_in; apply Permutation_map; [assumption|now symmetry].
  - rewrite map_map. rewrite <- (map_id days) at 1. apply map_ext_in.
    intros x Hx. apply (Permutation_in _ P) in Hx.
    exact (proj2 (proj2 (global_day_facts _ _ _ _ Hd Hx))).
Qed.

(** X10. The global list of days, the totals and the start and end date do not
    depend on the order of the receipts. *)
Theorem computeStats_order_independent receipts receipts' rates g :
  Permutation receipts receipts' -> computeStats receipts rates = Ok g ->
  exists g',
    computeStats receipts' rates = Ok g' /\
    GlobalStats.days g' = GlobalStats.days g /\
    GlobalStats.totalReceipts g' = GlobalStats.totalReceipts g /\
    GlobalStats.totalAddresses g' = GlobalStats.totalAddresses g /\
    GlobalStats.startDate g' = GlobalStats.startDate g /\
    GlobalStats.endDate g' = GlobalStats.endDate g.
Proof.
  intros P H.
  destruct (computeStats_total receipts' rates) as [g' H'].
  { eapply Permutation_Forall; [exact P|]. exact (computeStats_Ok_dated _ _ _ H). }
  exists g'. split; [assumption|].
  destruct receipts as [|r0 rs].
  - apply Permutation_nil in P. subst receipts'.
    apply Ok_inj in H, H'. subst g g'. repeat split; reflexivity.
  - assert (Hne' : receipts' <> []).
    { intros ->. apply Permutation_sym, Permutation_nil in P. discriminate. }
    set (receipts := r0 :: rs) in *.
    destruct (computeStats_shape receipts rates g ltac:(discriminate) H)
      as (bs & ds & _ & Hb & Hd & ->).
    destruct (computeStats_shape receipts' rates g' Hne' H')
      as (bs' & ds' & _ & Hb' & Hd' & ->).
    cbn [GlobalStats.days GlobalStats.totalReceipts GlobalStats.totalAddresses
         GlobalStats.startDate GlobalStats.endDate].
    destruct (global_days_sorted _ _ _ Hd) as (S & M & E).
    destruct (global_days_sorted _ _ _ Hd') as (S' & M' & E').
    assert (Ek : map DayStats.day (sort_by by_day_desc ds')
                 = map DayStats.day (sort_by by_day_desc ds)).
    { apply strict_desc_unique; try assumption.
      intros d. rewrite M, M'.
      split; apply Permutation_in; apply Permutation_map; [now symmetry|assumption]. }
    assert (Edays : sort_by by_day_desc ds' = sort_by by_day_desc ds).
    { rewrite E', E, Ek. apply map_ext. intros d. symmetry. now apply day_summary_perm. }
    rewrite Edays. split; [reflexivity|].
    split; [symmetry; now apply Permutation_length|].
    split; [|split; reflexivity].
    rewrite <- !(length_map fst). apply Permutation_length. apply NoDup_Permutation.
    + apply group_keys_NoDup.
    + apply group_keys_NoDup.
    + intros a. rewrite !group_keys_iff.
      split; apply Permutation_in; apply Permutation_map; [now symmetry|assumption].
Qed.

Lemma computeStats_order_independent_witness :
  match computeStats ex_receipts ex_rates with
  | Ok g =>
      exists g',
        computeStats (rev ex_receipts) ex_rates = Ok g' /\
        GlobalStats.days g' = GlobalStats.days g
  | Throw _ => False
  end.
Proof.
  destruct (computeStats ex_receipts ex_rates) as [g|e] eqn:E.
  - destruct (computeStats_order_independent ex_receipts (rev ex_receipts) ex_rates g
                (Permutation_rev _) E) as (g' & H1 & H2 & _).
    exists g'. split; assumption.
  - revert E. vm_compute. discriminate.
Defined.
(** ** Today's entry *)

Lemma dated_date r :
  dated r -> dateFromChallengeId (challenge_id r) = Ok (date_of_day (day_of r)).
Proof.
  intros (n & Hn & Hle). unfold day_of. rewrite Hn.
  rewrite (dateFromChallengeId_eq _ n Hn).
  destruct (Z.leb_spec n maxDay); [reflexivity|lia].
Qed.

Lemma dated_range r : dated r -> 0 <= day_of r <= maxDay.
Proof.
  intros (n & Hn & Hle). unfold day_of. rewrite Hn. split; [|assumption].
  exact (dayFromChallengeId_nonneg _ _ Hn).
Qed.

Lemma has_date_dated r d : dateFromChallengeId (challenge_id r) = Ok d -> dated r.
Proof.
  intros H. destruct (dateFromChallengeId_day _ _ H) as [n Hn]. exists n.
  split; [assumption|]. rewrite (dateFromChallengeId_eq _ n Hn) in H.
  destruct (Z.leb_spec n maxDay); [assumption|discriminate].
Qed.

Lemma date_of_day_inj d1 d2 :
  0 <= d1 <= maxDay -> 0 <= d2 <= maxDay -> date_of_day d1 = date_of_day d2 -> d1 = d2.
Proof.
  intros H1 H2 E.
  destruct (in_range_has_date d1 H1) as [x1 Hx1].
  destruct (in_range_has_date d2 H2) as [x2 Hx2].
  destruct (reencoded_date d1 x1 ltac:(lia) Hx1) as (_ & ->).
  destruct (reencoded_date d2 x2 ltac:(lia) Hx2) as (_ & ->).
  unfold maxDay in H1, H2.
  apply (dateFromChallengeId_inj (challengeId_of_day d1) (challengeId_of_day d2) d1 d2
           (date_of_day d1)).
  - apply dayFromChallengeId_of_small_day. assert (99979610 < 2 ^ 53) by reflexivity. lia.
  - apply dayFromChallengeId_of_small_day. assert (99979610 < 2 ^ 53) by reflexivity. lia.
  - assumption.
  - rewrite E. assumption.
Qed.

Lemma find_unique {A} (p : A -> bool) l x :
  In x l -> p x = true -> (forall y, In y l -> p y = true -> y = x) ->
  find p l = Some x.
Proof.
  induction l as [|y l IH]; intros Hin Hp Hu; [contradiction|]. simpl.
  destruct (p y) eqn:E.
  - f_equal. apply Hu; [now left|assumption].
  - destruct Hin as [->|Hin]; [congruence|].
    apply IH; try assumption. intros z Hz. apply Hu. now right.
Qed.

Lemma find_none {A} (p : A -> bool) l :
  (forall y, In y l -> p y = false) -> find p l = None.
Proof.
  induction l as [|y l IH]; intros H; [reflexivity|]. simpl.
  rewrite (H y (or_introl eq_refl)). apply IH. intros z Hz. apply H. now right.
Qed.

(** getTodayStats on receipts that all have a date. *)
Lemma getTodayStats_dated env receipts rates :
  Forall dated receipts ->
  getTodayStats env receipts rates
  = Ok (match filter (fun r => String.eqb (date_of_day (day_of r)) (today env))
                receipts with
        | [] => None
        | first :: _ =>
            Some (day_entry rates
                    (Some (List.length (addresses_of_day (day_of first) receipts)))
                    (day_of first) (today env) (count_day (day_of first) receipts))
        end).
Proof.
  intros Hd. unfold getTodayStats.
  destruct (today_eq env) as [-> Ht]. cbn [bind]. rewrite Ht.
  rewrite (filterM_pure _ (fun r => String.eqb (date_of_day (day_of r)) (today env))).
  2:{ eapply Forall_impl; [|exact Hd]. intros r Hr.
      rewrite (dated_date r Hr). reflexivity. }
  cbn [bind].
  destruct (filter (fun r => String.eqb (date_of_day (day_of r)) (today env)) receipts)
    as [|first rest] eqn:Ef; [reflexivity|].
  assert (Hin : In first (filter (fun r => String.eqb (date_of_day (day_of r)) (today env))
                             receipts)) by (rewrite Ef; now left).
  apply filter_In in Hin as [Hin Hp]. apply String.eqb_eq in Hp.
  rewrite Forall_forall in Hd.
  rewrite (parses_day_of first (dated_parses _ (Hd first Hin))). cbn [bind].
  assert (E : first :: rest = filter (fun r => day_of r =? day_of first) receipts).
  { rewrite <- Ef. apply filter_ext_in. intros r Hr.
    destruct (Z.eqb_spec (day_of r) (day_of first)) as [->|N].
    - now apply String.eqb_eq.
    - apply String.eqb_neq. intros E. apply N.
      apply date_of_day_inj; [apply dated_range, Hd, Hr|apply dated_range, Hd, Hin|congruence]. }
  rewrite E. unfold day_entry, addresses_of_day, count_day. reflexivity.
Qed.

Lemma getTodayStats_Ok_dated env receipts rates o :
  getTodayStats env receipts rates = Ok o -> Forall dated receipts.
Proof.
  intros H. unfold getTodayStats in H. destruct (today_eq env) as [E Ht].
  rewrite E in H. cbn [bind] in H. inv_bind H.
  apply filterM_Ok in Ha as [Hall _].
  eapply Forall_impl; [|exact Hall]. intros r [b Hb].
  inv_bind Hb. exact (has_date_dated _ _ Ha).
Qed.

(** X11. getTodayStats returns exactly when computeStats does, and what it
    returns is the entry of the current UTC date in the global list of days
    of computeStats, or null when that list has no such entry. *)
Theorem getTodayStats_is_todays_entry env receipts rates :
  ((exists o, getTodayStats env receipts rates = Ok o)
   <-> (exists g, computeStats receipts rates = Ok g)) /\
  (forall g, computeStats receipts rates = Ok g ->
     getTodayStats env receipts rates
     = Ok (find (fun x => String.eqb (DayStats.date x) (today env))
             (GlobalStats.days g))).
Proof.
  split.
  - split.
    + intros [o H]. apply computeStats_total.
      exact (getTodayStats_Ok_dated _ _ _ _ H).
    + intros [g H]. rewrite (getTodayStats_dated _ _ _ (computeStats_Ok_dated _ _ _ H)).
      eauto.
  - intros g H. pose proof (computeStats_Ok_dated _ _ _ H) as Hd.
    rewrite (getTodayStats_dated _ _ _ Hd). f_equal.
    destruct receipts as [|r0 rs].
    { apply Ok_inj in H. subst g. reflexivity. }
    set (receipts := r0 :: rs) in *.
    destruct (computeStats_shape receipts rates g ltac:(discriminate) H)
      as (bs & ds & _ & _ & HD & ->).
    cbn [GlobalStats.days].
    destruct (global_days_sorted _ _ _ HD) as (_ & M & E).
    set (days := sort_by by_day_desc ds) in *.
    assert (Hx : forall x, In x days ->
              x = day_summary rates receipts (DayStats.day x) /\
              exists r, In r receipts /\ day_of r = DayStats.day x).
    { intros x Hx. split.
      - apply (Permutation_in _ (sort_by_perm by_day_desc ds)) in Hx.
        exact (proj2 (proj2 (global_day_facts _ _ _ _ HD Hx))).
      - assert (Hk : In (DayStats.day x) (map day_of receipts))
          by (apply M; now apply in_map).
        apply in_map_iff in Hk as (r & Hr & Hin). eauto. }
    rewrite Forall_forall in Hd.
    destruct (filter (fun r => String.eqb (date_of_day (day_of r)) (today env)) receipts)
      as [|first rest] eqn:Ef.
    + symmetry. apply find_none. intros x Hin.
      destruct (Hx x Hin) as (Ex & r & Hr & Er).
      rewrite Ex. cbn [day_summary day_entry DayStats.date]. rewrite <- Er.
      destruct (String.eqb (date_of_day (day_of r)) (today env)) eqn:Ep; [|reflexivity].
      assert (Hf : In r []); [|contradiction].
      rewrite <- Ef. apply filter_In. split; assumption.
    + assert (Hin : In first (filter (fun r => String.eqb (date_of_day (day_of r))
                                                 (today env)) receipts))
        by (rewrite Ef; now left).
      apply filter_In in Hin as [Hin Hp]. apply String.eqb_eq in Hp.
      assert (Es : day_entry rates
                     (Some (List.length (addresses_of_day (day_of first) receipts)))
                     (day_of first) (today env) (count_day (day_of first) receipts)
                   = day_summary rates receipts (day_of first)).
      { unfold day_summary. now rewrite Hp. }
      rewrite Es. symmetry. apply find_unique.
      * rewrite E. apply in_map. apply M. now apply in_map.
      * cbn [day_summary day_entry DayStats.date]. now apply String.eqb_eq.
      * intros y Hy Hpy. destruct (Hx y Hy) as (Ey & r & Hr & Er).
        rewrite Ey. f_equal. rewrite Ey in Hpy.
        cbn [day_summary day_entry DayStats.date] in Hpy. apply String.eqb_eq in Hpy.
        rewrite <- Er in *.
        apply date_of_day_inj; [apply dated_range, Hd, Hr|apply dated_range, Hd, Hin|congruence].
Qed.

Lemma getTodayStats_is_todays_entry_witness :
  exists g,
    computeStats ex_receipts ex_rates = Ok g /\
    getTodayStats env0 ex_receipts ex_rates = Ok (hd_error (GlobalStats.days g)).
Proof.
  destruct (computeStats ex_receipts ex_rates) as [g|e] eqn:E.
  - exists g. split; [reflexivity|].
    rewrite (proj2 (getTodayStats_is_todays_entry env0 ex_receipts ex_rates) g E).
    f_equal. revert E. vm_compute. intros E. injection E as <-. reflexivity.
  - exfalso. revert E. vm_compute. discriminate.
Defined.
(** ** The ranking of the addresses *)

Lemma index_of_functional a l i j :
  index_of a l = Some i -> index_of a l = Some j -> i = j.
Proof. congruence. Qed.

Lemma address_ranked_asym receipts a b :
  address_ranked_before receipts a b -> address_ranked_before receipts b a -> False.
Proof.
  intros [H1|[E1 (i & j & Ha & Hb & Hij)]] [H2|[E2 (j' & i' & Hb' & Ha' & Hji)]];
    try lia.
  rewrite Ha in Ha'. rewrite Hb in Hb'. injection Ha' as <-. injection Hb' as <-. lia.
Qed.

(** A list without repetition that is sorted by an order no two elements
    satisfy both ways is determined by its elements. *)
Lemma sorted_unique {A} (R : A -> A -> Prop) :
  (forall a b, R a b -> R b a -> False) ->
  forall l1 l2, NoDup l1 -> NoDup l2 ->
    StronglySorted R l1 -> StronglySorted R l2 ->
    (forall x, In x l1 <-> In x l2) -> l1 = l2.
Proof.
  intros Hasym. induction l1 as [|a l1 IH]; intros [|b l2] N1 N2 S1 S2 Hm.
  - reflexivity.
  - exfalso. apply (Hm b). now left.
  - exfalso. apply (Hm a). now left.
  - inversion N1 as [|? ? Na N1']; subst. inversion N2 as [|? ? Nb N2']; subst.
    inversion S1 as [|? ? S1' F1]; subst. inversion S2 as [|? ? S2' F2]; subst.
    rewrite Forall_forall in F1, F2.
    assert (E : a = b).
    { destruct (proj1 (Hm a) (or_introl eq_refl)) as [E|Ha]; [congruence|].
      destruct (proj2 (Hm b) (or_introl eq_refl)) as [E|Hb]; [congruence|].
      exfalso. exact (Hasym a b (F1 b Hb) (F2 a Ha)). }
    subst b. f_equal. apply IH; try assumption.
    intros x. split; intros Hx.
    + destruct (proj1 (Hm x) (or_intror Hx)) as [E|?]; [|assumption].
      subst x. contradiction.
    + destruct (proj2 (Hm x) (or_intror Hx)) as [E|?]; [|assumption].
      subst x. contradiction.
Qed.

(** C8. computeStats returns for every list of receipts whose identifiers
    have a date.  byAddress holds one entry for each address of the
    receipts, with the number of its receipts as totalReceipts, sorted
    descending by totalReceipts, addresses with equal totalReceipts in the
    order of their first appearance in the receipt list; that order
    determines the list of addresses: it is the only arrangement of the
    addresses of the receipts that it sorts.  The global days list holds the
    days of the receipts, the days list of an address the days of its
    receipts, and both are strictly descending by day number, so no day
    occurs twice in a list. *)
Theorem C8_ranking_and_day_order :
  (forall receipts rates,
     Forall dated receipts -> exists g, computeStats receipts rates = Ok g) /\
  (forall receipts rates g,
     computeStats receipts rates = Ok g ->
     StronglySorted (ranked_before receipts) (GlobalStats.byAddress g) /\
     NoDup (map AddressStats.address (GlobalStats.byAddress g)) /\
     (forall a, In a (map AddressStats.address (GlobalStats.byAddress g))
                <-> In a (map address receipts)) /\
     Forall (fun a => AddressStats.totalReceipts a
                      = count_address (AddressStats.address a) receipts)
       (GlobalStats.byAddress g) /\
     (forall l, NoDup l ->
        (forall a, In a l <-> In a (map address receipts)) ->
        StronglySorted (address_ranked_before receipts) l ->
        l = map AddressStats.address (GlobalStats.byAddress g)) /\
     StronglySorted later_day_first (GlobalStats.days g) /\
     (forall d, In d (map DayStats.day (GlobalStats.days g))
                <-> In d (map day_of receipts)) /\
     Forall (fun a =>
               StronglySorted later_day_first (AddressStats.days a) /\
               (forall d, In d (map DayStats.day (AddressStats.days a))
                          <-> In d (map day_of (receipts_of_address
                                                  (AddressStats.address a) receipts))))
       (GlobalStats.byAddress g)).
Proof.
  split; [exact computeStats_total|].
  intros receipts rates g H. destruct receipts as [|r0 rs].
  { apply Ok_inj in H. subst g. cbn.
    split; [constructor|]. split; [constructor|]. split; [tauto|].
    split; [constructor|]. split.
    - intros [|a l] _ Hm _; [reflexivity|]. exfalso. apply (Hm a). now left.
    - split; [constructor|]. split; [tauto|constructor]. }
  set (receipts := r0 :: rs) in *.
  destruct (computeStats_shape receipts rates g ltac:(discriminate) H)
    as (bs & ds & _ & HA & HD & ->).
  cbn [GlobalStats.byAddress GlobalStats.days].
  pose proof (Forall2_In_l _ _ _ HA) as HA'.
  assert (Hst : forall e s, In e (fst (group_all receipts)) /\
                            address_stats rates (snd (group_all receipts)) e = Ok s ->
                AddressStats.address s = fst e /\
                StronglySorted later_day_first (AddressStats.days s)).
  { intros [a dm] s [Hin Hs]. apply address_stats_Ok in Hs.
    destruct Hs as (d0 & HF & Ha & Hd & _). split; [exact Ha|]. rewrite Hd.
    apply (days_strictly_descending rates (fun _ => None) dm d0 snd); [|exact HF].
    apply (group_inner_NoDup receipts a).
    apply (In_map_get _ String.eqb_spec); [apply group_keys_NoDup|exact Hin]. }
  assert (Hrank : StronglySorted (ranked_before receipts)
                    (sort_by by_totalReceipts_desc bs)).
  { assert (Hord : StronglySorted
                     (fun a b => encounter_before receipts (AddressStats.address a)
                                   (AddressStats.address b)) bs).
    { apply StronglySorted_map.
      assert (E : map fst (fst (group_all receipts)) = map AddressStats.address bs).
      { eapply Forall2_map_l; [|exact HA']. intros e s Hes. cbv beta in Hes.
        symmetry. exact (proj1 (Hst e s Hes)). }
      rewrite <- E. apply group_keys_encounter. }
    apply (sort_by_stable by_totalReceipts_desc
             (fun a => Z.of_nat (AddressStats.totalReceipts a))
             by_totalReceipts_desc_key) in Hord.
    eapply StronglySorted_impl; [|exact Hord].
    unfold sorted_stably, ranked_before. intros a b [Hlt|[He Hb]]; [left; lia|right].
    split; [lia|assumption]. }
  assert (Htot : Forall (fun a => AddressStats.totalReceipts a
                                  = count_address (AddressStats.address a) receipts)
                   (sort_by by_totalReceipts_desc bs)).
  { apply Forall_sort_by. eapply Forall2_Forall_r; [|exact HA'].
    intros [a dm] s [Hin Hs]. exact (proj1 (address_entry_totals _ _ _ _ _ Hin Hs)). }
  destruct (byAddress_keys receipts rates bs HA) as [Hnd Hiff].
  destruct (global_days_sorted receipts rates ds HD) as (_ & Hdays & _).
  split; [exact Hrank|]. split; [exact Hnd|]. split; [exact Hiff|].
  split; [exact Htot|]. split; [|split; [|split; [exact Hdays|]]].
  - intros l Nl Hl Sl.
    apply (sorted_unique (address_ranked_before receipts) (address_ranked_asym receipts));
      try assumption.
    + apply (proj1 (StronglySorted_map AddressStats.address
                        (address_ranked_before receipts) _)).
      eapply (StronglySorted_impl_in _ (ranked_before receipts));
        [|exact Htot|exact Hrank].
      intros a b Ea Eb. unfold ranked_before, address_ranked_before.
      rewrite Ea, Eb. tauto.
    + intros a. rewrite Hl, Hiff. tauto.
  - apply (days_strictly_descending rates (fun e => Some (List.length (snd e)))
             (global_all receipts) ds (fun e => count_day (fst e) receipts));
      [apply global_keys_NoDup|exact HD].
  - apply Forall_sort_by. eapply Forall2_Forall_r; [|exact HA'].
    intros [a dm] s [Hin Hs]. split; [exact (proj2 (Hst _ s (conj Hin Hs)))|].
    exact (proj1 (address_entry_days _ _ _ _ _ Hin Hs)).
Qed.

Lemma C8_witness :
  exists g,
    computeStats ex_receipts ex_rates = Ok g /\
    map AddressStats.address (GlobalStats.byAddress g) = ["B"; "A"; "C"] /\
    StronglySorted later_day_first (GlobalStats.days g) /\
    (In 6 (map DayStats.day (GlobalStats.days g)) /\
     In 7 (map DayStats.day (GlobalStats.days g))).
Proof.
  destruct C8_ranking_and_day_order as [Hret Hall].
  destruct (Hret ex_receipts ex_rates) as [g Hg].
  { repeat constructor; eexists; (split; [vm_compute; reflexivity|vm_compute; discriminate]). }
  exists g. split; [exact Hg|].
  destruct (Hall ex_receipts ex_rates g Hg) as (_ & _ & _ & _ & Huniq & Hs & Hd & _).
  split; [|split; [exact Hs|]].
  - symmetry. apply Huniq.
    + repeat constructor; cbn; intuition discriminate.
    + intros a. cbn. intuition (subst; auto).
    + assert (EB : encounter_before ex_receipts "A" "C")
        by (exists 0%nat, 3%nat; repeat split; lia).
      assert (BA : address_ranked_before ex_receipts "B" "A")
        by (left; vm_compute; lia).
      assert (BC : address_ranked_before ex_receipts "B" "C")
        by (left; vm_compute; lia).
      assert (AC : address_ranked_before ex_receipts "A" "C")
        by (right; split; [reflexivity|exact EB]).
      apply SSorted_cons; [apply SSorted_cons; [apply SSorted_cons;
        [apply SSorted_nil|apply Forall_nil]|]|].
      * apply Forall_cons; [exact AC|apply Forall_nil].
      * apply Forall_cons; [exact BA|]. apply Forall_cons; [exact BC|apply Forall_nil].
  - split; apply Hd; cbn; auto.
Defined.
(** ** One round of the loop over the hours *)

Lemma hour_entry_valid env receipts rates i hours :
  steady_offset env hours -> 0 <= i < hours ->
  -8640000000000000 <= hour_floor env - (i + 1) * msPerHour ->
  hour_entry env receipts rates i
  = (let start := hour_floor env - (i + 1) * msPerHour in
     let rs := filter (in_hour env start) receipts in
     totalStar <- foldM (hour_star rates) PrimFloat.zero rs ;;
     Ok (HourStats.mk (isoString start) (List.length rs)
           (List.length (set_of_list (map address rs))) totalStar
           (PrimFloat.div totalStar 1000000))).
Proof.
  intros Hs Hi Hlo. unfold hour_entry.
  rewrite (setHours_relative env (fun h => h - i - 1) (i + 1) hours)
    by (intros; lia || assumption).
  rewrite (setHours_relative env (fun h => h - i) i hours)
    by (intros; lia || assumption).
  rewrite !hour_start_valid by (unfold msPerHour in *; lia).
  replace (hour_floor env - i * msPerHour)
    with (hour_floor env - (i + 1) * msPerHour + msPerHour) by lia.
  rewrite (filter_ext _ _ (in_window_in_hour env _)). reflexivity.
Qed.

Lemma filter_false {A} (p : A -> bool) l :
  (forall x, In x l -> p x = false) -> filter p l = [].
Proof.
  induction l as [|x l IH]; intros H; simpl; [reflexivity|].
  rewrite (H x (or_introl eq_refl)). apply IH. intros y Hy. apply H. now right.
Qed.

Lemma hour_entry_invalid env receipts rates i hours :
  steady_offset env hours -> 0 <= i < hours ->
  hour_floor env - (i + 1) * msPerHour < -8640000000000000 ->
  hour_entry env receipts rates i = Throw InvalidTimeValue.
Proof.
  intros Hs Hi Hlo. unfold hour_entry.
  rewrite (setHours_relative env (fun h => h - i - 1) (i + 1) hours)
    by (intros; lia || assumption).
  assert (E : TimeClip (hour_floor env - (i + 1) * msPerHour) = None).
  { unfold TimeClip.
    destruct (Z.leb_spec (Z.abs (hour_floor env - (i + 1) * msPerHour)) 8640000000000000);
      [lia|reflexivity]. }
  rewrite E. rewrite filter_false; [reflexivity|].
  intros r _. unfold in_window. destruct (Date_parse env (ts r)); reflexivity.
Qed.

Lemma hour_entry_Ok env receipts rates i hours h :
  steady_offset env hours -> 0 <= i < hours ->
  hour_entry env receipts rates i = Ok h ->
  -8640000000000000 <= hour_floor env - (i + 1) * msPerHour /\
  let rs := filter (in_hour env (hour_floor env - (i + 1) * msPerHour)) receipts in
  HourStats.hour h = isoString (hour_floor env - (i + 1) * msPerHour) /\
  HourStats.receipts h = List.length rs /\
  HourStats.addresses h = List.length (set_of_list (map address rs)).
Proof.
  intros Hs Hi H.
  destruct (Z.le_gt_cases (-8640000000000000) (hour_floor env - (i + 1) * msPerHour))
    as [Hlo|Hlo].
  - split; [assumption|]. rewrite (hour_entry_valid _ _ _ _ _ Hs Hi Hlo) in H.
    cbv zeta in H. inv_bind H. apply Ok_inj in H. subst h. repeat split.
  - rewrite (hour_entry_invalid _ _ _ _ _ Hs Hi Hlo) in H. discriminate.
Qed.

(** ** The loop over the hours *)

Lemma mapM_app {A B} (f : A -> result B) l1 l2 :
  mapM f (l1 ++ l2)%list
  = (ys1 <- mapM f l1 ;; ys2 <- mapM f l2 ;; Ok (ys1 ++ ys2)%list).
Proof.
  induction l1 as [|x l1 IH]; simpl.
  - destruct (mapM f l2); reflexivity.
  - destruct (f x) as [y|e]; simpl; [|reflexivity]. rewrite IH.
    destruct (mapM f l1) as [ys1|e]; simpl; [|reflexivity].
    destruct (mapM f l2) as [ys2|e]; reflexivity.
Qed.

Lemma mapM_ext_in {A B} (f g : A -> result B) l :
  (forall x, In x l -> f x = g x) -> mapM f l = mapM g l.
Proof.
  induction l as [|x l IH]; intros H; simpl; [reflexivity|].
  rewrite (H x (or_introl eq_refl)), IH; [reflexivity|].
  intros y Hy. apply H. now right.
Qed.

Lemma seq_from a b : seq a b = map (Nat.add a) (seq 0 b).
Proof.
  revert a. induction b as [|b IH]; intros a; simpl; [reflexivity|].
  rewrite Nat.add_0_r. f_equal. rewrite <- (seq_shift b 0), map_map, (IH (S a)).
  apply map_ext. intros k. lia.
Qed.

Lemma countdown_split m n :
  0 <= n <= m ->
  countdown m
  = (map (fun k => m - 1 - Z.of_nat k) (seq 0 (Z.to_nat (m - n))) ++ countdown n)%list.
Proof.
  intros H. unfold countdown.
  replace (Z.to_nat m) with (Z.to_nat (m - n) + Z.to_nat n)%nat by lia.
  rewrite seq_app, map_app. f_equal. cbn [Nat.add].
  rewrite (seq_from (Z.to_nat (m - n))), map_map. apply map_ext. intros k. lia.
Qed.
(** ** Shorter and longer spans of hours *)

Lemma mapM_countdown_suffix {B} (f : Z -> result B) m n l :
  0 <= n <= m -> mapM f (countdown m) = Ok l ->
  mapM f (countdown n) = Ok (skipn (Z.to_nat (m - n)) l).
Proof.
  intros Hn H. rewrite (countdown_split m n Hn), mapM_app in H.
  inv_bind H. inv_bind H. apply Ok_inj in H. subst l.
  apply mapM_length in Ha. rewrite length_map, length_seq in Ha.
  rewrite <- Ha, skipn_app, Nat.sub_diag, skipn_all. exact Ha0.
Qed.

(** X12. The list computed for [n] hours is the tail of the list computed, at the
    same clock reading, for any longer span: its entries are the last [n]
    entries of the longer list. *)
Theorem computeLastNHours_shorter_span_is_suffix env receipts rates m n l :
  0 <= n <= m -> computeLastNHours env receipts rates m = Ok l ->
  computeLastNHours env receipts rates n = Ok (skipn (Z.to_nat (m - n)) l).
Proof.
  intros Hn H. unfold computeLastNHours in *.
  destruct receipts as [|r0 rs].
  { apply Ok_inj in H. subst l. now rewrite skipn_nil. }
  set (receipts := r0 :: rs) in *.
  destruct (Z.leb_spec m 0) as [Hm|Hm].
  - apply Ok_inj in H. subst l. destruct (Z.leb_spec n 0); [|lia]. now rewrite skipn_nil.
  - pose proof (mapM_countdown_suffix _ m n l Hn H) as Hs.
    destruct (Z.leb_spec n 0) as [Hn0|Hn0]; [|assumption].
    assert (n = 0) by lia. subst n. exact Hs.
Qed.

Lemma computeLastNHours_shorter_span_is_suffix_witness :
  exists l,
    computeLastNHours env0 ex_receipts ex_rates 8 = Ok l /\
    computeLastNHours env0 ex_receipts ex_rates 3 = Ok (skipn 5 l).
Proof.
  destruct (computeLastNHours env0 ex_receipts ex_rates 8) as [l|e] eqn:E.
  - exists l. split; [reflexivity|].
    apply (computeLastNHours_shorter_span_is_suffix env0 ex_receipts ex_rates 8 3 l);
      [lia|exact E].
  - exfalso. revert E. vm_compute. discriminate.
Defined.

(** ** The previous hour *)

Lemma computeHourlyStats_as_one_hour env receipts rates :
  computeHourlyStats env receipts rates
  = (l <- computeLastNHours env receipts rates 1 ;; Ok (hd_error l)).
Proof.
  unfold computeHourlyStats, computeLastNHours.
  destruct receipts as [|r0 rs]; [reflexivity|]. set (receipts := r0 :: rs).
  change (1 <=? 0) with false. cbv iota. change (countdown 1) with [0].
  cbn [mapM]. unfold hour_entry.
  rewrite (setHours_window env (fun h => h - 1) 1) by (intros; lia).
  rewrite (setHours_window env (fun h => h - 0 - 1) 1) by (intros; lia).
  rewrite (setHours_window env (fun h => h - 0) 0) by (intros; lia).
  rewrite setHours_current.
  destruct (filter (in_window env (window_start env 1) (window_start env 0)) receipts)
    as [|x rest] eqn:Ef.
  - cbn [foldM bind map set_of_list fold_left List.length].
    destruct (toISOString (window_start env 1)); reflexivity.
  - destruct (foldM (hour_star rates) PrimFloat.zero (x :: rest)) as [s|e];
      [|reflexivity].
    cbn [bind].
    destruct (toISOString (window_start env 1)); reflexivity.
Qed.

(** X13. computeHourlyStats is computeLastNHours for one hour, and its result is
    the last entry of the list computeLastNHours returns, at the same clock
    reading, for any number of hours from 1 on (null for the empty list). *)
Theorem computeHourlyStats_is_last_entry env receipts rates :
  computeHourlyStats env receipts rates
  = (l <- computeLastNHours env receipts rates 1 ;; Ok (hd_error l)) /\
  (forall hours l, 1 <= hours ->
     computeLastNHours env receipts rates hours = Ok l ->
     computeHourlyStats env receipts rates = Ok (nth_error l (Z.to_nat (hours - 1)))).
Proof.
  split; [apply computeHourlyStats_as_one_hour|].
  intros hours l Hh H. rewrite computeHourlyStats_as_one_hour.
  assert (H1 : computeLastNHours env receipts rates 1
               = Ok (skipn (Z.to_nat (hours - 1)) l)).
  { unfold computeLastNHours in *. destruct receipts as [|r0 rs].
    - apply Ok_inj in H. subst l. now rewrite skipn_nil.
    - destruct (Z.leb_spec hours 0); [lia|]. change (1 <=? 0) with false. cbv iota.
      apply (mapM_countdown_suffix _ hours 1 l); [lia|exact H]. }
  rewrite H1. cbn [bind]. f_equal. generalize (Z.to_nat (hours - 1)). clear.
  intros k. revert l. induction k as [|k IH]; intros [|x l]; try reflexivity.
  apply IH.
Qed.

Lemma computeHourlyStats_is_last_entry_witness :
  exists l,
    computeLastNHours env0 ex_receipts ex_rates 8 = Ok l /\
    computeHourlyStats env0 ex_receipts ex_rates = Ok (nth_error l 7).
Proof.
  destruct (computeLastNHours env0 ex_receipts ex_rates 8) as [l|e] eqn:E.
  - exists l. split; [reflexivity|].
    apply (proj2 (computeHourlyStats_is_last_entry env0 ex_receipts ex_rates) 8 l);
      [lia|exact E].
  - exfalso. revert E. vm_compute. discriminate.
Defined.
(** ** The hours partition the span *)

Lemma in_span_split env lo mid hi r :
  lo <= mid <= hi ->
  in_span env lo hi r = in_span env lo mid r || in_span env mid hi r.
Proof.
  intros H. unfold in_span. destruct (Date_parse env (ts r)) as [t|]; [|reflexivity].
  destruct (Z.leb_spec lo t), (Z.ltb_spec t hi), (Z.ltb_spec t mid), (Z.leb_spec mid t);
    simpl; try reflexivity; lia.
Qed.

Lemma in_span_disjoint env lo mid hi r :
  in_span env lo mid r = true -> in_span env mid hi r = false.
Proof.
  unfold in_span. destruct (Date_parse env (ts r)) as [t|]; [|reflexivity].
  destruct (Z.leb_spec lo t), (Z.ltb_spec t mid), (Z.leb_spec mid t);
    simpl; intros Hs; try reflexivity; try discriminate Hs; lia.
Qed.

Lemma in_hour_span env start r : in_hour env start r = in_span env start (start + msPerHour) r.
Proof. reflexivity. Qed.

Lemma length_filter_or {A} (p q : A -> bool) l :
  (forall x, p x = true -> q x = false) ->
  List.length (filter (fun x => p x || q x) l)
  = (List.length (filter p l) + List.length (filter q l))%nat.
Proof.
  intros H. induction l as [|x l IH]; simpl; [reflexivity|].
  destruct (p x) eqn:Ep; simpl.
  - rewrite (H x Ep). simpl. now rewrite IH.
  - destruct (q x); simpl; rewrite IH; lia.
Qed.

Lemma countdown_succ n : 0 <= n -> countdown (n + 1) = n :: countdown n.
Proof.
  intros Hn. rewrite (countdown_split (n + 1) n) by lia.
  replace (n + 1 - n) with 1 by lia. change (Z.to_nat 1) with 1%nat.
  cbn [seq map app]. f_equal. cbn [Z.of_nat]. lia.
Qed.

Lemma list_sum_cons x l : list_sum (x :: l) = (x + list_sum l)%nat.
Proof. reflexivity. Qed.

Lemma hours_partition env receipts hf (n : nat) :
  list_sum (map (fun i => List.length (filter (in_hour env (hf - (i + 1) * msPerHour))
                                         receipts))
              (countdown (Z.of_nat n)))
  = List.length (filter (in_span env (hf - Z.of_nat n * msPerHour) hf) receipts).
Proof.
  induction n as [|n IH].
  - cbn [countdown Z.to_nat Z.of_nat seq map list_sum]. symmetry.
    rewrite filter_false; [reflexivity|]. intros r _. unfold in_span.
    destruct (Date_parse env (ts r)) as [t|]; [|reflexivity].
    destruct (Z.leb_spec (hf - 0 * msPerHour) t), (Z.ltb_spec t hf); simpl; try reflexivity; lia.
  - rewrite Nat2Z.inj_succ, <- Z.add_1_r, countdown_succ by lia.
    cbn [map]. rewrite list_sum_cons, IH.
    assert (Hord : hf - (Z.of_nat n + 1) * msPerHour <= hf - Z.of_nat n * msPerHour <= hf)
      by (unfold msPerHour; lia).
    rewrite (filter_ext _ _ (fun r => in_span_split env _ _ _ r Hord)).
    rewrite length_filter_or by apply in_span_disjoint.
    f_equal. f_equal. apply filter_ext. intros r. rewrite in_hour_span. f_equal. lia.
Qed.


(** ** Receipts outside the hours *)

Lemma filter_remove {A} (p : A -> bool) l1 x l2 :
  p x = false -> filter p (l1 ++ x :: l2)%list = filter p (l1 ++ l2)%list.
Proof. intros H. rewrite !filter_app. cbn [filter]. now rewrite H. Qed.

Lemma in_window_outside env i hours r :
  0 <= i < hours ->
  (forall t, Date_parse env (ts r) = Some t ->
             t < hour_floor env - hours * msPerHour \/ hour_floor env <= t) ->
  in_window env (TimeClip (hour_floor env - (i + 1) * msPerHour))
    (TimeClip (hour_floor env - i * msPerHour)) r = false.
Proof.
  intros Hi Hr. unfold in_window.
  destruct (Date_parse env (ts r)) as [t|] eqn:E; [|reflexivity].
  specialize (Hr t eq_refl). unfold TimeClip.
  destruct (Z.abs (hour_floor env - (i + 1) * msPerHour) <=? 8640000000000000);
    [|reflexivity].
  destruct (Z.abs (hour_floor env - i * msPerHour) <=? 8640000000000000);
    [|apply andb_false_r].
  cbn [date_ge date_lt]. unfold msPerHour in *.
  destruct (Z.leb_spec (hour_floor env - (i + 1) * 3600000) t),
           (Z.ltb_spec t (hour_floor env - i * 3600000)); simpl; try reflexivity; lia.
Qed.

Lemma hour_entry_remove env rates i hours l1 r l2 :
  steady_offset env hours -> 0 <= i < hours ->
  (forall t, Date_parse env (ts r) = Some t ->
             t < hour_floor env - hours * msPerHour \/ hour_floor env <= t) ->
  hour_entry env (l1 ++ r :: l2) rates i = hour_entry env (l1 ++ l2) rates i.
Proof.
  intros Hs Hi Hr. unfold hour_entry.
  rewrite (setHours_relative env (fun h => h - i - 1) (i + 1) hours)
    by (intros; lia || assumption).
  rewrite (setHours_relative env (fun h => h - i) i hours)
    by (intros; lia || assumption).
  rewrite (filter_remove _ l1 r l2); [reflexivity|].
  now apply (in_window_outside env i hours).
Qed.



(** ** Address counts *)

Lemma hour_entry_addresses env receipts rates i h :
  hour_entry env receipts rates i = Ok h ->
  (HourStats.addresses h <= HourStats.receipts h)%nat /\
  (HourStats.receipts h = 0%nat <-> HourStats.addresses h = 0%nat).
Proof.
  unfold hour_entry. intros H. inv_bind H. inv_bind H. apply Ok_inj in H. subst h.
  cbn [HourStats.addresses HourStats.receipts].
  match goal with |- context [filter ?p receipts] => set (rs := filter p receipts) end.
  destruct (set_of_list_length (map address rs)) as [H1 H2].
  rewrite length_map in H1. split; [assumption|]. split.
  - intros E. lia.
  - intros E. destruct rs as [|x rs]; [reflexivity|].
    specialize (H2 ltac:(discriminate)). lia.
Qed.

(** X16. In an hourly entry the number of distinct addresses is at most the
    number of receipts, and is zero only when there is no receipt; an entry
    of getTodayStats has at least one address and at most as many as
    receipts. *)
Theorem address_counts_are_bounded env receipts rates :
  (forall hours l, computeLastNHours env receipts rates hours = Ok l ->
     Forall (fun h => (HourStats.addresses h <= HourStats.receipts h)%nat /\
                      (HourStats.receipts h = 0%nat <-> HourStats.addresses h = 0%nat)) l) /\
  (forall h, computeHourlyStats env receipts rates = Ok (Some h) ->
     (HourStats.addresses h <= HourStats.receipts h)%nat /\
     (HourStats.receipts h = 0%nat <-> HourStats.addresses h = 0%nat)) /\
  (forall s, getTodayStats env receipts rates = Ok (Some s) ->
     exists n, DayStats.addresses s = Some n /\ (1 <= n <= DayStats.receipts s)%nat).
Proof.
  assert (HL : forall hours l, computeLastNHours env receipts rates hours = Ok l ->
     Forall (fun h => (HourStats.addresses h <= HourStats.receipts h)%nat /\
                      (HourStats.receipts h = 0%nat <-> HourStats.addresses h = 0%nat)) l).
  { intros hours l H. unfold computeLastNHours in H.
    destruct receipts as [|r0 rs]; [apply Ok_inj in H; subst l; constructor|].
    destruct (hours <=? 0); [apply Ok_inj in H; subst l; constructor|].
    apply mapM_Forall2 in H. eapply Forall2_Forall_r; [|exact H].
    intros i h Hh. exact (hour_entry_addresses _ _ _ _ _ Hh). }
  split; [exact HL|]. split.
  - intros h H. rewrite computeHourlyStats_as_one_hour in H. inv_bind H.
    apply Ok_inj in H. specialize (HL 1 a Ha).
    destruct a as [|x a]; [discriminate|]. injection H as ->.
    now inversion HL.
  - intros s H.
    pose proof (getTodayStats_Ok_dated _ _ _ _ H) as Hd.
    rewrite (getTodayStats_dated _ _ _ Hd) in H. apply Ok_inj in H.
    destruct (filter (fun r => String.eqb (date_of_day (day_of r)) (today env)) receipts)
      as [|first rest] eqn:Ef; [discriminate|].
    injection H as <-. cbn [day_entry DayStats.addresses DayStats.receipts].
    eexists. split; [reflexivity|]. apply addresses_of_day_bounds.
    apply in_map.
    assert (Hin : In first (filter (fun r => String.eqb (date_of_day (day_of r)) (today env))
                               receipts)) by (rewrite Ef; now left).
    apply filter_In in Hin as [Hin _]. exact Hin.
Qed.

Lemma address_counts_are_bounded_witness :
  exists l,
    computeLastNHours env0 ex_receipts ex_rates 8 = Ok l /\
    Forall (fun h => (HourStats.addresses h <= HourStats.receipts h)%nat) l.
Proof.
  destruct (computeLastNHours env0 ex_receipts ex_rates 8) as [l|e] eqn:E.
  - exists l. split; [reflexivity|].
    pose proof (proj1 (address_counts_are_bounded env0 ex_receipts ex_rates) 8 l E) as H.
    eapply Forall_impl; [|exact H]. intros h [Hh _]. exact Hh.
  - exfalso. revert E. vm_compute. discriminate.
Defined.
(** ** Time zones *)

Lemma hour_floor_whole_hour_zone env z :
  fixed_zone env z -> z mod msPerHour = 0 ->
  hour_floor env = Date_now env / msPerHour * msPerHour.
Proof.
  intros Hz H. unfold hour_floor, zone_offset. rewrite Hz.
  unfold msPerHour in *. Z.div_mod_to_equations. lia.
Qed.

Lemma hour_entry_same_hours env1 env2 z1 z2 receipts rates i :
  fixed_zone env1 z1 -> fixed_zone env2 z2 ->
  hour_floor env1 = hour_floor env2 ->
  (forall s, Date_parse env1 s = Date_parse env2 s) ->
  hour_entry env1 receipts rates i = hour_entry env2 receipts rates i.
Proof.
  intros Hz1 Hz2 Hf Hp. unfold hour_entry.
  rewrite !(setHours_window _ (fun h => h - i - 1) (i + 1)) by (intros; lia).
  rewrite !(setHours_window _ (fun h => h - i) i) by (intros; lia).
  rewrite !window_start_steady
    by (unfold zone_offset; rewrite ?Hz1, ?Hz2; reflexivity).
  rewrite Hf.
  match goal with
  | |- context [filter (in_window env1 ?a ?b) receipts] =>
      rewrite (filter_ext (in_window env1 a b) (in_window env2 a b));
        [reflexivity|]
  end.
  intros r. unfold in_window. now rewrite Hp.
Qed.

(** X17. In a time zone whose offset from UTC never changes and is a whole number
    of hours the clock hours are the hours of UTC, so two machines that read
    the same clock and parse timestamps alike in two such zones compute the
    same hourly statistics. *)
Theorem hourly_stats_in_whole_hour_zones env1 env2 z1 z2 receipts rates :
  Date_now env1 = Date_now env2 ->
  (forall s, Date_parse env1 s = Date_parse env2 s) ->
  fixed_zone env1 z1 -> fixed_zone env2 z2 ->
  z1 mod msPerHour = 0 -> z2 mod msPerHour = 0 ->
  hour_floor env1 = Date_now env1 / msPerHour * msPerHour /\
  computeHourlyStats env1 receipts rates = computeHourlyStats env2 receipts rates /\
  (forall hours, computeLastNHours env1 receipts rates hours
                 = computeLastNHours env2 receipts rates hours).
Proof.
  intros Hn Hp Hz1 Hz2 H1 H2.
  assert (Hf : hour_floor env1 = hour_floor env2).
  { rewrite (hour_floor_whole_hour_zone env1 z1), (hour_floor_whole_hour_zone env2 z2)
      by assumption. now rewrite Hn. }
  assert (HL : forall hours, computeLastNHours env1 receipts rates hours
                             = computeLastNHours env2 receipts rates hours).
  { intros hours. unfold computeLastNHours. destruct receipts as [|r0 rs]; [reflexivity|].
    destruct (hours <=? 0); [reflexivity|].
    apply mapM_ext_in. intros i _. now apply (hour_entry_same_hours env1 env2 z1 z2). }
  split; [now apply (hour_floor_whole_hour_zone env1 z1)|]. split; [|exact HL].
  rewrite !computeHourlyStats_as_one_hour, HL. reflexivity.
Qed.

Lemma hourly_stats_in_whole_hour_zones_witness :
  hour_floor env_plus2 = 1762340400000 /\
  computeLastNHours env_plus2 ex_receipts ex_rates 8
  = computeLastNHours env0 ex_receipts ex_rates 8.
Proof.
  destruct (hourly_stats_in_whole_hour_zones env_plus2 env0 7200000 0 ex_receipts ex_rates
              eq_refl (fun s => eq_refl) (fun t b => eq_refl) (fun t b => eq_refl)
              eq_refl eq_refl) as (H1 & _ & H3).
  split; [rewrite H1; reflexivity|apply H3].
Defined.
(** ** When computeLastNHours returns *)

Lemma mapM_Throw {A B} (f : A -> result B) l e :
  mapM f l = Throw e -> exists x, In x l /\ f x = Throw e.
Proof.
  induction l as [|x l IH]; simpl; [discriminate|].
  destruct (f x) as [y|e'] eqn:Ex; simpl.
  - destruct (mapM f l) as [ys|e'']; simpl; [discriminate|].
    intros H. injection H as ->. destruct (IH eq_refl) as (z & Hz & Hf). eauto.
  - intros H. injection H as ->. eauto.
Qed.

Lemma countdown_In hours i : 0 <= i < hours -> In i (countdown hours).
Proof.
  intros Hi. apply (nth_error_In _ (Z.to_nat (hours - 1 - i))).
  rewrite countdown_nth by lia. f_equal. lia.
Qed.

Lemma hour_star_throws rates l s e :
  foldM (hour_star rates) s l = Throw e -> e = InvalidChallengeId.
Proof.
  intros H. apply foldM_Throw in H as (s' & r & _ & H). unfold hour_star in H.
  apply bind_Throw in H as [H|(d & _ & H)]; [|discriminate].
  exact (dayFromChallengeId_throws _ _ H).
Qed.

Lemma hour_star_unparsed rates l r s :
  In r l -> ~ parses r -> foldM (hour_star rates) s l = Throw InvalidChallengeId.
Proof.
  intros Hin Hn. destruct (foldM (hour_star rates) s l) as [x|e] eqn:E.
  - exfalso. apply Hn.
    pose proof (foldM_decode_all (fun r => dayFromChallengeId (challenge_id r))
                  (fun totalStar _ day => PrimFloat.add totalStar (rate_or_0 rates (day - 1)))
                  l _ _ E) as Hp.
    rewrite Forall_forall in Hp. exact (Hp r Hin).
  - f_equal. exact (hour_star_throws _ _ _ _ E).
Qed.

Lemma span_hour env hours t :
  0 < hours -> hour_floor env - hours * msPerHour <= t < hour_floor env ->
  exists i, 0 <= i < hours /\
            hour_floor env - (i + 1) * msPerHour <= t
            < hour_floor env - (i + 1) * msPerHour + msPerHour.
Proof.
  intros Hh Ht. exists ((hour_floor env - t - 1) / msPerHour).
  unfold msPerHour in *. Z.div_mod_to_equations. lia.
Qed.


(** ** When getTodayStats throws *)

Lemma undated_throws r :
  ~ dated r ->
  dateFromChallengeId (challenge_id r)
  = Throw (match dayFromChallengeId (challenge_id r) with
           | Ok _ => InvalidTimeValue
           | Throw _ => InvalidChallengeId
           end).
Proof.
  intros Hn. destruct (dayFromChallengeId (challenge_id r)) as [n|e] eqn:E.
  - rewrite (dateFromChallengeId_eq _ n E).
    destruct (Z.leb_spec n maxDay); [|reflexivity].
    exfalso. apply Hn. exists n. auto.
  - unfold dateFromChallengeId. rewrite E. cbn [bind].
    now rewrite (dayFromChallengeId_throws _ _ E).
Qed.

(** X19. getTodayStats throws at the first receipt, in the order of the list,
    whose identifier has no date: the decoding error when the identifier
    does not decode, the RangeError of the date conversion when its day is
    past the range of Date.  The receipts after it are not looked at. *)
Theorem getTodayStats_throws_at_first_undated env before r after rates :
  Forall dated before -> ~ dated r ->
  getTodayStats env (before ++ r :: after) rates
  = Throw (match dayFromChallengeId (challenge_id r) with
           | Ok _ => InvalidTimeValue
           | Throw _ => InvalidChallengeId
           end).
Proof.
  intros Hb Hr. unfold getTodayStats.
  destruct (today_eq env) as [-> Ht]. cbn [bind]. rewrite Ht.
  rewrite filterM_app.
  rewrite (filterM_pure _ (fun r => String.eqb (date_of_day (day_of r)) (today env)) before).
  2:{ eapply Forall_impl; [|exact Hb]. intros x Hx. rewrite (dated_date x Hx). reflexivity. }
  cbn [bind filterM]. rewrite (undated_throws r Hr). reflexivity.
Qed.

Lemma getTodayStats_throws_at_first_undated_witness :
  getTodayStats env0
    (ex_receipts ++ [mkReceipt "2025-11-05T10:15:00Z" "A" "**D99979611C00";
                     mkReceipt "2025-11-05T10:16:00Z" "A" "bad-id"]) ex_rates
  = Throw InvalidTimeValue.
Proof.
  apply (getTodayStats_throws_at_first_undated env0 ex_receipts
           (mkReceipt "2025-11-05T10:15:00Z" "A" "**D99979611C00")
           [mkReceipt "2025-11-05T10:16:00Z" "A" "bad-id"] ex_rates).
  - repeat constructor; eexists; (split; [vm_compute; reflexivity|vm_compute; discriminate]).
  - intros (n & Hn & Hle). vm_compute in Hn. injection Hn as <-.
    vm_compute in Hle. apply Hle. reflexivity.
Defined.

(** ** The trailing rate looks at timestamps only *)

Lemma getSolutionsPerHour_eq env receipts hours :
  receipts <> [] ->
  getSolutionsPerHour env receipts hours
  = PrimFloat.div (number_of_nat (count_from env (cutoff env hours) receipts)) hours.
Proof. destruct receipts; [contradiction|reflexivity]. Qed.

Lemma count_from_ts env c l l' :
  map ts l = map ts l' -> count_from env c l = count_from env c l'.
Proof.
  unfold count_from. revert l'. induction l as [|r l IH]; intros [|r' l'] E;
    try discriminate E; [reflexivity|].
  injection E as Er El. cbn [filter]. rewrite Er.
  destruct (Date_parse env (ts r')) as [t|];
    [destruct (PrimFloat.leb c (number_of_Z t))|];
    cbn [List.length]; now rewrite (IH l' El).
Qed.

(** X20. getSolutionsPerHour depends on the timestamps of the receipts only, not
    on their order and not on their identifiers or addresses; a receipt
    whose timestamp is invalid or older than the cutoff does not count, and
    taking it out of a list with other receipts leaves the rate unchanged.
    For a whole number of hours from 0 to 2,501,999,792 a timestamp is older
    than the cutoff when it is before now - hours * 3,600,000 ms. *)
Theorem getSolutionsPerHour_depends_on_timestamps env hours :
  (forall l l', map ts l = map ts l' ->
     getSolutionsPerHour env l hours = getSolutionsPerHour env l' hours) /\
  (forall l l', Permutation l l' ->
     getSolutionsPerHour env l hours = getSolutionsPerHour env l' hours) /\
  (forall l1 r l2,
     (l1 ++ l2)%list <> [] ->
     (forall t, Date_parse env (ts r) = Some t ->
                PrimFloat.leb (cutoff env hours) (number_of_Z t) = false) ->
     getSolutionsPerHour env (l1 ++ r :: l2) hours
     = getSolutionsPerHour env (l1 ++ l2) hours) /\
  (forall n l1 r l2,
     hours = number_of_Z n -> 0 <= n <= 2501999792 ->
     (l1 ++ l2)%list <> [] ->
     (forall t, Date_parse env (ts r) = Some t ->
                t < Date_now env - n * 3600000) ->
     getSolutionsPerHour env (l1 ++ r :: l2) hours
     = getSolutionsPerHour env (l1 ++ l2) hours).
Proof.
  assert (H3 : forall l1 r l2,
     (l1 ++ l2)%list <> [] ->
     (forall t, Date_parse env (ts r) = Some t ->
                PrimFloat.leb (cutoff env hours) (number_of_Z t) = false) ->
     getSolutionsPerHour env (l1 ++ r :: l2) hours
     = getSolutionsPerHour env (l1 ++ l2) hours).
  { intros l1 r l2 Hne Hr.
    rewrite !getSolutionsPerHour_eq by (assumption || now destruct l1).
    unfold count_from. rewrite (filter_remove _ l1 r l2); [reflexivity|].
    destruct (Date_parse env (ts r)) as [t|] eqn:Et; [|reflexivity].
    now apply Hr. }
  split; [|split; [|split; [exact H3|]]].
  - intros l l' E. destruct l as [|r l], l' as [|r' l']; try discriminate E; [reflexivity|].
    rewrite !getSolutionsPerHour_eq by discriminate.
    now rewrite (count_from_ts env _ _ _ E).
  - intros l l' P. destruct l as [|r l].
    + apply Permutation_nil in P. now subst l'.
    + assert (Hne : l' <> []).
      { intros ->. apply Permutation_sym, Permutation_nil in P. discriminate. }
      rewrite !getSolutionsPerHour_eq by (assumption || discriminate).
      unfold count_from. now rewrite (Permutation_length (Permutation_filter' _ _ _ P)).
  - intros n l1 r l2 -> Hn Hne Hr. apply H3; [assumption|].
    intros t Ht. rewrite cutoff_whole_hours by assumption.
    pose proof (clock_range env) as Hc.
    assert (E53 : 2 ^ 53 = 9007199254740992) by reflexivity.
    rewrite leb_number_of_Z;
      [|rewrite E53; lia|exact (time_value_range env _ _ Ht)].
    apply Z.leb_gt. now apply Hr.
Qed.

Lemma getSolutionsPerHour_depends_on_timestamps_witness :
  getSolutionsPerHour env0
    (mkReceipt "2025-11-01T00:00:00Z" "Z" "bad-id" :: ex_receipts) 24
  = getSolutionsPerHour env0 ex_receipts 24.
Proof.
  apply (proj2 (proj2 (proj2 (getSolutionsPerHour_depends_on_timestamps env0 24)))
           24 [] (mkReceipt "2025-11-01T00:00:00Z" "Z" "bad-id") ex_receipts).
  - reflexivity.
  - lia.
  - discriminate.
  - intros t Ht. vm_compute in Ht. injection Ht as <-. vm_compute. reflexivity.
Defined.
(** ** What the rate table does not change *)

Lemma Forall2_common {A B C} (P : A -> B -> Prop) (Q : A -> C -> Prop) l : forall a b,
  Forall2 P l a -> Forall2 Q l b -> Forall2 (fun x y => exists e, P e x /\ Q e y) a b.
Proof.
  induction l as [|e l IH]; intros a b HP HQ; inversion HP; inversion HQ; subst;
    constructor; eauto.
Qed.

Lemma insert_by_Forall2 {A B} (R : A -> B -> Prop) cmp cmp' x x' l l' :
  (forall a a' b b', R a a' -> R b b' -> cmp a b = cmp' a' b') ->
  R x x' -> Forall2 R l l' -> Forall2 R (insert_by cmp x l) (insert_by cmp' x' l').
Proof.
  intros Hc Hx. induction 1 as [|y y' l l' Hy Hl IH]; simpl; [repeat constructor; assumption|].
  rewrite (Hc x x' y y' Hx Hy). destruct (cmp' x' y' <=? 0); repeat constructor; assumption.
Qed.

Lemma sort_by_Forall2 {A B} (R : A -> B -> Prop) cmp cmp' l l' :
  (forall a a' b b', R a a' -> R b b' -> cmp a b = cmp' a' b') ->
  Forall2 R l l' -> Forall2 R (sort_by cmp l) (sort_by cmp' l').
Proof.
  intros Hc. induction 1; simpl; [constructor|]. now apply insert_by_Forall2.
Qed.

Lemma day_rel_counts rates rates' o d c x x' :
  day_rel rates o d c x -> day_rel rates' o d c x' -> day_counts x = day_counts x'.
Proof.
  intros (date & Hd & ->) (date' & Hd' & ->). rewrite Hd in Hd'. apply Ok_inj in Hd'.
  subst date'. reflexivity.
Qed.

Lemma sorted_days_counts ds ds' :
  Forall2 (fun x x' => day_counts x = day_counts x') ds ds' ->
  map day_counts (sort_by by_day_desc ds) = map day_counts (sort_by by_day_desc ds').
Proof.
  intros H. eapply Forall2_map_l; [|apply (sort_by_Forall2 _ by_day_desc by_day_desc); [|exact H]].
  - intros a b E. exact E.
  - intros a a' b b' Ea Eb. unfold by_day_desc.
    unfold day_counts in Ea, Eb. congruence.
Qed.

Lemma address_stats_counts rates rates' ats e s s' :
  address_stats rates ats e = Ok s -> address_stats rates' ats e = Ok s' ->
  address_counts s = address_counts s'.
Proof.
  destruct e as [a dm]. intros H H'.
  destruct (address_stats_solutions _ _ _ _ _ H) as (Ef & El).
  destruct (address_stats_solutions _ _ _ _ _ H') as (Ef' & El').
  destruct (address_stats_Ok _ _ _ _ _ H) as (d0 & HF & Ea & Ed & Et & _).
  destruct (address_stats_Ok _ _ _ _ _ H') as (d0' & HF' & Ea' & Ed' & Et' & _).
  unfold address_counts. rewrite Ef, El, Ef', El', Ea, Ea', Ed, Ed', Et, Et'.
  f_equal. f_equal. f_equal. f_equal. apply sorted_days_counts.
  eapply Forall2_impl; [|exact (Forall2_common _ _ _ _ _ HF HF')].
  intros x x' (e & Hx & Hx'). exact (day_rel_counts _ _ _ _ _ _ _ Hx Hx').
Qed.

Lemma option_date_counts days days' k :
  map day_counts days = map day_counts days' ->
  option_map DayStats.date (array_get days k)
  = option_map DayStats.date (array_get days' k).
Proof.
  intros E. unfold array_get. destruct (k <? 0); [reflexivity|].
  assert (Ed : map DayStats.date days = map DayStats.date days').
  { transitivity (map (fun c : Z * string * nat * option nat => snd (fst (fst c)))
                    (map day_counts days)).
    - rewrite map_map. reflexivity.
    - rewrite E, map_map. reflexivity. }
  rewrite <- !nth_error_map, Ed. reflexivity.
Qed.

Lemma computeStats_counts_same receipts rates rates' g g' :
  computeStats receipts rates = Ok g -> computeStats receipts rates' = Ok g' ->
  map day_counts (GlobalStats.days g') = map day_counts (GlobalStats.days g) /\
  map address_counts (GlobalStats.byAddress g')
  = map address_counts (GlobalStats.byAddress g) /\
  GlobalStats.totalReceipts g' = GlobalStats.totalReceipts g /\
  GlobalStats.totalAddresses g' = GlobalStats.totalAddresses g /\
  GlobalStats.startDate g' = GlobalStats.startDate g /\
  GlobalStats.endDate g' = GlobalStats.endDate g.
Proof.
  intros H H'. destruct receipts as [|r0 rs].
  - apply Ok_inj in H, H'. subst g g'. repeat split; reflexivity.
  - set (receipts := r0 :: rs) in *.
    destruct (computeStats_shape receipts rates g ltac:(discriminate) H)
      as (bs & ds & _ & Hb & Hd & ->).
    destruct (computeStats_shape receipts rates' g' ltac:(discriminate) H')
      as (bs' & ds' & _ & Hb' & Hd' & ->).
    cbn [GlobalStats.days GlobalStats.byAddress GlobalStats.totalReceipts
         GlobalStats.totalAddresses GlobalStats.startDate GlobalStats.endDate].
    assert (Edays : map day_counts (sort_by by_day_desc ds')
                    = map day_counts (sort_by by_day_desc ds)).
    { apply sorted_days_counts.
      eapply Forall2_impl; [|exact (Forall2_common _ _ _ _ _ Hd' Hd)].
      intros x x' (e & Hx & Hx'). exact (day_rel_counts _ _ _ _ _ _ _ Hx Hx'). }
    split; [exact Edays|]. split.
    + eapply Forall2_map_l;
        [|apply (sort_by_Forall2 (fun s s' => address_counts s = address_counts s')
                   by_totalReceipts_desc by_totalReceipts_desc)].
      * intros a b E. exact E.
      * intros a a' b b' Ea Eb. unfold by_totalReceipts_desc.
        unfold address_counts in Ea, Eb. congruence.
      * eapply Forall2_impl; [|exact (Forall2_common _ _ _ _ _ Hb' Hb)].
        intros s s' (e & Hs & Hs'). exact (address_stats_counts _ _ _ _ _ _ Hs Hs').
    + split; [reflexivity|]. split; [reflexivity|].
      assert (El : List.length (sort_by by_day_desc ds')
                   = List.length (sort_by by_day_desc ds)).
      { rewrite <- (length_map day_counts (sort_by by_day_desc ds')), Edays.
        apply length_map. }
      rewrite El. split; now apply option_date_counts.
Qed.

Lemma hour_entry_counts env receipts rates rates' i h :
  hour_entry env receipts rates i = Ok h ->
  exists h', hour_entry env receipts rates' i = Ok h' /\ hour_counts h' = hour_counts h.
Proof.
  intros H. pose proof (thrown_hour_entry env receipts rates rates' i) as T.
  rewrite H in T. destruct (hour_entry env receipts rates' i) as [h'|e] eqn:E';
    [|discriminate]. exists h'. split; [reflexivity|].
  unfold hour_entry in H, E'. inv_bind H. inv_bind H. inv_bind E'. inv_bind E'.
  apply Ok_inj in H, E'. subst h h'. unfold hour_counts.
  cbn [HourStats.hour HourStats.receipts HourStats.addresses].
  rewrite Ha0 in Ha2. apply Ok_inj in Ha2. now subst.
Qed.

Lemma computeLastNHours_counts_same env receipts rates rates' hours l :
  computeLastNHours env receipts rates hours = Ok l ->
  exists l', computeLastNHours env receipts rates' hours = Ok l' /\
             map hour_counts l' = map hour_counts l.
Proof.
  unfold computeLastNHours. destruct receipts as [|r0 rs].
  { intros H. apply Ok_inj in H. subst l. eexists. split; reflexivity. }
  destruct (hours <=? 0).
  { intros H. apply Ok_inj in H. subst l. eexists. split; reflexivity. }
  generalize (countdown hours). intros c. revert l.
  induction c as [|i c IH]; intros l H; simpl in *.
  - apply Ok_inj in H. subst l. eexists. split; reflexivity.
  - inv_bind H. inv_bind H. apply Ok_inj in H. subst l.
    destruct (hour_entry_counts _ _ _ rates' _ _ Ha) as (h' & -> & Eh).
    destruct (IH _ Ha0) as (l' & -> & El). cbn [bind]. eexists. split; [reflexivity|].
    cbn [map]. now rewrite Eh, El.
Qed.

(** X21. The rate table decides the reward fields and nothing else: with another
    table computeStats, computeLastNHours, computeHourlyStats and
    getTodayStats return as well, and the results agree in every field that
    is not a STAR or NIGHT amount, in the same order. *)
Theorem rates_only_change_rewards rates rates' :
  (forall receipts g, computeStats receipts rates = Ok g ->
     exists g',
       computeStats receipts rates' = Ok g' /\
       map day_counts (GlobalStats.days g') = map day_counts (GlobalStats.days g) /\
       map address_counts (GlobalStats.byAddress g')
       = map address_counts (GlobalStats.byAddress g) /\
       GlobalStats.totalReceipts g' = GlobalStats.totalReceipts g /\
       GlobalStats.totalAddresses g' = GlobalStats.totalAddresses g /\
       GlobalStats.startDate g' = GlobalStats.startDate g /\
       GlobalStats.endDate g' = GlobalStats.endDate g) /\
  (forall env receipts hours l,
     computeLastNHours env receipts rates hours = Ok l ->
     exists l', computeLastNHours env receipts rates' hours = Ok l' /\
                map hour_counts l' = map hour_counts l) /\
  (forall env receipts o,
     computeHourlyStats env receipts rates = Ok o ->
     exists o', computeHourlyStats env receipts rates' = Ok o' /\
                option_map hour_counts o' = option_map hour_counts o) /\
  (forall env receipts o,
     getTodayStats env receipts rates = Ok o ->
     exists o', getTodayStats env receipts rates' = Ok o' /\
                option_map day_counts o' = option_map day_counts o).
Proof.
  split; [|split; [|split]].
  - intros receipts g H.
    destruct (computeStats_total receipts rates' (computeStats_Ok_dated _ _ _ H)) as [g' H'].
    exists g'. split; [assumption|]. exact (computeStats_counts_same _ _ _ _ _ H H').
  - intros env receipts hours l. apply computeLastNHours_counts_same.
  - intros env receipts o H. rewrite computeHourlyStats_as_one_hour in H |- *.
    inv_bind H. apply Ok_inj in H. subst o.
    destruct (computeLastNHours_counts_same _ _ _ rates' _ _ Ha) as (l' & -> & El).
    cbn [bind]. eexists. split; [reflexivity|].
    destruct a as [|x a], l' as [|x' l']; try discriminate El; [reflexivity|].
    exact (f_equal (@hd_error _) El).
  - intros env receipts o H. pose proof (getTodayStats_Ok_dated _ _ _ _ H) as Hd.
    rewrite (getTodayStats_dated _ _ rates Hd) in H.
    rewrite (getTodayStats_dated _ _ rates' Hd). apply Ok_inj in H. subst o.
    eexists. split; [reflexivity|].
    destruct (filter _ receipts); reflexivity.
Qed.

Lemma rates_only_change_rewards_witness :
  exists g g',
    computeStats ex_receipts ex_rates = Ok g /\
    computeStats ex_receipts [] = Ok g' /\
    map day_counts (GlobalStats.days g') = map day_counts (GlobalStats.days g) /\
    map address_counts (GlobalStats.byAddress g')
    = map address_counts (GlobalStats.byAddress g).
Proof.
  destruct (computeStats ex_receipts ex_rates) as [g|e] eqn:E.
  - destruct (proj1 (rates_only_change_rewards ex_rates []) ex_receipts g E)
      as (g' & H1 & H2 & H3 & _).
    exists g, g'. auto.
  - exfalso. revert E. vm_compute. discriminate.
Defined.
(** ** The statistics endpoint *)

Lemma computeLastNHours_total env receipts rates hours :
  Forall parses receipts -> hours <= 2399999949 ->
  exists l, computeLastNHours env receipts rates hours = Ok l.
Proof.
  intros Hp Hh. unfold computeLastNHours.
  destruct receipts as [|r0 rs]; [eauto|]. set (receipts := r0 :: rs) in *.
  destruct (Z.leb_spec hours 0); [eauto|].
  apply mapM_total. apply Forall_forall. intros i Hi. apply countdown_range in Hi.
  destruct (window_start_valid env (i + 1) ltac:(lia)) as (s & Hs & _).
  rewrite (hour_entry_window _ _ _ _ s Hs); [eauto|].
  now apply Forall_filter.
Qed.

Lemma computeHourlyStats_total env receipts rates :
  Forall parses receipts -> exists o, computeHourlyStats env receipts rates = Ok o.
Proof.
  intros Hp. rewrite computeHourlyStats_as_one_hour.
  destruct (computeLastNHours_total env receipts rates 1 Hp ltac:(lia)) as [l ->].
  cbn [bind]. eauto.
Qed.

Lemma GET_Success {E} clocks allReceipts (errors : list E) outcome stats :
  GET clocks allReceipts errors outcome = Success stats ->
  let receipts := map logged (filter is_user_receipt allReceipts) in
  let rates := fetchRates outcome in
  computeStats receipts rates = Ok (StatsBody.global stats) /\
  computeHourlyStats (at_hourly clocks) receipts rates = Ok (StatsBody.hourly stats) /\
  computeLastNHours (at_last8Hours clocks) receipts rates 8
  = Ok (StatsBody.last8Hours stats) /\
  getTodayStats (at_today clocks) receipts rates = Ok (StatsBody.today stats) /\
  StatsBody.perHour24h stats = getSolutionsPerHour (at_perHour24h clocks) receipts 24 /\
  StatsBody.perHour1h stats = getSolutionsPerHour (at_perHour1h clocks) receipts 1 /\
  StatsBody.errorsTotal stats = List.length errors.
Proof.
  unfold GET. cbv zeta.
  destruct (computeStats _ _) as [g|e]; [|discriminate].
  cbn [bind]. destruct (computeHourlyStats _ _ _) as [h|e]; [|discriminate].
  cbn [bind]. destruct (computeLastNHours _ _ _ _) as [l|e]; [|discriminate].
  cbn [bind]. destruct (getTodayStats _ _ _) as [t|e]; [|discriminate].
  cbn [bind]. intros H. injection H as <-. repeat split.
Qed.

Lemma GET_dated {E} clocks allReceipts (errors : list E) outcome :
  Forall dated (map logged (filter is_user_receipt allReceipts)) ->
  exists stats, GET clocks allReceipts errors outcome = Success stats.
Proof.
  intros Hd. unfold GET. cbv zeta.
  assert (Hp : Forall parses (map logged (filter is_user_receipt allReceipts)))
    by (eapply Forall_impl; [|exact Hd]; apply dated_parses).
  destruct (computeStats_total _ (fetchRates outcome) Hd) as [g ->].
  destruct (computeHourlyStats_total (at_hourly clocks) _ (fetchRates outcome) Hp) as [h ->].
  destruct (computeLastNHours_total (at_last8Hours clocks) _ (fetchRates outcome) 8 Hp
              ltac:(lia)) as [l ->].
  rewrite (getTodayStats_dated _ _ _ Hd). cbn [bind]. eauto.
Qed.

Lemma GET_Status500 {E} clocks allReceipts (errors : list E) outcome error :
  GET clocks allReceipts errors outcome = Status500 error
  <-> computeStats (map logged (filter is_user_receipt allReceipts)) (fetchRates outcome)
      = Throw error.
Proof.
  split.
  - intros H.
    destruct (computeStats (map logged (filter is_user_receipt allReceipts))
                (fetchRates outcome)) as [g|e] eqn:Eg.
    + destruct (GET_dated clocks allReceipts errors outcome
                  (computeStats_Ok_dated _ _ _ Eg)) as [stats Hs].
      rewrite Hs in H. discriminate.
    + unfold GET in H. cbv zeta in H. rewrite Eg in H. cbn [bind] in H.
      injection H as ->. reflexivity.
  - intros H. unfold GET. cbv zeta. rewrite H. reflexivity.
Qed.

(** X22. The endpoint answers with the statistics exactly when every receipt
    that is not a dev-fee receipt has an identifier with a calendar date;
    otherwise it answers 500 with the error computeStats throws.  The body
    holds the results of the six calls on the receipts that are not dev-fee
    receipts and the number of logged errors, and a dev-fee receipt changes
    nothing, whatever it holds. *)
Theorem GET_answer {E : Type} (clocks : Clocks) (allReceipts : list LoggedReceipt)
    (errors : list E) (outcome : HttpOutcome) :
  let receipts := map logged (filter is_user_receipt allReceipts) in
  let rates := fetchRates outcome in
  ((exists stats, GET clocks allReceipts errors outcome = Success stats)
   <-> Forall dated receipts) /\
  (forall error, GET clocks allReceipts errors outcome = Status500 error
                 <-> computeStats receipts rates = Throw error) /\
  (forall stats, GET clocks allReceipts errors outcome = Success stats ->
     computeStats receipts rates = Ok (StatsBody.global stats) /\
     computeHourlyStats (at_hourly clocks) receipts rates = Ok (StatsBody.hourly stats) /\
     computeLastNHours (at_last8Hours clocks) receipts rates 8
     = Ok (StatsBody.last8Hours stats) /\
     getTodayStats (at_today clocks) receipts rates = Ok (StatsBody.today stats) /\
     StatsBody.perHour24h stats = getSolutionsPerHour (at_perHour24h clocks) receipts 24 /\
     StatsBody.perHour1h stats = getSolutionsPerHour (at_perHour1h clocks) receipts 1 /\
     StatsBody.errorsTotal stats = List.length errors) /\
  (forall l1 r l2, allReceipts = (l1 ++ r :: l2)%list -> is_user_receipt r = false ->
     GET clocks allReceipts errors outcome = GET clocks (l1 ++ l2) errors outcome).
Proof.
  cbv zeta. split; [|split; [|split]].
  - split.
    + intros [stats H]. apply GET_Success in H. cbv zeta in H.
      exact (computeStats_Ok_dated _ _ _ (proj1 H)).
    + apply GET_dated.
  - intros error. apply GET_Status500.
  - intros stats H. exact (GET_Success _ _ _ _ _ H).
  - intros l1 r l2 -> Hr. unfold GET. cbv zeta. now rewrite (filter_remove _ l1 r l2 Hr).
Qed.

Lemma GET_answer_witness :
  (exists stats,
     GET clocks0
       (map (fun r => mkLogged r None) ex_receipts
        ++ [mkLogged (mkReceipt "2025-11-05T10:30:00Z" "fee" "bad-id") (Some true)])
       [tt; tt] (Responded ex_rates) = Success stats) /\
  GET clocks0 [mkLogged (mkReceipt "2025-11-05T10:30:00Z" "A" "bad-id") (Some false)]
    [tt] RequestFailed
  = Status500 InvalidChallengeId.
Proof.
  split.
  - apply (proj1 (GET_answer clocks0 _ [tt; tt] (Responded ex_rates))).
    repeat constructor; eexists; (split; [vm_compute; reflexivity|vm_compute; discriminate]).
  - apply (proj1 (proj2 (GET_answer clocks0 _ [tt] RequestFailed))).
    reflexivity.
Defined.
(** ** Rewards without a rate table *)

Lemma float_sum_zeros l :
  Forall (fun x => x = PrimFloat.zero) l -> float_sum l PrimFloat.zero = PrimFloat.zero.
Proof.
  unfold float_sum. induction 1 as [|x l -> _ IH]; [reflexivity|].
  cbn [fold_left]. exact IH.
Qed.

Lemma out_of_empty_table d : out_of_table [] d.
Proof. unfold out_of_table. cbn [List.length Z.of_nat]. lia. Qed.

Lemma address_stats_outside_table rates ats a dm s :
  Forall (fun e => out_of_table rates (fst e)) dm ->
  address_stats rates ats (a, dm) = Ok s -> zero_star_address s.
Proof.
  intros Ho H.
  destruct (address_stats_Ok _ _ _ _ _ H) as (d0 & HF & _ & Ed & _ & Es & En).
  assert (Hz : Forall zero_star_day d0).
  { eapply Forall2_Forall_r; [|exact (Forall2_In_l _ _ _ HF)]. intros e x [Hin Hx].
    eapply day_rel_out_of_table; [exact Hx|].
    rewrite (day_rel_day _ _ _ _ _ Hx). rewrite Forall_forall in Ho. now apply Ho. }
  assert (Es' : AddressStats.totalStar s = PrimFloat.zero).
  { rewrite Es. apply float_sum_zeros. apply Forall_map.
    eapply Forall_impl; [|exact Hz]. intros x [Hx _]. exact Hx. }
  unfold zero_star_address. rewrite En, Es', Ed.
  split; [reflexivity|]. split; [reflexivity|]. now apply Forall_sort_by.
Qed.

Lemma computeStats_outside_table receipts rates g :
  Forall (fun r => out_of_table rates (day_of r)) receipts ->
  computeStats receipts rates = Ok g -> zero_star_stats g.
Proof.
  intros Ho H. destruct receipts as [|r0 rs].
  - apply Ok_inj in H. subst g. repeat split; constructor.
  - set (receipts := r0 :: rs) in *.
    assert (Hday : forall d, In d (map day_of receipts) -> out_of_table rates d).
    { intros d Hd. apply in_map_iff in Hd as (r & <- & Hr).
      rewrite Forall_forall in Ho. now apply Ho. }
    destruct (computeStats_shape receipts rates g ltac:(discriminate) H)
      as (bs & ds & _ & Hb & Hd & ->).
    unfold zero_star_stats.
    cbn [GlobalStats.days GlobalStats.byAddress GlobalStats.grandTotal
         GrandTotal.star GrandTotal.night].
    assert (Ha : Forall zero_star_address (sort_by by_totalReceipts_desc bs)).
    { apply Forall_sort_by. eapply Forall2_Forall_r; [|exact (Forall2_In_l _ _ _ Hb)].
      intros [a dm] s [Hin Hs]. eapply address_stats_outside_table; [|exact Hs].
      apply Forall_forall. intros [d c] Hdc. cbn [fst]. apply Hday.
      apply (group_inner_keys receipts a dm d).
      - apply (In_map_get _ String.eqb_spec); [apply group_keys_NoDup|exact Hin].
      - change d with (fst (d, c)). now apply in_map. }
    split; [|split; [exact Ha|split]].
    + apply Forall_sort_by. eapply Forall2_Forall_r; [|exact (Forall2_In_l _ _ _ Hd)].
      intros e x [Hin Hx]. eapply day_rel_out_of_table; [exact Hx|].
      rewrite (day_rel_day _ _ _ _ _ Hx). apply Hday. apply global_keys_iff.
      now apply in_map.
    + apply float_sum_zeros. apply Forall_map.
      eapply Forall_impl; [|exact Ha]. intros a (Hs & _). exact Hs.
    + apply float_sum_zeros. apply Forall_map.
      eapply Forall_impl; [|exact Ha]. intros a (_ & Hn & _). exact Hn.
Qed.

Lemma computeStats_no_rates receipts g :
  computeStats receipts [] = Ok g -> zero_star_stats g.
Proof.
  apply computeStats_outside_table. apply Forall_forall. intros r _.
  apply out_of_empty_table.
Qed.

Lemma computeLastNHours_outside_table env receipts rates hours l :
  Forall (fun r => out_of_table rates (day_of r)) receipts ->
  computeLastNHours env receipts rates hours = Ok l -> Forall zero_star_hour l.
Proof.
  intros Ho. unfold computeLastNHours. destruct receipts as [|r0 rs].
  { intros H. apply Ok_inj in H. subst l. constructor. }
  destruct (hours <=? 0).
  { intros H. apply Ok_inj in H. subst l. constructor. }
  intros H. apply mapM_Forall2 in H. eapply Forall2_Forall_r; [|exact H].
  intros i h Hh. eapply hour_entry_out_of_table; [exact Ho|exact Hh].
Qed.

Lemma computeLastNHours_no_rates env receipts hours l :
  computeLastNHours env receipts [] hours = Ok l -> Forall zero_star_hour l.
Proof.
  apply computeLastNHours_outside_table. apply Forall_forall. intros r _.
  apply out_of_empty_table.
Qed.

(** X23. When no receipt has a day inside the rate table, the totals of the
    result of computeStats are zero as its entries are: the STAR and NIGHT
    totals of every address and the grand total. *)
Theorem computeStats_totals_zero_outside_table receipts rates g :
  Forall (fun r => out_of_table rates (day_of r)) receipts ->
  computeStats receipts rates = Ok g ->
  Forall (fun a => AddressStats.totalStar a = PrimFloat.zero /\
                   AddressStats.totalNight a = PrimFloat.zero)
    (GlobalStats.byAddress g) /\
  GrandTotal.star (GlobalStats.grandTotal g) = PrimFloat.zero /\
  GrandTotal.night (GlobalStats.grandTotal g) = PrimFloat.zero /\
  Forall zero_star_day (GlobalStats.days g).
Proof.
  intros Ho H.
  destruct (computeStats_outside_table receipts rates g Ho H) as (Hd & Ha & Hs & Hn).
  split; [|split; [exact Hs|split; [exact Hn|exact Hd]]].
  eapply Forall_impl; [|exact Ha]. intros a (H1 & H2 & _). split; assumption.
Qed.

Lemma computeStats_totals_zero_outside_table_witness :
  match computeStats ex_receipts [1; 2; 3]%float with
  | Ok g =>
      GrandTotal.star (GlobalStats.grandTotal g) = PrimFloat.zero /\
      GrandTotal.night (GlobalStats.grandTotal g) = PrimFloat.zero
  | Throw _ => False
  end.
Proof.
  destruct (computeStats ex_receipts [1; 2; 3]%float) as [g|e] eqn:E.
  - destruct (computeStats_totals_zero_outside_table ex_receipts [1; 2; 3]%float g)
      as (_ & Hs & Hn & _); [|exact E|split; assumption].
    unfold ex_receipts.
    repeat (apply Forall_cons; [right; vm_compute; discriminate|]). apply Forall_nil.
  - revert E. vm_compute. discriminate.
Defined.

(** X24. When the request for the rate table fails, the endpoint answers as it
    does with a table, with the statistics or with the same error, and every
    STAR and NIGHT amount of the statistics is zero. *)
Theorem GET_without_rates {E : Type} (clocks : Clocks)
    (allReceipts : list LoggedReceipt) (errors : list E) :
  (forall data,
     (exists stats, GET clocks allReceipts errors RequestFailed = Success stats)
     <-> (exists stats, GET clocks allReceipts errors (Responded data) = Success stats)) /\
  (forall data error,
     GET clocks allReceipts errors RequestFailed = Status500 error
     <-> GET clocks allReceipts errors (Responded data) = Status500 error) /\
  (forall stats,
     GET clocks allReceipts errors RequestFailed = Success stats ->
     zero_star_stats (StatsBody.global stats) /\
     (forall h, StatsBody.hourly stats = Some h -> zero_star_hour h) /\
     Forall zero_star_hour (StatsBody.last8Hours stats) /\
     (forall d, StatsBody.today stats = Some d -> zero_star_day d)).
Proof.
  split; [|split].
  - intros data. split; intros [stats H]; apply GET_dated; apply GET_Success in H;
      cbv zeta in H; exact (computeStats_Ok_dated _ _ _ (proj1 H)).
  - intros data error. rewrite !GET_Status500.
    pose proof (thrown_computeStats (map logged (filter is_user_receipt allReceipts))
                  (fetchRates RequestFailed) (fetchRates (Responded data))) as T.
    destruct (computeStats _ (fetchRates RequestFailed)),
             (computeStats _ (fetchRates (Responded data)));
      cbn [thrown] in T; try discriminate T; split; intros H; try discriminate H;
      congruence.
  - intros stats H. apply GET_Success in H. cbv zeta in H.
    destruct H as (Hg & Hh & Hl & Ht & _). cbn [fetchRates] in *.
    split; [exact (computeStats_no_rates _ _ Hg)|]. split; [|split].
    + intros h Eh. rewrite Eh, computeHourlyStats_as_one_hour in Hh. inv_bind Hh.
      apply Ok_inj in Hh. pose proof (computeLastNHours_no_rates _ _ _ _ Ha) as Hz.
      destruct a as [|x a]; [discriminate|]. injection Hh as ->. now inversion Hz.
    + exact (computeLastNHours_no_rates _ _ _ _ Hl).
    + intros d Ed. rewrite Ed in Ht.
      pose proof (getTodayStats_Ok_dated _ _ _ _ Ht) as Hd.
      rewrite (getTodayStats_dated _ _ _ Hd) in Ht. apply Ok_inj in Ht.
      destruct (filter _ (map logged (filter is_user_receipt allReceipts)));
        [discriminate|].
      injection Ht as <-. apply day_entry_out_of_table. apply out_of_empty_table.
Qed.

Lemma GET_without_rates_witness :
  exists stats,
    GET clocks0 (map (fun r => mkLogged r None) ex_receipts) [tt] RequestFailed
    = Success stats /\
    zero_star_stats (StatsBody.global stats).
Proof.
  destruct (GET_without_rates clocks0 (map (fun r => mkLogged r None) ex_receipts) [tt])
    as (_ & _ & H).
  destruct (GET clocks0 (map (fun r => mkLogged r None) ex_receipts) [tt] RequestFailed)
    as [stats|e] eqn:Eg.
  - exists stats. split; [reflexivity|]. exact (proj1 (H stats eq_refl)).
  - exfalso. revert Eg. vm_compute. discriminate.
Defined.
(** ** A rate table that grows *)

Lemma rate_or_0_app rates more i :
  i < Z.of_nat (List.length rates) -> rate_or_0 (rates ++ more) i = rate_or_0 rates i.
Proof.
  intros Hi. unfold rate_or_0, array_get. destruct (Z.ltb_spec i 0); [reflexivity|].
  rewrite nth_error_app1 by lia. reflexivity.
Qed.

Lemma bind_ext_Ok {A B} (c : result A) (k k' : A -> result B) :
  (forall a, c = Ok a -> k a = k' a) -> bind c k = bind c k'.
Proof. intros H. destruct c as [a|e]; simpl; auto. Qed.

Lemma foldM_ext_in {A S} (f g : S -> A -> result S) l :
  (forall s x, In x l -> f s x = g s x) -> forall s, foldM f s l = foldM g s l.
Proof.
  induction l as [|x l IH]; intros H s; simpl; [reflexivity|].
  rewrite (H s x (or_introl eq_refl)). apply bind_ext_Ok. intros s' _.
  apply IH. intros s'' y Hy. apply H. now right.
Qed.

Lemma day_entry_app rates more o d date c :
  d <= Z.of_nat (List.length rates) ->
  day_entry (rates ++ more) o d date c = day_entry rates o d date c.
Proof. intros Hd. unfold day_entry. now rewrite rate_or_0_app by lia. Qed.

Lemma hour_star_app rates more l :
  Forall (fun r => day_of r <= Z.of_nat (List.length rates)) l ->
  forall s, foldM (hour_star (rates ++ more)) s l = foldM (hour_star rates) s l.
Proof.
  intros H. apply foldM_ext_in. intros s r Hr. rewrite Forall_forall in H.
  specialize (H r Hr). unfold hour_star, day_of in *.
  destruct (dayFromChallengeId (challenge_id r)) as [d|e]; [|reflexivity].
  cbn [bind]. now rewrite rate_or_0_app by lia.
Qed.

Lemma computeStats_app receipts rates more :
  Forall (fun r => day_of r <= Z.of_nat (List.length rates)) receipts ->
  computeStats receipts (rates ++ more) = computeStats receipts rates.
Proof.
  intros Hle. unfold computeStats. destruct receipts as [|r0 rs]; [reflexivity|].
  set (receipts := r0 :: rs) in *.
  assert (Hday : forall d, In d (map day_of receipts) -> d <= Z.of_nat (List.length rates)).
  { intros d Hd. apply in_map_iff in Hd as (r & <- & Hr).
    rewrite Forall_forall in Hle. now apply Hle. }
  apply bind_ext_Ok. intros [adm ats] Hst.
  pose proof (group_loop_parses _ _ _ Hst) as Hp.
  rewrite (group_loop_pure _ _ Hp) in Hst. apply Ok_inj in Hst.
  fold (group_all receipts) in Hst.
  assert (Eadm : adm = fst (group_all receipts)) by now rewrite Hst.
  assert (Ea : foldM (address_entry (rates ++ more) ats) [] adm
               = foldM (address_entry rates ats) [] adm).
  { apply foldM_ext_in. intros acc [a dm] Hin. unfold address_entry, address_stats.
    f_equal. f_equal. apply foldM_ext_in. intros [[days n] s] [d c] Hdc.
    rewrite !address_day_entry_eq. apply bind_ext_Ok. intros date _.
    rewrite day_entry_app; [reflexivity|]. apply Hday.
    apply (group_inner_keys receipts a dm d).
    - apply (In_map_get _ String.eqb_spec); [apply group_keys_NoDup|now rewrite <- Eadm].
    - change d with (fst (d, c)). now apply in_map. }
  rewrite Ea. apply bind_ext_Ok. intros byAddress _.
  apply bind_ext_Ok. intros gdm Hg.
  rewrite (global_loop_pure _ _ Hp) in Hg. apply Ok_inj in Hg.
  fold (global_all receipts) in Hg. subst gdm.
  assert (Ed : foldM (global_day_entry (rates ++ more) receipts) [] (global_all receipts)
               = foldM (global_day_entry rates receipts) [] (global_all receipts)).
  { apply foldM_ext_in. intros acc [d addrs] Hin. unfold global_day_entry, global_day_stats.
    f_equal. apply bind_ext_Ok. intros date _. apply bind_ext_Ok. intros thisDay _.
    rewrite day_entry_app; [reflexivity|]. apply Hday. apply global_keys_iff.
    change d with (fst (d, addrs)). now apply in_map. }
  rewrite Ed. reflexivity.
Qed.

Lemma hour_entry_app env receipts rates more i :
  Forall (fun r => day_of r <= Z.of_nat (List.length rates)) receipts ->
  hour_entry env receipts (rates ++ more) i = hour_entry env receipts rates i.
Proof.
  intros Hle. unfold hour_entry. rewrite hour_star_app; [reflexivity|].
  now apply Forall_filter.
Qed.

(** X25. Entries added at the end of the rate table, the rates of later days, do
    not change any result for receipts whose days the table already
    covered. *)
Theorem results_stable_when_table_grows receipts rates more :
  Forall (fun r => day_of r <= Z.of_nat (List.length rates)) receipts ->
  computeStats receipts (rates ++ more) = computeStats receipts rates /\
  (forall env hours,
     computeLastNHours env receipts (rates ++ more) hours
     = computeLastNHours env receipts rates hours) /\
  (forall env,
     computeHourlyStats env receipts (rates ++ more)
     = computeHourlyStats env receipts rates) /\
  (forall env,
     getTodayStats env receipts (rates ++ more) = getTodayStats env receipts rates).
Proof.
  intros Hle.
  assert (HL : forall env hours,
             computeLastNHours env receipts (rates ++ more) hours
             = computeLastNHours env receipts rates hours).
  { intros env hours. unfold computeLastNHours.
    destruct receipts as [|r0 rs]; [reflexivity|]. destruct (hours <=? 0); [reflexivity|].
    apply mapM_ext_in. intros i _. now apply hour_entry_app. }
  split; [now apply computeStats_app|]. split; [exact HL|]. split.
  - intros env. rewrite !computeHourlyStats_as_one_hour, HL. reflexivity.
  - intros env. unfold getTodayStats. apply bind_ext_Ok. intros iso _.
    apply bind_ext_Ok. intros todays Ht. destruct todays as [|first rest]; [reflexivity|].
    apply filterM_Ok in Ht as [_ Ef].
    assert (Hin : In first receipts).
    { assert (H : In first (first :: rest)) by now left.
      rewrite Ef in H. now apply filter_In in H. }
    rewrite Forall_forall in Hle. specialize (Hle first Hin). unfold day_of in Hle.
    destruct (dayFromChallengeId (challenge_id first)) as [d|e]; [|reflexivity].
    cbn [bind]. now rewrite rate_or_0_app by lia.
Qed.

Lemma results_stable_when_table_grows_witness :
  computeStats ex_receipts (ex_rates ++ [5; 8]%float) = computeStats ex_receipts ex_rates.
Proof.
  apply (results_stable_when_table_grows ex_receipts ex_rates [5; 8]%float).
  unfold ex_receipts.
  repeat (apply Forall_cons; [vm_compute; discriminate|]). apply Forall_nil.
Defined.
(** ** Calendar dates in the order of time *)

Lemma year_of_era_mono doe1 doe2 :
  0 <= doe1 <= doe2 -> doe2 < 146097 ->
  (doe1 - doe1 / 1460 + doe1 / 36524 - doe1 / 146096) / 365
  <= (doe2 - doe2 / 1460 + doe2 / 36524 - doe2 / 146096) / 365.
Proof.
  intros H1 H2. apply Z.div_le_mono; [lia|].
  Z.div_mod_to_equations. lia.
Qed.

Lemma civil_from_days_mono z1 z2 :
  z1 < z2 -> date_before (civil_from_days z1) (civil_from_days z2).
Proof.
  intros Hz. unfold civil_from_days, date_before. cbv zeta.
  set (e1 := (z1 + 719468) / 146097). set (doe1 := (z1 + 719468) mod 146097).
  set (e2 := (z2 + 719468) / 146097). set (doe2 := (z2 + 719468) mod 146097).
  assert (Hr1 : 0 <= doe1 < 146097) by (apply Z.mod_pos_bound; lia).
  assert (Hr2 : 0 <= doe2 < 146097) by (apply Z.mod_pos_bound; lia).
  pose proof (year_of_era_bounds doe1 Hr1) as B1.
  pose proof (year_of_era_bounds doe2 Hr2) as B2. cbv zeta in B1, B2.
  set (yoe1 := (doe1 - doe1 / 1460 + doe1 / 36524 - doe1 / 146096) / 365) in *.
  set (yoe2 := (doe2 - doe2 / 1460 + doe2 / 36524 - doe2 / 146096) / 365) in *.
  set (doy1 := doe1 - (365 * yoe1 + yoe1 / 4 - yoe1 / 100)) in *.
  set (doy2 := doe2 - (365 * yoe2 + yoe2 / 4 - yoe2 / 100)) in *.
  set (mp1 := (5 * doy1 + 2) / 153). set (mp2 := (5 * doy2 + 2) / 153).
  assert (Hlex : e1 < e2 \/ (e1 = e2 /\ doe1 < doe2)).
  { unfold e1, e2, doe1, doe2. Z.div_mod_to_equations. lia. }
  assert (Hyp : yoe1 + e1 * 400 < yoe2 + e2 * 400 \/
                (yoe1 + e1 * 400 = yoe2 + e2 * 400 /\ doy1 < doy2)).
  { destruct Hlex as [He|[He Hd]]; [left; lia|].
    assert (Hm : yoe1 <= yoe2) by (apply year_of_era_mono; lia).
    destruct (Z.eq_dec yoe1 yoe2) as [E|N]; [right|left; lia].
    split; [lia|]. unfold doy1, doy2. rewrite E. lia. }
  assert (Hmp1 : 0 <= mp1 <= 11) by (unfold mp1; Z.div_mod_to_equations; lia).
  assert (Hmp2 : 0 <= mp2 <= 11) by (unfold mp2; Z.div_mod_to_equations; lia).
  assert (Hmd : doy1 < doy2 ->
                mp1 < mp2 \/ (mp1 = mp2 /\
                  doy1 - (153 * mp1 + 2) / 5 + 1 < doy2 - (153 * mp2 + 2) / 5 + 1)).
  { intros Hd. assert (mp1 <= mp2) by (unfold mp1, mp2; apply Z.div_le_mono; lia).
    destruct (Z.eq_dec mp1 mp2) as [E|N]; [right|left; lia]. split; [assumption|].
    rewrite E. lia. }
  clearbody mp1 mp2 doy1 doy2 yoe1 yoe2 e1 e2.
  destruct (Z.ltb_spec mp1 10), (Z.ltb_spec mp2 10);
    repeat match goal with
           | |- context [?a <=? 2] => destruct (Z.leb_spec a 2)
           end; lia.
Qed.

(** ** Fixed-width numerals in the order of strings *)

Lemma digit_char_code x : 0 <= x <= 9 -> N_of_ascii (digit_char x) = Z.to_N (48 + x).
Proof. intros H. digit_case x H; reflexivity. Qed.

Lemma compare_digit x y s s' :
  0 <= x <= 9 -> 0 <= y <= 9 ->
  String.compare (String (digit_char x) s) (String (digit_char y) s')
  = match x ?= y with
    | Eq => String.compare s s'
    | Lt => Lt
    | Gt => Gt
    end.
Proof.
  intros Hx Hy. cbn [String.compare]. rewrite ascii_compare_N, !digit_char_code by assumption.
  destruct (N.compare_spec (Z.to_N (48 + x)) (Z.to_N (48 + y))),
           (Z.compare_spec x y); try reflexivity; lia.
Qed.

Lemma compare_same_char c s s' :
  String.compare (String c s) (String c s') = String.compare s s'.
Proof. cbn [String.compare]. rewrite ascii_compare_N, N.compare_refl. reflexivity. Qed.

Lemma compare_pad2 a b s s' :
  0 <= a <= 99 -> 0 <= b <= 99 ->
  String.compare (pad2 a ++ s) (pad2 b ++ s')
  = match a ?= b with
    | Eq => String.compare s s'
    | Lt => Lt
    | Gt => Gt
    end.
Proof.
  intros Ha Hb. unfold pad2. cbn [append].
  rewrite !compare_digit by apply mod10_range.
  destruct (Z.compare_spec (a / 10 mod 10) (b / 10 mod 10)),
           (Z.compare_spec (a mod 10) (b mod 10)),
           (Z.compare_spec a b); try reflexivity; exfalso;
    Z.div_mod_to_equations; lia.
Qed.

Lemma compare_pad3 a b s s' :
  0 <= a <= 999 -> 0 <= b <= 999 ->
  String.compare (pad3 a ++ s) (pad3 b ++ s')
  = match a ?= b with
    | Eq => String.compare s s'
    | Lt => Lt
    | Gt => Gt
    end.
Proof.
  intros Ha Hb. unfold pad3, pad2. cbn [append].
  rewrite !compare_digit by apply mod10_range.
  destruct (Z.compare_spec (a / 100 mod 10) (b / 100 mod 10)),
           (Z.compare_spec (a / 10 mod 10) (b / 10 mod 10)),
           (Z.compare_spec (a mod 10) (b mod 10)),
           (Z.compare_spec a b); try reflexivity; exfalso;
    Z.div_mod_to_equations; lia.
Qed.

Lemma pad4_split a : pad4 a = pad2 (a / 100) ++ pad2 (a mod 100).
Proof.
  unfold pad4, pad3, pad2. cbn [append].
  replace (a / 100 / 10 mod 10) with (a / 1000 mod 10)
    by (Z.div_mod_to_equations; lia).
  replace (a mod 100 / 10 mod 10) with (a / 10 mod 10)
    by (Z.div_mod_to_equations; lia).
  replace (a mod 100 mod 10) with (a mod 10) by (Z.div_mod_to_equations; lia).
  reflexivity.
Qed.

Lemma append_assoc (a b c : string) : (a ++ b) ++ c = a ++ (b ++ c).
Proof. induction a as [|x a IH]; simpl; [reflexivity|now rewrite IH]. Qed.

Lemma compare_pad4 a b s s' :
  0 <= a <= 9999 -> 0 <= b <= 9999 ->
  String.compare (pad4 a ++ s) (pad4 b ++ s')
  = match a ?= b with
    | Eq => String.compare s s'
    | Lt => Lt
    | Gt => Gt
    end.
Proof.
  intros Ha Hb. rewrite !pad4_split, !append_assoc.
  rewrite !compare_pad2 by (Z.div_mod_to_equations; lia).
  destruct (Z.compare_spec (a / 100) (b / 100)),
           (Z.compare_spec (a mod 100) (b mod 100)),
           (Z.compare_spec a b); try reflexivity; exfalso;
    Z.div_mod_to_equations; lia.
Qed.
(** ** Dates and timestamps in the order of strings *)

Lemma compare_app_same p : forall a b,
  String.compare (p ++ a) (p ++ b) = String.compare a b.
Proof.
  induction p as [|c p IH]; intros a b; [reflexivity|].
  cbn [append]. rewrite compare_same_char. apply IH.
Qed.

Lemma append_nil_r (s : string) : s ++ "" = s.
Proof. induction s as [|c s IH]; simpl; [reflexivity|now rewrite IH]. Qed.

Lemma compare_format_date y1 m1 d1 y2 m2 d2 s s' :
  0 <= y1 <= 9999 -> 0 <= y2 <= 9999 ->
  0 <= m1 <= 99 -> 0 <= m2 <= 99 -> 0 <= d1 <= 99 -> 0 <= d2 <= 99 ->
  date_before (y1, m1, d1) (y2, m2, d2) ->
  String.compare (format_date y1 m1 d1 ++ s) (format_date y2 m2 d2 ++ s') = Lt.
Proof.
  intros Hy1 Hy2 Hm1 Hm2 Hd1 Hd2 Hlt. unfold format_date, yearString.
  destruct (Z.leb_spec 0 y1); [|lia]. destruct (Z.leb_spec y1 9999); [|lia].
  destruct (Z.leb_spec 0 y2); [|lia]. destruct (Z.leb_spec y2 9999); [|lia].
  cbn [andb]. rewrite !append_assoc, compare_pad4 by assumption.
  cbn [date_before] in Hlt.
  destruct (Z.compare_spec y1 y2) as [Ey|Ly|Gy]; [|reflexivity|exfalso; lia].
  cbn [append]. rewrite compare_same_char, compare_pad2 by assumption.
  destruct (Z.compare_spec m1 m2) as [Em|Lm|Gm]; [|reflexivity|exfalso; lia].
  cbn [append]. rewrite compare_same_char, compare_pad2 by assumption.
  destruct (Z.compare_spec d1 d2) as [Ed|Ld|Gd]; [exfalso; lia|reflexivity|exfalso; lia].
Qed.

(** The day numbers of the years 1970 to 9999. *)
Lemma civil_from_days_four_digits z :
  0 <= z <= 2932896 ->
  let '(y, m, d) := civil_from_days z in
  1970 <= y <= 9999 /\ 1 <= m <= 12 /\ 1 <= d <= 31.
Proof.
  intros Hz. pose proof (civil_roundtrip z) as R.
  assert (Hlo : z = 0 \/ date_before (civil_from_days 0) (civil_from_days z)).
  { destruct (Z.eq_dec z 0); [now left|right]. apply civil_from_days_mono. lia. }
  assert (Hhi : z = 2932896 \/ date_before (civil_from_days z) (civil_from_days 2932896)).
  { destruct (Z.eq_dec z 2932896); [now left|right]. apply civil_from_days_mono. lia. }
  change (civil_from_days 0) with (1970, 1, 1) in Hlo.
  change (civil_from_days 2932896) with (9999, 12, 31) in Hhi.
  destruct Hlo as [->|Hlo]; [cbn; lia|]. destruct Hhi as [->|Hhi]; [cbn; lia|].
  destruct (civil_from_days z) as [[y m] d]. cbn [date_before] in Hlo, Hhi. lia.
Qed.

Lemma dateString_mono t1 t2 s s' :
  0 <= t1 -> t2 <= 253402300799999 -> t1 / msPerDay < t2 / msPerDay ->
  String.compare (dateString t1 ++ s) (dateString t2 ++ s') = Lt.
Proof.
  intros H1 H2 Hlt. unfold dateString.
  assert (Hz1 : 0 <= t1 / msPerDay <= 2932896)
    by (unfold msPerDay in *; Z.div_mod_to_equations; lia).
  assert (Hz2 : 0 <= t2 / msPerDay <= 2932896)
    by (unfold msPerDay in *; Z.div_mod_to_equations; lia).
  pose proof (civil_from_days_four_digits _ Hz1) as B1.
  pose proof (civil_from_days_four_digits _ Hz2) as B2.
  pose proof (civil_from_days_mono _ _ Hlt) as M.
  destruct (civil_from_days (t1 / msPerDay)) as [[y1 m1] d1].
  destruct (civil_from_days (t2 / msPerDay)) as [[y2 m2] d2].
  apply compare_format_date; try lia. exact M.
Qed.

Lemma timeString_mono t1 t2 s s' :
  t1 mod msPerDay < t2 mod msPerDay ->
  String.compare (timeString t1 ++ s) (timeString t2 ++ s') = Lt.
Proof.
  intros Hlt. unfold timeString. cbv zeta.
  assert (B1 : 0 <= t1 mod msPerDay < msPerDay) by (apply Z.mod_pos_bound; reflexivity).
  assert (B2 : 0 <= t2 mod msPerDay < msPerDay) by (apply Z.mod_pos_bound; reflexivity).
  set (a := t1 mod msPerDay) in *. set (b := t2 mod msPerDay) in *.
  clearbody a b. unfold msPerDay in *.
  rewrite !append_assoc.
  rewrite compare_pad2 by (Z.div_mod_to_equations; lia).
  destruct (Z.compare_spec (a / 3600000) (b / 3600000)) as [Eh|?|?];
    [|reflexivity|exfalso; Z.div_mod_to_equations; lia].
  cbn [append]. rewrite compare_same_char.
  rewrite compare_pad2 by (Z.div_mod_to_equations; lia).
  destruct (Z.compare_spec (a / 60000 mod 60) (b / 60000 mod 60)) as [Em|?|?];
    [|reflexivity|exfalso; Z.div_mod_to_equations; lia].
  cbn [append]. rewrite compare_same_char.
  rewrite compare_pad2 by (Z.div_mod_to_equations; lia).
  destruct (Z.compare_spec (a / 1000 mod 60) (b / 1000 mod 60)) as [Es|?|?];
    [|reflexivity|exfalso; Z.div_mod_to_equations; lia].
  cbn [append]. rewrite compare_same_char.
  rewrite compare_pad3 by (Z.div_mod_to_equations; lia).
  destruct (Z.compare_spec (a mod 1000) (b mod 1000)) as [Ems|?|?];
    [exfalso; Z.div_mod_to_equations; lia|reflexivity|
     exfalso; Z.div_mod_to_equations; lia].
Qed.

(** From 1970 to the end of the year 9999 timestamps in the form of
    toISOString are ordered as strings the way they are ordered in time. *)
Lemma isoString_mono t1 t2 :
  0 <= t1 -> t2 <= 253402300799999 -> t1 < t2 ->
  String.compare (isoString t1) (isoString t2) = Lt.
Proof.
  intros H1 H2 Hlt. unfold isoString.
  assert (Hd : t1 / msPerDay < t2 / msPerDay \/
               (t1 / msPerDay = t2 / msPerDay /\ t1 mod msPerDay < t2 mod msPerDay))
    by (unfold msPerDay; Z.div_mod_to_equations; lia).
  destruct Hd as [Hd|[Hd Hm]].
  - now apply dateString_mono.
  - unfold dateString. rewrite Hd. rewrite compare_app_same, compare_same_char.
    now apply timeString_mono.
Qed.

Lemma isoString_order t1 t2 :
  0 <= t1 <= 253402300799999 -> 0 <= t2 <= 253402300799999 ->
  string_cmp (isoString t1) (isoString t2) <= 0 -> t1 <= t2.
Proof.
  intros H1 H2 Hc. destruct (Z.le_gt_cases t1 t2) as [?|Hgt]; [assumption|].
  exfalso. pose proof (isoString_mono t2 t1 ltac:(lia) ltac:(lia) ltac:(lia)) as Hlt.
  unfold string_cmp in Hc. rewrite String.compare_antisym, Hlt in Hc. simpl in Hc. lia.
Qed.

Lemma date_of_day_mono d1 d2 :
  0 <= d1 -> d1 < d2 -> d2 <= 2912506 ->
  String.compare (date_of_day d1) (date_of_day d2) = Lt.
Proof.
  intros H0 Hlt Hmax. unfold date_of_day.
  rewrite <- (append_nil_r (dateString (tgeStart + (d1 - 1) * 86400000))).
  rewrite <- (append_nil_r (dateString (tgeStart + (d2 - 1) * 86400000))).
  rewrite ex_tge. apply dateString_mono; try lia.
  rewrite <- ex_tge, !day_of_mining_day. lia.
Qed.
(** X26. When the timestamps of the receipts are in the form toISOString
    gives, for times from 1970 to the end of the year 9999, the first
    solution of an address entry is the timestamp of its earliest receipt
    and the last solution that of its latest. *)
Theorem first_last_solution_in_time receipts rates g (time : ReceiptEntry -> Z) :
  (forall r, In r receipts ->
     ts r = isoString (time r) /\ 0 <= time r <= 253402300799999) ->
  computeStats receipts rates = Ok g ->
  Forall (fun a =>
            exists first last,
              In first (receipts_of_address (AddressStats.address a) receipts) /\
              In last (receipts_of_address (AddressStats.address a) receipts) /\
              AddressStats.firstSolution a = Some (ts first) /\
              AddressStats.lastSolution a = Some (ts last) /\
              Forall (fun r => time first <= time r <= time last)
                (receipts_of_address (AddressStats.address a) receipts))
    (GlobalStats.byAddress g).
Proof.
  intros Hts H. destruct receipts as [|r0 rs].
  - apply Ok_inj in H. subst g. constructor.
  - set (receipts := r0 :: rs) in *.
    destruct (computeStats_shape receipts rates g ltac:(discriminate) H)
      as (bs & ds & _ & Hb & _ & ->).
    cbn [GlobalStats.byAddress]. apply Forall_sort_by.
    eapply Forall2_Forall_r; [|exact (Forall2_In_l _ _ _ Hb)].
    intros [a dm] s [Hin Hs].
    destruct (address_entry_solutions _ _ _ _ _ Hin Hs)
      as (f & l & Ef & El & Hf & Hl & Hall).
    set (mine := receipts_of_address (AddressStats.address s) receipts) in *.
    assert (Hmine : forall r, In r mine ->
              ts r = isoString (time r) /\ 0 <= time r <= 253402300799999).
    { intros r Hr. apply Hts. unfold mine, receipts_of_address in Hr.
      now apply filter_In in Hr. }
    apply in_map_iff in Hf as (rf & Erf & Hrf). apply in_map_iff in Hl as (rl & Erl & Hrl).
    exists rf, rl. rewrite Erf, Erl.
    split; [assumption|]. split; [assumption|]. split; [assumption|].
    split; [assumption|].
    apply Forall_forall. intros r Hr. rewrite Forall_forall in Hall.
    destruct (Hall (ts r) (in_map ts _ _ Hr)) as [H1 H2].
    rewrite <- Erf in H1. rewrite <- Erl in H2.
    destruct (Hmine r Hr) as [Er Br]. destruct (Hmine rf Hrf) as [Ef' Bf].
    destruct (Hmine rl Hrl) as [El' Bl]. rewrite Er, Ef' in H1. rewrite Er, El' in H2.
    split; apply isoString_order; assumption.
Qed.

Lemma first_last_solution_in_time_witness :
  match computeStats ex_iso_receipts ex_rates with
  | Ok g =>
      Forall (fun a =>
                exists first last,
                  AddressStats.firstSolution a = Some (ts first) /\
                  AddressStats.lastSolution a = Some (ts last) /\
                  time_of first <= time_of last)
        (GlobalStats.byAddress g)
  | Throw _ => False
  end.
Proof.
  destruct (computeStats ex_iso_receipts ex_rates) as [g|e] eqn:E.
  - assert (Hts : forall r, In r ex_iso_receipts ->
                    ts r = isoString (time_of r) /\ 0 <= time_of r <= 253402300799999).
    { intros r [<-|[<-|[<-|[<-|[]]]]]; vm_compute; (split; [reflexivity|split; discriminate]). }
    pose proof (first_last_solution_in_time ex_iso_receipts ex_rates g time_of Hts E) as H.
    eapply Forall_impl; [|exact H].
    intros a (first & last & Hf & _ & H1 & H2 & Hall).
    exists first, last. split; [assumption|]. split; [assumption|].
    rewrite Forall_forall in Hall. exact (proj2 (Hall first Hf)).
  - revert E. vm_compute. discriminate.
Defined.

(** ** Dates in the order of strings *)

Lemma dates_descend l :
  StronglySorted later_day_first l ->
  Forall (fun x => DayStats.date x = date_of_day (DayStats.day x) /\
                   0 <= DayStats.day x <= 2912506) l ->
  StronglySorted (fun x y => String.compare (DayStats.date y) (DayStats.date x) = Lt) l.
Proof.
  intros HS HF. eapply StronglySorted_impl_in; [|exact HF|exact HS].
  intros x y [Ex Bx] [Ey By] Hlt. unfold later_day_first in Hlt.
  rewrite Ex, Ey. apply date_of_day_mono; lia.
Qed.

(** X27. Up to the end of the year 9999 (day 2,912,506) the dates of a list
    of days descend in the order of strings as the days do, in the global
    list and in the list of every address, and the start date is not after
    the end date in that order. *)
Theorem day_dates_in_string_order receipts rates g :
  Forall (fun r => day_of r <= 2912506) receipts ->
  computeStats receipts rates = Ok g ->
  StronglySorted (fun x y => String.compare (DayStats.date y) (DayStats.date x) = Lt)
    (GlobalStats.days g) /\
  Forall (fun a =>
            StronglySorted
              (fun x y => String.compare (DayStats.date y) (DayStats.date x) = Lt)
              (AddressStats.days a))
    (GlobalStats.byAddress g) /\
  (forall s e, GlobalStats.startDate g = Some s -> GlobalStats.endDate g = Some e ->
               string_cmp s e <= 0).
Proof.
  intros Hmax H. destruct receipts as [|r0 rs].
  { apply Ok_inj in H. subst g. split; [constructor|]. split; [constructor|].
    intros s e Hs. discriminate Hs. }
  set (receipts := r0 :: rs) in *.
  assert (Hday : forall d, In d (map day_of receipts) -> 0 <= d <= 2912506).
  { intros d Hd. apply in_map_iff in Hd as (r & <- & Hr).
    rewrite Forall_forall in Hmax. split; [apply day_of_nonneg|now apply Hmax]. }
  split; [|split].
  - destruct (computeStats_shape receipts rates g ltac:(discriminate) H)
      as (bs & ds & _ & _ & Hd & ->).
    cbn [GlobalStats.days]. apply dates_descend.
    + apply (days_strictly_descending rates (fun e => Some (List.length (snd e)))
               (global_all receipts) ds (fun e => count_day (fst e) receipts));
        [apply global_keys_NoDup|exact Hd].
    + apply Forall_sort_by. apply Forall_forall. intros x Hx.
      destruct (global_day_facts receipts rates ds x Hd Hx) as (Hin & _ & Ex).
      split; [rewrite Ex at 1; reflexivity|now apply Hday].
  - destruct (computeStats_shape receipts rates g ltac:(discriminate) H)
      as (bs & ds & _ & Hb & _ & ->).
    cbn [GlobalStats.byAddress]. apply Forall_sort_by.
    eapply Forall2_Forall_r; [|exact (Forall2_In_l _ _ _ Hb)].
    intros [a dm] s [Hin Hs].
    destruct (address_entry_days _ _ _ _ _ Hin Hs) as (Hiff & _ & Hall).
    destruct (address_stats_Ok _ _ _ _ _ Hs) as (d0 & HF & _ & Ed & _).
    apply dates_descend.
    + rewrite Ed.
      apply (days_strictly_descending rates (fun _ => None) dm d0 snd); [|exact HF].
      apply (group_inner_NoDup receipts a).
      apply (In_map_get _ String.eqb_spec); [apply group_keys_NoDup|exact Hin].
    + apply Forall_forall. intros x Hx. rewrite Forall_forall in Hall.
      destruct (Hall x Hx) as (Ex & _ & _).
      split; [rewrite Ex at 1; reflexivity|].
      apply Hday. assert (Hd : In (DayStats.day x) (map DayStats.day (AddressStats.days s)))
        by (apply in_map; exact Hx).
      apply Hiff in Hd. apply in_map_iff in Hd as (r & Er & Hr).
      apply in_map_iff. exists r. split; [exact Er|].
      unfold receipts_of_address in Hr. apply filter_In in Hr as [Hr _]. exact Hr.
  - intros s e Hs He.
    destruct (date_range_nonempty receipts rates g ltac:(discriminate) H)
      as (dmin & dmax & Hmin & Hmx & Hall & Es & Ee).
    rewrite Es in Hs. rewrite Ee in He.
    injection Hs as <-. injection He as <-.
    assert (Hle : dmin <= dmax).
    { apply in_map_iff in Hmin as (r & <- & Hr). rewrite Forall_forall in Hall.
      exact (proj2 (Hall r Hr)). }
    destruct (Z.eq_dec dmin dmax) as [->|Hne].
    + unfold string_cmp. rewrite string_compare_refl. lia.
    + unfold string_cmp.
      rewrite (date_of_day_mono dmin dmax); [lia| | |].
      * exact (proj1 (Hday dmin Hmin)).
      * lia.
      * exact (proj2 (Hday dmax Hmx)).
Qed.

Lemma day_dates_in_string_order_witness :
  match computeStats ex_receipts ex_rates with
  | Ok g =>
      StronglySorted
        (fun x y => String.compare (DayStats.date y) (DayStats.date x) = Lt)
        (GlobalStats.days g) /\
      (forall s e, GlobalStats.startDate g = Some s -> GlobalStats.endDate g = Some e ->
                   string_cmp s e <= 0)
  | Throw _ => False
  end.
Proof.
  destruct (computeStats ex_receipts ex_rates) as [g|e] eqn:E.
  - assert (Hmax : Forall (fun r => day_of r <= 2912506) ex_receipts).
    { repeat (apply Forall_cons; [vm_compute; discriminate|]). apply Forall_nil. }
    destruct (day_dates_in_string_order ex_receipts ex_rates g Hmax E) as (H1 & _ & H3).
    split; assumption.
  - revert E. vm_compute. discriminate.
Defined.
